(* ===== verification/_CoqProject ===== *)
-Q . S2P
Prelude.v
Monad.v
CString.v
ExpireLruCache.v
Interfaces.v
ApiCacheManager.v
ApiCacheMemory.v
OnDemandReason.v
World.v
SystemAbility.v
Lifecycle.v
Registry.v
Overrides.v
Listeners.v
ListenerThreads.v
Boot.v
StartPhase.v
BootStarts.v
UnusedTimer.v
Stub.v
Dumper.v
Manager.v
MainEntry.v
SvcControl.v
SvcPath.v
RustWrapper.v
RustReason.v
RustAbility.v
RustMemory.v
Sound.v
Process.v
TrustedBoot.v
BootProfiles.v
