(* ===== verification/Prelude.v ===== *)
(** * safwk: a verification development (root file)

    [safwk] is the framework in which the system abilities (services) of the
    operating system live.  A process of the framework reads the profiles of its
    abilities, starts them phase by phase, registers with the system ability
    manager and then serves requests of other processes: start, stop, idle and
    activate an ability, notify it, send it a command, and report statistics.
    This library models the C++ implementation under [src/] and proves its
    components and their composition correct.

    * The files

    - [Prelude.v] (this file): machine integers, containers, generic lemmas and
      the hint database [safwk]; [Monad.v]: programs over an explicit state with
      [let!] and [do!], and the rules for what programs keep ([keeps]) and how
      they move the state ([respects]); [CString.v]: C strings.
    - [Interfaces.v]: what the program uses and does not define, as classes:
      JSON values, IPC parcels, the profile parser, string utilities and the
      constants of the manager's headers.  A class [...Laws] states the
      documented behaviour a theorem relies on; the modules [Demo...] are
      instances that satisfy the laws and run the witnesses.
    - [ExpireLruCache.v] ([expire_lru_cache.h]) and [ApiCacheManager.v]
      ([api_cache_manager.cpp]): the cache of replies of IPC calls;
      [ApiCacheMemory.v]: the same manager with its pointers and its destructor.
    - [OnDemandReason.v] ([system_ability_ondemand_reason.cpp] and the JSON
      conversion of [local_ability_manager.cpp]): why an ability is started.
    - [World.v] ([system_ability.h], [local_ability_manager.h]): the state of a
      process: a heap of ability objects ([system_ability] at a [loc], so that
      the registry and the threads share them), the members of the manager, and
      the trace of the calls made to other code.  The class [Env] has what that
      code answers ([respond], a function of the trace) and the overrides and
      libraries of the abilities, which are programs over the whole state.
    - [SystemAbility.v] ([system_ability.cpp]): publishing and the lifecycle
      operations [Start], [Idle], [Active], [Stop], each from its atomic
      sections; [Lifecycle.v]: the same sections on any number of threads;
      [Overrides.v]: the virtual functions, classes of abilities and what they
      inherit, as an environment for the rest.
    - [local_ability_manager.cpp] in four files: [Registry.v] (the map from ids to
      abilities, the requests on them and the detached threads), [Listeners.v]
      (status listeners), [Boot.v] (profiles, dependencies, phases, thread
      pool), [UnusedTimer.v] (unloading idle abilities, [DoStartSAProcess]).  Two
      more have the sections of these under interleaving: [ListenerThreads.v]
      (registrations, removals and status changes at the same time) and
      [StartPhase.v] (the boot thread, its wait on [startPhaseCV_] and the tasks of
      the pool, with their effects in [BootStarts.v]).
    - [Stub.v] ([local_ability_manager_stub.cpp]): the guard, dispatch and
      unmarshalling of requests, against the interface [ILocalAbilityManager].
    - [Dumper.v] ([local_ability_manager_dumper.cpp], [ffrt_handler.cpp]): IPC
      and FFRT statistics with the delayed clear task.
    - [Manager.v]: the manager as the implementation of the stub's interface;
      [Sound.v]: what libraries may do and the invariant that every operation keeps;
      [Process.v]: the whole process as one state machine; [TrustedBoot.v]: a
      process that boots and serves at the same time, under a trust configuration;
      [BootProfiles.v]: a boot from the profiles to the running abilities.
    - [MainEntry.v] ([main.cpp], [system_ability_start.cpp]): from the command
      line to the boot, over the memory of the arguments.
    - [SvcControl.v] ([svc/src/svc_control.cpp]): the [svc] tool; [SvcPath.v]: the
      tool, the stub and the manager composed.
    - The Rust bindings ([rust/src/cxx/system_ability_wrapper.cpp], [wrapper.rs],
      [ability.rs], [exts.rs]): [RustWrapper.v] (reasons across the language
      boundary), [RustReason.v] (their serialization), [RustAbility.v] (an ability
      written in Rust as a class of [Overrides.v]), [RustMemory.v] (who owns the
      objects on both sides).

    A comment [[path:first-last] symbol] before a definition names the lines,
    under [src/], that it translates.

    * What the theorems show

    - Caches: the cache refines a list in order of recency; what is cached is
      returned exactly until it expires, in every history; no cache leaks, or is used
      or freed after it has been freed ([api_pointers_refine]).
    - Lifecycle: the operations refine an automaton on (state, running); under
      interleaving, one thread at a time is inside [Start], [OnStart] runs once,
      and every schedule finishes with the lock free; [stop_races] shows what
      [Stop] is not protected from.  Each operation runs the function that the
      class of the ability has or inherits, with the reason that was recorded for
      it ([start_entry], [stop_entry]: written from the state, not by the code's
      own functions).
    - Registry, listeners: the registry refines a finite map; the listener lists
      stay well formed and a listener is told of additions and removals as an
      automaton says; adding and removing are inverse.  Under interleaving the
      lists stay well formed and an ability with listeners is subscribed to
      ([listened_is_subscribed]), unless a registration falls between the locked
      section of a removal and its unsubscription ([unsubscribe_overtakes]).
    - Boot: phases are started in order, each after the previous one; while no wait
      times out, the boot thread leaves a phase only when every task of it has
      finished ([phase_barrier]), and has then started exactly the abilities queued
      so far, each once ([boot_starts_once]), at the end exactly those that some
      library had registered under the id of a profile when the libraries of the
      profile's phase had been opened ([boot_starts_registered]: a library may hold
      any number of abilities and register what it likes); with at most
      [MAX_TASK_NUMBER] abilities it always gets to the end of a phase ([phase_ends])
      and of the boot ([boot_ends]); [late_task_cuts_wait] and [full_pool_deadlocks]
      show what happens otherwise.  A process boots or reports why not; waiting for
      dependencies ends; only trusted abilities are ever registered, queued, loaded or
      run ([untrusted_never_loaded]); the priority of a thread that loads an on-demand
      library is restored ([thread_prio_restored]).  Timed query: exactly the
      abilities idle for longer than their threshold are unloaded.
    - Requests: nothing happens without the token and the permission; descriptors
      are closed exactly once on every path; a bad id has no effect; what was
      written is what arrives.  Process: every history of events keeps the
      registry and the statistics well typed, whatever abilities libraries bring
      along.
    - Statistics: the collection refines a three-state collector driven by the
      runtime's answers to its calls, the runtime never gets a null buffer, the
      printed figures are exact.
    - Entry points and tools: both entries refine one plan read off the command
      line, the event argument carries a reason exactly, the process name always
      fits; what [svc] calls and answers on every command line, and the way of a
      command line to [OnSvcCmd] of the ability it names.
    - Rust bindings: what a reason is after the trip through Rust
      ([rust_reason_roundtrip]: the strings of the map run on into the memory behind
      them, [want_reads_beyond]); an ability sees the map of the framework; an ability written in
      Rust goes through the same lifecycle; no step of the bindings uses an object
      that is gone or drops a box twice ([rust_memory_safe]).

    Theorems whose comment has an id C<n> are the properties of the development;
    the others are results the components share or report.

    * What is assumed of other code

    Every hypothesis on code outside the repository is a class, stated where it is
    used first.  Of the platform: [JsonLaws], [ParcelLaws], [ParcelableLaws],
    [ParseUtilLaws], [SamgrDefsLaws], [ClosesLaws] (of the calls of a handler only
    [close] closes a descriptor), [BaseClassLaws] (the stub's base class cannot reach
    the private members of its subclass, and may do anything else), [ThreadPoolLaws],
    [ProfileLookup], [SvcProxyLaws], [CxxLaws] and [MsgParcelLaws].  Of abilities and
    their libraries: [LifecycleCallbacks], [PublishesOnStart], [ListenersKept],
    [ListenersFrame], [BootFrame] and [StartFrame] (an override does not write what
    only the framework writes, and starts no other ability) and [LibraryCalls] (it
    acts through the public functions).  Of a run: [DependenciesUp], [SubscribeWorks], [SteadyClock] and
    [Connected].  Nothing is assumed of which abilities a library registers or of
    the memory behind a Rust string.

    * Bounds and fuel

    Integers are [Z] with their wrap-around written out ([wrap32], [wrapu32],
    [wrapu64]) wherever the code computes on a fixed width and the value is not
    bounded by its context.  Two loops take fuel: [Boot.depend_loop], for which
    1201 rounds are enough (60000 ms of the longest timeout at 50 ms a round,
    [depend_task_terminates]), and [MainEntry.split_event], for which the length
    of the string plus one is enough ([split_join]).  Every other loop is
    structural.  The count of [StartPhase.v] is an [int32_t]: [phase_barrier] is
    about boots with at most [INT32_MAX] tasks.

    * Not modelled

    Log output; the constructors' and destructors' bookkeeping of the C++ library
    (smart pointers, vectors); what a process does after an exception leaves an
    override; the log macros and the declarations of the Rust bridge; the thread
    pool beyond its bound on queued tasks, and the FFRT queue beyond the order in
    which it runs tasks; tests, mocks, build files and profiles.  [Boot.v] runs the tasks of a phase one at a time
    during the wait; their interleaving is in [StartPhase.v].  Objects are not
    deleted while the framework holds them, so their addresses stay valid ([RustMemory.v]
    shows it for abilities in Rust). *)

From stdpp Require Export base gmap strings list sorting fin_maps.
From Stdlib Require Export ZArith Lia.
From Stdlib Require Ascii.
Export (notations) Stdlib.Strings.Ascii.

#[global] Open Scope Z_scope.

(** ** Machine integers

    The program computes on [int32_t], [uint32_t], [int64_t] and [uint64_t].
    A value of such a type is a [Z] in range, and arithmetic wraps where the
    code lets it wrap. *)

Definition INT32_MAX : Z := 2147483647.
Definition INT32_MIN : Z := -2147483648.
Definition INT64_MAX : Z := 9223372036854775807.
Definition UINT64_MAX : Z := 18446744073709551615.

(** Two's complement reduction to a signed or unsigned width. *)
Definition wrap_s (bits x : Z) : Z :=
  let m := 2 ^ bits in let r := x mod m in if r <? 2 ^ (bits - 1) then r else r - m.
Definition wrap_u (bits x : Z) : Z := x mod 2 ^ bits.
Definition wrap32 : Z → Z := wrap_s 32.
Definition wrap64 : Z → Z := wrap_s 64.
Definition wrapu32 : Z → Z := wrap_u 32.
Definition wrapu64 : Z → Z := wrap_u 64.

Definition int32 (x : Z) : Prop := INT32_MIN ≤ x ≤ INT32_MAX.
#[export] Instance int32_dec x : Decision (int32 x).
Proof. unfold int32; apply _. Defined.

Lemma wrap32_unfold x :
  wrap32 x = let r := x mod 4294967296 in if r <? 2147483648 then r else r - 4294967296.
Proof. reflexivity. Qed.

Lemma wrap32_id x : int32 x → wrap32 x = x.
Proof.
  unfold int32, INT32_MIN, INT32_MAX; rewrite wrap32_unfold; cbv zeta; intros Hx.
  destruct (decide (0 ≤ x)).
  - rewrite Z.mod_small by lia. destruct (Z.ltb_spec x 2147483648); lia.
  - assert (x mod 4294967296 = x + 4294967296) as ->
      by (symmetry; apply Z.mod_unique with (-1); lia).
    destruct (Z.ltb_spec (x + 4294967296) 2147483648); lia.
Qed.

Lemma wrap32_range x : int32 (wrap32 x).
Proof.
  unfold int32, INT32_MIN, INT32_MAX; rewrite wrap32_unfold; cbv zeta.
  pose proof (Z.mod_pos_bound x 4294967296).
  destruct (Z.ltb_spec (x mod 4294967296) 2147483648); lia.
Qed.

Lemma wrapu64_id x : 0 ≤ x ≤ UINT64_MAX → wrapu64 x = x.
Proof.
  unfold wrapu64, wrap_u, UINT64_MAX; intros. apply Z.mod_small. simpl; lia.
Qed.

(** ** Containers

    A [std::map] is a [gmap].  [std::map::insert] does not overwrite, and an
    iteration visits the keys in increasing order. *)

Definition std_insert `{Countable K} {V} (k : K) (v : V) (m : gmap K V) : gmap K V :=
  match m !! k with Some _ => m | None => <[k:=v]> m end.

Lemma std_insert_fresh `{Countable K} {V} (k : K) (v : V) (m : gmap K V) :
  m !! k = None → std_insert k v m = <[k:=v]> m.
Proof. unfold std_insert; intros ->; done. Qed.

Definition on_fst {K V} (R : relation K) : relation (K * V) := λ x y, R x.1 y.1.
#[export] Instance on_fst_dec {K V} (R : relation K) `{!RelDecision R} :
  RelDecision (on_fst (V := V) R).
Proof. intros x y; unfold on_fst; apply _. Defined.

Section map_iter.
  Context `{Countable K} {V : Type} (R : relation K) `{!RelDecision R}.

Definition map_iter (m : gmap K V) : list (K * V) :=
    merge_sort (on_fst R) (map_to_list m).

Lemma map_iter_perm m : map_iter m ≡ₚ map_to_list m.
  Proof. apply merge_sort_Permutation. Qed.

Lemma elem_of_map_iter m k v : (k, v) ∈ map_iter m ↔ m !! k = Some v.
  Proof. by rewrite map_iter_perm, elem_of_map_to_list. Qed.

Lemma NoDup_map_iter_fst m : NoDup (map_iter m).*1.
  Proof. rewrite map_iter_perm. apply NoDup_fst_map_to_list. Qed.

Lemma map_iter_empty : map_iter ∅ = [].
  Proof. unfold map_iter. by rewrite map_to_list_empty. Qed.
End map_iter.

(** The order of [std::map<int32_t, _>]. *)
Definition zmap_iter {V} (m : gmap Z V) : list (Z * V) := map_iter Z.le m.

(** [std::list::remove] drops every occurrence; [splice_front] is
    [keys.splice(keys.begin(), keys, find(k))], which moves the first one. *)
Lemma filter_all {A} (P : A → Prop) `{!∀ x, Decision (P x)} (l : list A) :
  (∀ x, x ∈ l → P x) → filter P l = l.
Proof.
  induction l as [|y l IH]; intros Hl; [done|].
  rewrite filter_cons_True by set_solver. rewrite IH; set_solver.
Qed.

Lemma filter_ext_in {A} (P Q : A → Prop) `{!∀ x, Decision (P x), !∀ x, Decision (Q x)} (l : list A) :
  (∀ x, x ∈ l → P x ↔ Q x) → filter P l = filter Q l.
Proof.
  induction l as [|y l IH]; intros Hl; [done|]. rewrite !filter_cons, IH by set_solver.
  specialize (Hl y ltac:(set_solver)). repeat case_decide; naive_solver.
Qed.

Section list_ops.
  Context `{EqDecision A}.

Definition remove_all (x : A) (l : list A) : list A := filter (λ y, y ≠ x) l.

Fixpoint remove_first (x : A) (l : list A) : list A :=
    match l with
    | [] => []
    | y :: l' => if decide (y = x) then l' else y :: remove_first x l'
    end.

Definition splice_front (x : A) (l : list A) : list A := x :: remove_first x l.

Lemma elem_of_remove_all x y l : y ∈ remove_all x l ↔ y ≠ x ∧ y ∈ l.
  Proof. unfold remove_all. by rewrite list_elem_of_filter. Qed.

Lemma NoDup_remove_all x l : NoDup l → NoDup (remove_all x l).
  Proof. apply NoDup_filter. Qed.

Lemma remove_all_notin x l : x ∉ l → remove_all x l = l.
  Proof. intros Hx. apply filter_all. intros y Hy ->. done. Qed.

Lemma remove_first_NoDup x l : NoDup l → remove_first x l = remove_all x l.
  Proof.
    unfold remove_all. induction 1 as [|y l Hy Hl IH]; simpl; [done|].
    case_decide; subst.
    - rewrite filter_cons_False by tauto. symmetry. by apply remove_all_notin.
    - rewrite filter_cons_True by done. by rewrite IH.
  Qed.

Lemma remove_all_length x l : NoDup l → x ∈ l → S (length (remove_all x l)) = length l.
  Proof.
    unfold remove_all. induction 1 as [|y l Hy Hl IH]; intros Hx; [set_solver|].
    destruct (decide (y = x)) as [->|Hne].
    - rewrite filter_cons_False by tauto.
      fold (remove_all x l). by rewrite remove_all_notin.
    - rewrite filter_cons_True by done. simpl. f_equal. apply IH. set_solver.
  Qed.

Lemma elem_of_splice_front x y l :
    NoDup l → y ∈ splice_front x l ↔ y = x ∨ y ∈ l.
  Proof.
    intros Hl. unfold splice_front. rewrite remove_first_NoDup by done.
    rewrite elem_of_cons, elem_of_remove_all.
    destruct (decide (y = x)); naive_solver.
  Qed.

Lemma NoDup_splice_front x l : NoDup l → NoDup (splice_front x l).
  Proof.
    intros Hl. unfold splice_front. rewrite remove_first_NoDup by done.
    constructor; [rewrite elem_of_remove_all; tauto | by apply NoDup_remove_all].
  Qed.
End list_ops.

(** ** Automation shared by the development *)

Create HintDb safwk.
#[export] Hint Resolve NoDup_remove_all NoDup_splice_front wrap32_range : safwk.

(** Split the matches of a goal one by one, solving the easy branches. *)
Ltac split_match :=
  repeat (case_match || case_decide || case_bool_decide); simplify_eq/=.

(** Break hypotheses built with the propositional connectives. *)
Ltac inv_all :=
  repeat match goal with
  | H : _ ∧ _ |- _ => destruct H
  | H : ∃ _, _ |- _ => destruct H
  | H : _ * _ |- _ => destruct H
  | H : Some _ = Some _ |- _ => injection H as H
  | H : (_, _) = (_, _) |- _ => injection H as H
  end; simplify_eq/=.
