(* ===== verification/Monad.v ===== *)
(** * Monad: programs over an explicit state

    A program is a function from a state to a result and a state.  The rules for
    the properties that sequences of programs inherit from their parts are here
    too. *)

From S2P Require Import Prelude.

Definition sprog (S A : Type) : Type := S → A * S.
Definition ret {S A} (a : A) : sprog S A := λ w, (a, w).
Definition bind {S A B} (m : sprog S A) (k : A → sprog S B) : sprog S B :=
  λ w, let '(a, w') := m w in k a w'.
Definition gets {S A} (f : S → A) : sprog S A := λ w, (f w, w).
Definition modify {S} (f : S → S) : sprog S unit := λ w, (tt, f w).

Declare Scope prog_scope.
Delimit Scope prog_scope with prog.
Notation "'let!' x ':=' m 'in' k" := (bind m (λ x, k))
  (at level 10, x pattern, m at level 100, k at level 200) : prog_scope.
Notation "'do!' m 'in' k" := (bind m (λ _, k))
  (at level 10, m at level 100, k at level 200) : prog_scope.
#[global] Open Scope prog_scope.

(** Run a program for each element, in order. *)
Fixpoint for_each {S A} (f : A → sprog S unit) (l : list A) : sprog S unit :=
  match l with
  | [] => ret tt
  | x :: l' => do! f x in for_each f l'
  end.

Section monad.
  Context {S : Type}.

(** Run the first program, then the second. *)
Lemma bind_run {A B} (m : sprog S A) (k : A → sprog S B) w : bind m k w = k (m w).1 (m w).2.
Proof. unfold bind. by destruct (m w). Qed.

(** Programs that leave a view of the world alone. *)
Definition keeps {X} (f : S → X) {A} (m : sprog S A) : Prop := ∀ w, f (m w).2 = f w.

Lemma keeps_bind {X} (f : S → X) {A B} (m : sprog S A) (k : A → sprog S B) :
  keeps f m → (∀ a, keeps f (k a)) → keeps f (bind m k).
Proof. intros Hm Hk w. unfold bind. specialize (Hm w). destruct (m w) as [a w1]. by rewrite Hk. Qed.
Lemma keeps_ret {X} (f : S → X) {A} (a : A) : keeps f (ret a).
Proof. done. Qed.
Lemma keeps_gets {X} (f : S → X) {A} (g : S → A) : keeps f (gets g).
Proof. done. Qed.
Lemma keeps_modify {X} (f : S → X) (g : S → S) :
  (∀ w, f (g w) = f w) → keeps f (modify g).
Proof. intros Hg w. apply Hg. Qed.
Lemma keeps_for_each {X} (f : S → X) {A} (g : A → sprog S unit) l :
  (∀ a, keeps f (g a)) → keeps f (for_each g l).
Proof. intros Hg. induction l as [|a l IH]; [done|]. by apply keeps_bind. Qed.

(** Programs whose final world is related to the initial one. *)
Definition respects (R : relation S) {A} (m : sprog S A) : Prop := ∀ w, R w (m w).2.

Lemma respects_bind (R : relation S) `{!PreOrder R} {A B} (m : sprog S A) (k : A → sprog S B) :
  respects R m → (∀ a, respects R (k a)) → respects R (bind m k).
Proof.
  intros Hm Hk w. unfold bind. specialize (Hm w). destruct (m w) as [a w1]. etrans; [exact Hm|apply Hk].
Qed.
Lemma respects_ret (R : relation S) `{!PreOrder R} {A} (a : A) : respects R (ret a).
Proof. intros w. simpl. reflexivity. Qed.
Lemma respects_gets (R : relation S) `{!PreOrder R} {A} (f : S → A) : respects R (gets f).
Proof. intros w. simpl. reflexivity. Qed.
Lemma respects_for_each (R : relation S) `{!PreOrder R} {A} (f : A → sprog S unit) l :
  (∀ a, respects R (f a)) → respects R (for_each f l).
Proof. intros Hf. induction l as [|a l IH]; [by apply respects_ret|]. by apply respects_bind. Qed.
End monad.
#[export] Hint Resolve keeps_bind keeps_ret keeps_gets keeps_for_each : safwk.
