(* ===== verification/CString.v ===== *)
(** * CString: C strings

    The characters of a string up to a NUL, as the C library and the constructors
    from [const char *] see them, and lemmas on strings the components share. *)

From S2P Require Import Prelude.
From stdpp Require Import strings.
From Stdlib Require Import Ascii.

(** The characters before the first NUL. *)
Fixpoint cstr (l : list ascii) : string :=
  match l with
  | [] => ""
  | c :: l' => if bool_decide (c = zero) then "" else String c (cstr l')
  end.

Definition no_nul (s : string) : Prop := zero ∉ String.list_ascii_of_string s.

Lemma ascii_length s : length (String.list_ascii_of_string s) = String.length s.
Proof. induction s as [|c s IH]; [done|]. cbn. by rewrite IH. Qed.

Lemma cstr_app s l : no_nul s → cstr (String.list_ascii_of_string s ++ zero :: l) = s.
Proof.
  unfold no_nul. induction s as [|c s IH]; intros Hs; [done|]. cbn in *.
  rewrite bool_decide_eq_false_2 by set_solver. rewrite IH; [done|set_solver].
Qed.

(** Without a NUL behind it, the string goes on. *)
Lemma cstr_runs_on s c l : no_nul s → c ≠ zero → cstr (String.list_ascii_of_string s ++ c :: l) ≠ s.
Proof.
  unfold no_nul. induction s as [|b s IH]; intros Hs Hc; cbn in *.
  - by rewrite bool_decide_eq_false_2.
  - rewrite bool_decide_eq_false_2 by set_solver. intros [= E]. apply IH in E; [done|set_solver|done].
Qed.

Lemma string_app_nil_r (s : string) : s +:+ "" = s.
Proof. induction s as [|a s IH]; [done|]. exact (f_equal (String a) IH). Qed.
Lemma string_app_assoc (s t u : string) : (s +:+ t) +:+ u = s +:+ t +:+ u.
Proof. induction s as [|a s IH]; [done|]. exact (f_equal (String a) IH). Qed.
Lemma string_app_length (a b : string) : String.length (a +:+ b) = (String.length a + String.length b)%nat.
Proof. induction a as [|c a IH]; [done|]. exact (f_equal S IH). Qed.
Lemma substring_0_app (a b : string) : String.substring 0 (String.length a) (a +:+ b) = a.
Proof. induction a as [|c a IH]; [by destruct b|]. exact (f_equal (String c) IH). Qed.
Lemma substring_skip_app (a b : string) k n : k = String.length a → String.substring k n (a +:+ b) = String.substring 0 n b.
Proof. intros ->. induction a as [|c a IH]; [done|]. exact IH. Qed.
Lemma substring_all (b : string) : String.substring 0 (String.length b) b = b.
Proof. induction b as [|c b IH]; [done|]. cbn. by rewrite IH. Qed.
Lemma substring_length n s : (n ≤ String.length s)%nat → String.length (String.substring 0 n s) = n.
Proof.
  revert n. induction s as [|c s IH]; intros [|n] Hn; cbn in *; [done|lia|done|].
  rewrite IH by lia. done.
Qed.
