(* ===== verification/ExpireLruCache.v ===== *)
(** * ExpireLruCache: the bounded cache with expiry

    Models [interfaces/innerkits/safwk/expire_lru_cache.h].  The state is the
    record [cache]: the three containers [data_], [timestamp_] and [keys_]
    that every operation has to keep in step, with the capacity and the
    expiry interval.  An operation that would dereference an end iterator or
    call [back()] on an empty list is undefined behaviour and returns [None].

    [GetTickCount()] is read from a clock [clk : nat → Z]: the [t]-th reading
    of the process yields [clk t], and every operation threads the number of
    readings made so far, so two readings in one call may differ.

    The file gives the well-formedness invariant [wf], the absence of
    undefined behaviour on every history, the refinement of the three
    containers to a single recency list ([spec_add], [spec_get], ...), and the
    freshness guarantee of [Get]. *)

From S2P Require Import Prelude.

(* [interfaces/innerkits/safwk/expire_lru_cache.h:27-27] DEFAULT_EXPIRE_TIME *)
Definition DEFAULT_EXPIRE_TIME : Z := 1000.

(* [interfaces/innerkits/safwk/expire_lru_cache.h:95-100] ExpireLruCache *)
Record cache (K V : Type) `{Countable K} := mk_cache {
  size_ : nat;
  expireTimeMilliSec_ : Z;
  data_ : gmap K V;
  timestamp_ : gmap K Z;
  keys_ : list K;
}.
Arguments mk_cache {K V _ _} _ _ _ _ _.
Arguments size_ {K V _ _} _.
Arguments expireTimeMilliSec_ {K V _ _} _.
Arguments data_ {K V _ _} _.
Arguments timestamp_ {K V _ _} _.
Arguments keys_ {K V _ _} _.

Section cache.
  Context {K V : Type} `{Countable K}.
  (** The order of [std::map<TKey, _>]. *)
  Context (R : relation K) `{!RelDecision R}.
  (** The readings of [GetTickCount()]. *)
  Context (clk : nat → Z).

  #[local] Abbreviation cache := (cache K V).

(* [interfaces/innerkits/safwk/expire_lru_cache.h:33-38] ExpireLruCache::ExpireLruCache *)
Definition ExpireLruCache (cacheSize : nat) (expireTimeSec : Z) : cache :=
  mk_cache (if Nat.ltb 0 cacheSize then cacheSize else 1%nat)
    (if expireTimeSec <? 0 then DEFAULT_EXPIRE_TIME else expireTimeSec) ∅ ∅ [].

(** [now - *this > interval] with [now] read inside the call. *)
(* [interfaces/innerkits/safwk/expire_lru_cache.h:67-94] Timestamp::IsExpired *)
Definition IsExpired (ts interval : Z) (t : nat) : bool * nat :=
  (interval <? clk t - ts, S t).

Definition with_containers (c : cache) (d : gmap K V) (ts : gmap K Z) (ks : list K) : cache :=
  mk_cache (size_ c) (expireTimeMilliSec_ c) d ts ks.

(* [interfaces/innerkits/safwk/expire_lru_cache.h:162-167] ExpireLruCache::DoRemove *)
Definition DoRemove (key : K) (c : cache) : cache :=
  with_containers c (delete key (data_ c)) (delete key (timestamp_ c)) (remove_all key (keys_ c)).

(* [interfaces/innerkits/safwk/expire_lru_cache.h:169-174] ExpireLruCache::DoClear *)
Definition DoClear (c : cache) : cache := with_containers c ∅ ∅ [].

(** The loop over [timestamp_]; the iterator is advanced before the current
    entry is erased, so the loop visits the entries present on entry. *)
(* [interfaces/innerkits/safwk/expire_lru_cache.h:178-190] ExpireLruCache::DoClearExpiredCache *)
Fixpoint ClearExpiredLoop (es : list (K * Z)) (ifClear : bool) (c : cache) (t : nat)
    : bool * cache * nat :=
  match es with
  | [] => (ifClear, c, t)
  | (key, ts) :: es' =>
      let '(expired, t1) := IsExpired ts (expireTimeMilliSec_ c) t in
      if expired then
        ClearExpiredLoop es' true
          (with_containers c (delete key (data_ c)) (delete key (timestamp_ c))
             (remove_all key (keys_ c))) t1
      else ClearExpiredLoop es' ifClear c t1
  end.

(* [interfaces/innerkits/safwk/expire_lru_cache.h:176-190] ExpireLruCache::DoClearExpiredCache *)
Definition DoClearExpiredCache (c : cache) (t : nat) : bool * cache * nat :=
  ClearExpiredLoop (map_iter R (timestamp_ c)) false c t.

(* [interfaces/innerkits/safwk/expire_lru_cache.h:102-138] ExpireLruCache::DoAdd *)
Definition DoAdd (key : K) (value : V) (c : cache) (t : nat) : option (cache * nat) :=
  let now := clk t in
  let t1 := S t in
  let curSize := size (data_ c) in
  match data_ c !! key with
  | Some _ =>
      match timestamp_ c !! key with
      | None => None
      | Some _ =>
          if decide (key ∈ keys_ c) then
            Some (with_containers c
                    (std_insert key value (delete key (data_ c)))
                    (std_insert key now (delete key (timestamp_ c)))
                    (splice_front key (keys_ c)), t1)
          else None
      end
  | None =>
      '(c1, t2) ←
        (if Nat.leb (size_ c) curSize then
           let '(ifClearExpiredCache, c', t') :=
             if 0 <? expireTimeMilliSec_ c then DoClearExpiredCache c t1 else (false, c, t1) in
           if ifClearExpiredCache then Some (c', t')
           else
             match last (keys_ c') with
             | None => None
             | Some lruKey =>
                 Some (with_containers c' (delete lruKey (data_ c'))
                         (delete lruKey (timestamp_ c')) (removelast (keys_ c')), t')
             end
         else Some (c, t1));
      Some (with_containers c1 (std_insert key value (data_ c1))
              (std_insert key now (timestamp_ c1)) (key :: keys_ c1), t2)
  end.

(* [interfaces/innerkits/safwk/expire_lru_cache.h:140-160] ExpireLruCache::DoGet *)
Definition DoGet (key : K) (c : cache) (t : nat) : option (option V * cache * nat) :=
  match data_ c !! key with
  | None => Some (None, c, t)
  | Some v =>
      '(expired, t1) ←
        (if 0 <? expireTimeMilliSec_ c then
           ts ← timestamp_ c !! key; Some (IsExpired ts (expireTimeMilliSec_ c) t)
         else Some (false, t));
      if (expired : bool) then
        match timestamp_ c !! key with
        | None => None
        | Some _ => Some (None, with_containers c (delete key (data_ c))
                                  (delete key (timestamp_ c)) (remove_all key (keys_ c)), t1)
        end
      else if decide (key ∈ keys_ c) then
        Some (Some v, with_containers c (data_ c) (timestamp_ c) (splice_front key (keys_ c)), t1)
      else None
  end.

(** The public operations take the lock around the [Do*] bodies, so a history
    of a cache is a sequence of them. *)
(* [interfaces/innerkits/safwk/expire_lru_cache.h:41-65] ExpireLruCache *)
Inductive op := Add (key : K) (val : V) | Get (key : K) | Remove (key : K) | Clear.

(* [interfaces/innerkits/safwk/expire_lru_cache.h:41-65] ExpireLruCache *)
Definition step (o : op) (c : cache) (t : nat) : option (option V * cache * nat) :=
  match o with
  | Add key val => '(c', t') ← DoAdd key val c t; Some (None, c', t')
  | Get key => DoGet key c t
  | Remove key => Some (None, DoRemove key c, t)
  | Clear => Some (None, DoClear c, t)
  end.

Fixpoint run (os : list op) (c : cache) (t : nat) : option (list (option V) * cache * nat) :=
  match os with
  | [] => Some ([], c, t)
  | o :: os' =>
      '(r, c', t') ← step o c t;
      '(rs, c'', t'') ← run os' c' t';
      Some (r :: rs, c'', t'')
  end.

(** ** Well-formedness *)

Record wf (c : cache) : Prop := {
  wf_size : (1 ≤ size_ c)%nat;
  wf_expire : 0 ≤ expireTimeMilliSec_ c;
  wf_nodup : NoDup (keys_ c);
  wf_data k : k ∈ keys_ c ↔ is_Some (data_ c !! k);
  wf_ts k : k ∈ keys_ c ↔ is_Some (timestamp_ c !! k);
  wf_bound : (length (keys_ c) ≤ size_ c)%nat;
}.

(** ** The abstract cache: one list of entries, most recently used first *)

#[local] Abbreviation entry := (K * (V * Z))%type.

Definition spec_add (cap : nat) (dead : list K) (k : K) (v : V) (now : Z)
    (l : list entry) : list entry :=
  (k, (v, now)) ::
  if decide (k ∈ l.*1) then filter (λ e, e.1 ≠ k) l
  else if Nat.ltb (length l) cap then l
  else match dead with
       | [] => removelast l
       | _ => filter (λ e, e.1 ∉ dead) l
       end.

Definition spec_get (expire now : Z) (k : K) (l : list entry) : option V * list entry :=
  match list_find (λ e : entry, e.1 = k) l with
  | None => (None, l)
  | Some (_, (_, (v, ts))) =>
      if (0 <? expire) && (expire <? now - ts) then (None, filter (λ e, e.1 ≠ k) l)
      else (Some v, (k, (v, ts)) :: filter (λ e, e.1 ≠ k) l)
  end.

(** The entries the sweep of [DoClearExpiredCache] finds expired, each at its
    own reading of the clock. *)
Fixpoint expired_keys (expire : Z) (es : list (K * Z)) (t : nat) : list K :=
  match es with
  | [] => []
  | (k, ts) :: es' =>
      if expire <? clk t - ts then k :: expired_keys expire es' (S t)
      else expired_keys expire es' (S t)
  end.

Definition dead_keys (c : cache) (t : nat) : list K :=
  if 0 <? expireTimeMilliSec_ c
  then expired_keys (expireTimeMilliSec_ c) (map_iter R (timestamp_ c)) t else [].

(** The keys the sweep of one operation removes: it runs on the addition of a
    new key to a full cache only. *)
Definition dead_at (o : op) (c : cache) (t : nat) : list K :=
  match o with
  | Add k _ => if bool_decide (data_ c !! k = None) && Nat.leb (size_ c) (size (data_ c))
               then dead_keys c (S t) else []
  | _ => []
  end.

Definition entries (d : gmap K V) (ts : gmap K Z) (ks : list K) : list entry :=
  omap (λ k, v ← d !! k; n ← ts !! k; Some (k, (v, n))) ks.

Definition abs (c : cache) : list entry := entries (data_ c) (timestamp_ c) (keys_ c).

(** ** Lemmas *)

Lemma ClearExpiredLoop_fold es b c t :
  ClearExpiredLoop es b c t =
  (b || bool_decide (expired_keys (expireTimeMilliSec_ c) es t ≠ []),
   foldl (flip DoRemove) c (expired_keys (expireTimeMilliSec_ c) es t),
   (t + length es)%nat).
Proof.
  revert b c t. induction es as [|[k ts] es IH]; intros b c t; simpl.
  - by rewrite orb_false_r, Nat.add_0_r.
  - destruct (expireTimeMilliSec_ c <? clk t - ts) eqn:E; rewrite IH; simpl.
    + by rewrite orb_true_r, Nat.add_succ_r.
    + by rewrite Nat.add_succ_r.
Qed.

Lemma entries_cons d ts k ks :
  entries d ts (k :: ks) =
  match d !! k, ts !! k with
  | Some v, Some n => (k, (v, n)) :: entries d ts ks
  | _, _ => entries d ts ks
  end.
Proof. unfold entries; simpl. destruct (d !! k); simpl; [|done]. by destruct (ts !! k). Qed.

Lemma entries_ext d d' ts ts' ks :
  (∀ k, k ∈ ks → d !! k = d' !! k ∧ ts !! k = ts' !! k) →
  entries d ts ks = entries d' ts' ks.
Proof.
  induction ks as [|k ks IH]; intros Hk; [done|].
  rewrite !entries_cons. destruct (Hk k) as [-> ->]; [set_solver|].
  rewrite IH by set_solver. done.
Qed.

Lemma entries_filter (P : K → Prop) `{!∀ k, Decision (P k)} d ts ks :
  entries d ts (filter P ks) = filter (λ e, P e.1) (entries d ts ks).
Proof.
  induction ks as [|k ks IH]; [done|]. rewrite entries_cons.
  destruct (decide (P k)) as [HP|HP].
  - rewrite filter_cons_True by done. rewrite entries_cons, IH.
    destruct (d !! k), (ts !! k); try done. by rewrite filter_cons_True.
  - rewrite filter_cons_False by done. rewrite IH.
    destruct (d !! k), (ts !! k); try done. by rewrite filter_cons_False.
Qed.

Lemma entries_app d ts ks ks' : entries d ts (ks ++ ks') = entries d ts ks ++ entries d ts ks'.
Proof. apply omap_app. Qed.

Lemma abs_keys c : wf c → (abs c).*1 = keys_ c.
Proof.
  intros Hwf. unfold abs. pose proof (wf_data c Hwf) as Hd. pose proof (wf_ts c Hwf) as Ht.
  assert (∀ ks, (∀ k, k ∈ ks → k ∈ keys_ c) → (entries (data_ c) (timestamp_ c) ks).*1 = ks) as Hks.
  { induction ks as [|k ks IH]; intros Hk; [done|]. rewrite entries_cons.
    destruct (proj1 (Hd k)) as [v ->]; [set_solver|].
    destruct (proj1 (Ht k)) as [n ->]; [set_solver|]. simpl. f_equal. apply IH. set_solver. }
  apply Hks; done.
Qed.

Lemma abs_length c : wf c → length (abs c) = length (keys_ c).
Proof. intros Hwf. by rewrite <- (abs_keys c Hwf), length_fmap. Qed.

Lemma wf_size_data c : wf c → size (data_ c) = length (keys_ c).
Proof.
  intros Hwf. rewrite <- size_dom. unfold size, set_size; simpl.
  apply Permutation_length, NoDup_Permutation; [apply NoDup_elements| apply Hwf|].
  intros k. by rewrite elem_of_elements, elem_of_dom, (wf_data c Hwf).
Qed.

(** Removing a key keeps the containers in step. *)
Lemma DoRemove_wf k c : wf c → wf (DoRemove k c).
Proof.
  intros Hwf. pose proof (wf_data c Hwf) as Hd. pose proof (wf_ts c Hwf) as Ht.
  split; simpl; try apply Hwf.
  - apply NoDup_remove_all, Hwf.
  - intros k'. rewrite elem_of_remove_all, lookup_delete_is_Some, Hd. naive_solver.
  - intros k'. rewrite elem_of_remove_all, lookup_delete_is_Some, Ht. naive_solver.
  - etrans; [apply length_filter|apply Hwf].
Qed.

Lemma DoRemove_abs k c : abs (DoRemove k c) = filter (λ e, e.1 ≠ k) (abs c).
Proof.
  unfold abs, DoRemove; simpl.
  pose proof (entries_filter (λ k', k' ≠ k) (data_ c) (timestamp_ c) (keys_ c)) as E.
  cbv beta in E. rewrite <- E. apply entries_ext. intros k' [Hne _]%elem_of_remove_all. by rewrite !lookup_delete_ne.
Qed.

Lemma DoRemove_size k c : size_ (DoRemove k c) = size_ c. Proof. done. Qed.

Lemma DoRemove_fold_wf ks c : wf c → wf (foldl (flip DoRemove) c ks).
Proof. revert c. induction ks as [|k ks IH]; intros c Hc; [done|]. by apply IH, DoRemove_wf. Qed.

Lemma DoRemove_fold_abs ks c :
  abs (foldl (flip DoRemove) c ks) = filter (λ e, e.1 ∉ ks) (abs c).
Proof.
  revert c. induction ks as [|k ks IH]; intros c; simpl.
  - symmetry. apply filter_all. set_solver.
  - rewrite IH; unfold flip. rewrite DoRemove_abs, list_filter_filter.
    apply list_filter_iff. set_solver.
Qed.

Lemma DoRemove_fold_fields ks c :
  size_ (foldl (flip DoRemove) c ks) = size_ c ∧
  expireTimeMilliSec_ (foldl (flip DoRemove) c ks) = expireTimeMilliSec_ c ∧
  (∀ k, k ∈ keys_ (foldl (flip DoRemove) c ks) ↔ k ∈ keys_ c ∧ k ∉ ks).
Proof.
  revert c. induction ks as [|k ks IH]; intros c; simpl; [set_solver|].
  destruct (IH (DoRemove k c)) as (? & ? & Hk). split_and!; [done..|].
  intros k'. unfold flip. rewrite Hk; simpl. rewrite elem_of_remove_all. set_solver.
Qed.

Lemma expired_keys_sub expire es t k : k ∈ expired_keys expire es t → k ∈ es.*1.
Proof.
  revert t. induction es as [|[k' ts] es IH]; intros t; simpl; [done|].
  destruct (expire <? clk t - ts); set_solver.
Qed.

Lemma dead_keys_sub c t k : wf c → k ∈ dead_keys c t → k ∈ keys_ c.
Proof.
  intros Hwf. unfold dead_keys. destruct (0 <? _); [|set_solver].
  intros Hk%expired_keys_sub. apply list_elem_of_fmap in Hk as [[k' ts] [-> Hk]].
  apply elem_of_map_iter in Hk. rewrite (wf_ts c Hwf); simpl. by rewrite Hk.
Qed.

Lemma expired_keys_late expire es t k :
  k ∈ expired_keys expire es t →
  ∃ i ts, (t ≤ i < t + length es)%nat ∧ (k, ts) ∈ es ∧ expire < clk i - ts.
Proof.
  revert t. induction es as [|[k' ts] es IH]; intros t; simpl; [set_solver|].
  destruct (Z.ltb_spec expire (clk t - ts)).
  - rewrite elem_of_cons. intros [->|Hk].
    + exists t, ts. split_and!; [lia|lia|set_solver|done].
    + destruct (IH (S t) Hk) as (i & ts' & ? & ? & ?). exists i, ts'.
      split_and!; [lia|lia|set_solver|done].
  - intros Hk. destruct (IH (S t) Hk) as (i & ts' & ? & ? & ?). exists i, ts'.
    split_and!; [lia|lia|set_solver|done].
Qed.

Definition sweep_len (c : cache) : nat :=
  if 0 <? expireTimeMilliSec_ c then length (map_iter R (timestamp_ c)) else 0%nat.

Lemma dead_keys_late c t k :
  k ∈ dead_keys c t →
  ∃ i ts, (t ≤ i < t + sweep_len c)%nat ∧ timestamp_ c !! k = Some ts ∧
    expireTimeMilliSec_ c < clk i - ts ∧ 0 < expireTimeMilliSec_ c.
Proof.
  unfold dead_keys, sweep_len. destruct (Z.ltb_spec 0 (expireTimeMilliSec_ c)); [|set_solver].
  intros (i & ts & ? & Hin & ?)%expired_keys_late. apply elem_of_map_iter in Hin. eauto 6.
Qed.

(** The sweep removes exactly the dead keys and reports whether there were any. *)
Lemma sweep_spec c t :
  (if 0 <? expireTimeMilliSec_ c then DoClearExpiredCache c t else (false, c, t)) =
  (bool_decide (dead_keys c t ≠ []), foldl (flip DoRemove) c (dead_keys c t),
   (t + sweep_len c)%nat).
Proof.
  unfold dead_keys, sweep_len, DoClearExpiredCache. destruct (0 <? _).
  - by rewrite ClearExpiredLoop_fold.
  - simpl. by rewrite Nat.add_0_r.
Qed.

(** Dropping the least recently used key. *)
Lemma pop_back_wf c k ks :
  wf c → keys_ c = ks ++ [k] →
  with_containers c (delete k (data_ c)) (delete k (timestamp_ c)) ks = DoRemove k c.
Proof.
  intros Hwf Hk. unfold DoRemove. f_equal.
  pose proof (wf_nodup c Hwf) as Hnd. rewrite Hk in Hnd |- *.
  apply NoDup_app in Hnd as (_ & Hnot & _).
  unfold remove_all. rewrite filter_app, filter_cons_False by tauto.
  rewrite app_nil_r. fold (remove_all k ks). rewrite remove_all_notin; [done|].
  intros Hin. apply (Hnot k Hin). set_solver.
Qed.

Lemma filter_pop_back c k ks :
  wf c → keys_ c = ks ++ [k] → filter (λ e, e.1 ≠ k) (abs c) = removelast (abs c).
Proof.
  intros Hwf Hk. rewrite <- DoRemove_abs, <- (pop_back_wf c k ks) by done.
  unfold abs; simpl. rewrite Hk, entries_app.
  pose proof (wf_nodup c Hwf) as Hnd. rewrite Hk in Hnd.
  apply NoDup_app in Hnd as (_ & Hnot & _).
  assert (Hin : k ∈ keys_ c) by (rewrite Hk; set_solver).
  rewrite (entries_cons _ _ k).
  destruct (proj1 (wf_data c Hwf k) Hin) as [v ->], (proj1 (wf_ts c Hwf k) Hin) as [n ->].
  rewrite removelast_last. apply entries_ext. intros k' Hk'.
  assert (k' ≠ k) by (intros ->; apply (Hnot k Hk'); set_solver).
  by rewrite !lookup_delete_ne.
Qed.

(** Inserting a fresh key below the capacity. *)
Lemma push_front_wf c k v n :
  wf c → k ∉ keys_ c → (length (keys_ c) < size_ c)%nat →
  wf (with_containers c (std_insert k v (data_ c)) (std_insert k n (timestamp_ c)) (k :: keys_ c))
  ∧ abs (with_containers c (std_insert k v (data_ c)) (std_insert k n (timestamp_ c)) (k :: keys_ c))
    = (k, (v, n)) :: abs c.
Proof.
  intros Hwf Hk Hlen. pose proof (wf_data c Hwf) as Hd. pose proof (wf_ts c Hwf) as Ht.
  assert (data_ c !! k = None) as Hdn by (rewrite eq_None_not_Some, <- Hd; done).
  assert (timestamp_ c !! k = None) as Htn by (rewrite eq_None_not_Some, <- Ht; done).
  rewrite !std_insert_fresh by done. split.
  - split; simpl; try apply Hwf.
    + constructor; [done|apply Hwf].
    + intros k'. rewrite lookup_insert_is_Some', elem_of_cons, Hd. naive_solver.
    + intros k'. rewrite lookup_insert_is_Some', elem_of_cons, Ht. naive_solver.
    + lia.
  - unfold abs, with_containers; cbn [data_ timestamp_ keys_].
    rewrite entries_cons, !lookup_insert_eq. f_equal.
    apply entries_ext. intros k' Hk'.
    assert (k ≠ k') by (intros ->; done). by rewrite !lookup_insert_ne.
Qed.

(** ** What each operation does to the recency list *)

Lemma keys_full_nonempty c : wf c → (size_ c ≤ size (data_ c))%nat → keys_ c ≠ [].
Proof.
  intros Hwf Hs Hn. rewrite wf_size_data in Hs by done. rewrite Hn in Hs; simpl in Hs.
  pose proof (wf_size c Hwf). lia.
Qed.

(** Making room: the expired keys go, or else the least recently used one. *)
Lemma make_room c t1 :
  wf c → (size_ c ≤ size (data_ c))%nat →
  ∃ c1 t2,
    (let '(b, c', t') :=
       if 0 <? expireTimeMilliSec_ c then DoClearExpiredCache c t1 else (false, c, t1) in
     if b then Some (c', t')
     else match last (keys_ c') with
          | None => None
          | Some lruKey =>
              Some (with_containers c' (delete lruKey (data_ c'))
                      (delete lruKey (timestamp_ c')) (removelast (keys_ c')), t')
          end) = Some (c1, t2) ∧
    t2 = (t1 + sweep_len c)%nat ∧ wf c1 ∧ size_ c1 = size_ c ∧
    (length (keys_ c1) < size_ c)%nat ∧ (∀ k, k ∈ keys_ c1 → k ∈ keys_ c) ∧
    abs c1 = match dead_keys c t1 with
             | [] => removelast (abs c)
             | _ => filter (λ e, e.1 ∉ dead_keys c t1) (abs c)
             end.
Proof.
  intros Hwf Hfull. rewrite sweep_spec.
  set (dead := dead_keys c t1). set (t2 := (t1 + sweep_len c)%nat).
  destruct (DoRemove_fold_fields dead c) as (Hs & He & Hk).
  pose proof (DoRemove_fold_wf dead c Hwf) as Hwf'.
  case_bool_decide as Hd.
  - eexists _, t2. split; [done|]. split_and!; [done|done|done| |set_solver|].
    + destruct dead as [|k dead'] eqn:Edead; [done|].
      rewrite <- (abs_length _ Hwf'), DoRemove_fold_abs.
      apply Nat.lt_le_trans with (length (abs c)).
      * assert (Hin : k ∈ (abs c).*1).
        { rewrite abs_keys by done. apply (dead_keys_sub c t1); [done|]. fold dead.
          rewrite Edead; set_solver. }
        apply list_elem_of_fmap in Hin as [e [-> He']].
        apply (length_filter_lt _ _ e); [done|set_solver].
      * rewrite abs_length by done. apply Hwf.
    + rewrite DoRemove_fold_abs. by destruct dead.
  - rewrite Hd; simpl.
    pose proof (keys_full_nonempty c Hwf Hfull) as Hne.
    destruct (last (keys_ c)) as [lru|] eqn:El; [|by apply last_None in El].
    apply last_Some in El as [ks Hks].
    assert (removelast (keys_ c) = ks) as Hrl by (by rewrite Hks, removelast_last).
    rewrite Hrl, (pop_back_wf c lru ks Hwf Hks).
    pose proof (DoRemove_wf lru c Hwf) as Hwf1.
    eexists _, t2. split; [done|]. split_and!; [done|done|done| | |].
    + pose proof (remove_all_length lru (keys_ c) (wf_nodup c Hwf)) as Hl.
      pose proof (wf_bound c Hwf). simpl. rewrite <- Hl in * by (rewrite Hks; set_solver). lia.
    + intros k; simpl. rewrite elem_of_remove_all. tauto.
    + rewrite DoRemove_abs. by apply filter_pop_back with ks.
Qed.

Lemma DoAdd_spec key v c t :
  wf c →
  ∃ c' t', DoAdd key v c t = Some (c', t') ∧ (t < t')%nat ∧ wf c' ∧ size_ c' = size_ c ∧
    (∀ k, k ∈ dead_at (Add key v) c t → ∃ i ts, (t < i < t')%nat ∧ timestamp_ c !! k = Some ts ∧
       expireTimeMilliSec_ c < clk i - ts ∧ 0 < expireTimeMilliSec_ c) ∧
    abs c' = spec_add (size_ c) (dead_at (Add key v) c t) key v (clk t) (abs c).
Proof.
  intros Hwf. unfold DoAdd, spec_add, dead_at. rewrite abs_keys, abs_length by done.
  destruct (data_ c !! key) as [v0|] eqn:Ed.
  - assert (Hin : key ∈ keys_ c) by (apply (wf_data c Hwf); by rewrite Ed).
    destruct (proj1 (wf_ts c Hwf key) Hin) as [n0 En]. rewrite En.
    rewrite !decide_True by done. eexists _, _. split; [done|].
    pose proof (wf_nodup c Hwf) as Hnd.
    rewrite bool_decide_eq_false_2 by done. simpl (false && _).
    split_and!; [lia| |done|set_solver|].
    + split; simpl; try apply Hwf; auto with safwk.
      * intros k. rewrite elem_of_splice_front by done. rewrite std_insert_fresh by apply lookup_delete_eq.
        rewrite lookup_insert_is_Some', lookup_delete_is_Some, (wf_data c Hwf). destruct (decide (key = k)); naive_solver.
      * intros k. rewrite elem_of_splice_front by done. rewrite std_insert_fresh by apply lookup_delete_eq.
        rewrite lookup_insert_is_Some', lookup_delete_is_Some, (wf_ts c Hwf). destruct (decide (key = k)); naive_solver.
      * unfold splice_front. rewrite remove_first_NoDup by done. simpl.
        rewrite remove_all_length by done. apply Hwf.
    + rewrite <- DoRemove_abs. unfold abs, with_containers; cbn [data_ timestamp_ keys_ DoRemove].
      unfold splice_front. rewrite remove_first_NoDup by done.
      rewrite !std_insert_fresh by apply lookup_delete_eq.
      rewrite entries_cons, !lookup_insert_eq. f_equal. apply entries_ext.
      intros k [Hk _]%elem_of_remove_all. by rewrite !lookup_insert_ne.
  - assert (Hnin : key ∉ keys_ c) by (rewrite (wf_data c Hwf), Ed; by intros [? ?]).
    rewrite (decide_False (P := key ∈ keys_ c)) by done.
    rewrite bool_decide_eq_true_2 by done. simpl (true && _).
    destruct (Nat.leb_spec (size_ c) (size (data_ c))) as [Hfull|Hroom].
    + destruct (make_room c (S t) Hwf Hfull) as (c1 & t2 & -> & Ht & Hwf1 & Hs1 & Hlen & Hsub & Habs).
      simpl. destruct (push_front_wf c1 key v (clk t) Hwf1) as [Hwf2 Habs2]; [auto|lia|].
      eexists _, _. split; [done|]. split_and!; [lia|done|done| |].
      { intros k (i & ts & ? & ? & ? & ?)%dead_keys_late. exists i, ts. split_and!; try done; lia. }
      rewrite Habs2, Habs. destruct (Nat.ltb_spec (length (keys_ c)) (size_ c)); [|done].
      rewrite wf_size_data in Hfull by done. lia.
    + simpl. rewrite wf_size_data in Hroom by done.
      destruct (push_front_wf c key v (clk t) Hwf Hnin Hroom) as [Hwf2 Habs2].
      eexists _, _. split; [done|]. split_and!; [lia|done|done|set_solver|].
      rewrite Habs2. destruct (Nat.ltb_spec (length (keys_ c)) (size_ c)); [done|lia].
Qed.

Lemma abs_lookup c k : wf c →
  match list_find (λ e : entry, e.1 = k) (abs c) with
  | None => k ∉ keys_ c
  | Some (_, (k', (v, ts))) => k ∈ keys_ c ∧ data_ c !! k = Some v ∧ timestamp_ c !! k = Some ts
  end.
Proof.
  intros Hwf. destruct (list_find _ _) as [[i [k' [v ts]]]|] eqn:E.
  - apply list_find_Some in E as (Hl & Hk' & _); simpl in Hk'; subst k'.
    apply list_elem_of_lookup_2, list_elem_of_omap in Hl as (k0 & Hin & Hk0).
    destruct (data_ c !! k0) eqn:?, (timestamp_ c !! k0) eqn:?; simplify_eq/=. done.
  - apply list_find_None in E. rewrite <- (abs_keys c Hwf).
    intros (e & -> & He)%list_elem_of_fmap. rewrite Forall_forall in E. by apply (E e).
Qed.

Lemma splice_front_wf c k :
  wf c → k ∈ keys_ c → wf (with_containers c (data_ c) (timestamp_ c) (splice_front k (keys_ c))).
Proof.
  intros Hwf Hin. pose proof (wf_nodup c Hwf) as Hnd.
  split; simpl; try apply Hwf; auto with safwk.
  - intros k'. rewrite elem_of_splice_front by done. rewrite <- (wf_data c Hwf).
    destruct (decide (k' = k)); naive_solver.
  - intros k'. rewrite elem_of_splice_front by done. rewrite <- (wf_ts c Hwf).
    destruct (decide (k' = k)); naive_solver.
  - unfold splice_front. rewrite remove_first_NoDup by done. simpl.
    rewrite remove_all_length by done. apply Hwf.
Qed.

Lemma splice_front_abs c k v ts :
  wf c → data_ c !! k = Some v → timestamp_ c !! k = Some ts →
  abs (with_containers c (data_ c) (timestamp_ c) (splice_front k (keys_ c)))
  = (k, (v, ts)) :: filter (λ e, e.1 ≠ k) (abs c).
Proof.
  intros Hwf Hd Ht. rewrite <- DoRemove_abs.
  unfold abs, with_containers; cbn [data_ timestamp_ keys_ DoRemove].
  unfold splice_front. rewrite remove_first_NoDup by apply Hwf.
  rewrite entries_cons, Hd, Ht. f_equal. apply entries_ext.
  intros k' [Hne _]%elem_of_remove_all; simpl. by rewrite !lookup_delete_ne.
Qed.

Lemma DoGet_spec key c t :
  wf c →
  ∃ r c' t', DoGet key c t = Some (r, c', t') ∧ (t ≤ t')%nat ∧ wf c' ∧
    size_ c' = size_ c ∧ expireTimeMilliSec_ c' = expireTimeMilliSec_ c ∧
    (r, abs c') = spec_get (expireTimeMilliSec_ c) (clk t) key (abs c).
Proof.
  intros Hwf. unfold DoGet, spec_get. pose proof (abs_lookup c key Hwf) as Hl.
  destruct (list_find _ _) as [[i [k' [v ts]]]|].
  - destruct Hl as (Hin & Hd & Ht). rewrite Hd, Ht. unfold IsExpired; simpl.
    destruct (0 <? expireTimeMilliSec_ c); simpl;
      [destruct (expireTimeMilliSec_ c <? clk t - ts)|].
    + eexists _, _, _. split; [done|].
      split_and!; [lia|by apply DoRemove_wf|done|done|]. f_equal. apply (DoRemove_abs key c).
    + rewrite decide_True by done. eexists _, _, _. split; [done|].
      split_and!; [lia|by apply splice_front_wf|done|done|]. f_equal. by apply splice_front_abs.
    + rewrite decide_True by done. eexists _, _, _. split; [done|].
      split_and!; [lia|by apply splice_front_wf|done|done|]. f_equal. by apply splice_front_abs.
  - destruct (data_ c !! key) as [v|] eqn:Hd.
    { destruct Hl. apply (wf_data c Hwf). by rewrite Hd. }
    eexists _, _, _. split; [done|]. by split_and!.
Qed.

Lemma DoClear_wf c : wf c → wf (DoClear c).
Proof.
  intros Hwf. split; simpl; try apply Hwf; try (intros k; rewrite lookup_empty;
    split; [set_solver|by intros [? ?]]); [constructor|lia].
Qed.

Lemma ExpireLruCache_wf cap e : wf (ExpireLruCache cap e).
Proof.
  split; simpl.
  - destruct (Nat.ltb_spec 0 cap); lia.
  - destruct (Z.ltb_spec e 0); unfold DEFAULT_EXPIRE_TIME; lia.
  - constructor.
  - intros k. rewrite lookup_empty. split; [set_solver|by intros [? ?]].
  - intros k. rewrite lookup_empty. split; [set_solver|by intros [? ?]].
  - lia.
Qed.

Lemma ClearExpired_expire es b c t :
  expireTimeMilliSec_ (ClearExpiredLoop es b c t).1.2 = expireTimeMilliSec_ c.
Proof. rewrite ClearExpiredLoop_fold. apply DoRemove_fold_fields. Qed.

Lemma DoAdd_expire key v c t c' t' :
  DoAdd key v c t = Some (c', t') → expireTimeMilliSec_ c' = expireTimeMilliSec_ c.
Proof.
  unfold DoAdd. rewrite sweep_spec.
  destruct (DoRemove_fold_fields (dead_keys c (S t)) c) as (_ & He & _).
  intros. repeat (case_match; simplify_eq/=); try done.
Qed.

(** ** The specification machine *)

Definition spec_step (cap : nat) (expire : Z) (dead : list K) (o : op) (now : Z)
    (l : list entry) : option V * list entry :=
  match o with
  | Add k v => (None, spec_add cap dead k v now l)
  | Get k => spec_get expire now k l
  | Remove k => (None, filter (λ e, e.1 ≠ k) l)
  | Clear => (None, [])
  end.

Lemma step_spec o c t :
  wf c →
  ∃ r c' t', step o c t = Some (r, c', t') ∧ (t ≤ t')%nat ∧ wf c' ∧
    size_ c' = size_ c ∧ expireTimeMilliSec_ c' = expireTimeMilliSec_ c ∧
    (∀ k, k ∈ dead_at o c t → ∃ i ts, (t < i < t')%nat ∧ timestamp_ c !! k = Some ts ∧
       expireTimeMilliSec_ c < clk i - ts ∧ 0 < expireTimeMilliSec_ c) ∧
    (r, abs c') = spec_step (size_ c) (expireTimeMilliSec_ c) (dead_at o c t) o (clk t) (abs c).
Proof.
  intros Hwf. destruct o as [k v|k|k|]; simpl.
  - destruct (DoAdd_spec k v c t Hwf) as (c' & t' & Ha & ? & ? & ? & ? & Habs).
    pose proof (DoAdd_expire _ _ _ _ _ _ Ha). rewrite Ha; simpl.
    eexists _, _, _. split; [done|]. split_and!; [lia|done|done|done|done|]. by rewrite Habs.
  - destruct (DoGet_spec k c t Hwf) as (r & c' & t' & Hg & Hg').
    eexists _, _, _. split; [done|]. naive_solver set_solver.
  - eexists _, _, _. split; [done|]. split_and!; [lia|by apply DoRemove_wf|done|done|set_solver|].
    by rewrite DoRemove_abs.
  - eexists _, _, _. split; [done|]. by split_and!; [lia|apply DoClear_wf| | |set_solver|].
Qed.

Lemma run_wf os c t :
  wf c → ∃ rs c' t', run os c t = Some (rs, c', t') ∧ (t ≤ t')%nat ∧ wf c' ∧
    size_ c' = size_ c ∧ expireTimeMilliSec_ c' = expireTimeMilliSec_ c ∧ length rs = length os.
Proof.
  revert c t. induction os as [|o os IH]; intros c t Hwf; simpl.
  - eexists _, _, _. by split_and!.
  - destruct (step_spec o c t Hwf) as (r & c1 & t1 & -> & ? & Hwf1 & Hs & He & _). simpl.
    destruct (IH c1 t1 Hwf1) as (rs & c2 & t2 & -> & ? & ? & ? & ? & ?). simpl.
    eexists _, _, _. split; [done|]. split_and!; [lia|done|congruence|congruence|simpl; congruence].
Qed.

(** ** Histories: what was last added under each key *)

Definition ghost_step (o : op) (t : nat) (g : gmap K (V * Z)) : gmap K (V * Z) :=
  match o with
  | Add k v => <[k := (v, clk t)]> g
  | Get _ => g
  | Remove k => delete k g
  | Clear => ∅
  end.

Fixpoint last_adds (os : list op) (c : cache) (t : nat) (g : gmap K (V * Z))
    : option (gmap K (V * Z)) :=
  match os with
  | [] => Some g
  | o :: os' => '(_, c', t') ← step o c t; last_adds os' c' t' (ghost_step o t g)
  end.

Lemma elem_of_removelast {A} (x : A) (l : list A) : x ∈ removelast l → x ∈ l.
Proof.
  induction l as [|y l IH]; simpl; [done|]. destruct l; [set_solver|].
  rewrite !elem_of_cons in *. naive_solver.
Qed.

(** An operation invents no entry: what is in the list afterwards was there
    before, or is the entry just added. *)
Lemma spec_step_sub cap expire dead o now (l : list entry) e :
  e ∈ (spec_step cap expire dead o now l).2 →
  match o with
  | Add k v => e = (k, (v, now)) ∨ e ∈ l ∧ e.1 ≠ k
  | Get _ => e ∈ l
  | Remove k => e ∈ l ∧ e.1 ≠ k
  | Clear => False
  end.
Proof.
  destruct o as [k v|k|k|]; simpl.
  - unfold spec_add. rewrite elem_of_cons. intros [->|He]; [by left|right].
    destruct (decide (k ∈ l.*1)) as [Hk|Hk].
    + by apply list_elem_of_filter in He as [? ?].
    + assert (e ∈ l) as He'.
      { destruct (length l <? cap)%nat; [done|]. destruct dead; [by apply elem_of_removelast|].
        by apply list_elem_of_filter in He as [_ ?]. }
      split; [done|]. intros <-. apply Hk, list_elem_of_fmap; eauto.
  - unfold spec_get. destruct (list_find _ l) as [[i [k' [v ts]]]|] eqn:E; [|done].
    apply list_find_Some in E as (Hi & Hk & _). simpl in Hk. subst k'.
    apply list_elem_of_lookup_2 in Hi. destruct (_ && _); simpl.
    + by intros [_ He]%list_elem_of_filter.
    + rewrite elem_of_cons. by intros [->|[_ He]%list_elem_of_filter].
  - by intros [? ?]%list_elem_of_filter.
  - set_solver.
Qed.

(** An entry of the recency list is what [ghost_step] recorded. *)
Lemma spec_step_ghost cap expire dead o t (l : list entry) g :
  (∀ e, e ∈ l → g !! e.1 = Some e.2) →
  ∀ e, e ∈ (spec_step cap expire dead o (clk t) l).2 → ghost_step o t g !! e.1 = Some e.2.
Proof.
  intros Hl e He%spec_step_sub. destruct o as [k v|k|k|]; simpl.
  - destruct He as [->|[He Hne]]; [apply lookup_insert_eq|].
    rewrite lookup_insert_ne by done. by apply Hl.
  - by apply Hl.
  - destruct He. rewrite lookup_delete_ne by done. by apply Hl.
  - done.
Qed.

Lemma elem_of_abs c k v ts : wf c →
  (k, (v, ts)) ∈ abs c ↔ data_ c !! k = Some v ∧ timestamp_ c !! k = Some ts.
Proof.
  intros Hwf. unfold abs, entries. rewrite list_elem_of_omap. split.
  - intros (k0 & _ & Hk0).
    destruct (data_ c !! k0) eqn:?, (timestamp_ c !! k0) eqn:?; simplify_eq/=. done.
  - intros [Hd Ht]. exists k. rewrite Hd, Ht. split; [|done].
    apply (wf_data c Hwf). by rewrite Hd.
Qed.

Lemma step_values o c t r c' t' k v :
  wf c → step o c t = Some (r, c', t') → data_ c' !! k = Some v →
  data_ c !! k = Some v ∨ o = Add k v.
Proof.
  intros Hwf Hst Hd.
  destruct (step_spec o c t Hwf) as (r1 & c1 & t1 & Hst1 & _ & Hwf1 & _ & _ & _ & Habs).
  rewrite Hst in Hst1. simplify_eq.
  destruct (proj1 (wf_ts _ Hwf1 k)) as [ts Hts]; [apply (wf_data _ Hwf1); by rewrite Hd|].
  assert (Hin : (k, (v, ts)) ∈ (r1, abs c1).2) by (by apply elem_of_abs).
  rewrite Habs in Hin. apply spec_step_sub in Hin.
  pose proof (elem_of_abs c k v ts Hwf) as Ha. destruct o; simpl in Hin; naive_solver.
Qed.

Lemma run_ghost os c t g :
  wf c → (∀ e, e ∈ abs c → g !! e.1 = Some e.2) →
  ∃ rs c' t' g', run os c t = Some (rs, c', t') ∧ last_adds os c t g = Some g' ∧
    wf c' ∧ expireTimeMilliSec_ c' = expireTimeMilliSec_ c ∧
    (∀ e, e ∈ abs c' → g' !! e.1 = Some e.2).
Proof.
  revert c t g. induction os as [|o os IH]; intros c t g Hwf Hg; simpl.
  - eexists _, _, _, _. by split_and!.
  - destruct (step_spec o c t Hwf) as (r & c1 & t1 & -> & _ & Hwf1 & _ & He & _ & Habs). simpl.
    destruct (IH c1 t1 (ghost_step o t g) Hwf1) as (rs & c2 & t2 & g' & -> & -> & ? & He2 & ?).
    { intros e Hin. replace (abs c1) with (r, abs c1).2 in Hin by done. rewrite Habs in Hin.
      by eapply spec_step_ghost. }
    simpl. eexists _, _, _, _. split_and!; [done..|congruence|done].
Qed.

Lemma spec_get_Some expire now k (l : list entry) v l' :
  spec_get expire now k l = (Some v, l') →
  ∃ ts, (k, (v, ts)) ∈ l ∧ (0 < expire → now - ts ≤ expire).
Proof.
  unfold spec_get. destruct (list_find _ l) as [[i [k' [v' ts]]]|] eqn:E; [|done].
  apply list_find_Some in E as (Hi & Hk & _). simpl in Hk. subst k'.
  apply list_elem_of_lookup_2 in Hi.
  destruct (Z.ltb_spec 0 expire), (Z.ltb_spec expire (now - ts)); intros; simplify_eq/=;
    eexists; (split; [done|lia]).
Qed.

(** ** Retention: what the LRU policy promises *)

Definition touched (o : op) : option K :=
  match o with Add k _ | Get k => Some k | _ => None end.

(** The operations after which key [k] is not in its place any more. *)
Definition keeps (k : K) (o : op) : Prop :=
  match o with Add k' _ | Get k' | Remove k' => k' ≠ k | Clear => False end.

(** [k] is in the list with value [v] and stamp [ts], behind touched keys only. *)
Definition behind (k : K) (v : V) (ts : Z) (T : gset K) (l : list entry) : Prop :=
  ∃ l1 l2, l = l1 ++ ((k, (v, ts)) :: l2) ∧ (∀ e, e ∈ l1 → e.1 ∈ T) ∧ (k ∉ T) ∧ NoDup (l.*1).

Lemma behind_filter k v ts T T' (l : list entry) (P : entry → Prop) `{!∀ e, Decision (P e)} :
  behind k v ts T l → T ⊆ T' → k ∉ T' → P (k, (v, ts)) → behind k v ts T' (filter P l).
Proof.
  intros (l1 & l2 & -> & Hs & Hk & Hnd) HSS HkS HP.
  exists (filter P l1), (filter P l2). split_and!; [|..|done|].
  - by rewrite filter_app, filter_cons_True.
  - intros e [_ He]%list_elem_of_filter. set_solver.
  - eapply sublist_NoDup; [exact Hnd|]. apply fmap_sublist. apply sublist_filter.
Qed.

Lemma behind_cons k v ts T (l : list entry) e :
  behind k v ts T l → e.1 ∈ T → e.1 ∉ l.*1 → behind k v ts T (e :: l).
Proof.
  intros (l1 & l2 & -> & Hs & Hk & Hnd) He Hn. exists (e :: l1), l2.
  split_and!; [done|set_solver|done|]. rewrite fmap_cons. by constructor.
Qed.

Lemma NoDup_length_size (ks : list K) (T : gset K) :
  NoDup ks → (∀ k, k ∈ ks → k ∈ T) → (length ks ≤ size T)%nat.
Proof.
  intros Hnd Hs. rewrite <- (size_list_to_set (C := gset K) ks) by done.
  apply subseteq_size. intros k. rewrite elem_of_list_to_set. apply Hs.
Qed.

Lemma behind_removelast k v ts T (l : list entry) k' cap :
  behind k v ts T l → k' ∉ l.*1 → k' ∈ T → (size T < cap)%nat → (cap ≤ length l)%nat →
  behind k v ts T (removelast l).
Proof.
  intros (l1 & l2 & -> & Hs & Hk & Hnd) Hk' HkS Hsz Hlen.
  assert (S (length l1) ≤ size T)%nat as Hl1.
  { replace (Datatypes.S (length l1)) with (length (k' :: l1.*1)) by (simpl; by rewrite length_fmap).
    apply NoDup_length_size.
    - constructor; [set_solver|]. rewrite fmap_app in Hnd. by apply NoDup_app in Hnd as [? _].
    - intros x [->|(e & -> & He)%list_elem_of_fmap]%elem_of_cons; [done|by apply Hs]. }
  destruct l2 as [|x l2 _] using rev_ind.
  { rewrite length_app in Hlen; simpl in Hlen. lia. }
  rewrite app_comm_cons, app_assoc, removelast_last.
  exists l1, l2. split_and!; [done..|].
  eapply sublist_NoDup; [exact Hnd|]. apply fmap_sublist.
  rewrite app_comm_cons, (app_assoc l1). by apply sublist_inserts_r.
Qed.

Definition touch (T : gset K) (o : op) : gset K :=
  match touched o with Some k => {[k]} ∪ T | None => T end.

Lemma touch_sub T o : T ⊆ touch T o.
Proof. unfold touch. destruct (touched o); set_solver. Qed.

Lemma keeps_touch k T o : k ∉ T → keeps k o → k ∉ touch T o.
Proof. unfold touch. destruct o; simpl; set_solver. Qed.

Lemma spec_step_behind cap expire dead o now k v ts T (l : list entry) :
  behind k v ts T l → keeps k o → k ∉ dead → (size (touch T o) < cap)%nat →
  behind k v ts (touch T o) (spec_step cap expire dead o now l).2.
Proof.
  intros Hb Hk Hd Hsz. pose proof (touch_sub T o) as Hsub.
  assert (k ∉ touch T o) as Hkt by (destruct Hb as (? & ? & _ & _ & ? & _); by apply keeps_touch).
  assert (Hmono : ∀ P `{!∀ e, Decision (P e)}, P (k, (v, ts)) → behind k v ts (touch T o) (filter P l))
    by (intros; by apply (behind_filter k v ts T)).
  assert (behind k v ts (touch T o) l) as Hb'.
  { rewrite <- (filter_all (λ _, True) l) by done. by apply Hmono. }
  destruct o as [k' v'|k'|k'|]; simpl in *; [| | |done].
  - unfold spec_add. apply behind_cons; simpl.
    + destruct (decide (k' ∈ l.*1)); [by apply Hmono|]. destruct (Nat.ltb_spec (length l) cap); [done|].
      destruct dead as [|x dead]; [|by apply Hmono].
      apply behind_removelast with k' cap; [done..| |done|lia]. unfold touch; set_solver.
    + unfold touch; set_solver.
    + intros (e & -> & He)%list_elem_of_fmap.
      destruct (decide (e.1 ∈ l.*1)) as [Hin|Hin].
      * apply list_elem_of_filter in He as [? _]. done.
      * apply Hin, list_elem_of_fmap. exists e. split; [done|].
        destruct (length l <? cap)%nat; [done|]. destruct dead; [by apply elem_of_removelast|].
        by apply list_elem_of_filter in He as [_ ?].
  - unfold spec_get. destruct (list_find _ l) as [[i [k0 [v0 ts0]]]|]; [|done].
    destruct (_ && _); [by apply Hmono|]. apply behind_cons; simpl; [by apply Hmono| |].
    + unfold touch; set_solver.
    + intros (e & He1 & [? _]%list_elem_of_filter)%list_elem_of_fmap. simpl in *. congruence.
  - by apply Hmono.
Qed.

Lemma behind_data c k v ts T :
  wf c → behind k v ts T (abs c) → data_ c !! k = Some v ∧ timestamp_ c !! k = Some ts.
Proof.
  intros Hwf (l1 & l2 & Habs & _).
  apply elem_of_abs; [done|]. rewrite Habs; set_solver.
Qed.

Lemma run_behind os c t k v ts T rs c' t' :
  wf c → behind k v ts T (abs c) → Forall (keeps k) os →
  (size (foldl touch T os) < size_ c)%nat →
  (0 < expireTimeMilliSec_ c → ∀ i, (i < t')%nat → clk i - ts ≤ expireTimeMilliSec_ c) →
  run os c t = Some (rs, c', t') →
  wf c' ∧ expireTimeMilliSec_ c' = expireTimeMilliSec_ c ∧
  behind k v ts (foldl touch T os) (abs c').
Proof.
  revert c t T rs. induction os as [|o os IH]; intros c t T rs Hwf Hb Hks Hsz Hlive; simpl.
  { intros; simplify_eq. done. }
  apply Forall_cons in Hks as [Hk Hks].
  destruct (step_spec o c t Hwf) as (r & c1 & t1 & -> & Ht1 & Hwf1 & Hs & He & Hdead & Habs). simpl.
  destruct (run_wf os c1 t1 Hwf1) as (rs1 & c2 & t2 & Hr & Ht2 & _). rewrite Hr; simpl.
  intros; simplify_eq. simpl in Hsz. rewrite <- Hs in Hsz. rewrite <- He in *.
  eapply IH in Hr as (? & ? & ?); [split_and!; [done|congruence|done]|done| |done|done|done].
  replace (abs c1) with (r, abs c1).2 by done. rewrite Habs.
  apply spec_step_behind; [done|done| |].
  - intros Hin. destruct (Hdead k Hin) as (i & ts' & Hi & Hts & Hex & Hpos).
    destruct (behind_data c k v ts T Hwf Hb) as [_ Hts']. simplify_eq.
    specialize (Hlive Hpos i ltac:(lia)). lia.
  - rewrite <- Hs. eapply Nat.le_lt_trans; [|exact Hsz]. apply subseteq_size.
    clear. generalize (touch T o). induction os as [|o' os IH]; intros T'; simpl; [done|].
    etrans; [apply touch_sub|apply IH].
Qed.

(** A present, unexpired key is a hit. *)
Lemma DoGet_hit c t k v ts :
  wf c → data_ c !! k = Some v → timestamp_ c !! k = Some ts →
  (0 < expireTimeMilliSec_ c → clk t - ts ≤ expireTimeMilliSec_ c) →
  ∃ c' t', DoGet k c t = Some (Some v, c', t') ∧ wf c' ∧ data_ c' = data_ c ∧
    timestamp_ c' = timestamp_ c.
Proof.
  intros Hwf Hd Ht Hage. unfold DoGet. rewrite Hd, Ht. simpl.
  assert (Hin : k ∈ keys_ c) by (apply (wf_data c Hwf); by rewrite Hd).
  destruct (Z.ltb_spec 0 (expireTimeMilliSec_ c)); simpl.
  - unfold IsExpired. destruct (Z.ltb_spec (expireTimeMilliSec_ c) (clk t - ts)); [lia|].
    rewrite decide_True by done. eexists _, _. split; [done|]. by split; [apply splice_front_wf|].
  - rewrite decide_True by done. eexists _, _. split; [done|]. by split; [apply splice_front_wf|].
Qed.

Lemma DoAdd_lookup k v c t c1 t1 :
  wf c → DoAdd k v c t = Some (c1, t1) →
  wf c1 ∧ data_ c1 !! k = Some v ∧ timestamp_ c1 !! k = Some (clk t) ∧
  expireTimeMilliSec_ c1 = expireTimeMilliSec_ c ∧ size_ c1 = size_ c.
Proof.
  intros Hwf Ha. destruct (DoAdd_spec k v c t Hwf) as (c1' & t1' & Ha' & _ & Hwf1 & Hs & _ & Habs).
  rewrite Ha in Ha'. simplify_eq. split; [done|].
  assert (Hin : (k, (v, clk t)) ∈ abs c1') by (rewrite Habs; unfold spec_add; set_solver).
  apply elem_of_abs in Hin as [? ?]; [|done]. by rewrite (DoAdd_expire _ _ _ _ _ _ Ha).
Qed.

(** ** The properties of the cache *)

(** On every history of [Add], [Get], [Remove] and [Clear] of a freshly
    constructed cache no operation dereferences an end iterator or takes the
    back of an empty list, the three containers stay in step, and the cache
    never holds more entries than its capacity (at least one). *)
Theorem lru_history_safe cap e os t :
  ∃ rs c t', run os (ExpireLruCache cap e) t = Some (rs, c, t') ∧ wf c ∧
    length rs = length os ∧ (size (data_ c) ≤ Nat.max 1 cap)%nat.
Proof.
  destruct (run_wf os _ t (ExpireLruCache_wf cap e)) as (rs & c & t' & Hr & _ & Hwf & Hs & _ & Hl).
  exists rs, c, t'. split_and!; [done..|]. rewrite wf_size_data by done.
  pose proof (wf_bound c Hwf) as Hb. rewrite Hs in Hb. simpl in Hb.
  destruct (Nat.ltb_spec 0 cap); lia.
Qed.

(** C3: after any history, one more operation returns what the abstract
    recency list returns and leaves the containers representing the list the
    specification computes: the three containers implement one list of entries,
    most recently used first, from which a full cache drops the entries found
    expired or else the last one. *)
Theorem lru_refines_recency_list cap e os o t :
  ∃ rs c t1 r c' t2,
    run os (ExpireLruCache cap e) t = Some (rs, c, t1) ∧ step o c t1 = Some (r, c', t2) ∧
    (r, abs c') = spec_step (Nat.max 1 cap) (if e <? 0 then DEFAULT_EXPIRE_TIME else e)
                    (dead_at o c t1) o (clk t1) (abs c).
Proof.
  destruct (run_wf os _ t (ExpireLruCache_wf cap e)) as (rs & c & t1 & Hr & _ & Hwf & Hs & He & _).
  destruct (step_spec o c t1 Hwf) as (r & c' & t2 & Hst & _ & _ & _ & _ & _ & Habs).
  exists rs, c, t1, r, c', t2. split_and!; [done..|]. rewrite Habs, Hs, He; simpl.
  f_equal. destruct (Nat.ltb_spec 0 cap); lia.
Qed.

(** C39: A value [Get] returns is the one given to the latest [Add] of that key
    still in force (no [Remove] or [Clear] since), and under a positive expiry
    interval it was added at most that long before the call. *)
Theorem lru_get_fresh cap e os t k v rs c t1 c' t2 g :
  run os (ExpireLruCache cap e) t = Some (rs, c, t1) →
  last_adds os (ExpireLruCache cap e) t ∅ = Some g →
  DoGet k c t1 = Some (Some v, c', t2) →
  ∃ ts, g !! k = Some (v, ts) ∧ (0 < e → clk t1 - ts ≤ e).
Proof.
  intros Hr Hl Hg.
  destruct (run_ghost os (ExpireLruCache cap e) t ∅) as (rs' & c1 & t1' & g' & Hr' & Hl' & Hwf & He & Hgh);
    [apply ExpireLruCache_wf|set_solver|]. rewrite Hr in Hr'. rewrite Hl in Hl'. simplify_eq.
  destruct (DoGet_spec k c1 t1' Hwf) as (r & c2 & t3 & Hg' & _ & _ & _ & _ & Habs).
  rewrite Hg in Hg'. simplify_eq. symmetry in Habs.
  apply spec_get_Some in Habs as (ts & Hin & Hage). exists ts. split; [exact (Hgh _ Hin)|].
  intros He0. rewrite He in Hage. simpl in Hage. destruct (Z.ltb_spec e 0); lia.
Qed.

(** The cache keeps what the LRU policy promises.  After [Add k v], as long
    as fewer than [size_] distinct other keys are added or looked up, [k] is
    neither removed nor cleared, and no reading of the clock is later than the
    expiry, [Get k] returns [v]. *)
Theorem lru_retains c t k v c1 t1 os rs c2 t2 :
  wf c → DoAdd k v c t = Some (c1, t1) →
  Forall (keeps k) os → (size (foldl touch ∅ os) < size_ c)%nat →
  (0 < expireTimeMilliSec_ c → ∀ i, (i ≤ t2)%nat → clk i - clk t ≤ expireTimeMilliSec_ c) →
  run os c1 t1 = Some (rs, c2, t2) →
  ∃ c3 t3, DoGet k c2 t2 = Some (Some v, c3, t3).
Proof.
  intros Hwf Ha Hks Hsz Hlive Hr.
  destruct (DoAdd_spec k v c t Hwf) as (c1' & t1' & Ha' & _ & Hwf1 & Hs1 & _ & Habs).
  rewrite Ha in Ha'. simplify_eq. pose proof (DoAdd_expire _ _ _ _ _ _ Ha) as He1.
  rewrite <- Hs1 in Hsz. rewrite <- He1 in Hlive.
  destruct (run_behind os c1' t1' k v (clk t) ∅ rs c2 t2) as (Hwf2 & He2 & Hb); [done| |done|done| |done|].
  { exists [], (tail (abs c1')). split_and!; [by rewrite Habs|set_solver|set_solver|].
    rewrite abs_keys by done. apply Hwf1. }
  { intros Hp i Hi. apply Hlive; [done|lia]. }
  destruct (behind_data _ _ _ _ _ Hwf2 Hb) as [Hd Hts].
  destruct (DoGet_hit c2 t2 k v (clk t) Hwf2 Hd Hts) as (c3 & t3 & Hg & _); [|by exists c3, t3].
  rewrite He2. intros Hp. by apply Hlive.
Qed.
End cache.

(** ** Witnesses *)

Definition demo_clk (n : nat) : Z := 10 * Z.of_nat n.
Definition demo_ops : list (op (K := Z) (V := string)) :=
  [Add 1 "a"; Add 2 "b"; Get 1; Add 1 "c"; Remove 2].

Definition demo_cache : cache Z string :=
  mk_cache 2%nat 1000 {[1 := "c"%string]} {[1 := 30]} [1].

Lemma lru_get_fresh_witness :
  ∃ ts, last_adds Z.le demo_clk demo_ops (ExpireLruCache 2 1000) 0 ∅ = Some {[1 := ("c"%string, ts)]} ∧
    (0 < 1000 → demo_clk 4 - ts ≤ 1000).
Proof.
  assert (last_adds Z.le demo_clk demo_ops (ExpireLruCache 2 1000) 0 ∅
          = Some {[1 := ("c"%string, 30)]}) as Hl by (vm_compute; reflexivity).
  destruct (lru_get_fresh Z.le demo_clk 2 1000 demo_ops 0 1 "c"%string
              [None; None; Some "a"%string; None; None] demo_cache 4 demo_cache 5
              {[1 := ("c"%string, 30)]}) as (ts & Hg & Hage).
  - vm_compute; reflexivity.
  - exact Hl.
  - vm_compute; reflexivity.
  - exists ts. split; [|exact Hage].
    rewrite Hl. apply (f_equal (λ o, match o with Some p => p.2 | None => 0 end)) in Hg.
    vm_compute in Hg. subst ts. reflexivity.
Defined.

Definition demo_empty : cache Z string := ExpireLruCache 2 1000.
Definition demo_one : cache Z string := mk_cache 2%nat 1000 {[1 := "a"%string]} {[1 := 0]} [1].
Definition demo_two : cache Z string :=
  mk_cache 2%nat 1000 (<[2 := "b"%string]> {[1 := "a"%string]}) (<[2 := 10]> {[1 := 0]}) [2; 1].

Lemma lru_retains_witness :
  ∃ c3 t3, DoGet demo_clk 1 demo_two 3 = Some (Some "a"%string, c3, t3).
Proof.
  apply (lru_retains Z.le demo_clk demo_empty 0 1 "a"%string demo_one 1
           [Add 2 "b"%string; Get 2] [None; Some "b"%string] demo_two 3).
  - apply ExpireLruCache_wf.
  - vm_compute; reflexivity.
  - repeat constructor; discriminate.
  - vm_compute; lia.
  - intros _ i Hi. unfold demo_clk. simpl. lia.
  - vm_compute; reflexivity.
Defined.
