(* ===== verification/Interfaces.v ===== *)
(** * Interfaces: the code outside the repository

    What the program uses of code it does not contain, as type classes over an
    abstract carrier: [Json] is [nlohmann::json] with [ParseUtil::StringToJsonObj],
    [MessageParcel] the IPC parcel, [ParseUtil] the profile parser of the system
    ability manager, [StringUtil] the string helpers of the common utilities.
    The [*Laws] classes state the documented behaviour the theorems rely on;
    [DemoJson] and [DemoParcel] are instances that show the laws can hold. *)

From S2P Require Import Prelude.

(** A [std::u16string] as its list of 16-bit code units. *)
Abbreviation u16string := (list Z).

(** ** JSON values *)

Class Json (J : Type) := {
  jnull : J;                          (* [nlohmann::json x;] *)
  jcontains : J → string → bool;      (* [x.contains(k)] *)
  jat : J → string → J;               (* [x[k]] on a present key *)
  jset : string → J → J → J;          (* [x[k] = v] *)
  jis_number : J → bool;
  jis_string : J → bool;
  jint32 : J → Z;                     (* conversion to a 32-bit type *)
  jint64 : J → Z;                     (* conversion to a 64-bit type *)
  jstring : J → string;
  jof_int : Z → J;
  jof_string : string → J;
  jitems : J → list (string * J);     (* iteration from [begin()] to [end()] *)
  jdump : J → option string;          (* [x.dump()]; [None] when it throws *)
  StringToJsonObj : string → J;
}.

Class JsonLaws (J : Type) `{Json J} := {
  jobj : J → Prop;                    (* null or an object: what [x[k] = v] accepts *)
  jobj_null : jobj jnull;
  jobj_set k v j : jobj j → jobj (jset k v j);
  jcontains_null k : jcontains jnull k = false;
  jcontains_set k v j k' : jobj j →
    jcontains (jset k v j) k' = bool_decide (k = k') || jcontains j k';
  jat_set k v j k' : jobj j → jat (jset k v j) k' = if decide (k = k') then v else jat j k';
  jis_number_of_int z : jis_number (jof_int z) = true;
  jis_number_of_string s : jis_number (jof_string s) = false;
  jint32_of_int z : int32 z → jint32 (jof_int z) = z;
  jint64_of_int z : int32 z → jint64 (jof_int z) = z;
  jis_string_of_string s : jis_string (jof_string s) = true;
  jis_string_of_int z : jis_string (jof_int z) = false;
  jstring_of_string s : jstring (jof_string s) = s;
  jitems_spec j : jobj j →
    ∀ k v, (k, v) ∈ jitems j ↔ jcontains j k = true ∧ jat j k = v;
  jparse_dump j s : jobj j → jdump j = Some s → StringToJsonObj s = j;
}.

(** ** IPC parcels *)

Class MessageParcel (P : Type) := {
  ReadInt32 : P → option Z * P;
  ReadString : P → option string * P;            (* [bool ReadString(std::string&)] *)
  ReadStringValue : P → string * P;              (* [std::string ReadString()] *)
  ReadString16Vector : P → option (list u16string) * P;
  ReadFileDescriptor : P → Z * P;
  ReadInterfaceToken : P → u16string * P;
  ReadParcelable : ∀ {A}, (P → option A * P) → P → option A * P;
  WriteInt32 : Z → P → bool * P;
  WriteBool : bool → P → bool * P;
  WriteString : string → P → bool * P;
  WriteParcelable : (P → option bool * P) → P → option bool * P;
  WriteBuffer : list Z → P → bool * P;
  GetData : P → list Z;
  GetOffsetsSize : P → Z;
  GetMaxCapacity : P → Z;
  SetMaxCapacity : Z → P → P;
}.

(** The items of a parcel: 32 and 64 bit integers, strings as C++ and as Rust write
    them, and objects with the items they have marshalled. *)
Inductive pitem := PInt (z : Z) | PLong (z : Z) | PStr (s : string) | PText (s : string) | PObj (l : list pitem).

(** A parcel that takes a write holds the item behind the ones before, and a
    read takes the front item off. *)
Class ParcelLaws (P : Type) `{MessageParcel P} := {
  contents : P → list pitem;
  WriteInt32_contents z p p' : WriteInt32 z p = (true, p') → contents p' = contents p ++ [PInt z];
  WriteString_contents s p p' : WriteString s p = (true, p') → contents p' = contents p ++ [PStr s];
  ReadInt32_contents z r p : contents p = PInt z :: r →
    (ReadInt32 p).1 = Some z ∧ contents (ReadInt32 p).2 = r;
  ReadString_contents s r p : contents p = PStr s :: r →
    (ReadString p).1 = Some s ∧ contents (ReadString p).2 = r;
  ReadStringValue_contents s r p : contents p = PStr s :: r →
    (ReadStringValue p).1 = s ∧ contents (ReadStringValue p).2 = r;
}.

(** An object that appends its items is one item; what takes exactly these items off
    a parcel reads it back. *)
Class ParcelableLaws (P : Type) `{ParcelLaws P} := {
  WriteParcelable_contents m l p p' :
    (∀ q q', m q = (Some true, q') → contents q' = contents q ++ l) →
    WriteParcelable m p = (Some true, p') → contents p' = contents p ++ [PObj l];
  ReadParcelable_contents A (u : P → option A * P) l (a : A) r p :
    (∀ q s, contents q = l ++ s → (u q).1 = Some a ∧ contents (u q).2 = s) →
    contents p = PObj l :: r → (ReadParcelable u p).1 = Some a ∧ contents (ReadParcelable u p).2 = r;
}.

(** ** Profiles *)

(** The fields of [SaProfile] the program reads. *)
Record SaProfile := {
  saId : Z;
  libPath : string;
  dependSa : list Z;
  runOnCreate : bool;
  dependTimeout : Z;
  distributed : bool;
  dumpLevel : Z;
  bootPhase : Z;
  unusedTimeout : Z;    (* [stopOnDemand.unusedTimeout] *)
}.
#[export] Instance SaProfile_eq_dec : EqDecision SaProfile.
Proof. solve_decision. Defined.

Class ParseUtil (U : Type) := {
  ParseSaProfiles : string → U → bool * U;
  GetProcessName : U → u16string;
  GetAllSaProfiles : U → list SaProfile;
  GetProfile : Z → U → option SaProfile;
  CheckPathExist : string → U → bool;
  ParseTrustConfig : string → U → option (gmap u16string (gset Z));
  RemoveSaProfile : Z → U → U;
  ClearResource : U → U;
}.

(** Removing a profile drops the profiles of that ability and keeps the others. *)
Class ParseUtilLaws (U : Type) `{ParseUtil U} := {
  GetAllSaProfiles_Remove id u :
    GetAllSaProfiles (RemoveSaProfile id u) = filter (λ p, saId p ≠ id) (GetAllSaProfiles u);
}.

Class StringUtil := {
  SplitStr : string → string → list string;
  StrToInt : string → option Z;
  Str16ToStr8 : u16string → string;
  Str8ToStr16 : string → u16string;
}.

(** ** Constants of the system ability manager's headers *)

(** The request codes of the stub, by name. *)
Inductive SafwkInterfaceCode :=
| START_ABILITY_TRANSACTION | STOP_ABILITY_TRANSACTION | ACTIVE_ABILITY_TRANSACTION
| IDLE_ABILITY_TRANSACTION | SEND_STRATEGY_TO_SA_TRANSACTION | IPC_STAT_CMD_TRANSACTION
| FFRT_DUMPER_TRANSACTION | SYSTEM_ABILITY_EXT_TRANSACTION | FFRT_STAT_CMD_TRANSACTION
| SERVICE_CONTROL_CMD_TRANSACTION.
#[export] Instance SafwkInterfaceCode_eq_dec : EqDecision SafwkInterfaceCode.
Proof. solve_decision. Defined.

Class SamgrDefs := {
  FIRST_SYS_ABILITY_ID : Z;
  LAST_SYS_ABILITY_ID : Z;
  INVALID_DATA : Z;
  ERR_NULL_OBJECT : Z;
  ERR_PERMISSION_DENIED : Z;
  ON_ADD_SYSTEM_ABILITY : Z;
  ON_REMOVE_SYSTEM_ABILITY : Z;
  PERMISSION_GRANTED : Z;
  LOCAL_ABILITY_MANAGER_INTERFACE_TOKEN : u16string;
  code_value : SafwkInterfaceCode → Z;
  SAFWK_ENABLE_RUN_ON_DEMAND_QOS : bool;      (* a build flag *)
}.

(** They are distinct where the code tells them apart. *)
Class SamgrDefsLaws `{SamgrDefs} := {
  add_remove_distinct : ON_ADD_SYSTEM_ABILITY ≠ ON_REMOVE_SYSTEM_ABILITY;
  code_value_inj c c' : code_value c = code_value c' → c = c';
  null_object_error : ERR_NULL_OBJECT ≠ 0;
  invalid_data_error : INVALID_DATA ≠ 0;
  permission_denied_error : ERR_PERMISSION_DENIED ≠ 0;
}.

Module DemoDefs.
Definition demo_code (c : SafwkInterfaceCode) : Z :=
  match c with
  | START_ABILITY_TRANSACTION => 1 | STOP_ABILITY_TRANSACTION => 2 | ACTIVE_ABILITY_TRANSACTION => 3
  | IDLE_ABILITY_TRANSACTION => 4 | SEND_STRATEGY_TO_SA_TRANSACTION => 5 | IPC_STAT_CMD_TRANSACTION => 6
  | FFRT_DUMPER_TRANSACTION => 7 | SYSTEM_ABILITY_EXT_TRANSACTION => 8 | FFRT_STAT_CMD_TRANSACTION => 9
  | SERVICE_CONTROL_CMD_TRANSACTION => 10
  end.
#[global] Instance demo_defs : SamgrDefs := {
  FIRST_SYS_ABILITY_ID := 0;
  LAST_SYS_ABILITY_ID := 16777215;
  INVALID_DATA := 5;
  ERR_NULL_OBJECT := 7;
  ERR_PERMISSION_DENIED := 12;
  ON_ADD_SYSTEM_ABILITY := 1;
  ON_REMOVE_SYSTEM_ABILITY := 2;
  PERMISSION_GRANTED := 0;
  LOCAL_ABILITY_MANAGER_INTERFACE_TOKEN := [76; 65; 77];
  code_value := demo_code;
  SAFWK_ENABLE_RUN_ON_DEMAND_QOS := true;
}.
#[global] Instance demo_defs_laws : SamgrDefsLaws.
Proof. split; try done. by intros [] []. Qed.
End DemoDefs.

(** ** A JSON implementation of the laws *)

Module DemoJson.
Inductive dj := DNull | DInt (z : Z) | DStr (s : string) | DObj (l : list (string * dj)).

Fixpoint assoc (k : string) (l : list (string * dj)) : option dj :=
    match l with
    | [] => None
    | (k', v) :: l' => if decide (k' = k) then Some v else assoc k l'
    end.

Definition fields (j : dj) : list (string * dj) := match j with DObj l => l | _ => [] end.

Fixpoint pos_bits (p : positive) : string :=
    match p with xH => "" | xO q => String "0"%char (pos_bits q) | xI q => String "1"%char (pos_bits q) end.
Fixpoint bits_pos (s : string) : positive :=
    match s with
    | EmptyString => xH
    | String a s' => if decide (a = "1"%char) then xI (bits_pos s') else xO (bits_pos s')
    end.

Lemma bits_pos_bits p : bits_pos (pos_bits p) = p.
  Proof. induction p; simpl; congruence. Qed.

  (** Only objects of strings have a dump here. *)
Definition flat (j : dj) : option (option (list (string * string))) :=
    match j with
    | DNull => Some None
    | DObj l => Some <$> mapM (λ '(k, v), match v with DStr s => Some (k, s) | _ => None end) l
    | _ => None
    end.
Definition unflat (o : option (list (string * string))) : dj :=
    match o with None => DNull | Some l => DObj ((λ '(k, s), (k, DStr s)) <$> l) end.

Lemma unflat_flat j o : flat j = Some o → unflat o = j.
  Proof.
    destruct j as [| | |l]; simpl; intros Hf; simplify_eq/=; try done.
    destruct (mapM _ l) as [k|] eqn:E; simplify_eq/=. f_equal.
    revert k E. induction l as [|[x v] l IH]; intros k E; simpl in E.
    { by injection E as <-. }
    destruct v as [| |s|]; try discriminate E. simpl in E.
    destruct (mapM _ l) as [k'|] eqn:E'; [|discriminate E]. simpl in E. injection E as <-.
    simpl. f_equal. by apply IH.
  Qed.

#[global] Instance demo_json : Json dj := {
    jnull := DNull;
    jcontains j k := bool_decide (is_Some (assoc k (fields j)));
    jat j k := default DNull (assoc k (fields j));
    jset k v j := DObj ((k, v) :: filter (λ e, e.1 ≠ k) (fields j));
    jis_number j := match j with DInt _ => true | _ => false end;
    jis_string j := match j with DStr _ => true | _ => false end;
    jint32 j := match j with DInt z => wrap32 z | _ => 0 end;
    jint64 j := match j with DInt z => z | _ => 0 end;
    jstring j := match j with DStr s => s | _ => "" end;
    jof_int := DInt;
    jof_string := DStr;
    jitems := fields;
    jdump j := (λ o, pos_bits (encode o)) <$> flat j;
    StringToJsonObj s := match decode (bits_pos s) with Some o => unflat o | None => DNull end;
  }.

Lemma assoc_elem l k v : NoDup l.*1 → (k, v) ∈ l ↔ assoc k l = Some v.
  Proof.
    induction l as [|[k' v'] l IH]; simpl; [set_solver|].
    intros [Hn Hnd]%NoDup_cons. rewrite elem_of_cons. case_decide; subst.
    - split; [|naive_solver]. intros [?|Hin]; [naive_solver|].
      destruct Hn. apply list_elem_of_fmap. by exists (k, v).
    - rewrite <- IH by done. naive_solver.
  Qed.

Lemma assoc_filter l k k' :
    assoc k' (filter (λ e, e.1 ≠ k) l) = if decide (k = k') then None else assoc k' l.
  Proof.
    induction l as [|[x v] l IH]; simpl; [by case_decide|].
    destruct (decide (x = k)) as [->|Hne].
    - rewrite filter_cons_False by (simpl; tauto). rewrite IH. repeat case_decide; congruence.
    - rewrite filter_cons_True by done. simpl. rewrite IH. repeat case_decide; congruence.
  Qed.

#[global] Instance demo_json_laws : JsonLaws dj.
  Proof.
    refine {| jobj j := match j with DNull => True | DObj l => NoDup l.*1 | _ => False end |};
      try done; simpl.
    - intros k v j Hj. constructor.
      + intros (e & -> & [? _]%list_elem_of_filter)%list_elem_of_fmap. done.
      + destruct j as [| | |l]; simpl; try by constructor.
        eapply sublist_NoDup; [exact Hj|]. apply fmap_sublist, sublist_filter.
    - intros k v j k' Hj. rewrite assoc_filter.
      destruct (decide (k = k')).
      { rewrite (bool_decide_eq_true_2 (k = k')) by done. by apply bool_decide_eq_true_2. }
      by rewrite (bool_decide_eq_false_2 (k = k')).
    - intros k v j k' Hj. rewrite assoc_filter. by destruct (decide (k = k')).
    - intros z Hz. by apply wrap32_id.
    - intros j Hj k v. destruct j as [| | |l]; simpl; try set_solver.
      rewrite assoc_elem by done. destruct (assoc k l) as [v'|]; simpl; naive_solver.
    - intros j s Hj. destruct (flat j) as [o|] eqn:E; intros; simplify_eq/=.
      rewrite bits_pos_bits, decode_encode. by apply unflat_flat.
  Defined.
End DemoJson.

(** ** A parcel implementation of the laws *)

Module DemoParcel.
  (** A list of items with a capacity (in items) that bounds the writes, and
      the file descriptors and tokens it carries. *)
Record dp := mk_dp {
    items : list pitem; cap : nat; fd : Z; token : u16string; bytes : list Z; maxcap : Z
  }.
Definition set_items (p : dp) l := mk_dp l (cap p) (fd p) (token p) (bytes p) (maxcap p).
Definition push (i : pitem) (p : dp) : bool * dp :=
    if Nat.ltb (length (items p)) (cap p) then (true, set_items p (items p ++ [i])) else (false, p).
Definition pop (p : dp) : option pitem * dp :=
    match items p with [] => (None, p) | i :: l => (Some i, set_items p l) end.
Definition pop_int (p : dp) : option Z * dp :=
    match pop p with (Some (PInt z), p') => (Some z, p') | (_, p') => (None, p') end.
Definition pop_str (p : dp) : option string * dp :=
    match pop p with (Some (PStr z), p') => (Some z, p') | (_, p') => (None, p') end.

#[global] Instance demo_parcel : MessageParcel dp := {
    ReadInt32 := pop_int;
    ReadString := pop_str;
    ReadStringValue p := (default "" (pop_str p).1, (pop_str p).2);
    ReadString16Vector p := (Some [], p);
    ReadFileDescriptor p := (fd p, p);
    ReadInterfaceToken p := (token p, p);
    ReadParcelable A f p :=
      match items p with
      | PObj l :: r => let '(a, _) := f (set_items p l) in (a, set_items p r)
      | _ => (None, p)
      end;
    WriteInt32 z := push (PInt z);
    WriteBool b := push (PInt (if b then 1 else 0));
    WriteString s := push (PStr s);
    WriteParcelable f p :=
      match f (set_items p []) with
      | (Some true, q) => let '(b, p') := push (PObj (items q)) p in (Some b, p')
      | (r, _) => (r, p)
      end;
    WriteBuffer l p := (true, mk_dp (items p) (cap p) (fd p) (token p) (bytes p ++ l) (maxcap p));
    GetData := bytes;
    GetOffsetsSize p := 0;
    GetMaxCapacity := maxcap;
    SetMaxCapacity n p := mk_dp (items p) (cap p) (fd p) (token p) (bytes p) n;
  }.

#[global] Instance demo_parcel_laws : ParcelLaws dp.
  Proof.
    refine {| contents := items |}; simpl; unfold push, pop_int, pop_str, pop.
    - intros. by case_match; simplify_eq.
    - intros. by case_match; simplify_eq.
    - by intros z r p ->.
    - by intros z r p ->.
    - by intros z r p ->.
  Defined.

#[global] Instance demo_parcelable : ParcelableLaws dp.
  Proof.
    split; cbn.
    - intros m l p p' Hm Hw. destruct (m (set_items p [])) as [[[]|] q] eqn:Eq; [|done..].
      unfold push in Hw. destruct (length (items p) <? cap p)%nat; [|done]. injection Hw as <-.
      cbn. by rewrite (Hm _ _ Eq).
    - intros A u l a r p Hu ->. destruct (Hu (set_items p l) []) as [Ha _]; [cbn; by rewrite app_nil_r|].
      by destruct (u (set_items p l)) as [o q].
  Defined.

Definition empty_parcel (n : nat) : dp := mk_dp [] n (-1) [] [] 0.
End DemoParcel.

(** ** A profile parser and string helpers for the witnesses *)

Module DemoProfiles.
Record du := mk_du { proc : u16string; profiles : list SaProfile; trust : option (gmap u16string (gset Z)) }.

#[global] Instance demo_parse_util : ParseUtil du := {
  ParseSaProfiles path u := (negb (bool_decide (profiles u = [])), u);
  GetProcessName := proc;
  GetAllSaProfiles := profiles;
  GetProfile id u := snd <$> list_find (λ p, saId p = id) (profiles u);
  CheckPathExist path u := bool_decide (is_Some (trust u));
  ParseTrustConfig path u := trust u;
  RemoveSaProfile id u := mk_du (proc u) (filter (λ p, saId p ≠ id) (profiles u)) (trust u);
  ClearResource u := mk_du (proc u) [] (trust u);
}.

#[global] Instance demo_parse_util_laws : ParseUtilLaws du.
Proof. by split. Qed.

#[global] Instance demo_string_util : StringUtil := {
  SplitStr s sep := [s];
  StrToInt s := None;
  Str16ToStr8 s := "proc";
  Str8ToStr16 s := [100];
}.

Definition demo_profile (id : Z) (roc : bool) (phase : Z) (deps : list Z) (unused : Z) : SaProfile :=
  Build_SaProfile id "libdemo.z.so" deps roc 6000 false 0 phase unused.
End DemoProfiles.
