(* ===== verification/ApiCacheManager.v ===== *)
(** * ApiCacheManager: the client-side cache of IPC replies

    Models [services/safwk/src/api_cache_manager.cpp].  The manager owns one
    [ExpireLruCache] per registered pair (interface descriptor, api code), keyed
    by the request bytes and holding the reply bytes.  Every public operation
    takes [cachesMutex_] for its whole body, so operations are atomic.  The
    state is the map [caches_] with the number of clock readings so far; a
    result [None] is undefined behaviour. *)

From S2P Require Import Prelude Interfaces ExpireLruCache.

(** The lexicographic order of [std::vector<uint8_t>], the key order of the caches. *)
Fixpoint lex_leb (a b : list Z) : bool :=
  match a, b with
  | [], _ => true
  | _ :: _, [] => false
  | x :: a', y :: b' => if x =? y then lex_leb a' b' else x <? y
  end.
Definition lex_le (a b : list Z) : Prop := lex_leb a b = true.
#[export] Instance lex_le_dec : RelDecision lex_le.
Proof. intros a b; unfold lex_le; apply _. Defined.

Abbreviation api_cache := (cache (list Z) (list Z)).
(** The pointer stored in the map: [None] is a null pointer. *)
Abbreviation caches := (gmap (u16string * Z) (option api_cache)).

Section api_cache_manager.
  Context {P : Type} `{!MessageParcel P} (clk : nat → Z).

Definition GetDataSize (p : P) : Z := Z.of_nat (length (GetData p)).

(* [services/safwk/src/api_cache_manager.cpp:33-48] ApiCacheManager::AddCacheApi *)
Definition AddCacheApi (descriptor : u16string) (apiCode expireTimeSec : Z) (m : caches) : caches :=
  match m !! (descriptor, apiCode) with
  | None => <[(descriptor, apiCode) := Some (ExpireLruCache 8 expireTimeSec)]> m
  | Some _ => m
  end.

(* [services/safwk/src/api_cache_manager.cpp:50-64] ApiCacheManager::DelCacheApi *)
Definition DelCacheApi (descriptor : u16string) (apiCode : Z) (m : caches) : caches :=
  match m !! (descriptor, apiCode) with
  | Some _ => delete (descriptor, apiCode) m
  | None => m
  end.

Definition clear_ptr (o : option api_cache) : option api_cache :=
  match o with Some c => Some (DoClear c) | None => None end.

(* [services/safwk/src/api_cache_manager.cpp:66-77] ApiCacheManager::ClearCache *)
Definition ClearCache (m : caches) : caches := clear_ptr <$> m.

(* [services/safwk/src/api_cache_manager.cpp:79-90] ApiCacheManager::ClearCache *)
Definition ClearCacheOf (descriptor : u16string) (m : caches) : caches :=
  map_imap (λ k o, Some (if decide (k.1 = descriptor) then clear_ptr o else o)) m.

(** [apiCode] is an [int32_t] here and is converted to the [uint32_t] of the key. *)
(* [services/safwk/src/api_cache_manager.cpp:92-103] ApiCacheManager::ClearCache *)
Definition ClearCacheApi (descriptor : u16string) (apiCode : Z) (m : caches) : caches :=
  match m !! (descriptor, wrapu32 apiCode) with
  | Some (Some c) => <[(descriptor, wrapu32 apiCode) := Some (DoClear c)]> m
  | _ => m
  end.

(* [services/safwk/src/api_cache_manager.cpp:105-138] ApiCacheManager::PreSendRequest *)
Definition PreSendRequest (descriptor : u16string) (apiCode : Z) (data reply : P)
    (m : caches) (t : nat) : option (bool * P * caches * nat) :=
  let keyVec := GetData data in
  match m !! (descriptor, apiCode) with
  | Some (Some c) =>
      '(valueVec, c', t') ← DoGet clk keyVec c t;
      let m' := <[(descriptor, apiCode) := Some c']> m in
      match valueVec with
      | None => Some (false, reply, m', t')
      | Some v =>
          let size := wrapu64 (GetDataSize reply + Z.of_nat (length v)) in
          let reply1 := if GetMaxCapacity reply <? size then SetMaxCapacity size reply else reply in
          (* [&( *valueVec)[0]] needs a first element *)
          match v with
          | [] => None
          | _ :: _ => let '(ret, reply2) := WriteBuffer v reply1 in Some (ret, reply2, m', t')
          end
      end
  | _ => Some (false, reply, m, t)
  end.

(* [services/safwk/src/api_cache_manager.cpp:140-168] ApiCacheManager::PostSendRequest *)
Definition PostSendRequest (descriptor : u16string) (apiCode : Z) (data reply : P)
    (m : caches) (t : nat) : option (bool * caches * nat) :=
  if negb (GetOffsetsSize data =? 0) || negb (GetOffsetsSize reply =? 0) then Some (false, m, t)
  else
    match m !! (descriptor, apiCode) with
    | Some (Some c) =>
        '(c', t') ← DoAdd lex_le clk (GetData data) (GetData reply) c t;
        Some (true, <[(descriptor, apiCode) := Some c']> m, t')
    | _ => Some (false, m, t)
    end.

(** The public operations of the singleton, as the steps of a history. *)
(* [interfaces/innerkits/safwk/api_cache_manager.h:24-41] ApiCacheManager *)
Inductive api_op :=
| OpAdd (d : u16string) (a e : Z)
| OpDel (d : u16string) (a : Z)
| OpClear
| OpClearOf (d : u16string)
| OpClearApi (d : u16string) (a : Z)
| OpPre (d : u16string) (a : Z) (data reply : P)
| OpPost (d : u16string) (a : Z) (data reply : P).

Definition api_step (o : api_op) (m : caches) (t : nat) : option (caches * nat) :=
  match o with
  | OpAdd d a e => Some (AddCacheApi d a e m, t)
  | OpDel d a => Some (DelCacheApi d a m, t)
  | OpClear => Some (ClearCache m, t)
  | OpClearOf d => Some (ClearCacheOf d m, t)
  | OpClearApi d a => Some (ClearCacheApi d a m, t)
  | OpPre d a data reply => '(_, _, m', t') ← PreSendRequest d a data reply m t; Some (m', t')
  | OpPost d a data reply => '(_, m', t') ← PostSendRequest d a data reply m t; Some (m', t')
  end.

(** The pair of the map an operation is about; [None] for all pairs. *)
Definition api_scope (o : api_op) (k : u16string * Z) : Prop :=
  match o with
  | OpAdd d a _ | OpDel d a | OpPre d a _ _ | OpPost d a _ _ => k = (d, a)
  | OpClear => True
  | OpClearOf d => k.1 = d
  | OpClearApi d a => k = (d, wrapu32 a)
  end.

Fixpoint api_run (os : list api_op) (m : caches) (t : nat) : option (caches * nat) :=
  match os with
  | [] => Some (m, t)
  | o :: os' => '(m', t') ← api_step o m t; api_run os' m' t'
  end.

(** Every stored pointer is non-null and its cache is well formed; with [ne],
    no cache holds an empty reply. *)
Definition caches_wf (m : caches) : Prop :=
  map_Forall (λ _ o, ∃ c, o = Some c ∧ wf c) m.
Definition no_empty_reply (m : caches) : Prop :=
  map_Forall (λ _ o, ∀ c, o = Some c → map_Forall (λ _ v, v ≠ []) (data_ c)) m.

(** The reply handed to [PostSendRequest] is not empty. *)
Definition reply_nonempty (o : api_op) : Prop :=
  match o with OpPost _ _ _ reply => GetData reply ≠ [] | _ => True end.

(** ** Invariants *)

Lemma caches_wf_insert m k c : caches_wf m → wf c → caches_wf (<[k := Some c]> m).
Proof. intros Hm Hc. apply map_Forall_insert_2; [by exists c|done]. Qed.

Lemma caches_wf_lookup m k o : caches_wf m → m !! k = Some o → ∃ c, o = Some c ∧ wf c.
Proof. intros Hm Hk. exact (Hm k o Hk). Qed.

Lemma no_empty_insert m k c :
  no_empty_reply m → map_Forall (λ _ v, v ≠ []) (data_ c) → no_empty_reply (<[k := Some c]> m).
Proof. intros Hm Hc. apply map_Forall_insert_2; [by intros c' [= <-]|done]. Qed.

Lemma no_empty_step m k c t o r c' t' :
  no_empty_reply m → m !! k = Some (Some c) → wf c →
  step lex_le clk o c t = Some (r, c', t') →
  (∀ key v, o = Add key v → v ≠ []) →
  map_Forall (λ _ v, v ≠ []) (data_ c').
Proof.
  intros Hm Hk Hwf Hst Ho key v Hv.
  destruct (step_values _ _ _ _ _ _ _ _ _ _ Hwf Hst Hv) as [Hv'|Hv'].
  - exact (Hm k (Some c) Hk c eq_refl key v Hv').
  - by apply (Ho key).
Qed.

(** A reply that is handed out comes from the cache it was looked up in. *)
Lemma DoGet_value (key : list Z) (c c' : api_cache) (t t' : nat) (v : list Z) : DoGet clk key c t = Some (Some v, c', t') → data_ c !! key = Some v.
Proof.
  unfold DoGet. destruct (data_ c !! key) as [v'|]; [|done]. intros Hg.
  destruct (0 <? expireTimeMilliSec_ c); [destruct (timestamp_ c !! key); [|done]|];
    simpl in Hg; repeat (case_match; simplify_eq/=); done.
Qed.

Lemma pre_step_ok d a data reply m t :
  caches_wf m → no_empty_reply m → reply_nonempty (OpPre d a data reply) →
  ∃ m' t', api_step (OpPre d a data reply) m t = Some (m', t') ∧ caches_wf m' ∧ no_empty_reply m'.
Proof.
  intros Hm Hn Ho. simpl. unfold PreSendRequest. destruct (m !! (d, a)) as [[c|]|] eqn:E; [|by eexists _, _..].
  destruct (Hm _ _ E) as (c0 & [= <-] & Hc).
  destruct (DoGet_spec clk (GetData data) c t Hc) as (r & c' & t' & Hg & _ & Hwf' & _).
  assert (no_empty_reply (<[(d, a) := Some c']> m)).
  { apply no_empty_insert; [done|].
    by apply (no_empty_step m (d, a) c t (Get (GetData data)) r c' t'). }
  rewrite Hg; simpl. destruct r as [v|]; [|eexists _, _; split; [done|]; by split; [apply caches_wf_insert|]].
  destruct v as [|x v].
  { destruct (Hn _ _ E c eq_refl (GetData data) []); [by apply DoGet_value in Hg|done]. }
  destruct (WriteBuffer _ _) as [ret reply2]. simpl.
  eexists _, _. split; [done|]. by split; [apply caches_wf_insert|].
Qed.

Lemma post_step_ok d a data reply m t :
  caches_wf m → no_empty_reply m → reply_nonempty (OpPost d a data reply) →
  ∃ m' t', api_step (OpPost d a data reply) m t = Some (m', t') ∧ caches_wf m' ∧ no_empty_reply m'.
Proof.
  intros Hm Hn Ho. simpl. unfold PostSendRequest. destruct (_ || _); [by eexists _, _|].
  destruct (m !! (d, a)) as [[c|]|] eqn:E; [|by eexists _, _..].
  destruct (Hm _ _ E) as (c0 & [= <-] & Hc).
  destruct (DoAdd_spec lex_le clk (GetData data) (GetData reply) c t Hc) as (c' & t' & Ha & _ & Hwf' & _).
  rewrite Ha; simpl. eexists _, _. split; [done|]. split; [by apply caches_wf_insert|].
  apply no_empty_insert; [done|].
  apply (no_empty_step m (d, a) c t (Add (GetData data) (GetData reply)) None c' t'); try done.
  + simpl. by rewrite Ha.
  + by intros key v [= <- <-].
Qed.

Lemma api_step_ok o m t :
  caches_wf m → no_empty_reply m → reply_nonempty o →
  ∃ m' t', api_step o m t = Some (m', t') ∧ caches_wf m' ∧ no_empty_reply m'.
Proof.
  intros Hm Hn Ho. destruct o as [d a e|d a| |d|d a|d a data reply|d a data reply]; simpl.
  - eexists _, _. split; [done|]. unfold AddCacheApi. destruct (m !! (d, a)); [done|].
    split; [apply caches_wf_insert; [done|apply ExpireLruCache_wf]|].
    apply no_empty_insert; [done|]. apply map_Forall_empty.
  - eexists _, _. split; [done|]. unfold DelCacheApi. destruct (m !! (d, a)); [|done].
    split; by apply map_Forall_delete.
  - eexists _, _. split; [done|]. unfold ClearCache. split; apply map_Forall_fmap; intros k o Hk.
    + destruct (Hm k o Hk) as (c & -> & Hc). exists (DoClear c). split; [done|by apply DoClear_wf].
    + destruct (Hm k o Hk) as (c & -> & Hc). intros c' [= <-]. apply map_Forall_empty.
  - eexists _, _. split; [done|]. unfold ClearCacheOf.
    split; intros k o; rewrite map_lookup_imap; destruct (m !! k) as [o'|] eqn:E; simpl; [|done| |done];
      intros [= <-]; destruct (Hm k o' E) as (c & -> & Hc); case_decide; simpl.
    + exists (DoClear c). split; [done|by apply DoClear_wf].
    + by exists c.
    + intros c' [= <-]. apply map_Forall_empty.
    + intros c' [= <-]. by apply (Hn k _ E).
  - eexists _, _. split; [done|]. unfold ClearCacheApi. destruct (m !! _) as [[c|]|] eqn:E; [|done..].
    destruct (Hm _ _ E) as (c0 & [= <-] & Hc).
    split; [apply caches_wf_insert; [done|by apply DoClear_wf]|].
    apply no_empty_insert; [done|apply map_Forall_empty].
  - by apply pre_step_ok.
  - by apply post_step_ok.
Qed.

(** ** Properties *)

(** C21: over every history of the manager in which no empty reply is cached, no
    operation runs into undefined behaviour, every stored pointer is non-null
    and every cache is well formed. *)
Theorem api_history_safe os t :
  Forall reply_nonempty os →
  ∃ m t', api_run os ∅ t = Some (m, t') ∧ caches_wf m ∧ no_empty_reply m.
Proof.
  assert (∀ m, caches_wf m → no_empty_reply m → Forall reply_nonempty os →
    ∃ m' t', api_run os m t = Some (m', t') ∧ caches_wf m' ∧ no_empty_reply m') as Hgen.
  { revert t. induction os as [|o os IH]; intros t m Hm Hn Hos; simpl; [by eexists _, _|].
    apply Forall_cons in Hos as [Ho Hos].
    destruct (api_step_ok o m t Hm Hn Ho) as (m1 & t1 & -> & ? & ?). simpl. by apply IH. }
  apply Hgen; apply map_Forall_empty.
Qed.

(** Caching an empty reply is a trap: once [PostSendRequest] has stored one
    for a request, a later [PreSendRequest] of the same request, within the
    expiry, takes the address of the first element of an empty vector. *)
Theorem api_empty_reply_undefined d a data reply reply' m m' c t t1 t2 :
  caches_wf m → m !! (d, a) = Some (Some c) → GetData reply = [] →
  PostSendRequest d a data reply m t = Some (true, m', t1) →
  (0 < expireTimeMilliSec_ c → clk t2 - clk t ≤ expireTimeMilliSec_ c) →
  PreSendRequest d a data reply' m' t2 = None.
Proof.
  intros Hm Hk Hr Hpost Hage. destruct (Hm _ _ Hk) as (c0 & [= <-] & Hc).
  unfold PostSendRequest in Hpost. rewrite Hk in Hpost. destruct (_ || _); [done|].
  destruct (DoAdd _ _ _ _ _ _) as [[c1 t1']|] eqn:Ha; simplify_eq/=.
  destruct (DoAdd_lookup _ _ _ _ _ _ _ _ Hc Ha) as (Hwf1 & Hd & Hts & He & _).
  destruct (DoGet_hit clk c1 t2 _ _ _ Hwf1 Hd Hts) as (c2 & t3 & Hg & _); [by rewrite He|].
  unfold PreSendRequest. rewrite lookup_insert_eq, Hg, Hr. done.
Qed.

(** C30: the reply of a call comes back.  After [PostSendRequest] has accepted a
    non-empty reply, a [PreSendRequest] of the same request within the expiry
    writes exactly the bytes of that reply into the buffer it is given, whose
    capacity is raised first when they would not fit, and returns what the
    write returns. *)
Theorem api_cache_roundtrip d a data reply reply' m m' c t t1 t2 :
  caches_wf m → m !! (d, a) = Some (Some c) → GetData reply ≠ [] →
  PostSendRequest d a data reply m t = Some (true, m', t1) →
  (0 < expireTimeMilliSec_ c → clk t2 - clk t ≤ expireTimeMilliSec_ c) →
  let size := wrapu64 (GetDataSize reply' + GetDataSize reply) in
  let room := if GetMaxCapacity reply' <? size then SetMaxCapacity size reply' else reply' in
  ∃ m'' t3, PreSendRequest d a data reply' m' t2 =
    Some ((WriteBuffer (GetData reply) room).1, (WriteBuffer (GetData reply) room).2, m'', t3).
Proof.
  intros Hm Hk Hr Hpost Hage size room. destruct (Hm _ _ Hk) as (c0 & [= <-] & Hc).
  unfold PostSendRequest in Hpost. rewrite Hk in Hpost. destruct (_ || _); [done|].
  destruct (DoAdd _ _ _ _ _ _) as [[c1 t1']|] eqn:Ha; simplify_eq/=.
  destruct (DoAdd_lookup _ _ _ _ _ _ _ _ Hc Ha) as (Hwf1 & Hd & Hts & He & _).
  destruct (DoGet_hit clk c1 t2 _ _ _ Hwf1 Hd Hts) as (c2 & t3 & Hg & _); [by rewrite He|].
  unfold PreSendRequest. rewrite lookup_insert_eq, Hg. simpl.
  fold (GetDataSize reply). fold size. fold room.
  destruct (GetData reply) as [|x v]; [done|].
  destruct (WriteBuffer (x :: v) room). by eexists _, _.
Qed.

(** An operation changes no cache outside its scope: those named by a
    descriptor and code touch that pair only, [ClearCache(descriptor)] the pairs
    of that descriptor only. *)
Theorem api_step_frame o m t m' t' k :
  api_step o m t = Some (m', t') → ¬ api_scope o k → m' !! k = m !! k.
Proof.
  destruct o as [d a e|d a| |d|d a|d a data reply|d a data reply]; simpl; intros Hst Hk.
  - simplify_eq. unfold AddCacheApi. destruct (m !! (d, a)); [done|]. by rewrite lookup_insert_ne.
  - simplify_eq. unfold DelCacheApi. destruct (m !! (d, a)); [|done]. by rewrite lookup_delete_ne.
  - done.
  - simplify_eq. unfold ClearCacheOf. rewrite map_lookup_imap.
    destruct (m !! k); simpl; [|done]. by rewrite decide_False.
  - simplify_eq. unfold ClearCacheApi. destruct (m !! _) as [[c|]|]; [|done..].
    by rewrite lookup_insert_ne.
  - unfold PreSendRequest in Hst. destruct (m !! (d, a)) as [[c|]|]; simpl in Hst;
      [|by injection Hst as <- <-..].
    destruct (DoGet _ _ _ _) as [[[r c'] t2]|]; [|done]. simpl in Hst.
    destruct r as [[|x v]|]; simpl in Hst; try destruct (WriteBuffer _ _); simplify_eq/=;
      by rewrite lookup_insert_ne.
  - unfold PostSendRequest in Hst. destruct (_ || _); simpl in Hst; [by injection Hst as <- <-|].
    destruct (m !! (d, a)) as [[c|]|]; simpl in Hst; [|by injection Hst as <- <-..].
    destruct (DoAdd _ _ _ _ _ _) as [[c' t2]|]; simplify_eq/=. by rewrite lookup_insert_ne.
Qed.
End api_cache_manager.
Arguments api_op : clear implicits.

(** ** Witnesses *)

Definition parcel_of (l : list Z) : DemoParcel.dp := DemoParcel.mk_dp [] 0 (-1) [] l 1.
Definition demo_clk (n : nat) : Z := 10 * Z.of_nat n.
Definition demo_history (reply : list Z) : list (api_op DemoParcel.dp) :=
  [OpAdd [65; 66] 7 1000; OpPost [65; 66] 7 (parcel_of [1; 2]) (parcel_of reply);
   OpPre [65; 66] 7 (parcel_of [1; 2]) (parcel_of []); OpClearOf [65]].
Definition demo_caches : caches := AddCacheApi [65; 66] 7 1000 ∅.

Lemma demo_caches_wf : caches_wf demo_caches.
Proof.
  apply map_Forall_insert_2; [|apply map_Forall_empty]. eexists. split; [done|].
  apply ExpireLruCache_wf.
Qed.

Lemma api_history_safe_witness :
  ∃ m t', api_run demo_clk (demo_history [9]) ∅ 0 = Some (m, t') ∧ caches_wf m ∧ no_empty_reply m.
Proof. apply (api_history_safe demo_clk (demo_history [9]) 0). repeat constructor; discriminate. Defined.

Definition demo_post (reply : list Z) : caches :=
  from_option (λ '(_, m, _), m) ∅
    (PostSendRequest demo_clk [65; 66] 7 (parcel_of [1; 2]) (parcel_of reply) demo_caches 0).

Lemma api_empty_reply_undefined_witness :
  PreSendRequest demo_clk [65; 66] 7 (parcel_of [1; 2]) (parcel_of []) (demo_post []) 1 = None.
Proof.
  apply (api_empty_reply_undefined demo_clk [65; 66] 7 (parcel_of [1; 2]) (parcel_of [])
           (parcel_of []) demo_caches (demo_post []) (ExpireLruCache 8 1000) 0 1 1).
  - apply demo_caches_wf.
  - vm_compute; reflexivity.
  - reflexivity.
  - vm_compute; reflexivity.
  - intros _. vm_compute. discriminate.
Defined.

Lemma api_cache_roundtrip_witness :
  ∃ m'' t3, PreSendRequest demo_clk [65; 66] 7 (parcel_of [1; 2]) (parcel_of []) (demo_post [9; 8]) 1
    = Some (true, DemoParcel.mk_dp [] 0 (-1) [] [9; 8] 2, m'', t3).
Proof.
  destruct (api_cache_roundtrip demo_clk [65; 66] 7 (parcel_of [1; 2]) (parcel_of [9; 8])
           (parcel_of []) demo_caches (demo_post [9; 8]) (ExpireLruCache 8 1000) 0 1 1)
    as (m'' & t3 & E).
  - apply demo_caches_wf.
  - vm_compute; reflexivity.
  - discriminate.
  - vm_compute; reflexivity.
  - intros _. vm_compute. discriminate.
  - exists m'', t3. exact E.
Defined.

Lemma api_step_frame_witness :
  ClearCacheOf [66] demo_caches !! ([65; 66], 7) = demo_caches !! ([65; 66], 7).
Proof.
  apply (api_step_frame (P := DemoParcel.dp) demo_clk (OpClearOf [66]) demo_caches 0
           (ClearCacheOf [66] demo_caches) 0 ([65; 66], 7)); [reflexivity|discriminate].
Defined.
