(* ===== verification/ApiCacheMemory.v ===== *)
(** * ApiCacheMemory: the caches behind the pointers of the manager

    [ApiCacheManager.v] keeps the caches in the map itself.  In the code the map
    [caches_] holds plain pointers ([interfaces/innerkits/safwk/api_cache_manager.h]):
    a cache is allocated when its api is added, freed when it is deleted, and those
    that are left are freed by the destructor of the manager.  Here is the manager
    with these pointers and the caches that are allocated; a result [None] is
    undefined behaviour, the use or the second [delete] of a freed cache included.
    [api_pointers_refine] relates the two. *)

From S2P Require Import Prelude Interfaces ExpireLruCache.
From S2P Require Export ApiCacheManager.

(** The order of [std::pair<std::u16string, uint32_t>], in which [caches_] is
    gone through. *)
Definition key_le (k k' : u16string * Z) : Prop :=
  if decide (k.1 = k'.1) then k.2 ≤ k'.2 else lex_le k.1 k'.1.
#[export] Instance key_le_dec : RelDecision key_le.
Proof. intros k k'. unfold key_le. destruct (decide _); apply _. Defined.

(** [None] is the null pointer. *)
(* [interfaces/innerkits/safwk/api_cache_manager.h:56-57] ApiCacheManager *)
Record api_manager := mk_api {
  caches_ : gmap (u16string * Z) (option positive);
  store : gmap positive api_cache;
}.
Definition no_caches : api_manager := mk_api ∅ ∅.

(** The expressions [new], [delete] and [->] of the code. *)
Definition new_cache (cacheSize : nat) (expireTimeSec : Z) (s : api_manager) : positive * api_manager :=
  let p := fresh (dom (store s)) in
  (p, mk_api (caches_ s) (<[p := ExpireLruCache cacheSize expireTimeSec]> (store s))).
Definition delete_cache (o : option positive) (s : api_manager) : option api_manager :=
  match o with
  | None => Some s
  | Some p => c ← store s !! p; Some (mk_api (caches_ s) (delete p (store s)))
  end.
Definition save (p : positive) (c : api_cache) (s : api_manager) : api_manager :=
  mk_api (caches_ s) (<[p := c]> (store s)).

(** [if (p != nullptr) p->Clear()] *)
Definition clear_at (o : option positive) (s : api_manager) : option api_manager :=
  match o with
  | None => Some s
  | Some p => c ← store s !! p; Some (save p (DoClear c) s)
  end.

(** A loop over the entries of the map. *)
Fixpoint each_cache (f : u16string * Z → option positive → api_manager → option api_manager)
    (l : list ((u16string * Z) * option positive)) (s : api_manager) : option api_manager :=
  match l with
  | [] => Some s
  | (k, o) :: l' => s' ← f k o s; each_cache f l' s'
  end.
Definition for_caches f (s : api_manager) : option api_manager :=
  each_cache f (map_iter key_le (caches_ s)) s.

Section api_cache_memory.
  Context {P : Type} `{!MessageParcel P} (clk : nat → Z).

(* [services/safwk/src/api_cache_manager.cpp:33-48] ApiCacheManager::AddCacheApi *)
Definition ptr_AddCacheApi (descriptor : u16string) (apiCode expireTimeSec : Z) (s : api_manager) : api_manager :=
  match caches_ s !! (descriptor, apiCode) with
  | None =>
      let '(obj, s) := new_cache 8 expireTimeSec s in
      mk_api (<[(descriptor, apiCode) := Some obj]> (caches_ s)) (store s)
  | Some _ => s
  end.

(* [services/safwk/src/api_cache_manager.cpp:50-64] ApiCacheManager::DelCacheApi *)
Definition ptr_DelCacheApi (descriptor : u16string) (apiCode : Z) (s : api_manager) : option api_manager :=
  match caches_ s !! (descriptor, apiCode) with
  | Some o =>
      s ← delete_cache o s;
      Some (mk_api (delete (descriptor, apiCode) (caches_ s)) (store s))
  | None => Some s
  end.

(* [services/safwk/src/api_cache_manager.cpp:66-77] ApiCacheManager::ClearCache *)
Definition ptr_ClearCache (s : api_manager) : option api_manager :=
  for_caches (λ _, clear_at) s.

(* [services/safwk/src/api_cache_manager.cpp:79-90] ApiCacheManager::ClearCache *)
Definition ptr_ClearCacheOf (descriptor : u16string) (s : api_manager) : option api_manager :=
  for_caches (λ k o s, if decide (k.1 = descriptor) then clear_at o s else Some s) s.

(* [services/safwk/src/api_cache_manager.cpp:92-103] ApiCacheManager::ClearCache *)
Definition ptr_ClearCacheApi (descriptor : u16string) (apiCode : Z) (s : api_manager) : option api_manager :=
  match caches_ s !! (descriptor, wrapu32 apiCode) with
  | Some o => clear_at o s
  | None => Some s
  end.

(* [services/safwk/src/api_cache_manager.cpp:105-138] ApiCacheManager::PreSendRequest *)
Definition ptr_PreSendRequest (descriptor : u16string) (apiCode : Z) (data reply : P)
    (s : api_manager) (t : nat) : option (bool * P * api_manager * nat) :=
  match caches_ s !! (descriptor, apiCode) with
  | Some (Some p) =>
      c ← store s !! p;
      '(valueVec, c, t) ← DoGet clk (GetData data) c t;
      let s := save p c s in
      match valueVec with
      | None => Some (false, reply, s, t)
      | Some v =>
          let size := wrapu64 (GetDataSize reply + Z.of_nat (length v)) in
          let reply := if GetMaxCapacity reply <? size then SetMaxCapacity size reply else reply in
          match v with
          | [] => None
          | _ :: _ => let '(ret, reply) := WriteBuffer v reply in Some (ret, reply, s, t)
          end
      end
  | _ => Some (false, reply, s, t)
  end.

(* [services/safwk/src/api_cache_manager.cpp:140-168] ApiCacheManager::PostSendRequest *)
Definition ptr_PostSendRequest (descriptor : u16string) (apiCode : Z) (data reply : P)
    (s : api_manager) (t : nat) : option (bool * api_manager * nat) :=
  if negb (GetOffsetsSize data =? 0) || negb (GetOffsetsSize reply =? 0) then Some (false, s, t)
  else
    match caches_ s !! (descriptor, apiCode) with
    | Some (Some p) =>
        c ← store s !! p;
        '(c, t) ← DoAdd lex_le clk (GetData data) (GetData reply) c t;
        Some (true, save p c s, t)
    | _ => Some (false, s, t)
    end.

(** The destructor; the map goes away after it. *)
(* [interfaces/innerkits/safwk/api_cache_manager.h:44-50] ApiCacheManager::~ApiCacheManager *)
Definition delete_ApiCacheManager (s : api_manager) : option api_manager :=
  for_caches (λ _, delete_cache) s.

(** ** Calls with their answers *)

(** What a call gives back: the returned value and, of [PreSendRequest], the reply. *)
Abbreviation answer := (option (bool * option P)).

Definition ptr_call (o : api_op P) (s : api_manager) (t : nat) : option (answer * api_manager * nat) :=
  match o with
  | OpAdd d a e => Some (None, ptr_AddCacheApi d a e s, t)
  | OpDel d a => s ← ptr_DelCacheApi d a s; Some (None, s, t)
  | OpClear => s ← ptr_ClearCache s; Some (None, s, t)
  | OpClearOf d => s ← ptr_ClearCacheOf d s; Some (None, s, t)
  | OpClearApi d a => s ← ptr_ClearCacheApi d a s; Some (None, s, t)
  | OpPre d a data reply =>
      '(ok, reply, s, t) ← ptr_PreSendRequest d a data reply s t; Some (Some (ok, Some reply), s, t)
  | OpPost d a data reply =>
      '(ok, s, t) ← ptr_PostSendRequest d a data reply s t; Some (Some (ok, None), s, t)
  end.

(** The same calls of [ApiCacheManager.v]. *)
Definition api_call (o : api_op P) (m : caches) (t : nat) : option (answer * caches * nat) :=
  match o with
  | OpPre d a data reply =>
      '(ok, reply, m, t) ← PreSendRequest clk d a data reply m t; Some (Some (ok, Some reply), m, t)
  | OpPost d a data reply =>
      '(ok, m, t) ← PostSendRequest clk d a data reply m t; Some (Some (ok, None), m, t)
  | o => '(m, t) ← api_step clk o m t; Some (None, m, t)
  end.

Fixpoint calls {S} (call : api_op P → S → nat → option (answer * S * nat)) (os : list (api_op P)) (s : S) (t : nat)
    : option (list answer * S * nat) :=
  match os with
  | [] => Some ([], s, t)
  | o :: os' =>
      '(r, s, t) ← call o s t;
      '(rs, s, t) ← calls call os' s t;
      Some (r :: rs, s, t)
  end.

(** ** The relation of the two models *)

(** The map of caches behind the pointers. *)
Definition view (s : api_manager) : caches := (λ o, p ← o; store s !! p) <$> caches_ s.

(** Every pointer of the map is to an allocated cache, no two to the same one, and
    every allocated cache has a pointer to it. *)
Record owns (s : api_manager) : Prop := {
  owns_live k o : caches_ s !! k = Some o → ∃ p c, o = Some p ∧ store s !! p = Some c;
  owns_once k k' p : caches_ s !! k = Some (Some p) → caches_ s !! k' = Some (Some p) → k = k';
  owns_all p c : store s !! p = Some c → ∃ k, caches_ s !! k = Some (Some p);
}.

(** Two outcomes: both undefined, or the same answer in states that correspond. *)
Definition agree {X} (x : option (X * api_manager * nat)) (y : option (X * caches * nat)) : Prop :=
  match x, y with
  | Some (a, s, t), Some (b, m, t') => a = b ∧ t = t' ∧ view s = m ∧ owns s
  | None, None => True
  | _, _ => False
  end.

(** ** Lemmas *)

Lemma view_lookup s k : view s !! k = (λ o, p ← o; store s !! p) <$> caches_ s !! k.
Proof. apply lookup_fmap. Qed.

Lemma view_cases s k :
  owns s →
  (caches_ s !! k = None ∧ view s !! k = None) ∨
  (∃ p c, caches_ s !! k = Some (Some p) ∧ store s !! p = Some c ∧ view s !! k = Some (Some c)).
Proof.
  intros Hs. rewrite view_lookup. destruct (caches_ s !! k) as [o|] eqn:E; [right|by left].
  destruct (owns_live s Hs k o E) as (p & c & -> & Hc). exists p, c. simpl. by rewrite Hc.
Qed.

Lemma owns_empty : owns no_caches.
Proof. by split. Qed.

(** A cache that is changed in place. *)
Lemma save_owns k p c c' s :
  owns s → caches_ s !! k = Some (Some p) → store s !! p = Some c →
  view (save p c' s) = <[k := Some c']> (view s) ∧ owns (save p c' s).
Proof.
  intros Hs Hk Hp. split.
  - apply map_eq. intros k'. rewrite view_lookup. cbn [save caches_ store].
    destruct (decide (k = k')) as [<-|Hne].
    + rewrite lookup_insert_eq, Hk. simpl. by rewrite lookup_insert_eq.
    + rewrite lookup_insert_ne, view_lookup by done. destruct (caches_ s !! k') as [[p'|]|] eqn:E; simpl; [|done..].
      rewrite lookup_insert_ne; [done|]. intros <-. by destruct Hne; apply (owns_once s Hs k k' p).
  - split; cbn [save caches_ store].
    + intros k' o E. destruct (owns_live s Hs k' o E) as (p' & c0 & -> & Hc). exists p'.
      destruct (decide (p = p')) as [<-|]; [exists c'|exists c0]; (split; [done|]);
        by rewrite ?lookup_insert_eq, ?lookup_insert_ne.
    + apply (owns_once s Hs).
    + intros p' c0. destruct (decide (p = p')) as [<-|]; [by exists k|].
      rewrite lookup_insert_ne by done. apply (owns_all s Hs).
Qed.

Lemma AddCacheApi_agree d a e s :
  owns s → view (ptr_AddCacheApi d a e s) = AddCacheApi d a e (view s) ∧ owns (ptr_AddCacheApi d a e s).
Proof.
  intros Hs. unfold ptr_AddCacheApi, AddCacheApi.
  destruct (view_cases s (d, a) Hs) as [[Hda ->]|(p & c & -> & _ & ->)]; [|done]. rewrite Hda.
  cbn [new_cache caches_ store].
  set (p := fresh (dom (store s))). assert (store s !! p = None) as Hp by (apply not_elem_of_dom, is_fresh).
  assert (∀ k, caches_ s !! k ≠ Some (Some p)) as Hk.
  { intros k E. destruct (owns_live s Hs k _ E) as (p' & c & [= <-] & Hc). congruence. }
  split.
  - apply map_eq. intros k. rewrite view_lookup. cbn [caches_ store].
    destruct (decide ((d, a) = k)) as [<-|Hne].
    + rewrite !lookup_insert_eq. simpl. by rewrite lookup_insert_eq.
    + rewrite !lookup_insert_ne, view_lookup by done. destruct (caches_ s !! k) as [[p'|]|] eqn:E; simpl; [|done..].
      rewrite lookup_insert_ne; [done|]. intros <-. by destruct (Hk k).
  - split; cbn [caches_ store].
    + intros k o. destruct (decide ((d, a) = k)) as [<-|Hne].
      * rewrite lookup_insert_eq. intros [= <-]. exists p. rewrite lookup_insert_eq. eauto.
      * rewrite lookup_insert_ne by done. intros E. destruct (owns_live s Hs k o E) as (p' & c & -> & Hc).
        exists p', c. rewrite lookup_insert_ne by congruence. done.
    + intros k k' p'. rewrite !lookup_insert_Some.
      intros [[<- E]|[_ E]] [[<- E']|[_ E']]; try done; [by destruct (Hk k'); congruence|by destruct (Hk k); congruence|].
      by apply (owns_once s Hs k k' p').
    + intros p' c. rewrite lookup_insert_Some. intros [[<- _]|[_ Hc]].
      * exists (d, a). by rewrite lookup_insert_eq.
      * destruct (owns_all s Hs p' c Hc) as [k E]. exists k. rewrite lookup_insert_ne; [done|].
        intros <-. congruence.
Qed.

Lemma DelCacheApi_agree d a s :
  owns s → ∃ s', ptr_DelCacheApi d a s = Some s' ∧ view s' = DelCacheApi d a (view s) ∧ owns s'.
Proof.
  intros Hs. unfold ptr_DelCacheApi, DelCacheApi.
  destruct (view_cases s (d, a) Hs) as [[-> ->]|(p & c & Hda & Hp & ->)]; [by exists s|]. rewrite Hda.
  cbn [delete_cache]. rewrite Hp. eexists. split; [reflexivity|]. cbn [caches_ store].
  assert (∀ k, (d, a) ≠ k → caches_ s !! k ≠ Some (Some p)) as Hk.
  { intros k Hne E. by destruct Hne; apply (owns_once s Hs (d, a) k p). }
  split.
  - apply map_eq. intros k. rewrite view_lookup. cbn [caches_ store].
    destruct (decide ((d, a) = k)) as [<-|Hne]; [by rewrite !lookup_delete_eq|].
    rewrite !lookup_delete_ne, view_lookup by done. destruct (caches_ s !! k) as [[p'|]|] eqn:E; simpl; [|done..].
    rewrite lookup_delete_ne; [done|]. intros <-. by destruct (Hk k).
  - split; cbn [caches_ store].
    + intros k o [Hne E]%lookup_delete_Some. destruct (owns_live s Hs k o E) as (p' & c' & -> & Hc).
      exists p', c'. split; [done|]. rewrite lookup_delete_ne; [done|]. intros <-. by destruct (Hk k).
    + intros k k' p' [_ E]%lookup_delete_Some [_ E']%lookup_delete_Some. by apply (owns_once s Hs k k' p').
    + intros p' c' [Hne Hc]%lookup_delete_Some. destruct (owns_all s Hs p' c' Hc) as [k E].
      exists k. rewrite lookup_delete_ne; [done|]. intros <-. congruence.
Qed.

Lemma clear_at_agree k o s :
  owns s → caches_ s !! k = Some o →
  ∃ s', clear_at o s = Some s' ∧ view s' = alter clear_ptr k (view s) ∧ owns s' ∧ caches_ s' = caches_ s.
Proof.
  intros Hs Hk. destruct (owns_live s Hs k o Hk) as (p & c & -> & Hp). cbn [clear_at]. rewrite Hp.
  eexists. split; [reflexivity|]. destruct (save_owns k p c (DoClear c) s Hs Hk Hp) as [-> Ho].
  split; [|done]. apply map_eq. intros k'. destruct (decide (k = k')) as [<-|Hne].
  - rewrite lookup_insert_eq, lookup_alter_eq, view_lookup, Hk. simpl. by rewrite Hp.
  - by rewrite lookup_insert_ne, lookup_alter_ne.
Qed.

(** A loop that clears the entries that [sel] picks. *)
Lemma each_clear_agree (sel : u16string * Z → Prop) `{!∀ k, Decision (sel k)} f l s :
  (∀ k o s, f k o s = if decide (sel k) then clear_at o s else Some s) →
  owns s → (∀ k o, (k, o) ∈ l → caches_ s !! k = Some o) → NoDup l.*1 →
  ∃ s', each_cache f l s = Some s' ∧ owns s' ∧
    ∀ k, view s' !! k = if decide (k ∈ l.*1 ∧ sel k) then clear_ptr <$> view s !! k else view s !! k.
Proof.
  intros Hf. revert s. induction l as [|[k o] l IH]; intros s Hs Hl Hn.
  - exists s. split_and!; [done..|]. intros k. rewrite decide_False; [done|]. intros [[]%elem_of_nil _].
  - cbn [fmap list_fmap fst] in Hn. apply NoDup_cons in Hn as [Hk Hn]. cbn [each_cache]. rewrite Hf.
    assert (∃ s1, (if decide (sel k) then clear_at o s else Some s) = Some s1 ∧ owns s1 ∧ caches_ s1 = caches_ s ∧
      view s1 = if decide (sel k) then alter clear_ptr k (view s) else view s) as (s1 & -> & Hs1 & Hc1 & Hv1).
    { destruct (decide (sel k)); [|by exists s]. destruct (clear_at_agree k o s Hs) as (s1 & -> & Hv & Ho & Hc);
        [apply Hl; by left|]. by exists s1. }
    cbn [mbind option_bind]. destruct (IH s1 Hs1) as (s' & -> & Hs' & Hv'); [|done|].
    { intros k' o' Hin. rewrite Hc1. apply Hl. by right. }
    exists s'. split_and!; [done..|]. intros k'. rewrite Hv', Hv1. cbn [fmap list_fmap fst].
    destruct (decide (k' = k)) as [->|Hne].
    + rewrite decide_False by tauto. destruct (decide (sel k)).
      * rewrite lookup_alter_eq, decide_True; [done|]. split; [by left|done].
      * rewrite decide_False by tauto. done.
    + assert ((if decide (sel k) then alter clear_ptr k (view s) else view s) !! k' = view s !! k') as ->
        by (destruct (decide (sel k)); by rewrite ?lookup_alter_ne).
      apply decide_ext. rewrite elem_of_cons. tauto.
Qed.

Lemma for_clear_agree (sel : u16string * Z → Prop) `{!∀ k, Decision (sel k)} f s :
  (∀ k o s, f k o s = if decide (sel k) then clear_at o s else Some s) → owns s →
  ∃ s', for_caches f s = Some s' ∧ owns s' ∧
    ∀ k, view s' !! k = if decide (sel k) then clear_ptr <$> view s !! k else view s !! k.
Proof.
  intros Hf Hs. destruct (each_clear_agree sel f (map_iter key_le (caches_ s)) s Hf Hs) as (s' & E & Hs' & Hv).
  - intros k o. apply elem_of_map_iter.
  - apply NoDup_map_iter_fst.
  - exists s'. split_and!; [done..|]. intros k. rewrite Hv.
    destruct (decide (sel k)); [|by rewrite decide_False by tauto].
    case_decide as Hd; [done|]. destruct (view_cases s k Hs) as [[_ ->]|(p & c & Hk & _ & _)]; [done|].
    destruct Hd. split; [|done]. apply list_elem_of_fmap. exists (k, Some p). split; [done|].
    by apply elem_of_map_iter.
Qed.

Lemma ClearCache_agree s :
  owns s → ∃ s', ptr_ClearCache s = Some s' ∧ view s' = ClearCache (view s) ∧ owns s'.
Proof.
  intros Hs. destruct (for_clear_agree (λ _, True) (λ _, clear_at) s) as (s' & E & Hs' & Hv); [done..|].
  exists s'. split_and!; [done| |done]. apply map_eq. intros k. rewrite Hv, decide_True by done.
  unfold ClearCache. by rewrite lookup_fmap.
Qed.

Lemma ClearCacheOf_agree d s :
  owns s → ∃ s', ptr_ClearCacheOf d s = Some s' ∧ view s' = ClearCacheOf d (view s) ∧ owns s'.
Proof.
  intros Hs. destruct (for_clear_agree (λ k, k.1 = d) (λ k o s, if decide (k.1 = d) then clear_at o s else Some s) s)
    as (s' & E & Hs' & Hv); [done..|].
  exists s'. split_and!; [done| |done]. apply map_eq. intros k. rewrite Hv. unfold ClearCacheOf.
  rewrite map_lookup_imap. destruct (view s !! k); simpl; by case_decide.
Qed.

Lemma ClearCacheApi_agree d a s :
  owns s → ∃ s', ptr_ClearCacheApi d a s = Some s' ∧ view s' = ClearCacheApi d a (view s) ∧ owns s'.
Proof.
  intros Hs. unfold ptr_ClearCacheApi, ClearCacheApi.
  destruct (view_cases s (d, wrapu32 a) Hs) as [[-> ->]|(p & c & Hk & Hp & Hv)]; [by exists s|].
  rewrite Hk, Hv. cbn [clear_at]. rewrite Hp. eexists. split; [reflexivity|].
  exact (save_owns _ p c (DoClear c) s Hs Hk Hp).
Qed.

Lemma PreSendRequest_agree d a data reply s t :
  owns s → agree (ptr_PreSendRequest d a data reply s t) (PreSendRequest clk d a data reply (view s) t).
Proof.
  intros Hs. unfold ptr_PreSendRequest, PreSendRequest.
  destruct (view_cases s (d, a) Hs) as [[-> ->]|(p & c & Hk & Hp & Hv)]; [done|]. rewrite Hk, Hv, Hp. simpl.
  destruct (DoGet clk (GetData data) c t) as [[[v c'] t']|]; simpl; [|done].
  destruct (save_owns _ p c c' s Hs Hk Hp) as [Hv' Hs']. destruct v as [[|x v]|]; simpl; [done| |done].
  by destruct (WriteBuffer _ _).
Qed.

Lemma PostSendRequest_agree d a data reply s t :
  owns s → agree (ptr_PostSendRequest d a data reply s t) (PostSendRequest clk d a data reply (view s) t).
Proof.
  intros Hs. unfold ptr_PostSendRequest, PostSendRequest. destruct (_ || _); [done|].
  destruct (view_cases s (d, a) Hs) as [[-> ->]|(p & c & Hk & Hp & Hv)]; [done|]. rewrite Hk, Hv, Hp. simpl.
  destruct (DoAdd lex_le clk (GetData data) (GetData reply) c t) as [[c' t']|]; simpl; [|done].
  by destruct (save_owns _ p c c' s Hs Hk Hp) as [Hv' Hs'].
Qed.

Lemma call_agree o s t : owns s → agree (ptr_call o s t) (api_call o (view s) t).
Proof.
  intros Hs. destruct o as [d a e|d a| |d|d a|d a data reply|d a data reply]; simpl.
  - by destruct (AddCacheApi_agree d a e s Hs).
  - by destruct (DelCacheApi_agree d a s Hs) as (s' & -> & ? & ?).
  - by destruct (ClearCache_agree s Hs) as (s' & -> & ? & ?).
  - by destruct (ClearCacheOf_agree d s Hs) as (s' & -> & ? & ?).
  - by destruct (ClearCacheApi_agree d a s Hs) as (s' & -> & ? & ?).
  - pose proof (PreSendRequest_agree d a data reply s t Hs) as H.
    destruct (ptr_PreSendRequest _ _ _ _ _ _) as [[[[? ?] ?] ?]|], (PreSendRequest _ _ _ _ _ _ _) as [[[[? ?] ?] ?]|];
      simpl in *; naive_solver.
  - pose proof (PostSendRequest_agree d a data reply s t Hs) as H.
    destruct (ptr_PostSendRequest _ _ _ _ _ _) as [[[? ?] ?]|], (PostSendRequest _ _ _ _ _ _ _) as [[[? ?] ?]|];
      simpl in *; naive_solver.
Qed.

Lemma calls_agree os s t : owns s → agree (calls ptr_call os s t) (calls api_call os (view s) t).
Proof.
  revert s t. induction os as [|o os IH]; intros s t Hs; [done|]. cbn [calls].
  pose proof (call_agree o s t Hs) as H.
  destruct (ptr_call o s t) as [[[r s1] t1]|], (api_call o (view s) t) as [[[r' m1] t1']|]; simpl in *; [|done..].
  destruct H as (<- & <- & <- & Hs1). specialize (IH s1 t1 Hs1).
  destruct (calls ptr_call os s1 t1) as [[[rs s2] t2]|], (calls api_call os (view s1) t1) as [[[rs' m2] t2']|];
    simpl in *; naive_solver.
Qed.

(** The destructor frees each of the caches it meets once. *)
Lemma each_delete l s :
  (∀ k o, (k, o) ∈ l → ∃ p c, o = Some p ∧ store s !! p = Some c) → NoDup l.*2 →
  ∃ s', each_cache (λ _, delete_cache) l s = Some s' ∧
    ∀ p, store s' !! p = if decide (Some p ∈ l.*2) then None else store s !! p.
Proof.
  revert s. induction l as [|[k o] l IH]; intros s Hl Hn.
  - exists s. split; [done|]. intros p. rewrite decide_False; [done|]. apply not_elem_of_nil.
  - cbn [fmap list_fmap snd] in *. apply NoDup_cons in Hn as [Ho Hn].
    destruct (Hl k o ltac:(by left)) as (p & c & -> & Hp). cbn [each_cache delete_cache]. rewrite Hp.
    cbn [mbind option_bind]. destruct (IH (mk_api (caches_ s) (delete p (store s)))) as (s' & -> & Hv); [|done|].
    + intros k' o' Hin. destruct (Hl k' o' ltac:(by right)) as (p' & c' & -> & Hp'). exists p', c'. split; [done|].
      cbn [store]. rewrite lookup_delete_ne; [done|]. intros <-. destruct Ho. apply list_elem_of_fmap.
      by exists (k', Some p).
    + exists s'. split; [done|]. intros p'. rewrite Hv. cbn [store]. destruct (decide (p = p')) as [<-|Hne].
      * rewrite lookup_delete_eq. rewrite (decide_True (P := _ ∈ _ :: _)) by by left. by case_decide.
      * rewrite lookup_delete_ne by done. apply decide_ext. rewrite elem_of_cons. naive_solver.
Qed.

Lemma destructor_frees s : owns s → ∃ s', delete_ApiCacheManager s = Some s' ∧ store s' = ∅.
Proof.
  intros Hs. destruct (each_delete (map_iter key_le (caches_ s)) s) as (s' & E & Hv).
  - intros k o Hk%elem_of_map_iter. by apply (owns_live s Hs k).
  - assert (∀ k o, (k, o) ∈ map_iter key_le (caches_ s) → caches_ s !! k = Some o) as Hl
      by (intros k o; apply elem_of_map_iter).
    pose proof (NoDup_map_iter_fst key_le (caches_ s)) as Hn. revert Hl Hn.
    induction (map_iter key_le (caches_ s)) as [|[k o] l IH]; intros Hl Hn; cbn [fmap list_fmap fst snd] in *;
      [constructor|]. apply NoDup_cons in Hn as [Hk Hn].
    constructor; [|apply IH; [intros k' o' Hin; apply Hl; by right|done]].
    intros ([k' o'] & -> & Hin)%list_elem_of_fmap. cbn [snd] in *.
    pose proof (Hl k o' ltac:(by left)) as E1. pose proof (Hl k' o' ltac:(by right)) as E2.
    destruct (owns_live s Hs k o' E1) as (p & c & -> & _). pose proof (owns_once s Hs k k' p E1 E2) as <-.
    destruct Hk. apply list_elem_of_fmap. by exists (k, Some p).
  - exists s'. split; [done|]. apply map_eq. intros p. rewrite Hv, lookup_empty.
    destruct (store s !! p) as [c|] eqn:Ep; [|by case_decide]. rewrite decide_True; [done|].
    destruct (owns_all s Hs p c Ep) as [k Hk]. apply list_elem_of_fmap. exists (k, Some p). split; [done|].
    by apply elem_of_map_iter.
Qed.

(** ** Properties *)

(** C20: the manager with its pointers implements the map of caches, and its memory is
    in order: in every history of calls that starts with no api, each call answers
    as the call of [ApiCacheManager.v] does (and is undefined where that one is, so
    never because a cache is used or freed after it has been freed); the map behind
    the pointers is the map of that model; every allocated cache is reachable from
    exactly one entry, so none leaks; and the destructor frees each of them once. *)
Theorem api_pointers_refine os t :
  match calls ptr_call os no_caches t, calls api_call os ∅ t with
  | Some (rs, s, t1), Some (rs', m, t2) =>
      rs = rs' ∧ t1 = t2 ∧ view s = m ∧ owns s ∧
      ∃ s', delete_ApiCacheManager s = Some s' ∧ store s' = ∅
  | None, None => True
  | _, _ => False
  end.
Proof.
  assert (view no_caches = ∅) as Hv by apply fmap_empty.
  pose proof (calls_agree os no_caches t owns_empty) as H. rewrite Hv in H.
  destruct (calls ptr_call os no_caches t) as [[[rs s] t1]|], (calls api_call os ∅ t) as [[[rs' m] t2]|]; simpl in H; try done.
  destruct H as (-> & -> & <- & Hs). split_and!; [done..|by apply destructor_frees].
Qed.
End api_cache_memory.
