(* ===== verification/OnDemandReason.v ===== *)
(** * OnDemandReason: why a system ability is started, stopped, idled or activated

    Models [services/safwk/src/system_ability_ondemand_reason.cpp] and the JSON
    conversion [LocalAbilityManager::JsonToOnDemandReason].  The extra data of a
    reason crosses processes as a parcel ([Marshalling], [Unmarshalling]); the
    reason itself is stored as JSON.

    [reasonId_] has no initializer in the class, so a default-constructed reason
    holds an indeterminate value there: [indet] is that value, a parameter of
    every definition that default-constructs one. *)

From S2P Require Import Prelude Interfaces.

(* [services/safwk/include/system_ability_ondemand_reason.h:23-31] OnDemandReasonId *)
Inductive OnDemandReasonId :=
| INTERFACE_CALL | DEVICE_ONLINE | SETTING_SWITCH | PARAM | COMMON_EVENT | TIMED_EVENT | UNREF_EVENT.

Definition OnDemandReasonId_value (i : OnDemandReasonId) : Z :=
  match i with
  | INTERFACE_CALL => 0 | DEVICE_ONLINE => 1 | SETTING_SWITCH => 2 | PARAM => 3
  | COMMON_EVENT => 4 | TIMED_EVENT => 5 | UNREF_EVENT => 6
  end.

(* [services/safwk/include/system_ability_ondemand_reason.h:33-46] OnDemandReasonExtraData *)
Record OnDemandReasonExtraData := mk_extra {
  code_ : Z;
  data_ : string;
  want_ : gmap string string;
}.

(* [services/safwk/include/system_ability_ondemand_reason.h:35-35] OnDemandReasonExtraData::OnDemandReasonExtraData *)
Definition default_extra : OnDemandReasonExtraData := mk_extra (-1) "" ∅.

(* [services/safwk/src/system_ability_ondemand_reason.cpp:28-31] OnDemandReasonExtraData::GetData *)
Definition GetData (x : OnDemandReasonExtraData) : string := data_ x.
(* [services/safwk/src/system_ability_ondemand_reason.cpp:33-36] OnDemandReasonExtraData::GetCode *)
Definition GetCode (x : OnDemandReasonExtraData) : Z := code_ x.
(* [services/safwk/src/system_ability_ondemand_reason.cpp:38-41] OnDemandReasonExtraData::GetWant *)
Definition GetWant (x : OnDemandReasonExtraData) : gmap string string := want_ x.

(** [reasonId_] is the underlying integer of the enumeration: a value converted
    from JSON need not be one of the enumerators. *)
(* [services/safwk/include/system_ability_ondemand_reason.h:48-70] SystemAbilityOnDemandReason *)
Record SystemAbilityOnDemandReason := mk_reason {
  reasonId_ : Z;
  reasonName_ : string;
  reasonValue_ : string;
  extraDataId_ : Z;
  extraData_ : OnDemandReasonExtraData;
}.

(* [services/safwk/include/system_ability_ondemand_reason.h:50-50] SystemAbilityOnDemandReason::SystemAbilityOnDemandReason *)
Definition default_reason (indet : Z) : SystemAbilityOnDemandReason :=
  mk_reason indet "" "" (-1) default_extra.

(* [services/safwk/src/system_ability_ondemand_reason.cpp:82-89] SystemAbilityOnDemandReason::SystemAbilityOnDemandReason *)
Definition new_reason (reasonId : OnDemandReasonId) (reasonName reasonValue : string)
    (extraDataId : Z) : SystemAbilityOnDemandReason :=
  mk_reason (OnDemandReasonId_value reasonId) reasonName reasonValue extraDataId default_extra.

(* [services/safwk/src/system_ability_ondemand_reason.cpp:91-94] SystemAbilityOnDemandReason::SetId *)
Definition SetId (id : Z) (r : SystemAbilityOnDemandReason) :=
  mk_reason id (reasonName_ r) (reasonValue_ r) (extraDataId_ r) (extraData_ r).
(* [services/safwk/src/system_ability_ondemand_reason.cpp:101-104] SystemAbilityOnDemandReason::SetName *)
Definition SetName (n : string) (r : SystemAbilityOnDemandReason) :=
  mk_reason (reasonId_ r) n (reasonValue_ r) (extraDataId_ r) (extraData_ r).
(* [services/safwk/src/system_ability_ondemand_reason.cpp:111-114] SystemAbilityOnDemandReason::SetValue *)
Definition SetValue (v : string) (r : SystemAbilityOnDemandReason) :=
  mk_reason (reasonId_ r) (reasonName_ r) v (extraDataId_ r) (extraData_ r).
(* [services/safwk/src/system_ability_ondemand_reason.cpp:121-124] SystemAbilityOnDemandReason::SetExtraDataId *)
Definition SetExtraDataId (i : Z) (r : SystemAbilityOnDemandReason) :=
  mk_reason (reasonId_ r) (reasonName_ r) (reasonValue_ r) i (extraData_ r).
(* [services/safwk/src/system_ability_ondemand_reason.cpp:136-139] SystemAbilityOnDemandReason::SetExtraData *)
Definition SetExtraData (x : OnDemandReasonExtraData) (r : SystemAbilityOnDemandReason) :=
  mk_reason (reasonId_ r) (reasonName_ r) (reasonValue_ r) (extraDataId_ r) x.

(* [services/safwk/src/system_ability_ondemand_reason.cpp:131-134] SystemAbilityOnDemandReason::HasExtraData *)
Definition HasExtraData (r : SystemAbilityOnDemandReason) : bool :=
  reasonId_ r =? OnDemandReasonId_value COMMON_EVENT.

(* [services/safwk/src/system_ability_ondemand_reason.cpp:96-99] SystemAbilityOnDemandReason::GetId *)
Definition GetId (r : SystemAbilityOnDemandReason) : Z := reasonId_ r.
(* [services/safwk/src/system_ability_ondemand_reason.cpp:106-109] SystemAbilityOnDemandReason::GetName *)
Definition GetName (r : SystemAbilityOnDemandReason) : string := reasonName_ r.
(* [services/safwk/src/system_ability_ondemand_reason.cpp:116-119] SystemAbilityOnDemandReason::GetValue *)
Definition GetValue (r : SystemAbilityOnDemandReason) : string := reasonValue_ r.
(* [services/safwk/src/system_ability_ondemand_reason.cpp:126-129] SystemAbilityOnDemandReason::GetExtraDataId *)
Definition GetExtraDataId (r : SystemAbilityOnDemandReason) : Z := extraDataId_ r.
(* [services/safwk/src/system_ability_ondemand_reason.cpp:141-144] SystemAbilityOnDemandReason::GetExtraData *)
Definition GetExtraData (r : SystemAbilityOnDemandReason) : OnDemandReasonExtraData := extraData_ r.
Arguments GetData x /.
Arguments GetCode x /.
Arguments GetWant x /.
Arguments GetId r /.
Arguments GetName r /.
Arguments GetValue r /.
Arguments GetExtraDataId r /.
Arguments GetExtraData r /.

(** The order of [std::map<std::string, _>]. *)
Definition string_le (a b : string) : Prop := String.leb a b = true.
#[export] Instance string_le_dec : RelDecision string_le.
Proof. intros a b; unfold string_le; apply _. Defined.

Section reason.
  Context {J P : Type} `{!Json J} `{!MessageParcel P}.

(** [payload[it->first] = it->second] over the map, in key order. *)
(* [services/safwk/src/system_ability_ondemand_reason.cpp:51-54] OnDemandReasonExtraData::Marshalling *)
Definition payload_of (want : gmap string string) : J :=
  foldl (λ j '(k, v), jset k (jof_string v) j) jnull (map_iter string_le want).

(** [None] as the first component: [payload.dump()] has thrown. *)
(* [services/safwk/src/system_ability_ondemand_reason.cpp:43-59] OnDemandReasonExtraData::Marshalling *)
Definition Marshalling (x : OnDemandReasonExtraData) (parcel : P) : option bool * P :=
  let '(ok1, p1) := WriteInt32 (code_ x) parcel in
  if negb ok1 then (Some false, p1)
  else
    let '(ok2, p2) := WriteString (data_ x) p1 in
    if negb ok2 then (Some false, p2)
    else
      match jdump (payload_of (want_ x)) with
      | None => (None, p2)
      | Some s => let '(ok3, p3) := WriteString s p2 in (Some ok3, p3)
      end.

(** The loop over the members of the payload keeps the string-valued ones. *)
(* [services/safwk/src/system_ability_ondemand_reason.cpp:71-77] OnDemandReasonExtraData::Unmarshalling *)
Definition want_of (payload : J) : gmap string string :=
  foldl (λ m '(k, v), if jis_string v then <[k := jstring v]> m else m) ∅ (jitems payload).

(* [services/safwk/src/system_ability_ondemand_reason.cpp:61-80] OnDemandReasonExtraData::Unmarshalling *)
Definition Unmarshalling (parcel : P) : option OnDemandReasonExtraData * P :=
  let '(code, p1) := ReadInt32 parcel in
  match code with
  | None => (None, p1)
  | Some code =>
      let '(data, p2) := ReadString p1 in
      match data with
      | None => (None, p2)
      | Some data =>
          let '(s, p3) := ReadStringValue p2 in
          (Some (mk_extra code data (want_of (StringToJsonObj s))), p3)
      end
  end.

(* [services/safwk/src/local_ability_manager.cpp:80-80] EVENT_ID *)
Definition EVENT_ID : string := "eventId".
(* [services/safwk/src/local_ability_manager.cpp:81-81] NAME *)
Definition NAME : string := "name".
(* [services/safwk/src/local_ability_manager.cpp:82-82] VALUE *)
Definition VALUE : string := "value".
(* [services/safwk/src/local_ability_manager.cpp:83-83] EXTRA_DATA_ID *)
Definition EXTRA_DATA_ID : string := "extraDataId".

(* [services/safwk/src/local_ability_manager.cpp:596-612] LocalAbilityManager::JsonToOnDemandReason *)
Definition JsonToOnDemandReason (indet : Z) (reasonJson : J) : SystemAbilityOnDemandReason :=
  let r0 := default_reason indet in
  let r1 := if jcontains reasonJson EVENT_ID && jis_number (jat reasonJson EVENT_ID)
            then SetId (jint32 (jat reasonJson EVENT_ID)) r0 else r0 in
  let r2 := if jcontains reasonJson NAME && jis_string (jat reasonJson NAME)
            then SetName (jstring (jat reasonJson NAME)) r1 else r1 in
  let r3 := if jcontains reasonJson VALUE && jis_string (jat reasonJson VALUE)
            then SetValue (jstring (jat reasonJson VALUE)) r2 else r2 in
  if jcontains reasonJson EXTRA_DATA_ID && jis_number (jat reasonJson EXTRA_DATA_ID)
  then SetExtraDataId (jint64 (jat reasonJson EXTRA_DATA_ID)) r3 else r3.

(** ** The payload of a map and back *)

Lemma payload_fold `{!JsonLaws J} (l : list (string * string)) (j : J) :
  jobj j → NoDup l.*1 →
  let j' := foldl (λ j '(k, v), jset k (jof_string v) j) j l in
  jobj j' ∧
  (∀ k, jcontains j' k = bool_decide (k ∈ l.*1) || jcontains j k) ∧
  (∀ k v, (k, v) ∈ l → jat j' k = jof_string v) ∧
  (∀ k, k ∉ l.*1 → jat j' k = jat j k).
Proof.
  revert j. induction l as [|[k v] l IH]; intros j Hj Hnd; simpl.
  { split_and!; [done|done|set_solver|done]. }
  apply NoDup_cons in Hnd as [Hk Hnd].
  destruct (IH (jset k (jof_string v) j) (jobj_set _ _ _ Hj) Hnd) as (Ho & Hc & Hi & Hn).
  split_and!; [done|..].
  - intros k'. rewrite Hc, jcontains_set by done.
    destruct (jcontains j k'); [by rewrite !orb_true_r|rewrite !orb_false_r].
    rewrite <- bool_decide_or. apply bool_decide_ext. rewrite elem_of_cons. naive_solver.
  - intros k' v' [[= -> ->]|Hin]%elem_of_cons.
    + rewrite Hn by done. rewrite jat_set by done. by rewrite decide_True.
    + by apply Hi.
  - intros k' [Hne Hk']%not_elem_of_cons. rewrite Hn by done. rewrite jat_set by done.
    by rewrite decide_False.
Qed.

Lemma want_fold (l : list (string * J)) (m : gmap string string) :
  (∀ k v v', (k, v) ∈ l → (k, v') ∈ l → v = v') → (∀ k v, (k, v) ∈ l → jis_string v = true) →
  ∀ k, foldl (λ m '(k, v), if jis_string v then <[k := jstring v]> m else m) m l !! k =
       match list_find (λ e : string * J, e.1 = k) l with
       | Some (_, (_, v)) => Some (jstring v)
       | None => m !! k
       end.
Proof.
  revert m. induction l as [|[k0 v0] l IH]; intros m Hf Hs k; simpl; [done|].
  rewrite (Hs k0 v0) by set_solver. rewrite IH; [|intros k1 v v' ??; apply (Hf k1); set_solver|intros k1 v ?; apply (Hs k1); set_solver].
  case_decide as Hk; subst.
  - destruct (list_find _ l) as [[i [k1 v1]]|] eqn:E; simpl; [|by rewrite lookup_insert_eq].
    apply list_find_Some in E as (Hl & Hk1 & _). simpl in Hk1; subst k1.
    apply list_elem_of_lookup_2 in Hl. do 2 f_equal. apply (Hf k); set_solver.
  - destruct (list_find _ l) as [[i [k1 v1]]|]; simpl; [done|]. by rewrite lookup_insert_ne.
Qed.

Lemma want_payload `{!JsonLaws J} want : want_of (payload_of want) = want.
Proof.
  unfold payload_of.
  destruct (payload_fold (map_iter string_le want) jnull jobj_null (NoDup_map_iter_fst _ _))
    as (Ho & Hc & Hi & _).
  set (j := foldl _ jnull _) in *.
  assert (Hitem : ∀ k v, (k, v) ∈ jitems j ↔ ∃ s, want !! k = Some s ∧ v = jof_string s).
  { intros k v. rewrite jitems_spec by done. rewrite Hc, jcontains_null, orb_false_r.
    rewrite bool_decide_eq_true. split.
    - intros [([k' s] & -> & Hin)%list_elem_of_fmap Hat]. simpl in *.
      rewrite (Hi _ _ Hin) in Hat. exists s. split; [by apply elem_of_map_iter in Hin|done].
    - intros (s & Hs & ->). apply (elem_of_map_iter string_le) in Hs.
      split; [apply list_elem_of_fmap; by exists (k, s)|by apply Hi]. }
  apply map_eq. intros k. unfold want_of. rewrite want_fold.
  - destruct (list_find _ (jitems j)) as [[i [k' v]]|] eqn:E.
    + apply list_find_Some in E as (Hl & Hk & _). simpl in Hk; subst k'.
      apply list_elem_of_lookup_2, Hitem in Hl as (s & -> & ->). by rewrite jstring_of_string.
    + rewrite lookup_empty. destruct (want !! k) as [s|] eqn:Hs; [|done].
      apply list_find_None in E. rewrite Forall_forall in E.
      destruct (E (k, jof_string s)); [|done]. apply Hitem. eauto.
  - intros k1 v v' (s & ? & ->)%Hitem (s' & ? & ->)%Hitem. congruence.
  - intros k1 v (s & ? & ->)%Hitem. apply jis_string_of_string.
Qed.

Lemma payload_obj `{!JsonLaws J} want : jobj (payload_of want).
Proof. unfold payload_of. apply payload_fold; [apply jobj_null|apply NoDup_map_iter_fst]. Qed.

(** What [Marshalling] leaves in the parcel, and what [Unmarshalling] makes of it. *)
Lemma marshalled_contents `{!ParcelLaws P} x (p p' : P) :
  Marshalling x p = (Some true, p') →
  ∃ s, jdump (payload_of (want_ x)) = Some s ∧
       contents p' = contents p ++ [PInt (code_ x); PStr (data_ x); PStr s].
Proof.
  unfold Marshalling.
  destruct (WriteInt32 _ p) as [[] p1] eqn:E1; [simpl|done].
  destruct (WriteString _ p1) as [[] p2] eqn:E2; [simpl|done].
  destruct (jdump _) as [s|] eqn:Ed; [|done].
  destruct (WriteString s p2) as [[] p3] eqn:E3; [|done]. intros [= <-]. exists s. split; [done|].
  apply WriteInt32_contents in E1. apply WriteString_contents in E2, E3.
  by rewrite E3, E2, E1, <- !app_assoc.
Qed.
Lemma unmarshalled_contents `{!JsonLaws J} `{!ParcelLaws P} x s r (q : P) :
  jdump (payload_of (want_ x)) = Some s → contents q = [PInt (code_ x); PStr (data_ x); PStr s] ++ r →
  (Unmarshalling q).1 = Some x ∧ contents (Unmarshalling q).2 = r.
Proof.
  intros Ed Hq. unfold Unmarshalling.
  destruct (ReadInt32 q) as [o1 q1] eqn:R1.
  destruct (ReadInt32_contents _ _ _ Hq) as [H1 C1]. rewrite R1 in H1, C1; simpl in *. subst o1.
  destruct (ReadString q1) as [o2 q2] eqn:R2.
  destruct (ReadString_contents _ _ _ C1) as [H2 C2]. rewrite R2 in H2, C2; simpl in *. subst o2.
  destruct (ReadStringValue q2) as [s' q3] eqn:R3.
  destruct (ReadStringValue_contents _ _ _ C2) as [H3 C3]. rewrite R3 in H3, C3; simpl in *. subst s'.
  rewrite (jparse_dump _ _ (payload_obj _) Ed), want_payload. by destruct x.
Qed.

(** ** Properties *)

(** C38: Extra data survives the trip between processes: what [Marshalling] writes
    into an empty parcel, [Unmarshalling] reads back unchanged, whatever the
    code, the data string and the string map are. *)
Theorem extra_data_roundtrip `{!JsonLaws J} `{!ParcelLaws P} x (p p' : P) :
  contents p = [] → Marshalling x p = (Some true, p') → (Unmarshalling p').1 = Some x.
Proof.
  intros Hp (s & Hs & Hc)%marshalled_contents. rewrite Hp in Hc. by eapply (unmarshalled_contents x s []).
Qed.

(** [JsonToOnDemandReason] sets exactly the fields the JSON carries with the
    right type and leaves every other one at its default; in particular, when
    the JSON has no number under "eventId", whether the reason claims extra data
    is decided by the indeterminate value of the uninitialised [reasonId_]. *)
Theorem reason_of_json_fields indet (j : J) :
  let r := JsonToOnDemandReason indet j in
  let num k := jcontains j k && jis_number (jat j k) in
  let str k := jcontains j k && jis_string (jat j k) in
  reasonId_ r = (if num EVENT_ID then jint32 (jat j EVENT_ID) else indet) ∧
  reasonName_ r = (if str NAME then jstring (jat j NAME) else "") ∧
  reasonValue_ r = (if str VALUE then jstring (jat j VALUE) else "") ∧
  extraDataId_ r = (if num EXTRA_DATA_ID then jint64 (jat j EXTRA_DATA_ID) else -1) ∧
  extraData_ r = default_extra ∧
  (num EVENT_ID = false → HasExtraData r = (indet =? 4)).
Proof.
  unfold JsonToOnDemandReason, HasExtraData. cbv zeta.
  destruct (jcontains j EVENT_ID && _), (jcontains j NAME && _), (jcontains j VALUE && _),
    (jcontains j EXTRA_DATA_ID && _); by split_and!.
Qed.
End reason.

(** ** Witnesses *)

Definition demo_extra : OnDemandReasonExtraData :=
  mk_extra 7 "data" (<["action" := "power"%string]> {["uid" := "1000"%string]}).

Lemma extra_data_roundtrip_witness :
  (Unmarshalling (J := DemoJson.dj)
     (Marshalling (J := DemoJson.dj) demo_extra (DemoParcel.empty_parcel 8)).2).1 = Some demo_extra.
Proof.
  apply (extra_data_roundtrip (J := DemoJson.dj) demo_extra (DemoParcel.empty_parcel 8)).
  - reflexivity.
  - vm_compute; reflexivity.
Defined.
