(* ===== verification/World.v ===== *)
(** * World: the state of a safwk process and its environment

    [world] is the state the framework code of one process reads and writes: the
    [SystemAbility] objects (a heap, because the registry, the phase lists and
    the start tasks alias them), the members of the singleton
    [LocalAbilityManager] ([services/safwk/include/local_ability_manager.h]), the
    threads it has detached, and the [trace] of the calls it has made.

    Everything outside the repository answers through the class [Env]: a call is
    an [event]; its answer is a function of the calls made before it, so an
    environment can be any stateful service.  The subclass code of a system
    ability (its [On*] overrides) and the loading of libraries are arbitrary
    world transformers of the environment.

    Programs are in the state monad [M].  Logging, tracing and the time readings
    that are only logged are left out. *)

From S2P Require Import Prelude Interfaces.
From S2P Require Export Monad OnDemandReason.

Abbreviation loc := positive.
(** A [SystemAbility*]; [None] is the null pointer. *)
Abbreviation ptr := (option positive).

(* [services/safwk/include/system_ability.h:53-57] SystemAbilityState *)
Inductive SystemAbilityState := NOT_LOADED | ACTIVE | IDLE.
#[export] Instance SystemAbilityState_eq_dec : EqDecision SystemAbilityState.
Proof. solve_decision. Defined.

(* [services/safwk/include/local_ability_manager.h:41-44] ListenerState *)
Inductive ListenerState := INIT | NOTIFIED.
#[export] Instance ListenerState_eq_dec : EqDecision ListenerState.
Proof. solve_decision. Defined.

(** A remote object is a non-zero handle; 0 is [nullptr]. *)
(* [services/safwk/include/system_ability.h:271-282] SystemAbility *)
Record system_ability := mk_sa {
  saId_ : Z;
  libPath_ : string;
  dependSa_ : list Z;
  isRunOnCreate_ : bool;
  isDistributed_ : bool;
  dumpLevel_ : Z;
  dependTimeout_ : Z;
  isRunning_ : bool;
  abilityState_ : SystemAbilityState;
  capability_ : u16string;
  publishObj_ : Z;
  permission_ : u16string;
}.

(** The detached threads [StartAbility] and [StopAbility] create. *)
(* [services/safwk/src/local_ability_manager.cpp:545-567] LocalAbilityManager::StartAbility *)
Inductive thread_task := StartOndemandTask (systemAbilityId : Z) | StopOndemandTask (systemAbilityId : Z).
#[export] Instance thread_task_eq_dec : EqDecision thread_task.
Proof. solve_decision. Defined.

(** ** Calls that leave the framework *)

Inductive event :=
(* the system ability manager and its proxy *)
| EvGetSystemAbilityManager
| EvAddSystemAbility (sa obj : Z) (isDistributed : bool) (dumpLevel : Z) (cap perm : u16string)
| EvRemoveSystemAbility (sa : Z)
| EvCheckSystemAbility (sa : Z)
| EvGetSystemAbility (sa : Z)
| EvSubscribeSystemAbility (sa : Z)
| EvUnSubscribeSystemAbility (sa : Z)
| EvAddOnDemandSystemAbilityInfo (sa : Z) (proc : u16string)
| EvAddSystemProcess (proc : u16string)
| EvUnloadSystemAbility (sa : Z)
| EvCancelUnloadSystemAbility (sa : Z)
| EvOnStartSystemAbilityFail (sa err : Z)
| EvGetOnDemandReasonExtraData (id : Z)
(* the operating system and the utilities *)
| EvGetTickCount
| EvSteadyClock
| EvSleep (us : Z)
| EvRealPath (path : string)
| EvGetLastRequestTime (obj : Z)
| EvReportSaMainExit (why : string)
| EvJoinWorkThread
| EvRegisterTimer (interval : Z)
| EvUnregisterTimer (id : Z)
| EvPoolStart (threads : Z)
| EvPoolStop
| EvHardwareConcurrency
| EvGetTid
| EvSetPriority (tid priority : Z)
(* the libraries of system abilities and their overrides *)
| EvLoadSaLib (sa : Z)
| EvOpenSo (phase : Z)
| EvOnStart (this : loc) (r : SystemAbilityOnDemandReason)
| EvOnStop (this : loc) (r : SystemAbilityOnDemandReason)
| EvOnActive (this : loc) (r : SystemAbilityOnDemandReason)
| EvOnIdle (this : loc) (r : SystemAbilityOnDemandReason)
| EvOnAddSystemAbility (this : loc) (sa : Z) (deviceId : string)
| EvOnRemoveSystemAbility (this : loc) (sa : Z) (deviceId : string)
| EvOnDeviceLevelChanged (this : loc) (type level : Z) (action : string)
| EvOnExtension (this : loc) (extension : string)
| EvOnSvcCmd (this : loc) (fd : Z) (args : list u16string)
(* the thread pool: whether and which task runs next, and that it runs *)
| EvWaitForTasks (remaining : Z)
| EvRunTask (ability : loc).

(** ** The world *)

(* [services/safwk/include/local_ability_manager.h:125-153] LocalAbilityManager *)
Record world (J U : Type) := mk_world {
  heap : gmap loc system_ability;
  localAbilityMap_ : gmap Z ptr;
  abilityPhaseMap_ : gmap Z (list ptr);
  localAbilityManager_ : bool;
  saIdToStartReason_ : gmap Z J;
  saIdToStopReason_ : gmap Z J;
  statusChangeListener_ : bool;
  localListenerMap_ : gmap Z (list (Z * ListenerState));
  profileParser_ : U;
  startTaskNum_ : Z;
  procName_ : u16string;
  startBegin_ : Z;
  initPool_ : list loc;
  threads : list thread_task;
  idleTimer_ : bool;
  unusedCfgMap_ : gmap Z Z;
  ondemandTimer_ : Z;
  trace : list event;
}.
Arguments mk_world {J U}.
Arguments heap {J U} _.
Arguments localAbilityMap_ {J U} _.
Arguments abilityPhaseMap_ {J U} _.
Arguments localAbilityManager_ {J U} _.
Arguments saIdToStartReason_ {J U} _.
Arguments saIdToStopReason_ {J U} _.
Arguments statusChangeListener_ {J U} _.
Arguments localListenerMap_ {J U} _.
Arguments profileParser_ {J U} _.
Arguments startTaskNum_ {J U} _.
Arguments procName_ {J U} _.
Arguments startBegin_ {J U} _.
Arguments initPool_ {J U} _.
Arguments threads {J U} _.
Arguments idleTimer_ {J U} _.
Arguments unusedCfgMap_ {J U} _.
Arguments ondemandTimer_ {J U} _.
Arguments trace {J U} _.

Section setters.
  Context {J U : Type}.

Definition set_heap (v : gmap loc system_ability) (w : world J U) : world J U :=
  mk_world v (localAbilityMap_ w) (abilityPhaseMap_ w) (localAbilityManager_ w) (saIdToStartReason_ w) (saIdToStopReason_ w) (statusChangeListener_ w) (localListenerMap_ w) (profileParser_ w) (startTaskNum_ w) (procName_ w) (startBegin_ w) (initPool_ w) (threads w) (idleTimer_ w) (unusedCfgMap_ w) (ondemandTimer_ w) (trace w).
Definition set_localAbilityMap_ (v : gmap Z ptr) (w : world J U) : world J U :=
  mk_world (heap w) v (abilityPhaseMap_ w) (localAbilityManager_ w) (saIdToStartReason_ w) (saIdToStopReason_ w) (statusChangeListener_ w) (localListenerMap_ w) (profileParser_ w) (startTaskNum_ w) (procName_ w) (startBegin_ w) (initPool_ w) (threads w) (idleTimer_ w) (unusedCfgMap_ w) (ondemandTimer_ w) (trace w).
Definition set_abilityPhaseMap_ (v : gmap Z (list ptr)) (w : world J U) : world J U :=
  mk_world (heap w) (localAbilityMap_ w) v (localAbilityManager_ w) (saIdToStartReason_ w) (saIdToStopReason_ w) (statusChangeListener_ w) (localListenerMap_ w) (profileParser_ w) (startTaskNum_ w) (procName_ w) (startBegin_ w) (initPool_ w) (threads w) (idleTimer_ w) (unusedCfgMap_ w) (ondemandTimer_ w) (trace w).
Definition set_localAbilityManager_ (v : bool) (w : world J U) : world J U :=
  mk_world (heap w) (localAbilityMap_ w) (abilityPhaseMap_ w) v (saIdToStartReason_ w) (saIdToStopReason_ w) (statusChangeListener_ w) (localListenerMap_ w) (profileParser_ w) (startTaskNum_ w) (procName_ w) (startBegin_ w) (initPool_ w) (threads w) (idleTimer_ w) (unusedCfgMap_ w) (ondemandTimer_ w) (trace w).
Definition set_saIdToStartReason_ (v : gmap Z J) (w : world J U) : world J U :=
  mk_world (heap w) (localAbilityMap_ w) (abilityPhaseMap_ w) (localAbilityManager_ w) v (saIdToStopReason_ w) (statusChangeListener_ w) (localListenerMap_ w) (profileParser_ w) (startTaskNum_ w) (procName_ w) (startBegin_ w) (initPool_ w) (threads w) (idleTimer_ w) (unusedCfgMap_ w) (ondemandTimer_ w) (trace w).
Definition set_saIdToStopReason_ (v : gmap Z J) (w : world J U) : world J U :=
  mk_world (heap w) (localAbilityMap_ w) (abilityPhaseMap_ w) (localAbilityManager_ w) (saIdToStartReason_ w) v (statusChangeListener_ w) (localListenerMap_ w) (profileParser_ w) (startTaskNum_ w) (procName_ w) (startBegin_ w) (initPool_ w) (threads w) (idleTimer_ w) (unusedCfgMap_ w) (ondemandTimer_ w) (trace w).
Definition set_statusChangeListener_ (v : bool) (w : world J U) : world J U :=
  mk_world (heap w) (localAbilityMap_ w) (abilityPhaseMap_ w) (localAbilityManager_ w) (saIdToStartReason_ w) (saIdToStopReason_ w) v (localListenerMap_ w) (profileParser_ w) (startTaskNum_ w) (procName_ w) (startBegin_ w) (initPool_ w) (threads w) (idleTimer_ w) (unusedCfgMap_ w) (ondemandTimer_ w) (trace w).
Definition set_localListenerMap_ (v : gmap Z (list (Z * ListenerState))) (w : world J U) : world J U :=
  mk_world (heap w) (localAbilityMap_ w) (abilityPhaseMap_ w) (localAbilityManager_ w) (saIdToStartReason_ w) (saIdToStopReason_ w) (statusChangeListener_ w) v (profileParser_ w) (startTaskNum_ w) (procName_ w) (startBegin_ w) (initPool_ w) (threads w) (idleTimer_ w) (unusedCfgMap_ w) (ondemandTimer_ w) (trace w).
Definition set_profileParser_ (v : U) (w : world J U) : world J U :=
  mk_world (heap w) (localAbilityMap_ w) (abilityPhaseMap_ w) (localAbilityManager_ w) (saIdToStartReason_ w) (saIdToStopReason_ w) (statusChangeListener_ w) (localListenerMap_ w) v (startTaskNum_ w) (procName_ w) (startBegin_ w) (initPool_ w) (threads w) (idleTimer_ w) (unusedCfgMap_ w) (ondemandTimer_ w) (trace w).
Definition set_startTaskNum_ (v : Z) (w : world J U) : world J U :=
  mk_world (heap w) (localAbilityMap_ w) (abilityPhaseMap_ w) (localAbilityManager_ w) (saIdToStartReason_ w) (saIdToStopReason_ w) (statusChangeListener_ w) (localListenerMap_ w) (profileParser_ w) v (procName_ w) (startBegin_ w) (initPool_ w) (threads w) (idleTimer_ w) (unusedCfgMap_ w) (ondemandTimer_ w) (trace w).
Definition set_procName_ (v : u16string) (w : world J U) : world J U :=
  mk_world (heap w) (localAbilityMap_ w) (abilityPhaseMap_ w) (localAbilityManager_ w) (saIdToStartReason_ w) (saIdToStopReason_ w) (statusChangeListener_ w) (localListenerMap_ w) (profileParser_ w) (startTaskNum_ w) v (startBegin_ w) (initPool_ w) (threads w) (idleTimer_ w) (unusedCfgMap_ w) (ondemandTimer_ w) (trace w).
Definition set_startBegin_ (v : Z) (w : world J U) : world J U :=
  mk_world (heap w) (localAbilityMap_ w) (abilityPhaseMap_ w) (localAbilityManager_ w) (saIdToStartReason_ w) (saIdToStopReason_ w) (statusChangeListener_ w) (localListenerMap_ w) (profileParser_ w) (startTaskNum_ w) (procName_ w) v (initPool_ w) (threads w) (idleTimer_ w) (unusedCfgMap_ w) (ondemandTimer_ w) (trace w).
Definition set_initPool_ (v : list loc) (w : world J U) : world J U :=
  mk_world (heap w) (localAbilityMap_ w) (abilityPhaseMap_ w) (localAbilityManager_ w) (saIdToStartReason_ w) (saIdToStopReason_ w) (statusChangeListener_ w) (localListenerMap_ w) (profileParser_ w) (startTaskNum_ w) (procName_ w) (startBegin_ w) v (threads w) (idleTimer_ w) (unusedCfgMap_ w) (ondemandTimer_ w) (trace w).
Definition set_threads (v : list thread_task) (w : world J U) : world J U :=
  mk_world (heap w) (localAbilityMap_ w) (abilityPhaseMap_ w) (localAbilityManager_ w) (saIdToStartReason_ w) (saIdToStopReason_ w) (statusChangeListener_ w) (localListenerMap_ w) (profileParser_ w) (startTaskNum_ w) (procName_ w) (startBegin_ w) (initPool_ w) v (idleTimer_ w) (unusedCfgMap_ w) (ondemandTimer_ w) (trace w).
Definition set_idleTimer_ (v : bool) (w : world J U) : world J U :=
  mk_world (heap w) (localAbilityMap_ w) (abilityPhaseMap_ w) (localAbilityManager_ w) (saIdToStartReason_ w) (saIdToStopReason_ w) (statusChangeListener_ w) (localListenerMap_ w) (profileParser_ w) (startTaskNum_ w) (procName_ w) (startBegin_ w) (initPool_ w) (threads w) v (unusedCfgMap_ w) (ondemandTimer_ w) (trace w).
Definition set_unusedCfgMap_ (v : gmap Z Z) (w : world J U) : world J U :=
  mk_world (heap w) (localAbilityMap_ w) (abilityPhaseMap_ w) (localAbilityManager_ w) (saIdToStartReason_ w) (saIdToStopReason_ w) (statusChangeListener_ w) (localListenerMap_ w) (profileParser_ w) (startTaskNum_ w) (procName_ w) (startBegin_ w) (initPool_ w) (threads w) (idleTimer_ w) v (ondemandTimer_ w) (trace w).
Definition set_ondemandTimer_ (v : Z) (w : world J U) : world J U :=
  mk_world (heap w) (localAbilityMap_ w) (abilityPhaseMap_ w) (localAbilityManager_ w) (saIdToStartReason_ w) (saIdToStopReason_ w) (statusChangeListener_ w) (localListenerMap_ w) (profileParser_ w) (startTaskNum_ w) (procName_ w) (startBegin_ w) (initPool_ w) (threads w) (idleTimer_ w) (unusedCfgMap_ w) v (trace w).
Definition set_trace (v : list event) (w : world J U) : world J U :=
  mk_world (heap w) (localAbilityMap_ w) (abilityPhaseMap_ w) (localAbilityManager_ w) (saIdToStartReason_ w) (saIdToStopReason_ w) (statusChangeListener_ w) (localListenerMap_ w) (profileParser_ w) (startTaskNum_ w) (procName_ w) (startBegin_ w) (initPool_ w) (threads w) (idleTimer_ w) (unusedCfgMap_ w) (ondemandTimer_ w) v.
End setters.

(** ** Programs *)

Abbreviation prog J U := (sprog (world J U)).

(** ** The environment *)

Class Env (J P U : Type) := {
  respond : list event → event → Z;
  extra_data_parcel : list event → P;
  indet_reason_id : list event → Z;      (* what an uninitialised [reasonId_] holds *)
  OnStart : loc → SystemAbilityOnDemandReason → prog J U unit;
  OnStop : loc → SystemAbilityOnDemandReason → prog J U unit;
  OnActive : loc → SystemAbilityOnDemandReason → prog J U unit;
  OnIdle : loc → SystemAbilityOnDemandReason → prog J U Z;
  OnAddSystemAbility : loc → Z → string → prog J U unit;
  OnRemoveSystemAbility : loc → Z → string → prog J U unit;
  OnDeviceLevelChanged : loc → Z → Z → string → prog J U string;
  OnExtension : loc → string → P → P → prog J U (Z * P * P);
  OnSvcCmd : loc → Z → list u16string → prog J U Z;
  LoadSaLib : Z → prog J U bool;
  OpenSo : Z → prog J U unit;
  realpath : string → option string;
  elapse : Z → prog J U unit;            (* the other threads, while this one sleeps *)
}.

Section world.
  Context {J P U : Type} `{!Json J} `{!MessageParcel P} `{!Env J P U}.

  #[local] Abbreviation M := (prog J U).
  #[local] Abbreviation world := (world J U).

(** Make a call and get its answer. *)
Definition call (e : event) : M Z :=
  λ w, (respond (trace w) e, set_trace (trace w ++ [e]) w).

(** Make a call into code the environment supplies as a program. *)
Definition enter {A} (e : event) (m : M A) : M A := do! call e in m.

Definition ERR_OK : Z := 0.

Definition usleep (us : Z) : M unit := enter (EvSleep us) (elapse us).

(** [SystemAbilityManagerClient::GetInstance().GetSystemAbilityManager()]: whether
    the proxy is non-null. *)
Definition GetSystemAbilityManager : M bool :=
  let! r := call EvGetSystemAbilityManager in ret (negb (r =? 0)).

(** ** [SystemAbility] objects *)

(* [services/safwk/include/local_ability_manager.h:39-39] DEFAULT_DEPENDENCY_TIMEOUT *)
Definition DEFAULT_DEPENDENCY_TIMEOUT : Z := 6000.

(* [services/safwk/src/system_ability.cpp:34-49] SystemAbility::SystemAbility *)
Definition new_SystemAbility (systemAbilityId : Z) (runOnCreate : bool) : system_ability :=
  mk_sa systemAbilityId "" [] runOnCreate false 0 DEFAULT_DEPENDENCY_TIMEOUT false NOT_LOADED [] 0 [].

(** Objects are never deleted by the framework, so a pointer it stores is valid. *)
Definition sa_at (w : world) (l : loc) : system_ability :=
  default (new_SystemAbility 0 false) (heap w !! l).
Definition get_sa {A} (f : system_ability → A) (l : loc) : M A := λ w, (f (sa_at w l), w).
Definition put_sa (f : system_ability → system_ability) (l : loc) : M unit :=
  modify (λ w, set_heap (<[l := f (sa_at w l)]> (heap w)) w).

Definition set_abilityState_ (v : SystemAbilityState) (s : system_ability) :=
  mk_sa (saId_ s) (libPath_ s) (dependSa_ s) (isRunOnCreate_ s) (isDistributed_ s) (dumpLevel_ s)
    (dependTimeout_ s) (isRunning_ s) v (capability_ s) (publishObj_ s) (permission_ s).
Definition set_isRunning_ (v : bool) (s : system_ability) :=
  mk_sa (saId_ s) (libPath_ s) (dependSa_ s) (isRunOnCreate_ s) (isDistributed_ s) (dumpLevel_ s)
    (dependTimeout_ s) v (abilityState_ s) (capability_ s) (publishObj_ s) (permission_ s).
Definition set_publishObj_ (v : Z) (s : system_ability) :=
  mk_sa (saId_ s) (libPath_ s) (dependSa_ s) (isRunOnCreate_ s) (isDistributed_ s) (dumpLevel_ s)
    (dependTimeout_ s) (isRunning_ s) (abilityState_ s) (capability_ s) v (permission_ s).
(* [services/safwk/src/system_ability.cpp:302-305] SystemAbility::GetSystemAbilitId *)
Definition GetSystemAbilitId (s : system_ability) : Z := saId_ s.
(* [services/safwk/src/system_ability.cpp:312-315] SystemAbility::GetLibPath *)
Definition GetLibPath (s : system_ability) : string := libPath_ s.
(* [services/safwk/src/system_ability.cpp:322-325] SystemAbility::GetDependSa *)
Definition GetDependSa (s : system_ability) : list Z := dependSa_ s.
(* [services/safwk/src/system_ability.cpp:332-335] SystemAbility::IsRunOnCreate *)
Definition IsRunOnCreate (s : system_ability) : bool := isRunOnCreate_ s.
(* [services/safwk/src/system_ability.cpp:342-345] SystemAbility::GetDistributed *)
Definition GetDistributed (s : system_ability) : bool := isDistributed_ s.
(* [services/safwk/src/system_ability.cpp:347-350] SystemAbility::GetRunningStatus *)
Definition GetRunningStatus (s : system_ability) : bool := isRunning_ s.
(* [services/safwk/src/system_ability.cpp:352-356] SystemAbility::GetAbilityState *)
Definition GetAbilityState (s : system_ability) : SystemAbilityState := abilityState_ s.
(* [services/safwk/src/system_ability.cpp:363-366] SystemAbility::GetDumpLevel *)
Definition GetDumpLevel (s : system_ability) : Z := dumpLevel_ s.
(* [services/safwk/src/system_ability.cpp:376-379] SystemAbility::GetDependTimeout *)
Definition GetDependTimeout (s : system_ability) : Z := dependTimeout_ s.
(* [services/safwk/src/system_ability.cpp:454-457] SystemAbility::GetCapability *)
Definition GetCapability (s : system_ability) : u16string := capability_ s.
(* [services/safwk/src/system_ability.cpp:474-477] SystemAbility::GetAbilityRemoteObject *)
Definition GetAbilityRemoteObject (s : system_ability) : Z := publishObj_ s.
(* [services/safwk/src/system_ability.cpp:307-310] SystemAbility::SetLibPath *)
Definition SetLibPath (v : string) (s : system_ability) :=
  mk_sa (saId_ s) v (dependSa_ s) (isRunOnCreate_ s) (isDistributed_ s) (dumpLevel_ s)
    (dependTimeout_ s) (isRunning_ s) (abilityState_ s) (capability_ s) (publishObj_ s) (permission_ s).
(* [services/safwk/src/system_ability.cpp:317-320] SystemAbility::SetDependSa *)
Definition SetDependSa (v : list Z) (s : system_ability) :=
  mk_sa (saId_ s) (libPath_ s) v (isRunOnCreate_ s) (isDistributed_ s) (dumpLevel_ s)
    (dependTimeout_ s) (isRunning_ s) (abilityState_ s) (capability_ s) (publishObj_ s) (permission_ s).
(* [services/safwk/src/system_ability.cpp:327-330] SystemAbility::SetRunOnCreate *)
Definition SetRunOnCreate (v : bool) (s : system_ability) :=
  mk_sa (saId_ s) (libPath_ s) (dependSa_ s) v (isDistributed_ s) (dumpLevel_ s)
    (dependTimeout_ s) (isRunning_ s) (abilityState_ s) (capability_ s) (publishObj_ s) (permission_ s).
(* [services/safwk/src/system_ability.cpp:337-340] SystemAbility::SetDistributed *)
Definition SetDistributed (v : bool) (s : system_ability) :=
  mk_sa (saId_ s) (libPath_ s) (dependSa_ s) (isRunOnCreate_ s) v (dumpLevel_ s)
    (dependTimeout_ s) (isRunning_ s) (abilityState_ s) (capability_ s) (publishObj_ s) (permission_ s).
(* [services/safwk/src/system_ability.cpp:358-361] SystemAbility::SetDumpLevel *)
Definition SetDumpLevel (v : Z) (s : system_ability) :=
  mk_sa (saId_ s) (libPath_ s) (dependSa_ s) (isRunOnCreate_ s) (isDistributed_ s) v
    (dependTimeout_ s) (isRunning_ s) (abilityState_ s) (capability_ s) (publishObj_ s) (permission_ s).
(* [services/safwk/src/system_ability.cpp:449-452] SystemAbility::SetCapability *)
Definition SetCapability (v : u16string) (s : system_ability) :=
  mk_sa (saId_ s) (libPath_ s) (dependSa_ s) (isRunOnCreate_ s) (isDistributed_ s) (dumpLevel_ s)
    (dependTimeout_ s) (isRunning_ s) (abilityState_ s) v (publishObj_ s) (permission_ s).
(* [services/safwk/src/system_ability.cpp:459-462] SystemAbility::SetPermission *)
Definition SetPermission (v : u16string) (s : system_ability) :=
  mk_sa (saId_ s) (libPath_ s) (dependSa_ s) (isRunOnCreate_ s) (isDistributed_ s) (dumpLevel_ s)
    (dependTimeout_ s) (isRunning_ s) (abilityState_ s) (capability_ s) (publishObj_ s) v.

(* [services/safwk/include/local_ability_manager.h:37-37] MIN_DEPENDENCY_TIMEOUT *)
Definition MIN_DEPENDENCY_TIMEOUT : Z := 200.
(* [services/safwk/include/local_ability_manager.h:38-38] MAX_DEPENDENCY_TIMEOUT *)
Definition MAX_DEPENDENCY_TIMEOUT : Z := 60000.

(* [services/safwk/src/system_ability.cpp:368-374] SystemAbility::SetDependTimeout *)
Definition SetDependTimeout (v : Z) (s : system_ability) :=
  if (MIN_DEPENDENCY_TIMEOUT <=? v) && (v <=? MAX_DEPENDENCY_TIMEOUT) then
    mk_sa (saId_ s) (libPath_ s) (dependSa_ s) (isRunOnCreate_ s) (isDistributed_ s) (dumpLevel_ s)
      v (isRunning_ s) (abilityState_ s) (capability_ s) (publishObj_ s) (permission_ s)
  else s.

(** ** The reason maps of the manager *)

(* [services/safwk/src/local_ability_manager.cpp:889-893] LocalAbilityManager::SetStartReason *)
Definition SetStartReason (saId : Z) (event : J) : M unit :=
  modify (λ w, set_saIdToStartReason_ (<[saId := event]> (saIdToStartReason_ w)) w).

(* [services/safwk/src/local_ability_manager.cpp:895-899] LocalAbilityManager::SetStopReason *)
Definition SetStopReason (saId : Z) (event : J) : M unit :=
  modify (λ w, set_saIdToStopReason_ (<[saId := event]> (saIdToStopReason_ w)) w).

(** [operator[]] inserts a null value under a missing key. *)
(* [services/safwk/src/local_ability_manager.cpp:901-905] LocalAbilityManager::GetStartReason *)
Definition GetStartReason (saId : Z) : M J :=
  λ w, match saIdToStartReason_ w !! saId with
       | Some j => (j, w)
       | None => (jnull, set_saIdToStartReason_ (<[saId := jnull]> (saIdToStartReason_ w)) w)
       end.

(* [services/safwk/src/local_ability_manager.cpp:907-911] LocalAbilityManager::GetStopReason *)
Definition GetStopReason (saId : Z) : M J :=
  λ w, match saIdToStopReason_ w !! saId with
       | Some j => (j, w)
       | None => (jnull, set_saIdToStopReason_ (<[saId := jnull]> (saIdToStopReason_ w)) w)
       end.

Definition json_reason (j : J) : M SystemAbilityOnDemandReason :=
  gets (λ w, JsonToOnDemandReason (indet_reason_id (trace w)) j).

End world.

(** The members as the constructor of the singleton leaves them, with the profile
    parser [u]. *)
(* [services/safwk/src/local_ability_manager.cpp:105-109] LocalAbilityManager::LocalAbilityManager *)
Definition new_LocalAbilityManager {J U} (u : U) : world J U :=
  mk_world ∅ ∅ ∅ false ∅ ∅ false ∅ u 0 [] 0 [] [] false ∅ 0 [].

Arguments GetSystemAbilitId s /.
Arguments GetLibPath s /.
Arguments GetDependSa s /.
Arguments IsRunOnCreate s /.
Arguments GetDistributed s /.
Arguments GetRunningStatus s /.
Arguments GetAbilityState s /.
Arguments GetDumpLevel s /.
Arguments GetDependTimeout s /.
Arguments GetCapability s /.
Arguments GetAbilityRemoteObject s /.

(** Unfold the monad; what remains is the order of the state updates. *)
Ltac run_prog := unfold bind, ret, gets, modify, get_sa, put_sa, enter, call in *; cbn in *.

Section world_lemmas.
  Context {J P U : Type} `{!Json J} `{!MessageParcel P} `{!Env J P U}.

(** Programs that only make calls: they change the trace and nothing else. *)
Definition only_calls {A} (m : prog J U A) : Prop :=
  ∀ w, ∃ es, (m w).2 = set_trace (trace w ++ es) w.

Lemma set_trace_trace (w : world J U) : set_trace (trace w) w = w.
Proof. by destruct w. Qed.
Lemma set_trace_twice t t' (w : world J U) : set_trace t (set_trace t' w) = set_trace t w.
Proof. by destruct w. Qed.

Lemma only_calls_ret {A} (a : A) : only_calls (ret a).
Proof. intros w. exists []. rewrite app_nil_r. by rewrite set_trace_trace. Qed.
Lemma only_calls_gets {A} (f : world J U → A) : only_calls (gets f).
Proof. intros w. exists []. rewrite app_nil_r. by rewrite set_trace_trace. Qed.
Lemma only_calls_call e : only_calls (call e).
Proof. intros w. by exists [e]. Qed.
Lemma only_calls_bind {A B} (m : prog J U A) (k : A → prog J U B) :
  only_calls m → (∀ a, only_calls (k a)) → only_calls (bind m k).
Proof.
  intros Hm Hk w. unfold bind. destruct (m w) as [a w1] eqn:E1.
  destruct (Hm w) as [es1 H1]. rewrite E1 in H1; simpl in H1.
  destruct (Hk a w1) as [es2 H2]. exists (es1 ++ es2). rewrite H2, H1, set_trace_twice.
  by rewrite app_assoc.
Qed.

Lemma sa_at_set_trace t (w : world J U) l : sa_at (set_trace t w) l = sa_at w l.
Proof. done. Qed.

Lemma sa_at_heap l l' s (w : world J U) :
  sa_at (set_heap (<[l := s]> (heap w)) w) l' = if decide (l = l') then s else sa_at w l'.
Proof.
  unfold sa_at; simpl. case_decide; subst; [by rewrite lookup_insert_eq|by rewrite lookup_insert_ne].
Qed.

Lemma sa_at_put f l l' (w : world J U) :
  sa_at (put_sa f l w).2 l' = if decide (l = l') then f (sa_at w l) else sa_at w l'.
Proof.
  unfold put_sa, modify, sa_at; simpl. case_decide; subst.
  - by rewrite lookup_insert_eq.
  - by rewrite lookup_insert_ne.
Qed.

Lemma keeps_get_sa {X} (f : world J U → X) {A} (g : system_ability → A) l : keeps f (get_sa g l).
Proof. done. Qed.
End world_lemmas.
#[export] Hint Resolve keeps_get_sa : safwk.
#[export] Hint Resolve only_calls_ret only_calls_gets only_calls_call only_calls_bind : safwk.

(** ** An environment for the witnesses

    The proxy of the system ability manager is there, every call succeeds and
    finds what it asks for, the clock advances ten units per call made, and the
    overrides do nothing. *)
Module DemoEnv.
Abbreviation dworld := (world DemoJson.dj DemoProfiles.du).
Abbreviation dprog := (prog DemoJson.dj DemoProfiles.du).

Definition demo_respond (h : list event) (e : event) : Z :=
  match e with
  | EvGetSystemAbilityManager => 1
  | EvCheckSystemAbility sa => sa
  | EvGetSystemAbility sa => sa
  | EvGetTickCount | EvSteadyClock => 10 * Z.of_nat (length h)
  | _ => 0
  end.

Definition demo_env (resp : list event → event → Z)
    (onstart : loc → SystemAbilityOnDemandReason → dprog unit)
    : Env DemoJson.dj DemoParcel.dp DemoProfiles.du := {|
  respond := resp;
  extra_data_parcel _ := DemoParcel.empty_parcel 8;
  indet_reason_id _ := 77;
  OnStart := onstart;
  OnStop _ _ := ret tt;
  OnActive _ _ := ret tt;
  OnIdle _ _ := ret 0;
  OnAddSystemAbility _ _ _ := ret tt;
  OnRemoveSystemAbility _ _ _ := ret tt;
  OnDeviceLevelChanged _ _ _ a := ret a;
  OnExtension _ _ d r := ret (0, d, r);
  OnSvcCmd _ _ _ := ret (-1);
  LoadSaLib _ := ret true;
  OpenSo _ := ret tt;
  realpath p := Some p;
  elapse _ := ret tt;
|}.

Definition base_env := demo_env demo_respond (λ _ _, ret tt).

(** One object at address 1. *)
Definition demo_world (l : list SaProfile) : dworld :=
  set_heap {[1%positive := new_SystemAbility 401 true]}
    (new_LocalAbilityManager (DemoProfiles.mk_du [100] l None)).
End DemoEnv.
