(* ===== verification/SystemAbility.v ===== *)
(** * SystemAbility: the base class of every system ability

    Models [services/safwk/src/system_ability.cpp].  The lifecycle operations
    [Start], [Idle], [Active] and [Stop] each consist of atomic sections (the
    blocks under [abilityLock] and the calls between them); the sections are
    definitions of their own, composed here into the sequential operations and
    interleaved in [Lifecycle.v].

    The abstract specification is the automaton [lc_step] on the pair of
    [abilityState_] and [isRunning_]. *)

From S2P Require Import Prelude Interfaces.
From S2P Require Export World.

Section system_ability.
  Context {J P U : Type} `{!Json J} `{!MessageParcel P} `{!Env J P U}.

  #[local] Abbreviation M := (prog J U).
  #[local] Abbreviation world := (world J U).

(* [services/safwk/src/system_ability.cpp:150-176] SystemAbility::GetOnDemandReasonExtraData *)
Definition GetOnDemandReasonExtraData (r : SystemAbilityOnDemandReason)
    : M SystemAbilityOnDemandReason :=
  if negb (HasExtraData r) then ret r
  else
    let! samgrProxy := GetSystemAbilityManager in
    if negb samgrProxy then ret r
    else
      let! extraDataParcel := gets (λ w, extra_data_parcel (trace w)) in
      let! result := call (EvGetOnDemandReasonExtraData (GetExtraDataId r)) in
      if negb (result =? ERR_OK) then ret r
      else
        match (ReadParcelable (Unmarshalling (J := J)) extraDataParcel).1 with
        | None => ret r
        | Some extraData => ret (SetExtraData extraData r)
        end.

(* [services/safwk/src/system_ability.cpp:74-100] SystemAbility::Publish *)
Definition Publish (this : loc) (systemAbility : Z) : M bool :=
  if systemAbility =? 0 then ret false
  else
    do! put_sa (set_publishObj_ systemAbility) this in
    let! samgrProxy := GetSystemAbilityManager in
    if negb samgrProxy then ret false
    else
      let! s := get_sa id this in
      let! result := call (EvAddSystemAbility (saId_ s) (publishObj_ s) (GetDistributed s)
                             (GetDumpLevel s) (capability_ s) (permission_ s)) in
      if result =? ERR_OK then
        do! put_sa (set_abilityState_ ACTIVE) this in ret true
      else ret false.

(* [services/safwk/src/system_ability.cpp:102-114] SystemAbility::OnStartFail *)
Definition OnStartFail (this : loc) (errCode : Z) : M bool :=
  let! samgrProxy := GetSystemAbilityManager in
  if negb samgrProxy then ret false
  else
    let! saId := get_sa saId_ this in
    let! result := call (EvOnStartSystemAbilityFail saId errCode) in
    ret (result =? ERR_OK).

(* [services/safwk/src/system_ability.cpp:116-133] SystemAbility::CancelIdle *)
Definition CancelIdle (this : loc) : M bool :=
  let! s := get_sa id this in
  if negb (bool_decide (abilityState_ s = IDLE)) then ret true
  else
    let! samgrProxy := GetSystemAbilityManager in
    if negb samgrProxy then ret false
    else
      let! result := call (EvCancelUnloadSystemAbility (saId_ s)) in
      ret (result =? ERR_OK).

(* [services/safwk/src/system_ability.cpp:135-148] SystemAbility::StopAbility *)
Definition StopAbility (systemAbilityId : Z) : M unit :=
  let! samgrProxy := GetSystemAbilityManager in
  if negb samgrProxy then ret tt
  else do! call (EvRemoveSystemAbility systemAbilityId) in ret tt.

(* [services/safwk/src/system_ability.cpp:438-447] SystemAbility::GetSystemAbility *)
Definition GetSystemAbility (systemAbilityId : Z) : M Z :=
  let! samgrProxy := GetSystemAbilityManager in
  if negb samgrProxy then ret 0 else call (EvGetSystemAbility systemAbilityId).

(** The bodies an override replaces. *)
(* [services/safwk/src/system_ability.cpp:397-402] SystemAbility::OnIdle *)
Definition base_OnIdle (idleReason : SystemAbilityOnDemandReason) : M Z := ret 0.
(* [services/safwk/src/system_ability.cpp:431-436] SystemAbility::OnSvcCmd *)
Definition base_OnSvcCmd (fd : Z) (args : list u16string) : M Z := ret (-1).
(* [services/safwk/src/system_ability.cpp:469-472] SystemAbility::OnExtension *)
Definition base_OnExtension (extension : string) (data reply : P) : M (Z * P * P) :=
  ret (0, data, reply).

(** ** Start *)

(* [services/safwk/src/system_ability.cpp:183-189] SystemAbility::Start *)
Definition Start_check (this : loc) : M bool :=
  let! st := get_sa abilityState_ this in ret (bool_decide (st = NOT_LOADED)).

(* [services/safwk/src/system_ability.cpp:190-193] SystemAbility::Start *)
Definition Start_reason (this : loc) : M SystemAbilityOnDemandReason :=
  let! saId := get_sa saId_ this in
  let! startReason := GetStartReason saId in
  let! reason := json_reason startReason in
  GetOnDemandReasonExtraData reason.

(* [services/safwk/src/system_ability.cpp:190-200] SystemAbility::Start *)
Definition Start_body (this : loc) : M unit :=
  let! onDemandStartReason := Start_reason this in
  enter (EvOnStart this onDemandStartReason) (OnStart this onDemandStartReason).

(* [services/safwk/src/system_ability.cpp:205-207] SystemAbility::Start *)
Definition Start_finish (this : loc) : M unit := put_sa (set_isRunning_ true) this.

(* [services/safwk/src/system_ability.cpp:178-207] SystemAbility::Start *)
Definition Start (this : loc) : M unit :=
  let! ok := Start_check this in
  if ok then do! Start_body this in Start_finish this else ret tt.

(** ** Idle *)

(* [services/safwk/src/system_ability.cpp:212-219] SystemAbility::Idle *)
Definition Idle_check (this : loc) : M bool :=
  let! st := get_sa abilityState_ this in ret (bool_decide (st = ACTIVE)).

(* [services/safwk/src/system_ability.cpp:220-226] SystemAbility::Idle *)
Definition Idle_body (this : loc) (idleReason : SystemAbilityOnDemandReason) : M Z :=
  let! idleReason := GetOnDemandReasonExtraData idleReason in
  enter (EvOnIdle this idleReason) (OnIdle this idleReason).

(* [services/safwk/src/system_ability.cpp:229-233] SystemAbility::Idle *)
Definition Idle_finish (this : loc) (delayTime : Z) : M unit :=
  if delayTime =? 0 then put_sa (set_abilityState_ IDLE) this else ret tt.

(** The result is the final value of the reference parameter [delayTime]. *)
(* [services/safwk/src/system_ability.cpp:209-233] SystemAbility::Idle *)
Definition Idle (this : loc) (idleReason : SystemAbilityOnDemandReason) : M Z :=
  let! ok := Idle_check this in
  if ok then
    let! delayTime := Idle_body this idleReason in
    do! Idle_finish this delayTime in ret delayTime
  else ret (-1).

(** ** Active *)

(* [services/safwk/src/system_ability.cpp:237-243] SystemAbility::Active *)
Definition Active_check (this : loc) : M bool :=
  let! st := get_sa abilityState_ this in ret (bool_decide (st = IDLE)).

(* [services/safwk/src/system_ability.cpp:244-250] SystemAbility::Active *)
Definition Active_body (this : loc) (activeReason : SystemAbilityOnDemandReason) : M unit :=
  let! activeReason := GetOnDemandReasonExtraData activeReason in
  enter (EvOnActive this activeReason) (OnActive this activeReason).

(* [services/safwk/src/system_ability.cpp:253-255] SystemAbility::Active *)
Definition Active_finish (this : loc) : M unit := put_sa (set_abilityState_ ACTIVE) this.

(* [services/safwk/src/system_ability.cpp:235-255] SystemAbility::Active *)
Definition Active (this : loc) (activeReason : SystemAbilityOnDemandReason) : M unit :=
  let! ok := Active_check this in
  if ok then do! Active_body this activeReason in Active_finish this else ret tt.

(** ** Stop *)

(* [services/safwk/src/system_ability.cpp:260-266] SystemAbility::Stop *)
Definition Stop_check (this : loc) : M bool :=
  let! st := get_sa abilityState_ this in ret (negb (bool_decide (st = NOT_LOADED))).

(* [services/safwk/src/system_ability.cpp:267-270] SystemAbility::Stop *)
Definition Stop_reason (this : loc) : M SystemAbilityOnDemandReason :=
  let! saId := get_sa saId_ this in
  let! stopReason := GetStopReason saId in
  let! reason := json_reason stopReason in
  GetOnDemandReasonExtraData reason.

(* [services/safwk/src/system_ability.cpp:267-277] SystemAbility::Stop *)
Definition Stop_body (this : loc) : M unit :=
  let! onDemandStopReason := Stop_reason this in
  enter (EvOnStop this onDemandStopReason) (OnStop this onDemandStopReason).

(* [services/safwk/src/system_ability.cpp:283-295] SystemAbility::Stop *)
Definition Stop_finish (this : loc) : M unit :=
  do! put_sa (set_abilityState_ NOT_LOADED) this in
  do! put_sa (set_isRunning_ false) this in
  let! samgrProxy := GetSystemAbilityManager in
  if negb samgrProxy then ret tt
  else
    let! saId := get_sa saId_ this in
    do! call (EvRemoveSystemAbility saId) in ret tt.

(* [services/safwk/src/system_ability.cpp:257-295] SystemAbility::Stop *)
Definition Stop (this : loc) : M unit :=
  let! ok := Stop_check this in
  if ok then do! Stop_body this in Stop_finish this else ret tt.

(** ** The lifecycle automaton *)

(** [LStart published]: a start request, with whether [OnStart] publishes;
    [LIdle delay]: an idle request, with the value [OnIdle] returns. *)
Inductive lc_event := LStart (published : bool) | LIdle (delay : Z) | LActive | LStop.

Definition lc_state : Type := SystemAbilityState * bool.

Definition lc_step (e : lc_event) (s : lc_state) : lc_state :=
  match e, s with
  | LStart p, (NOT_LOADED, _) => (if p then ACTIVE else NOT_LOADED, true)
  | LIdle d, (ACTIVE, r) => (if d =? 0 then IDLE else ACTIVE, r)
  | LActive, (IDLE, r) => (ACTIVE, r)
  | LStop, (ACTIVE, _) | LStop, (IDLE, _) => (NOT_LOADED, false)
  | _, s => s
  end.

Definition lc_of (w : world) (this : loc) : lc_state :=
  (abilityState_ (sa_at w this), isRunning_ (sa_at w this)).

(** The requests as they arrive, and their execution one after the other. *)
Inductive lc_request :=
| ReqStart | ReqIdle (r : SystemAbilityOnDemandReason) | ReqActive (r : SystemAbilityOnDemandReason) | ReqStop.

Definition lc_exec (this : loc) (q : lc_request) : M unit :=
  match q with
  | ReqStart => Start this
  | ReqIdle r => do! Idle this r in ret tt
  | ReqActive r => Active this r
  | ReqStop => Stop this
  end.

(** What the framework expects of an override: [OnIdle], [OnActive] and [OnStop]
    leave the lifecycle fields of the ability alone, and [OnStart] changes them
    at most by publishing. *)
Class LifecycleCallbacks (this : loc) : Prop := {
  OnStart_lc r w : lc_of (OnStart this r w).2 this = lc_of w this ∨
                   lc_of (OnStart this r w).2 this = (ACTIVE, (lc_of w this).2);
  OnIdle_lc r w : lc_of (OnIdle this r w).2 this = lc_of w this;
  OnActive_lc r w : lc_of (OnActive this r w).2 this = lc_of w this;
  OnStop_lc r w : lc_of (OnStop this r w).2 this = lc_of w this;
}.

(** ** What an override is given

    The specification of the reason an override gets and of the world it runs in,
    written out over the trace, without the operations above. *)

(** The reason with its extra data, and what the framework asks for it after the
    calls [tr]: the data are fetched for a common event (4), when the manager is
    there and answers [ERR_OK], and taken when they can be read. *)
Definition completed (r : SystemAbilityOnDemandReason) (tr : list event)
    : SystemAbilityOnDemandReason * list event :=
  let proxy := EvGetSystemAbilityManager in
  let ask := EvGetOnDemandReasonExtraData (extraDataId_ r) in
  if negb (reasonId_ r =? 4) then (r, [])
  else if respond tr proxy =? 0 then (r, [proxy])
  else
    (match (ReadParcelable (Unmarshalling (J := J)) (extra_data_parcel (tr ++ [proxy]))).1 with
     | Some x => if respond (tr ++ [proxy]) ask =? 0
                 then mk_reason 4 (reasonName_ r) (reasonValue_ r) (extraDataId_ r) x else r
     | None => r
     end, [proxy; ask]).

(** The reason and the world with which the override of event [ev] is entered. *)
Definition override_entry (ev : SystemAbilityOnDemandReason → event) (r : SystemAbilityOnDemandReason)
    (w : world) : SystemAbilityOnDemandReason * world :=
  let '(r', asked) := completed r (trace w) in (r', set_trace (trace w ++ asked ++ [ev r']) w).

(** A start takes the reason recorded as the ability's start reason, a stop the one
    recorded as its stop reason; looking one up that is not there records null. *)
Definition start_entry (this : loc) (w : world) : SystemAbilityOnDemandReason * world :=
  let saId := saId_ (sa_at w this) in
  let recorded := default jnull (saIdToStartReason_ w !! saId) in
  override_entry (EvOnStart this) (JsonToOnDemandReason (indet_reason_id (trace w)) recorded)
    (set_saIdToStartReason_ (<[saId := recorded]> (saIdToStartReason_ w)) w).
Definition stop_entry (this : loc) (w : world) : SystemAbilityOnDemandReason * world :=
  let saId := saId_ (sa_at w this) in
  let recorded := default jnull (saIdToStopReason_ w !! saId) in
  override_entry (EvOnStop this) (JsonToOnDemandReason (indet_reason_id (trace w)) recorded)
    (set_saIdToStopReason_ (<[saId := recorded]> (saIdToStopReason_ w)) w).

(** ** Lemmas *)

Lemma set_trace_nil (w : world) : set_trace (trace w ++ []) w = w.
Proof. rewrite app_nil_r. by destruct w. Qed.

Lemma extra_completed r w :
  GetOnDemandReasonExtraData r w =
    let '(r', asked) := completed r (trace w) in (r', set_trace (trace w ++ asked) w).
Proof.
  unfold GetOnDemandReasonExtraData, completed, HasExtraData, GetSystemAbilityManager.
  change (OnDemandReasonId_value COMMON_EVENT) with 4.
  destruct (Z.eqb_spec (reasonId_ r) 4) as [Hr|Hr]; simpl; [|by rewrite set_trace_nil].
  run_prog. destruct (respond (trace w) _ =? 0); simpl; [done|].
  rewrite <- !(assoc_L (++)). simpl.
  destruct (ReadParcelable _ _) as [[x|] p'] eqn:E; simpl; rewrite <- ?(assoc_L (++)), ?E; simpl;
    change ERR_OK with 0; destruct (respond _ _ =? 0); simpl; try done.
  unfold SetExtraData. by rewrite Hr.
Qed.

Lemma override_entry_run {B} (m : SystemAbilityOnDemandReason → M B) ev r w :
  (let! r' := GetOnDemandReasonExtraData r in enter (ev r') (m r')) w =
    let '(r', w1) := override_entry ev r w in m r' w1.
Proof.
  unfold bind at 1. rewrite extra_completed. unfold override_entry. destruct (completed r (trace w)) as [r' asked].
  unfold enter, bind, call. simpl. by rewrite (assoc_L (++)).
Qed.

Lemma Start_reason_run this w :
  let saId := saId_ (sa_at w this) in
  let recorded := default jnull (saIdToStartReason_ w !! saId) in
  Start_reason this w =
    GetOnDemandReasonExtraData (JsonToOnDemandReason (indet_reason_id (trace w)) recorded)
      (set_saIdToStartReason_ (<[saId := recorded]> (saIdToStartReason_ w)) w).
Proof.
  unfold Start_reason, GetStartReason, bind, get_sa, json_reason, gets. cbv zeta.
  destruct (saIdToStartReason_ w !! _) eqn:E; simpl; [rewrite (insert_id _ _ _ E); by destruct w|done].
Qed.
Lemma Stop_reason_run this w :
  let saId := saId_ (sa_at w this) in
  let recorded := default jnull (saIdToStopReason_ w !! saId) in
  Stop_reason this w =
    GetOnDemandReasonExtraData (JsonToOnDemandReason (indet_reason_id (trace w)) recorded)
      (set_saIdToStopReason_ (<[saId := recorded]> (saIdToStopReason_ w)) w).
Proof.
  unfold Stop_reason, GetStopReason, bind, get_sa, json_reason, gets. cbv zeta.
  destruct (saIdToStopReason_ w !! _) eqn:E; simpl; [rewrite (insert_id _ _ _ E); by destruct w|done].
Qed.

(** The bodies enter the override as the specification says. *)
Lemma Start_body_entry this w :
  Start_body this w = let '(r, w1) := start_entry this w in OnStart this r w1.
Proof. unfold Start_body, start_entry. rewrite <- override_entry_run. unfold bind at 1. by rewrite Start_reason_run. Qed.
Lemma Stop_body_entry this w :
  Stop_body this w = let '(r, w1) := stop_entry this w in OnStop this r w1.
Proof. unfold Stop_body, stop_entry. rewrite <- override_entry_run. unfold bind at 1. by rewrite Stop_reason_run. Qed.

Lemma override_entry_heap ev r w : heap (override_entry ev r w).2 = heap w.
Proof. unfold override_entry. by destruct (completed _ _). Qed.
Lemma start_entry_heap this w : heap (start_entry this w).2 = heap w.
Proof. unfold start_entry. by rewrite override_entry_heap. Qed.

Lemma GetOnDemandReasonExtraData_calls r : only_calls (GetOnDemandReasonExtraData r).
Proof.
  unfold GetOnDemandReasonExtraData, GetSystemAbilityManager.
  repeat (case_match || apply only_calls_bind || intros; auto with safwk).
Qed.

Lemma GetSystemAbilityManager_calls : only_calls GetSystemAbilityManager.
Proof. unfold GetSystemAbilityManager. auto with safwk. Qed.

(** Programs that leave every [SystemAbility] object alone. *)
Definition keeps_heap {A} (m : M A) : Prop := ∀ w, heap (m w).2 = heap w.

Lemma only_calls_heap {A} (m : M A) : only_calls m → keeps_heap m.
Proof. intros Hm w. by destruct (Hm w) as [es ->]. Qed.
Lemma keeps_heap_bind {A B} (m : M A) (k : A → M B) :
  keeps_heap m → (∀ a, keeps_heap (k a)) → keeps_heap (bind m k).
Proof. intros Hm Hk w. unfold bind. destruct (m w) as [a w1] eqn:E. rewrite Hk. by rewrite <- (Hm w), E. Qed.
Lemma keeps_heap_GetStartReason saId : keeps_heap (GetStartReason saId).
Proof. intros w. unfold GetStartReason. by case_match. Qed.
Lemma keeps_heap_GetStopReason saId : keeps_heap (GetStopReason saId).
Proof. intros w. unfold GetStopReason. by case_match. Qed.
Lemma keeps_heap_get_sa {A} (f : system_ability → A) l : keeps_heap (get_sa f l).
Proof. done. Qed.
Lemma keeps_heap_json_reason j : keeps_heap (json_reason (P := P) j).
Proof. done. Qed.

Lemma lc_of_heap w w' this : heap w' = heap w → lc_of w' this = lc_of w this.
Proof. unfold lc_of, sa_at. by intros ->. Qed.

Lemma lc_of_put f l w : lc_of (put_sa f l w).2 l = (abilityState_ (f (sa_at w l)), isRunning_ (f (sa_at w l))).
Proof. unfold lc_of. rewrite sa_at_put. by rewrite decide_True. Qed.

Lemma keeps_heap_reason {A} (get : A → M J) (f : system_ability → A) this :
  (∀ a, keeps_heap (get a)) →
  keeps_heap (let! a := get_sa f this in let! j := get a in
              let! r := json_reason (P := P) j in GetOnDemandReasonExtraData r).
Proof.
  intros Hg. apply keeps_heap_bind; [done|intros]. apply keeps_heap_bind; [done|intros].
  apply keeps_heap_bind; [done|intros]. apply only_calls_heap, GetOnDemandReasonExtraData_calls.
Qed.

Lemma Start_reason_heap this : keeps_heap (Start_reason this).
Proof. apply keeps_heap_reason, keeps_heap_GetStartReason. Qed.
Lemma Stop_reason_heap this : keeps_heap (Stop_reason this).
Proof. apply keeps_heap_reason, keeps_heap_GetStopReason. Qed.

(** A body finds the reason, leaving the objects alone, then calls the override. *)
Lemma body_split {A B} (pre : M A) (ev : A → event) (m : A → M B) w :
  ∃ a w0, pre w = (a, w0) ∧
    (let! a := pre in enter (ev a) (m a)) w = m a (set_trace (trace w0 ++ [ev a]) w0).
Proof. unfold bind at 1. destruct (pre w) as [a w0]. by exists a, w0. Qed.

Lemma body_heap {A B} (pre : M A) (ev : A → event) (m : A → M B) w :
  keeps_heap pre →
  ∃ a w1, heap w1 = heap w ∧ (let! a := pre in enter (ev a) (m a)) w = m a w1.
Proof.
  intros Hpre. destruct (body_split pre ev m w) as (a & w0 & Hw0 & ->).
  eexists a, _. split; [|done]. simpl. specialize (Hpre w). by rewrite Hw0 in Hpre.
Qed.

Lemma Start_body_split this w :
  ∃ r w1, heap w1 = heap w ∧ Start_body this w = OnStart this r w1.
Proof. apply body_heap, Start_reason_heap. Qed.
Lemma Stop_body_split this w :
  ∃ r w1, heap w1 = heap w ∧ Stop_body this w = OnStop this r w1.
Proof. apply body_heap, Stop_reason_heap. Qed.
Lemma Idle_body_split this r0 w :
  ∃ r w1, heap w1 = heap w ∧ Idle_body this r0 w = OnIdle this r w1.
Proof. apply body_heap, only_calls_heap, GetOnDemandReasonExtraData_calls. Qed.
Lemma Active_body_split this r0 w :
  ∃ r w1, heap w1 = heap w ∧ Active_body this r0 w = OnActive this r w1.
Proof. apply body_heap, only_calls_heap, GetOnDemandReasonExtraData_calls. Qed.

Lemma Stop_finish_lc this w : lc_of (Stop_finish this w).2 this = (NOT_LOADED, false).
Proof.
  unfold Stop_finish. run_prog. unfold GetSystemAbilityManager. run_prog.
  match goal with |- context [if negb (negb ?b) then _ else _] => destruct b end; simpl;
    unfold lc_of, sa_at; simpl; by rewrite lookup_insert_eq; simpl; rewrite ?lookup_insert_eq.
Qed.

(** What a stop does behind the override, in full: the fields, and the removal from
    the manager when it is there. *)
Lemma Stop_finish_run this w :
  let proxy := EvGetSystemAbilityManager in
  Stop_finish this w =
    (tt, set_trace (trace w ++ proxy ::
           (if respond (trace w) proxy =? 0 then [] else [EvRemoveSystemAbility (saId_ (sa_at w this))]))
         (put_sa (λ s, set_isRunning_ false (set_abilityState_ NOT_LOADED s)) this w).2).
Proof.
  unfold Stop_finish, GetSystemAbilityManager, put_sa, set_heap, set_trace. run_prog.
  destruct (respond (trace w) EvGetSystemAbilityManager =? 0); simpl;
    unfold sa_at; simpl; rewrite !lookup_insert_eq; simpl; rewrite ?lookup_insert_eq, !insert_insert_eq; simpl;
    [done|by rewrite <- (assoc_L (++))].
Qed.

Lemma Start_run this w :
  abilityState_ (sa_at w this) = NOT_LOADED → Start this w = Start_finish this (Start_body this w).2.
Proof.
  intros Hs. unfold Start, Start_check, bind, get_sa, ret. rewrite Hs. simpl.
  by destruct (Start_body this w) as [[] w1].
Qed.

Lemma Idle_run this r w :
  abilityState_ (sa_at w this) = ACTIVE →
  Idle this r w = let '(d, w1) := Idle_body this r w in (d, (Idle_finish this d w1).2).
Proof.
  intros Hs. unfold Idle, Idle_check, bind, get_sa, ret. rewrite Hs. simpl.
  destruct (Idle_body this r w) as [d w1]. by destruct (Idle_finish this d w1).
Qed.

Lemma Active_run this r w :
  abilityState_ (sa_at w this) = IDLE → Active this r w = Active_finish this (Active_body this r w).2.
Proof.
  intros Hs. unfold Active, Active_check, bind, get_sa, ret. rewrite Hs. simpl.
  by destruct (Active_body this r w) as [[] w1].
Qed.

Lemma lifecycle_ignored this r w :
  (abilityState_ (sa_at w this) ≠ NOT_LOADED → Start this w = (tt, w)) ∧
  (abilityState_ (sa_at w this) ≠ ACTIVE → Idle this r w = (-1, w)) ∧
  (abilityState_ (sa_at w this) ≠ IDLE → Active this r w = (tt, w)) ∧
  (abilityState_ (sa_at w this) = NOT_LOADED → Stop this w = (tt, w)).
Proof.
  unfold Start, Idle, Active, Stop, Start_check, Idle_check, Active_check, Stop_check, bind, get_sa, ret.
  split_and!; intros Hs; by case_bool_decide.
Qed.

Lemma Stop_run this w :
  abilityState_ (sa_at w this) ≠ NOT_LOADED → Stop this w = Stop_finish this (Stop_body this w).2.
Proof.
  intros Hs. unfold Stop, Stop_check, bind, get_sa, ret.
  rewrite bool_decide_eq_false_2 by done. simpl. by destruct (Stop_body this w) as [[] w1].
Qed.

Lemma Publish_lc this obj w :
  lc_of (Publish this obj w).2 this = lc_of w this ∨
  lc_of (Publish this obj w).2 this = (ACTIVE, (lc_of w this).2).
Proof.
  unfold Publish, GetSystemAbilityManager. destruct (obj =? 0); [by left|]. run_prog.
  unfold lc_of, sa_at; simpl.
  destruct (_ =? 0); simpl; rewrite ?lookup_insert_eq; simpl; [by left|].
  destruct (_ =? ERR_OK); simpl; rewrite ?lookup_insert_eq; simpl; [by right|by left].
Qed.

(** ** Properties *)

(** A lifecycle request in the wrong state is refused without any effect:
    [Start] outside NOT_LOADED, [Active] outside IDLE and [Stop] in NOT_LOADED
    change nothing and call nothing, and [Idle] outside ACTIVE moreover reports
    a delay of -1. *)
Theorem lifecycle_refused this r w :
  (abilityState_ (sa_at w this) ≠ NOT_LOADED → Start this w = (tt, w)) ∧
  (abilityState_ (sa_at w this) ≠ ACTIVE → Idle this r w = (-1, w)) ∧
  (abilityState_ (sa_at w this) ≠ IDLE → Active this r w = (tt, w)) ∧
  (abilityState_ (sa_at w this) = NOT_LOADED → Stop this w = (tt, w)).
Proof. apply lifecycle_ignored. Qed.

(** [Publish] returns true exactly when it is given an object, the proxy is
    there and the manager accepts the object, and only then the ability becomes
    ACTIVE; the object is retained as soon as it is non-null, even when the
    registration fails, and the registration carries the ability's own id and
    attributes. *)
Theorem publish_spec this obj w :
  let '(ok, w') := Publish this obj w in
  let s := sa_at w this in
  let reg := EvAddSystemAbility (saId_ s) obj (isDistributed_ s) (dumpLevel_ s) (capability_ s) (permission_ s) in
  let proxy := respond (trace w) EvGetSystemAbilityManager in
  let answer := respond (trace w ++ [EvGetSystemAbilityManager]) reg in
  (ok = true ↔ obj ≠ 0 ∧ proxy ≠ 0 ∧ answer = ERR_OK) ∧
  publishObj_ (sa_at w' this) = (if obj =? 0 then publishObj_ s else obj) ∧
  abilityState_ (sa_at w' this) = (if ok then ACTIVE else abilityState_ s) ∧
  trace w' = trace w ++ (if obj =? 0 then [] else
    EvGetSystemAbilityManager :: if proxy =? 0 then [] else [reg]).
Proof.
  unfold Publish. destruct (Z.eqb_spec obj 0) as [->|Ho].
  { simpl. rewrite app_nil_r. naive_solver. }
  unfold GetSystemAbilityManager. run_prog. unfold sa_at; simpl.
  destruct (Z.eqb_spec (respond (trace w) EvGetSystemAbilityManager) 0) as [Hp|Hp]; simpl.
  - rewrite lookup_insert_eq. split_and!; [naive_solver|done..].
  - rewrite lookup_insert_eq; simpl. rewrite <- !(assoc_L (++)); simpl.
    match goal with |- context [?a =? ERR_OK] => destruct (Z.eqb_spec a ERR_OK) as [Ha|Ha] end;
      simpl; rewrite ?lookup_insert_eq; simpl; split_and!; try done; naive_solver.
Qed.

(** Stopping a loaded ability always ends with it NOT_LOADED and not running,
    whatever its [OnStop] does, and with its removal from the system ability
    manager when the proxy is there. *)
Theorem stop_unloads this w :
  abilityState_ (sa_at w this) ≠ NOT_LOADED →
  let w1 := (Stop_body this w).2 in
  let w' := (Stop this w).2 in
  lc_of w' this = (NOT_LOADED, false) ∧
  trace w' = trace w1 ++ EvGetSystemAbilityManager ::
    (if respond (trace w1) EvGetSystemAbilityManager =? 0 then []
     else [EvRemoveSystemAbility (saId_ (sa_at w1 this))]).
Proof.
  intros Hs. simpl. rewrite Stop_run by done. split; [apply Stop_finish_lc|].
  generalize (Stop_body this w).2 as w1. intros w1.
  unfold Stop_finish, GetSystemAbilityManager. run_prog.
  destruct (respond (trace w1) EvGetSystemAbilityManager =? 0); simpl; [done|].
  unfold sa_at; simpl. rewrite lookup_insert_eq; simpl. rewrite lookup_insert_eq; simpl.
  by rewrite <- (assoc_L (++)).
Qed.

(** Whether [OnStart], called as the specification says, leaves the ability [ACTIVE]. *)
Definition publishes (this : loc) (w : world) : bool :=
  let '(r, w1) := start_entry this w in
  bool_decide (abilityState_ (sa_at (OnStart this r w1).2 this) = ACTIVE).

Lemma Start_automaton `{!LifecycleCallbacks this} w :
  lc_of (Start this w).2 this = lc_step (LStart (publishes this w)) (lc_of w this).
Proof.
  destruct (decide (abilityState_ (sa_at w this) = NOT_LOADED)) as [Hs|Hs].
  - rewrite Start_run by done. rewrite Start_body_entry. unfold publishes.
    pose proof (start_entry_heap this w) as Hh. destruct (start_entry this w) as [r w1]. simpl in Hh.
    apply (lc_of_heap _ _ this) in Hh. unfold Start_finish. rewrite lc_of_put. simpl.
    pose proof (OnStart_lc (this := this) r w1) as Ho. rewrite Hh in Ho.
    unfold lc_of in *. rewrite Hs in *.
    destruct Ho as [Ho|Ho]; injection Ho as -> _; reflexivity.
  - destruct (lifecycle_ignored this (mk_reason 0 "" "" 0 default_extra) w) as [Hi _].
    rewrite Hi by done. unfold lc_of. by destruct (abilityState_ _).
Qed.

Lemma Idle_automaton `{!LifecycleCallbacks this} r w :
  lc_of (Idle this r w).2 this = lc_step (LIdle (Idle this r w).1) (lc_of w this).
Proof.
  destruct (decide (abilityState_ (sa_at w this) = ACTIVE)) as [Hs|Hs].
  - rewrite Idle_run by done. destruct (Idle_body_split this r w) as (r' & w1 & Hh & ->).
    apply (lc_of_heap _ _ this) in Hh. pose proof (OnIdle_lc (this := this) r' w1) as Ho.
    rewrite Hh in Ho. destruct (OnIdle this r' w1) as [d w2]. simpl in *.
    unfold Idle_finish. destruct (d =? 0) eqn:Ed; [rewrite lc_of_put|]; simpl.
    + unfold lc_of in *. injection Ho as _ ->. by rewrite Hs.
    + rewrite Ho. unfold lc_of. by rewrite Hs.
  - destruct (lifecycle_ignored this r w) as (_ & Hi & _). rewrite Hi by done.
    simpl. unfold lc_of. by destruct (abilityState_ _).
Qed.

Lemma Active_automaton `{!LifecycleCallbacks this} r w :
  lc_of (Active this r w).2 this = lc_step LActive (lc_of w this).
Proof.
  destruct (decide (abilityState_ (sa_at w this) = IDLE)) as [Hs|Hs].
  - rewrite Active_run by done. destruct (Active_body_split this r w) as (r' & w1 & Hh & ->).
    apply (lc_of_heap _ _ this) in Hh. pose proof (OnActive_lc (this := this) r' w1) as Ho.
    rewrite Hh in Ho. unfold Active_finish. rewrite lc_of_put. simpl. unfold lc_of in *.
    rewrite Hs in *. by injection Ho as _ ->.
  - destruct (lifecycle_ignored this r w) as (_ & _ & Hi & _). rewrite Hi by done.
    simpl. unfold lc_of. by destruct (abilityState_ _).
Qed.

Lemma Stop_automaton this w : lc_of (Stop this w).2 this = lc_step LStop (lc_of w this).
Proof.
  destruct (decide (abilityState_ (sa_at w this) = NOT_LOADED)) as [Hs|Hs].
  - unfold Stop, Stop_check, bind, get_sa, ret. rewrite Hs. simpl. unfold lc_of. by rewrite Hs.
  - rewrite Stop_run by done. rewrite Stop_finish_lc. unfold lc_of. by destruct (abilityState_ _).
Qed.

(** C28: executed one after the other, lifecycle requests drive an ability through
    the lifecycle automaton: each operation's effect on ([abilityState_],
    [isRunning_]) is the automaton's step.  The inputs of the automaton are those
    of the overrides: for a start, whether [OnStart], called with the recorded
    start reason, has left the ability [ACTIVE]; for an idle request, the delay
    that [OnIdle], called with the completed reason, has returned, which [Idle]
    reports, or -1 when the ability is not [ACTIVE]. *)
Theorem lifecycle_refines_automaton this `{!LifecycleCallbacks this} r w :
  (let '(r', w1) := start_entry this w in
   let published := bool_decide (abilityState_ (sa_at (OnStart this r' w1).2 this) = ACTIVE) in
   lc_of (Start this w).2 this = lc_step (LStart published) (lc_of w this)) ∧
  (let '(r', w1) := override_entry (EvOnIdle this) r w in
   let delay := (OnIdle this r' w1).1 in
   (Idle this r w).1 = (if bool_decide (abilityState_ (sa_at w this) = ACTIVE) then delay else -1) ∧
   lc_of (Idle this r w).2 this = lc_step (LIdle delay) (lc_of w this)) ∧
  lc_of (Active this r w).2 this = lc_step LActive (lc_of w this) ∧
  lc_of (Stop this w).2 this = lc_step LStop (lc_of w this).
Proof.
  split_and!; [| |apply Active_automaton|apply Stop_automaton].
  - pose proof (Start_automaton w) as H. unfold publishes in H. by destruct (start_entry this w).
  - pose proof (Idle_automaton r w) as H. destruct (override_entry (EvOnIdle this) r w) as [r' w1] eqn:E.
    assert (Idle_body this r w = OnIdle this r' w1) as Hb.
    { unfold Idle_body. rewrite override_entry_run. by rewrite E. }
    case_bool_decide as Hs.
    + rewrite Idle_run in * by done. rewrite Hb in *. by destruct (OnIdle this r' w1).
    + destruct (lifecycle_ignored this r w) as (_ & Hi & _). rewrite Hi by done.
      split; [done|]. simpl. unfold lc_of. by destruct (abilityState_ _).
Qed.

Lemma lc_exec_automaton `{!LifecycleCallbacks this} q w :
  ∃ e, lc_of (lc_exec this q w).2 this = lc_step e (lc_of w this).
Proof.
  destruct q as [|r|r|]; simpl.
  - exists (LStart (publishes this w)). apply Start_automaton.
  - exists (LIdle (Idle this r w).1). rewrite <- Idle_automaton. unfold bind, ret.
    by destruct (Idle this r w).
  - exists LActive. apply Active_automaton.
  - exists LStop. apply Stop_automaton.
Qed.

(** C1: over any sequence of lifecycle requests to an ability that starts out
    unloaded and not running, a loaded ability is a running one: ACTIVE or IDLE
    implies that [GetRunningStatus] answers true. *)
Theorem loaded_is_running this `{!LifecycleCallbacks this} qs w :
  lc_of w this = (NOT_LOADED, false) →
  let w' := (for_each (lc_exec this) qs w).2 in
  abilityState_ (sa_at w' this) ≠ NOT_LOADED → isRunning_ (sa_at w' this) = true.
Proof.
  intros Hw. assert (Hinv : (lc_of w this).1 ≠ NOT_LOADED → (lc_of w this).2 = true) by (by rewrite Hw).
  clear Hw. revert w Hinv. induction qs as [|q qs IH]; intros w Hinv; simpl; [exact Hinv|].
  unfold bind. destruct (lc_exec_automaton q w) as [e He].
  destruct (lc_exec this q w) as [[] w1]. apply IH. simpl in He.
  destruct (lc_of w this) as [[] b], e; simpl in *; unfold lc_of in He; injection He as -> ->;
    intros Hn; try done; try (by apply Hinv); by destruct (_ =? _); try apply Hinv.
Qed.
End system_ability.

(** ** Witnesses *)

(** [OnStart] publishes the object 5. *)
Definition publishing_env : Env DemoJson.dj DemoParcel.dp DemoProfiles.du :=
  DemoEnv.demo_env DemoEnv.demo_respond
    (λ this _, do! Publish (Env0 := DemoEnv.base_env) this 5 in ret tt).

#[export] Instance publishing_callbacks : LifecycleCallbacks (Env0 := publishing_env) 1%positive.
Proof.
  split; intros; [|done..]. exact (Publish_lc (Env0 := DemoEnv.base_env) 1%positive 5 w).
Qed.

(** A publishing ability started from scratch. *)
Definition started : DemoEnv.dworld :=
  (Start (Env0 := publishing_env) 1%positive (DemoEnv.demo_world [])).2.

Lemma stop_unloads_witness :
  abilityState_ (sa_at started 1%positive) = ACTIVE ∧
  lc_of (Stop (Env0 := publishing_env) 1%positive started).2 1%positive = (NOT_LOADED, false).
Proof.
  split; [reflexivity|].
  apply (stop_unloads (Env0 := publishing_env) 1%positive started). vm_compute. discriminate.
Defined.

Lemma lifecycle_refines_automaton_witness :
  lc_of (Start (Env0 := publishing_env) 1%positive (DemoEnv.demo_world [])).2 1%positive = (ACTIVE, true) ∧
  lc_of started 1%positive = (ACTIVE, true) ∧
  lc_of (Idle (Env0 := publishing_env) 1%positive (default_reason 0) started).2 1%positive = (IDLE, true).
Proof.
  split_and!; [|reflexivity|].
  - pose proof (lifecycle_refines_automaton (Env0 := publishing_env) 1%positive (default_reason 0)
      (DemoEnv.demo_world [])) as [H _].
    destruct (start_entry (Env0 := publishing_env) 1%positive (DemoEnv.demo_world [])) as [r w1] eqn:E.
    rewrite H. vm_compute in E. injection E as <- <-. vm_compute. reflexivity.
  - pose proof (lifecycle_refines_automaton (Env0 := publishing_env) 1%positive (default_reason 0) started)
      as (_ & H & _).
    destruct (override_entry (Env0 := publishing_env) (EvOnIdle 1%positive) (default_reason 0) started) as [r w1] eqn:E.
    destruct H as [_ ->]. vm_compute in E. injection E as <- <-. vm_compute. reflexivity.
Defined.

Lemma loaded_is_running_witness :
  lc_of (DemoEnv.demo_world []) 1%positive = (NOT_LOADED, false) ∧
  isRunning_ (sa_at (for_each (lc_exec (Env0 := publishing_env) 1%positive)
    [ReqStart; ReqIdle (default_reason 0); ReqActive (default_reason 0)] (DemoEnv.demo_world [])).2 1%positive) = true.
Proof.
  split; [reflexivity|].
  apply (loaded_is_running (Env0 := publishing_env) 1%positive
    [ReqStart; ReqIdle (default_reason 0); ReqActive (default_reason 0)] (DemoEnv.demo_world []));
    [reflexivity|]. vm_compute. discriminate.
Defined.
