(* ===== verification/Lifecycle.v ===== *)
(** * Lifecycle: concurrent lifecycle requests to one ability

    The requests reach an ability on different threads: the IPC threads of the
    stub run [Idle] and [Active], the threads [StartAbility] and [StopAbility]
    detach run [Start] and [Stop], the start tasks run [Start].  [Start] holds
    [onStartLock_] throughout; the other operations lock [abilityLock] only
    around their check and around their final update
    ([services/safwk/src/system_ability.cpp]).

    Here each operation is the sequence of its atomic sections (defined in
    [SystemAbility.v]), a thread is the section it executes next, and a step of
    the system runs one section of one thread.  The call of an override is one
    section: what other threads do while it runs is interleaved before or after
    it. *)

From S2P Require Import Prelude Interfaces.
From S2P Require Export SystemAbility.

Inductive lc_pc :=
| PStart | PStartCheck | PStartBody | PStartFinish | PStartUnlock
| PIdle (r : SystemAbilityOnDemandReason) | PIdleBody (r : SystemAbilityOnDemandReason)
| PIdleFinish (delayTime : Z)
| PActive (r : SystemAbilityOnDemandReason) | PActiveBody (r : SystemAbilityOnDemandReason)
| PActiveFinish
| PStop | PStopBody | PStopFinish
| PDone.

Section lifecycle.
  Context {J P U : Type} `{!Json J} `{!MessageParcel P} `{!Env J P U}.

  #[local] Abbreviation world := (world J U).

(** [onStartLock_], the threads, and the process. *)
Record lc_sys := mk_sys { onStartLock_ : bool; pcs : list lc_pc; proc : world }.

(** The next section of a thread; [None] when it waits for [onStartLock_]. *)
(* [services/safwk/src/system_ability.cpp:178-295] SystemAbility::Start, Idle, Active, Stop *)
Definition thread_step (this : loc) (pc : lc_pc) (lk : bool) (w : world)
    : option (lc_pc * bool * world) :=
  match pc with
  | PStart => if lk then None else Some (PStartCheck, true, w)
  | PStartCheck =>
      let '(ok, w') := Start_check this w in Some (if ok then PStartBody else PStartUnlock, lk, w')
  | PStartBody => Some (PStartFinish, lk, (Start_body this w).2)
  | PStartFinish => Some (PStartUnlock, lk, (Start_finish this w).2)
  | PStartUnlock => Some (PDone, false, w)
  | PIdle r => let '(ok, w') := Idle_check this w in Some (if ok then PIdleBody r else PDone, lk, w')
  | PIdleBody r => let '(d, w') := Idle_body this r w in Some (PIdleFinish d, lk, w')
  | PIdleFinish d => Some (PDone, lk, (Idle_finish this d w).2)
  | PActive r => let '(ok, w') := Active_check this w in Some (if ok then PActiveBody r else PDone, lk, w')
  | PActiveBody r => Some (PActiveFinish, lk, (Active_body this r w).2)
  | PActiveFinish => Some (PDone, lk, (Active_finish this w).2)
  | PStop => let '(ok, w') := Stop_check this w in Some (if ok then PStopBody else PDone, lk, w')
  | PStopBody => Some (PStopFinish, lk, (Stop_body this w).2)
  | PStopFinish => Some (PDone, lk, (Stop_finish this w).2)
  | PDone => None
  end.

Definition sys_step (this : loc) (i : nat) (s : lc_sys) : option lc_sys :=
  match pcs s !! i with
  | None => None
  | Some pc =>
      match thread_step this pc (onStartLock_ s) (proc s) with
      | None => None
      | Some (pc', lk', w') => Some (mk_sys lk' (<[i := pc']> (pcs s)) w')
      end
  end.

(** A schedule names the threads in the order in which they take a step. *)
Fixpoint run_schedule (this : loc) (sched : list nat) (s : lc_sys) : option lc_sys :=
  match sched with
  | [] => Some s
  | i :: sched' => match sys_step this i s with Some s' => run_schedule this sched' s' | None => None end
  end.

Inductive lc_reachable (this : loc) (s0 : lc_sys) : lc_sys → Prop :=
| reach_refl : lc_reachable this s0 s0
| reach_step i s s' : lc_reachable this s0 s → sys_step this i s = Some s' → lc_reachable this s0 s'.

Definition pc_of (q : lc_request) : lc_pc :=
  match q with ReqStart => PStart | ReqIdle r => PIdle r | ReqActive r => PActive r | ReqStop => PStop end.

(** The threads of the given requests, about to begin. *)
Definition lc_initial (qs : list lc_request) (w : world) : lc_sys := mk_sys false (pc_of <$> qs) w.

(** Threads that have passed [lock(onStartLock_)] and not released it. *)
Definition in_start (pc : lc_pc) : Prop :=
  match pc with PStartCheck | PStartBody | PStartFinish | PStartUnlock => True | _ => False end.
#[export] Instance in_start_dec pc : Decision (in_start pc).
Proof. destruct pc; simpl; apply _. Defined.

Definition starters (l : list lc_pc) : nat := length (filter in_start l).

Definition is_OnStart (this : loc) (e : event) : Prop :=
  match e with EvOnStart l _ => l = this | _ => False end.
#[export] Instance is_OnStart_dec this e : Decision (is_OnStart this e).
Proof. destruct e; simpl; apply _. Defined.
Definition onstarts (this : loc) (w : world) : nat := length (filter (is_OnStart this) (trace w)).

(** An ability whose [OnStart] publishes it, and whose overrides do not call
    [OnStart] again. *)
Class PublishesOnStart (this : loc) : Prop := {
  OnStart_publishes r w : abilityState_ (sa_at (OnStart this r w).2 this) ≠ NOT_LOADED;
  OnStart_count r w : onstarts this (OnStart this r w).2 = onstarts this w;
  OnIdle_count r w : onstarts this (OnIdle this r w).2 = onstarts this w;
  OnActive_count r w : onstarts this (OnActive this r w).2 = onstarts this w;
}.

(** Run the only thread of a system symbolically. *)
Ltac run_alone :=
  unfold lc_initial; cbn [pc_of fmap list_fmap replicate run_schedule];
  unfold sys_step; simpl; unfold bind, get_sa, ret; simpl.

(** ** Lemmas *)

Lemma run_schedule_reachable this sched s0 s s' :
  lc_reachable this s0 s → run_schedule this sched s = Some s' → lc_reachable this s0 s'.
Proof.
  revert s. induction sched as [|i sched IH]; intros s Hs; simpl; intros Hr; [by simplify_eq|].
  destruct (sys_step this i s) as [s1|] eqn:E; [|done].
  apply (IH s1); [by eapply reach_step|done].
Qed.

Lemma starters_insert l i pc pc' :
  l !! i = Some pc →
  (starters (<[i := pc']> l) + (if decide (in_start pc) then 1 else 0) =
   starters l + (if decide (in_start pc') then 1 else 0))%nat.
Proof.
  unfold starters. revert i. induction l as [|x l IH]; intros [|i] Hi; simplify_eq/=.
  - rewrite !filter_cons. repeat case_decide; simpl; lia.
  - rewrite !filter_cons. specialize (IH _ Hi). repeat case_decide; simpl in *; lia.
Qed.

Lemma starters_initial qs : starters (pc_of <$> qs) = 0%nat.
Proof. unfold starters. induction qs as [|[] qs IH]; simpl; done. Qed.

(** The holders of [onStartLock_], counted. *)
Lemma starters_step this i s s' :
  starters (pcs s) = (if onStartLock_ s then 1 else 0)%nat → sys_step this i s = Some s' →
  starters (pcs s') = (if onStartLock_ s' then 1 else 0)%nat.
Proof.
  unfold sys_step. intros Hinv Hs. destruct (pcs s !! i) as [pc|] eqn:Hpc; [|done].
  destruct (thread_step _ _ _ _) as [[[pc' lk'] w']|] eqn:E; [|done]. injection Hs as <-. simpl.
  pose proof (starters_insert _ _ _ pc' Hpc) as Hc.
  destruct pc; simpl in E; repeat case_match; simplify_eq/=; repeat case_decide; simpl in *; try done; try lia;
    rewrite Hinv in Hc; repeat case_match; simplify_eq/=; try lia.
Qed.

Lemma starters_reachable this qs w s :
  lc_reachable this (lc_initial qs w) s → starters (pcs s) = (if onStartLock_ s then 1 else 0)%nat.
Proof. induction 1; [apply starters_initial|by eapply starters_step]. Qed.

Lemma starters_pos l i pc : l !! i = Some pc → in_start pc → (1 ≤ starters l)%nat.
Proof.
  intros Hi Hp. unfold starters.
  assert (pc ∈ filter in_start l) as He by (apply list_elem_of_filter; eauto using list_elem_of_lookup_2).
  destruct (filter in_start l); [set_solver|simpl; lia].
Qed.

Lemma starters_two l i j pc pc' :
  i ≠ j → l !! i = Some pc → in_start pc → l !! j = Some pc' → in_start pc' → (2 ≤ starters l)%nat.
Proof.
  revert i j. induction l as [|x l IH]; intros [|i] [|j] Hne Hi Hpi Hj Hpj; simplify_eq/=;
    unfold starters in *; rewrite filter_cons.
  - rewrite decide_True by done. pose proof (starters_pos _ _ _ Hj Hpj). unfold starters in *. simpl; lia.
  - rewrite decide_True by done. pose proof (starters_pos _ _ _ Hi Hpi). unfold starters in *. simpl; lia.
  - assert (i ≠ j) as Hij by congruence. specialize (IH i j Hij Hi Hpi Hj Hpj).
    case_decide; simpl; lia.
Qed.

Lemma start_exclusive this qs w s i j pc pc' :
  lc_reachable this (lc_initial qs w) s →
  pcs s !! i = Some pc → in_start pc → pcs s !! j = Some pc' → in_start pc' → i = j.
Proof.
  intros Hr Hi Hpi Hj Hpj. destruct (decide (i = j)) as [|Hne]; [done|].
  pose proof (starters_two _ _ _ _ _ Hne Hi Hpi Hj Hpj). apply starters_reachable in Hr.
  destruct (onStartLock_ s); lia.
Qed.

Lemma reachable_length this qs w s :
  lc_reachable this (lc_initial qs w) s → length (pcs s) = length qs.
Proof.
  induction 1 as [|i s s' _ IH Hs]; [by simpl; rewrite length_fmap|].
  unfold sys_step in Hs. repeat case_match; simplify_eq/=. by rewrite length_insert.
Qed.

(** Programs that do not call [OnStart]. *)
Definition quiet (this : loc) {A} (m : prog J U A) : Prop := ∀ w, onstarts this (m w).2 = onstarts this w.

Lemma quiet_bind this {A B} (m : prog J U A) (k : A → prog J U B) :
  quiet this m → (∀ a, quiet this (k a)) → quiet this (bind m k).
Proof. intros Hm Hk w. unfold bind. specialize (Hm w). destruct (m w) as [a w']. by rewrite Hk. Qed.
Lemma quiet_call this e : ¬ is_OnStart this e → quiet this (call e).
Proof.
  intros He w. unfold onstarts. simpl. rewrite filter_app, length_app, filter_cons_False by done.
  simpl. lia.
Qed.
Lemma quiet_same this {A} (m : prog J U A) : (∀ w, trace (m w).2 = trace w) → quiet this m.
Proof. intros Hm w. unfold onstarts. by rewrite Hm. Qed.

Lemma quiet_extra this r : quiet this (GetOnDemandReasonExtraData r).
Proof.
  unfold GetOnDemandReasonExtraData, GetSystemAbilityManager.
  repeat (case_match || apply quiet_bind || apply quiet_call || intros);
    first [by intros []|by apply quiet_same].
Qed.

Lemma quiet_Start_reason this : quiet this (Start_reason this).
Proof.
  apply quiet_bind; [by apply quiet_same|intros]. apply quiet_bind; [|intros].
  { apply quiet_same. intros w. unfold GetStartReason. by case_match. }
  apply quiet_bind; [by apply quiet_same|intros]. apply quiet_extra.
Qed.

Lemma Start_body_once this `{!PublishesOnStart this} w :
  onstarts this (Start_body this w).2 = S (onstarts this w) ∧
  abilityState_ (sa_at (Start_body this w).2 this) ≠ NOT_LOADED.
Proof.
  unfold Start_body.
  destruct (body_split (Start_reason this) (EvOnStart this) (OnStart this) w) as (r & w0 & Hw0 & ->).
  split; [|apply OnStart_publishes]. rewrite OnStart_count.
  pose proof (quiet_Start_reason this w) as Hq. rewrite Hw0 in Hq. simpl in Hq. rewrite <- Hq.
  unfold onstarts. simpl. rewrite filter_app, length_app, filter_cons_True by done. simpl. lia.
Qed.

(** The other overrides are entered by quiet bodies that keep the ability loaded. *)
Lemma Idle_body_once this `{!PublishesOnStart this, !LifecycleCallbacks this} r w :
  onstarts this (Idle_body this r w).2 = onstarts this w ∧
  abilityState_ (sa_at (Idle_body this r w).2 this) = abilityState_ (sa_at w this).
Proof.
  split.
  - apply quiet_bind; [apply quiet_extra|intros r']. apply quiet_bind; [by apply quiet_call; intros []|].
    intros _ ?. apply OnIdle_count.
  - destruct (Idle_body_split this r w) as (r' & w1 & Hh & ->).
    pose proof (OnIdle_lc (this := this) r' w1) as Ho. rewrite (lc_of_heap _ _ _ Hh) in Ho.
    unfold lc_of in Ho. congruence.
Qed.
Lemma Active_body_once this `{!PublishesOnStart this, !LifecycleCallbacks this} r w :
  onstarts this (Active_body this r w).2 = onstarts this w ∧
  abilityState_ (sa_at (Active_body this r w).2 this) = abilityState_ (sa_at w this).
Proof.
  split.
  - apply quiet_bind; [apply quiet_extra|intros r']. apply quiet_bind; [by apply quiet_call; intros []|].
    intros _ ?. apply OnActive_count.
  - destruct (Active_body_split this r w) as (r' & w1 & Hh & ->).
    pose proof (OnActive_lc (this := this) r' w1) as Ho. rewrite (lc_of_heap _ _ _ Hh) in Ho.
    unfold lc_of in Ho. congruence.
Qed.

(** Without stop requests a run has two phases: before and after the one call of
    [OnStart]. *)
Definition before_start (qs : list lc_request) (i : nat) (pc : lc_pc) : Prop :=
  match pc with
  | PStart | PStartCheck | PStartBody => True
  | PIdle _ | PActive _ | PDone => qs !! i ≠ Some ReqStart
  | _ => False
  end.
Definition after_start (pc : lc_pc) : Prop :=
  match pc with PStartBody | PStop | PStopBody | PStopFinish => False | _ => True end.

Definition start_phase (this : loc) (qs : list lc_request) (n : nat) (s : lc_sys) : Prop :=
  (onstarts this (proc s) = n ∧ abilityState_ (sa_at (proc s) this) = NOT_LOADED ∧
   ∀ i pc, pcs s !! i = Some pc → before_start qs i pc) ∨
  (onstarts this (proc s) = S n ∧ abilityState_ (sa_at (proc s) this) ≠ NOT_LOADED ∧
   ∀ i pc, pcs s !! i = Some pc → after_start pc).

Lemma sa_at_insert this s m (w : world) : sa_at (set_heap (<[this := s]> m) w) this = s.
Proof. unfold sa_at. simpl. by rewrite lookup_insert_eq. Qed.

Lemma lookup_insert_all (Q : nat → lc_pc → Prop) (l : list lc_pc) i pc' :
  (∀ j pc, l !! j = Some pc → j ≠ i → Q j pc) → Q i pc' →
  ∀ j pc, <[i := pc']> l !! j = Some pc → Q j pc.
Proof.
  intros Hl Hi j pc Hj. destruct (decide (i = j)) as [<-|Hne].
  - apply list_lookup_insert_Some in Hj. naive_solver.
  - rewrite list_lookup_insert_ne in Hj by done. by apply Hl.
Qed.

Lemma start_phase_step this `{!PublishesOnStart this, !LifecycleCallbacks this} qs n i s s' :
  (∀ i j pc pc', pcs s !! i = Some pc → in_start pc → pcs s !! j = Some pc' → in_start pc' → i = j) →
  start_phase this qs n s → sys_step this i s = Some s' → start_phase this qs n s'.
Proof.
  unfold sys_step. intros Hex Hp Hs. destruct (pcs s !! i) as [pc|] eqn:Hpc; [|done].
  destruct (thread_step _ _ _ _) as [[[pc' lk'] w']|] eqn:E; [|done]. injection Hs as <-.
  unfold start_phase. simpl. destruct Hp as [(Hn & Hst & Hall)|(Hn & Hst & Hall)];
    pose proof (Hall _ _ Hpc) as Hi.
  - destruct pc; simpl in Hi; try done; simpl in E; try (unfold bind, get_sa, ret in E; simpl in E; rewrite Hst in E; simpl in E);
      repeat case_match; simplify_eq/=;
      try (left; split_and!; [done|done|]; apply lookup_insert_all; [by eauto|done]).
    right. destruct (Start_body_once this (proc s)) as [Hc Hl].
    split_and!; [by rewrite Hc|done|]. apply lookup_insert_all; [|done].
    intros j pc Hj Hne. specialize (Hall _ _ Hj). destruct pc; simpl in *; try done.
    destruct Hne. by eapply Hex.
  - right. destruct pc; simpl in Hi; try done; simpl in E;
      try (unfold bind, get_sa, ret in E; simpl in E; rewrite ?bool_decide_eq_false_2 in E by done);
      repeat case_match; simplify_eq/=;
      try (split_and!; [done|done|]; apply lookup_insert_all; [by eauto|done]).
    all: split_and!; [| |by apply lookup_insert_all; [by eauto|]].
    all: try by rewrite ?sa_at_insert.
    + destruct (Idle_body_once this r (proc s)) as [Hc _]. rewrite H in Hc. simpl in Hc. congruence.
    + destruct (Idle_body_once this r (proc s)) as [_ Hc]. rewrite H in Hc. simpl in Hc. congruence.
    + unfold Idle_finish. by case_match.
    + unfold Idle_finish. case_match; [|done]. simpl. by rewrite sa_at_insert.
    + destruct (Active_body_once this r (proc s)) as [-> _]. done.
    + destruct (Active_body_once this r (proc s)) as [_ ->]. done.
Qed.

Lemma start_phase_reachable this `{!PublishesOnStart this, !LifecycleCallbacks this} qs w s :
  ReqStop ∉ qs → abilityState_ (sa_at w this) = NOT_LOADED →
  lc_reachable this (lc_initial qs w) s → start_phase this qs (onstarts this w) s.
Proof.
  intros Hq Hw. induction 1 as [|i s s' Hr IH Hs].
  - left. split_and!; [done|done|]. simpl. intros i pc Hpc.
    apply list_lookup_fmap_Some in Hpc as (q & Heq & Hqi).
    destruct q; simplify_eq/=; rewrite ?Hqi; try done. by apply list_elem_of_lookup_2 in Hqi.
  - refine (start_phase_step this qs _ i s s' _ IH Hs).
    intros. by eapply (start_exclusive this qs w s).
Qed.

(** ** Properties *)

(** C2: at any moment at most one thread is inside [Start] of an ability, between
    taking and releasing [onStartLock_]: two threads never run [OnStart]
    at the same time, whatever other lifecycle requests are under way. *)
Theorem start_mutual_exclusion this qs w s i j pc pc' :
  lc_reachable this (lc_initial qs w) s →
  pcs s !! i = Some pc → in_start pc → pcs s !! j = Some pc' → in_start pc' → i = j.
Proof. apply start_exclusive. Qed.

(** C14: without a stop request, and for an ability whose [OnStart] publishes it,
    any number of concurrent start, idle and active requests call [OnStart]
    at most once, and exactly once when all threads have finished and one
    of the requests was a start. *)
Theorem start_once this `{!PublishesOnStart this, !LifecycleCallbacks this} qs w s :
  ReqStop ∉ qs → abilityState_ (sa_at w this) = NOT_LOADED →
  lc_reachable this (lc_initial qs w) s →
  (onstarts this (proc s) ≤ S (onstarts this w))%nat ∧
  (ReqStart ∈ qs → (∀ pc, pc ∈ pcs s → pc = PDone) →
   onstarts this (proc s) = S (onstarts this w)).
Proof.
  intros Hq Hw Hr. destruct (start_phase_reachable _ _ _ _ Hq Hw Hr) as [(Hn & _ & Hall)|(Hn & _ & _)].
  - split; [lia|]. intros [i Hi]%list_elem_of_lookup Hd.
    destruct (lookup_lt_is_Some_2 (pcs s) i) as [pc Hpc].
    { rewrite (reachable_length _ _ _ _ Hr). by eapply lookup_lt_Some. }
    specialize (Hall _ _ Hpc). rewrite (Hd pc) in Hall by by eapply list_elem_of_lookup_2. done.
  - split; [lia|]. by intros.
Qed.

(** [Stop] is not serialised with the other operations, so the final state of
    concurrent requests need not be that of any order of them: a stop between
    the check and the end of [Idle] leaves the stopped ability IDLE and not
    running, and a stop between [OnStart] and the end of [Start] leaves it
    NOT_LOADED but reported as running. *)
Theorem stop_races this `{!LifecycleCallbacks this} w :
  (abilityState_ (sa_at w this) = ACTIVE → (∀ r w', (OnIdle this r w').1 = 0) →
   ∀ r, ∃ s, run_schedule this [0; 1; 1; 1; 0; 0]%nat (lc_initial [ReqIdle r; ReqStop] w) = Some s ∧
     pcs s = [PDone; PDone] ∧ lc_of (proc s) this = (IDLE, false)) ∧
  (abilityState_ (sa_at w this) = NOT_LOADED → (∀ r w', abilityState_ (sa_at (OnStart this r w').2 this) = ACTIVE) →
   ∃ s, run_schedule this [0; 0; 0; 1; 1; 1; 0; 0]%nat (lc_initial [ReqStart; ReqStop] w) = Some s ∧
     pcs s = [PDone; PDone] ∧ lc_of (proc s) this = (NOT_LOADED, true)).
Proof.
  split.
  - intros Hs Hi r. run_alone. rewrite Hs; simpl.
    set (w1 := (Stop_finish this (Stop_body this w).2).2).
    destruct (Idle_body_split this r w1) as (r' & w2 & Hh & Hb). rewrite Hb.
    specialize (Hi r' w2). pose proof (OnIdle_lc (this := this) r' w2) as Ho.
    rewrite (lc_of_heap _ _ this Hh) in Ho. unfold w1 in Ho. rewrite Stop_finish_lc in Ho.
    destruct (OnIdle this r' w2) as [d w3]. simpl in *. subst d. eexists. split_and!; [done|done|].
    simpl. unfold lc_of in *. rewrite sa_at_insert. simpl. congruence.
  - intros Hs Ha. run_alone. rewrite Hs; simpl.
    destruct (Start_body_split this w) as (r & w1 & _ & Hb). rewrite Hb, Ha. simpl.
    eexists. split_and!; [done|done|]. simpl. unfold lc_of. rewrite sa_at_insert. simpl.
    pose proof (Stop_finish_lc this (Stop_body this (OnStart this r w1).2).2) as Hf.
    unfold lc_of in Hf. congruence.
Qed.

(** ** Progress *)

(** The sections a thread has still to run, at most. *)
Definition remaining (pc : lc_pc) : nat :=
  match pc with
  | PStart => 5 | PStartCheck => 4 | PStartBody => 3 | PStartFinish => 2 | PStartUnlock => 1
  | PIdle _ | PActive _ | PStop => 3
  | PIdleBody _ | PActiveBody _ | PStopBody => 2
  | PIdleFinish _ | PActiveFinish | PStopFinish => 1
  | PDone => 0
  end.
Definition work (l : list lc_pc) : nat := sum_list_with remaining l.

Lemma thread_step_remaining this pc lk w pc' lk' w' :
  thread_step this pc lk w = Some (pc', lk', w') → (remaining pc' < remaining pc)%nat.
Proof. destruct pc; simpl; intros E; repeat case_match; simplify_eq/=; lia. Qed.
Lemma work_insert l i pc pc' :
  l !! i = Some pc → (work (<[i := pc']> l) + remaining pc = work l + remaining pc')%nat.
Proof.
  unfold work. revert i. induction l as [|x l IH]; intros [|i] Hi; simplify_eq/=; [lia|].
  specialize (IH _ Hi). lia.
Qed.
Lemma sys_step_work this i s s' : sys_step this i s = Some s' → (work (pcs s') < work (pcs s))%nat.
Proof.
  unfold sys_step. destruct (pcs s !! i) as [pc|] eqn:Hpc; [|done].
  destruct (thread_step _ _ _ _) as [[[pc' lk'] w']|] eqn:E; [|done]. intros [= <-]. simpl.
  pose proof (work_insert _ _ _ pc' Hpc). apply thread_step_remaining in E. lia.
Qed.
Lemma run_schedule_work this sched s s' :
  run_schedule this sched s = Some s' → (length sched + work (pcs s') ≤ work (pcs s))%nat.
Proof.
  revert s. induction sched as [|i sched IH]; intros s; simpl; [intros [= <-]; lia|].
  destruct (sys_step this i s) as [s1|] eqn:E; [|done]. intros Hr%IH. apply sys_step_work in E. lia.
Qed.
Lemma work_initial qs : (work (pc_of <$> qs) ≤ 5 * length qs)%nat.
Proof. unfold work. induction qs as [|[] qs IH]; csimpl; lia. Qed.

(** Only a thread at the lock waits, and whoever holds the lock can go on. *)
Lemma thread_step_enabled this pc lk w :
  pc ≠ PDone → (pc = PStart → lk = false) → is_Some (thread_step this pc lk w).
Proof. intros Hd Hs. destruct pc; simpl; repeat case_match; try done; by specialize (Hs eq_refl). Qed.
Lemma sys_step_enabled this i pc s :
  pcs s !! i = Some pc → pc ≠ PDone → (pc = PStart → onStartLock_ s = false) → is_Some (sys_step this i s).
Proof.
  intros Hi Hd Hs. unfold sys_step. rewrite Hi.
  destruct (thread_step_enabled this pc (onStartLock_ s) (proc s) Hd Hs) as [[[? ?] ?] ->]. done.
Qed.
Lemma some_starter l : (0 < starters l)%nat → ∃ i pc, l !! i = Some pc ∧ in_start pc.
Proof.
  unfold starters. intros Hl. destruct (filter in_start l) as [|pc l'] eqn:E; [simpl in Hl; lia|].
  assert (pc ∈ filter in_start l) as [Hp Hin]%list_elem_of_filter by (rewrite E; left).
  apply list_elem_of_lookup in Hin as [i Hi]. eauto.
Qed.
Lemma lifecycle_progress this qs w s :
  lc_reachable this (lc_initial qs w) s →
  (∀ pc, pc ∈ pcs s → pc = PDone) ∧ onStartLock_ s = false ∨ ∃ i, is_Some (sys_step this i s).
Proof.
  intros Hr%starters_reachable. destruct (onStartLock_ s) eqn:Hlk; rewrite ?Hlk in Hr; cbv iota in Hr.
  - right. destruct (some_starter (pcs s) ltac:(lia)) as (i & pc & Hi & Hp). exists i.
    apply (sys_step_enabled this i pc); [done|by intros ->|by intros ->].
  - destruct (decide (Forall (λ pc, remaining pc = 0%nat) (pcs s))) as [Hf|Hf].
    + left. split; [|done]. intros pc Hin. rewrite Forall_forall in Hf. specialize (Hf pc Hin). by destruct pc.
    + right. apply not_Forall_Exists, Exists_exists in Hf as (pc & [i Hi]%list_elem_of_lookup & Hn); [|apply _].
      exists i. apply (sys_step_enabled this i pc); [done|intros ->; by apply Hn|done].
Qed.

(** C4: Lifecycle requests always finish: whatever the requests, no schedule of
    their threads is longer than five sections each, and a schedule that cannot
    be continued has run every thread to its end and released the start lock, so
    no thread waits for ever; and from every point a continuation that finishes
    exists. *)
Theorem lifecycle_live this qs w sched s :
  run_schedule this sched (lc_initial qs w) = Some s →
  (length sched ≤ 5 * length qs)%nat ∧
  ((∀ i, sys_step this i s = None) → (∀ pc, pc ∈ pcs s → pc = PDone) ∧ onStartLock_ s = false) ∧
  ∃ rest s', run_schedule this rest s = Some s' ∧ (∀ pc, pc ∈ pcs s' → pc = PDone) ∧ onStartLock_ s' = false.
Proof.
  intros Hs. pose proof (run_schedule_work _ _ _ _ Hs) as Hw. pose proof (work_initial qs). simpl in Hw.
  assert (lc_reachable this (lc_initial qs w) s) as Hr by (by eapply run_schedule_reachable; [apply reach_refl|]).
  split; [lia|]. split.
  - intros Hn. destruct (lifecycle_progress _ _ _ _ Hr) as [|[i [s' Hi]]]; [done|]. by rewrite Hn in Hi.
  - clear Hs Hw. revert s Hr. apply (well_founded_induction_type (well_founded_ltof _ (λ s, work (pcs s))) (λ s,
      lc_reachable this (lc_initial qs w) s → _)).
    intros s IH Hr. destruct (lifecycle_progress _ _ _ _ Hr) as [?|[i [s1 Hi]]]; [by exists [], s|].
    destruct (IH s1) as (rest & s' & Hrest & Hd); [by eapply sys_step_work|by eapply reach_step|].
    exists (i :: rest), s'. simpl. by rewrite Hi.
Qed.
End lifecycle.

(** ** Witnesses *)

#[export] Instance publishing_once : PublishesOnStart (Env0 := publishing_env) 1%positive.
Proof.
  split; try done.
  - intros r w. cbn. unfold sa_at. simpl. by rewrite lookup_insert_eq.
  - intros r w. unfold onstarts. cbn. rewrite !filter_app. cbn. by rewrite !app_nil_r.
Qed.

Definition two_starts : lc_sys :=
  mk_sys true [PStartBody; PStart] (DemoEnv.demo_world []).

Lemma start_mutual_exclusion_witness :
  lc_reachable (Env0 := publishing_env) 1%positive
    (lc_initial [ReqStart; ReqStart] (DemoEnv.demo_world [])) two_starts ∧
  ∀ j pc', pcs two_starts !! j = Some pc' → in_start pc' → 0%nat = j.
Proof.
  assert (lc_reachable (Env0 := publishing_env) 1%positive
    (lc_initial [ReqStart; ReqStart] (DemoEnv.demo_world [])) two_starts) as Hr.
  { eapply (run_schedule_reachable _ [0; 0]%nat); [apply reach_refl|reflexivity]. }
  split; [exact Hr|]. intros j pc' Hj Hp.
  exact (start_mutual_exclusion (Env0 := publishing_env) 1%positive [ReqStart; ReqStart]
    (DemoEnv.demo_world []) two_starts 0 j PStartBody pc' Hr eq_refl I Hj Hp).
Defined.

(** Two start requests and an idle request, the second start held at the lock. *)
Definition raced : lc_sys :=
  default two_starts (run_schedule (Env0 := publishing_env) 1%positive [0; 2; 0; 0; 0; 0; 1; 1; 1]%nat
    (lc_initial [ReqStart; ReqStart; ReqIdle (default_reason 0)] (DemoEnv.demo_world []))).

Lemma start_once_witness :
  pcs raced = [PDone; PDone; PDone] ∧ onstarts 1%positive (proc raced) = 1%nat.
Proof.
  assert (pcs raced = [PDone; PDone; PDone]) as Hd by (vm_compute; reflexivity).
  split; [exact Hd|].
  assert (lc_reachable (Env0 := publishing_env) 1%positive
    (lc_initial [ReqStart; ReqStart; ReqIdle (default_reason 0)] (DemoEnv.demo_world [])) raced) as Hr.
  { eapply (run_schedule_reachable _ [0; 2; 0; 0; 0; 0; 1; 1; 1]%nat); [apply reach_refl|].
    vm_compute. reflexivity. }
  destruct (start_once (Env0 := publishing_env) 1%positive
    [ReqStart; ReqStart; ReqIdle (default_reason 0)] (DemoEnv.demo_world []) raced) as [_ H];
    [set_solver|reflexivity|exact Hr|].
  apply H; [set_solver|]. rewrite Hd. set_solver.
Defined.

Lemma stop_races_witness :
  ∃ s, run_schedule (Env0 := publishing_env) 1%positive [0; 0; 0; 1; 1; 1; 0; 0]%nat
    (lc_initial [ReqStart; ReqStop] (DemoEnv.demo_world [])) = Some s ∧
  lc_of (proc s) 1%positive = (NOT_LOADED, true).
Proof.
  destruct (stop_races (Env0 := publishing_env) 1%positive (DemoEnv.demo_world [])) as [_ H].
  destruct H as (s & Hr & _ & Hl); [reflexivity| |by exists s].
  intros r w. cbn. unfold sa_at. simpl. by rewrite lookup_insert_eq.
Defined.

(** A start, an idle and a stop request, two of them stopped half way. *)
Lemma lifecycle_live_witness :
  ∃ rest s', run_schedule (Env0 := publishing_env) 1%positive rest
      (default two_starts (run_schedule (Env0 := publishing_env) 1%positive [0; 0; 2]%nat
        (lc_initial [ReqStart; ReqIdle (default_reason 0); ReqStop] (DemoEnv.demo_world [])))) = Some s' ∧
    (∀ pc, pc ∈ pcs s' → pc = PDone) ∧ onStartLock_ s' = false.
Proof.
  refine (proj2 (proj2 (lifecycle_live (Env0 := publishing_env) 1%positive
    [ReqStart; ReqIdle (default_reason 0); ReqStop] (DemoEnv.demo_world []) [0; 0; 2]%nat _ _))).
  reflexivity.
Defined.
