(* ===== verification/Registry.v ===== *)
(** * Registry: the abilities of the process

    The registry [localAbilityMap_] of
    [services/safwk/src/local_ability_manager.cpp], the requests that reach an
    ability through it, and the threads that [StartAbility] and [StopAbility]
    detach.  The abstract specification is a finite map from the id of an
    ability to its object. *)

From S2P Require Import Prelude Interfaces.
From S2P Require Export SystemAbility.

Section registry.
  Context {J P U : Type} `{!Json J} `{!MessageParcel P} `{!ParseUtil U} `{!SamgrDefs} `{!Env J P U}.

  #[local] Abbreviation M := (prog J U).
  #[local] Abbreviation world := (world J U).

(* [services/safwk/src/local_ability_manager_stub.cpp:331-334] LocalAbilityManagerStub::CheckInputSysAbilityId *)
Definition CheckInputSysAbilityId (systemAbilityId : Z) : bool :=
  (FIRST_SYS_ABILITY_ID <=? systemAbilityId) && (systemAbilityId <=? LAST_SYS_ABILITY_ID).

(** The attributes [AddAbility] copies from a profile, in its order. *)
(* [services/safwk/src/local_ability_manager.cpp:281-286] LocalAbilityManager::AddAbility *)
Definition set_profile_attrs (saProfile : SaProfile) (s : system_ability) : system_ability :=
  SetDumpLevel (dumpLevel saProfile) (SetDistributed (distributed saProfile)
    (SetDependTimeout (dependTimeout saProfile) (SetDependSa (dependSa saProfile)
      (SetRunOnCreate (runOnCreate saProfile) (SetLibPath (libPath saProfile) s))))).

(* [services/safwk/src/local_ability_manager.cpp:261-289] LocalAbilityManager::AddAbility *)
Definition AddAbility (ability : ptr) : M bool :=
  match ability with
  | None => ret false
  | Some l =>
      let! saId := get_sa GetSystemAbilitId l in
      let! profile := gets (λ w, GetProfile saId (profileParser_ w)) in
      match profile with
      | None => ret false
      | Some saProfile =>
          let! iter := gets (λ w, localAbilityMap_ w !! saId) in
          match iter with
          | Some _ => ret false
          | None =>
              do! put_sa (set_profile_attrs saProfile) l in
              do! modify (λ w, set_localAbilityMap_ (std_insert saId ability (localAbilityMap_ w)) w) in
              ret true
          end
      end
  end.

(* [services/safwk/src/system_ability.cpp:56-60] SystemAbility::MakeAndRegisterAbility *)
Definition MakeAndRegisterAbility (systemAbility : ptr) : M bool := AddAbility systemAbility.

(* [services/safwk/src/local_ability_manager.cpp:291-300] LocalAbilityManager::RemoveAbility *)
Definition RemoveAbility (systemAbilityId : Z) : M bool :=
  if systemAbilityId <=? 0 then ret false
  else
    do! modify (λ w, set_localAbilityMap_ (delete systemAbilityId (localAbilityMap_ w)) w) in
    ret true.

(* [services/safwk/src/local_ability_manager.cpp:482-492] LocalAbilityManager::GetAbility *)
Definition GetAbility (systemAbilityId : Z) : M ptr :=
  gets (λ w, match localAbilityMap_ w !! systemAbilityId with Some p => p | None => None end).

(* [services/safwk/src/local_ability_manager.cpp:494-502] LocalAbilityManager::GetRunningStatus *)
Definition GetRunningStatus (systemAbilityId : Z) : M bool :=
  let! ability := GetAbility systemAbilityId in
  match ability with None => ret false | Some l => get_sa World.GetRunningStatus l end.

(* [services/safwk/src/local_ability_manager.cpp:460-469] LocalAbilityManager::OnStartAbility *)
Definition OnStartAbility (systemAbilityId : Z) : M bool :=
  let! ability := GetAbility systemAbilityId in
  match ability with None => ret false | Some l => do! Start l in ret true end.

(* [services/safwk/src/local_ability_manager.cpp:471-480] LocalAbilityManager::OnStopAbility *)
Definition OnStopAbility (systemAbilityId : Z) : M bool :=
  let! ability := GetAbility systemAbilityId in
  match ability with None => ret false | Some l => do! Stop l in ret true end.

(* [services/safwk/src/local_ability_manager.cpp:570-581] LocalAbilityManager::ActiveAbility *)
Definition ActiveAbility (systemAbilityId : Z) (activeReason : J) : M bool :=
  let! ability := GetAbility systemAbilityId in
  match ability with
  | None => ret false
  | Some l =>
      let! onDemandActiveReason := json_reason activeReason in
      do! Active l onDemandActiveReason in ret true
  end.

(** The result is paired with the final value of the reference [delayTime]. *)
(* [services/safwk/src/local_ability_manager.cpp:583-594] LocalAbilityManager::IdleAbility *)
Definition IdleAbility (systemAbilityId : Z) (idleReason : J) (delayTime : Z) : M (bool * Z) :=
  let! ability := GetAbility systemAbilityId in
  match ability with
  | None => ret (false, delayTime)
  | Some l =>
      let! onDemandIdleReason := json_reason idleReason in
      let! delayTime := Idle l onDemandIdleReason in ret (true, delayTime)
  end.

(** The result is paired with the final value of the reference [action]. *)
(* [services/safwk/src/local_ability_manager.cpp:948-958] LocalAbilityManager::SendStrategyToSA *)
Definition SendStrategyToSA (type systemAbilityId level : Z) (action : string) : M (bool * string) :=
  let! ability := GetAbility systemAbilityId in
  match ability with
  | None => ret (false, action)
  | Some l =>
      let! action := enter (EvOnDeviceLevelChanged l type level action)
                       (OnDeviceLevelChanged l type level action) in
      ret (true, action)
  end.

(** [callback] holds the two parcels, [None] when the pointer is null. *)
(* [services/safwk/src/local_ability_manager.cpp:1039-1053] LocalAbilityManager::SystemAbilityExtProc *)
Definition SystemAbilityExtProc (extension : string) (said : Z) (callback : option (P * P))
    : M (Z * option (P * P)) :=
  match callback with
  | None => ret (INVALID_DATA, callback)
  | Some (data, reply) =>
      let! ability := GetAbility said in
      match ability with
      | None => ret (INVALID_DATA, callback)
      | Some l =>
          let! r := enter (EvOnExtension l extension) (OnExtension l extension data reply) in
          let '(result, data, reply) := r in ret (result, Some (data, reply))
      end
  end.

(* [services/safwk/src/local_ability_manager.cpp:1192-1201] LocalAbilityManager::ServiceControlCmd *)
Definition ServiceControlCmd (fd systemAbilityId : Z) (args : list u16string) : M Z :=
  let! ability := GetAbility systemAbilityId in
  match ability with
  | None => ret INVALID_DATA
  | Some l => enter (EvOnSvcCmd l fd args) (OnSvcCmd l fd args)
  end.

(* [services/safwk/src/local_ability_manager.cpp:1055-1064] LocalAbilityManager::IsResident *)
Definition IsResident : M bool :=
  gets (λ w, existsb (λ it, match it.2 with None => false | Some l => IsRunOnCreate (sa_at w l) end)
               (zmap_iter (localAbilityMap_ w))).

(** ** The detached threads *)

(* [services/safwk/src/local_ability_manager.cpp:51-51] RETRY_TIMES_FOR_ONDEMAND *)
Definition RETRY_TIMES_FOR_ONDEMAND : nat := 10.

(** The polling loop, and the value of [timeout] when it is left. *)
(* [services/safwk/src/local_ability_manager.cpp:516-529] LocalAbilityManager::StartOndemandSystemAbility *)
Fixpoint wait_for_ability (systemAbilityId : Z) (timeout : nat) : M nat :=
  match timeout with
  | O => ret O
  | S timeout' =>
      let! it := gets (λ w, localAbilityMap_ w !! systemAbilityId) in
      match it with
      | Some _ => ret timeout
      | None => do! usleep 100000 in wait_for_ability systemAbilityId timeout'
      end
  end.

(* [services/safwk/src/local_ability_manager.cpp:504-538] LocalAbilityManager::StartOndemandSystemAbility *)
Definition StartOndemandSystemAbility (systemAbilityId : Z) : M unit :=
  let! isExist := enter (EvLoadSaLib systemAbilityId) (LoadSaLib systemAbilityId) in
  if negb isExist then ret tt
  else
    let! timeout := wait_for_ability systemAbilityId RETRY_TIMES_FOR_ONDEMAND in
    if Nat.leb timeout 0 then ret tt
    else do! OnStartAbility systemAbilityId in ret tt.

(* [services/safwk/src/local_ability_manager.cpp:540-549] LocalAbilityManager::StartAbility *)
Definition LocalStartAbility (systemAbilityId : Z) (eventStr : string) : M bool :=
  do! SetStartReason systemAbilityId (StringToJsonObj eventStr) in
  do! modify (λ w, set_threads (threads w ++ [StartOndemandTask systemAbilityId]) w) in
  ret true.

(* [services/safwk/src/local_ability_manager.cpp:551-557] LocalAbilityManager::StopOndemandSystemAbility *)
Definition StopOndemandSystemAbility (systemAbilityId : Z) : M unit :=
  do! OnStopAbility systemAbilityId in ret tt.

(* [services/safwk/src/local_ability_manager.cpp:559-568] LocalAbilityManager::StopAbility *)
Definition LocalStopAbility (systemAbilityId : Z) (eventStr : string) : M bool :=
  do! SetStopReason systemAbilityId (StringToJsonObj eventStr) in
  do! modify (λ w, set_threads (threads w ++ [StopOndemandTask systemAbilityId]) w) in
  ret true.

(** The scheduler runs the [i]-th detached thread to its end. *)
Definition run_thread (i : nat) : M unit :=
  let! t := gets (λ w, threads w !! i) in
  match t with
  | None => ret tt
  | Some t =>
      do! modify (λ w, set_threads (delete i (threads w)) w) in
      match t with
      | StartOndemandTask id => StartOndemandSystemAbility id
      | StopOndemandTask id => StopOndemandSystemAbility id
      end
  end.

(** The world after [n] of the sleeps of the polling loop. *)
Fixpoint naps (n : nat) (w : world) : world :=
  match n with O => w | S n' => naps n' (usleep 100000 w).2 end.

(** ** The specification: a map from ids to objects *)

Inductive reg_op := RegAdd (p : ptr) | RegRemove (id : Z) | RegGet (id : Z).

Definition reg_exec (o : reg_op) : M (bool + ptr) :=
  match o with
  | RegAdd p => let! b := AddAbility p in ret (inl b)
  | RegRemove id => let! b := RemoveAbility id in ret (inl b)
  | RegGet id => let! p := GetAbility id in ret (inr p)
  end.

(** [ids] are the ids of the objects, [known] the ids that have a profile. *)
Definition reg_spec (ids : loc → Z) (known : Z → bool) (o : reg_op) (m : gmap Z loc)
    : (bool + ptr) * gmap Z loc :=
  match o with
  | RegAdd None => (inl false, m)
  | RegAdd (Some l) =>
      if known (ids l) && bool_decide (m !! ids l = None) then (inl true, <[ids l := l]> m)
      else (inl false, m)
  | RegRemove id => if id <=? 0 then (inl false, m) else (inl true, delete id m)
  | RegGet id => (inr (m !! id), m)
  end.

Fixpoint reg_exec_all (os : list reg_op) : M (list (bool + ptr)) :=
  match os with
  | [] => ret []
  | o :: os' => let! r := reg_exec o in let! rs := reg_exec_all os' in ret (r :: rs)
  end.
Fixpoint reg_spec_all (ids : loc → Z) (known : Z → bool) (os : list reg_op) (m : gmap Z loc)
    : list (bool + ptr) * gmap Z loc :=
  match os with
  | [] => ([], m)
  | o :: os' =>
      let '(r, m1) := reg_spec ids known o m in
      let '(rs, m2) := reg_spec_all ids known os' m1 in (r :: rs, m2)
  end.

(** ** Well-formed registries *)

Definition timeout_ok (s : system_ability) : Prop :=
  MIN_DEPENDENCY_TIMEOUT ≤ dependTimeout_ s ≤ MAX_DEPENDENCY_TIMEOUT.

Definition registry_wf (ids : loc → Z) (w : world) : Prop :=
  (∀ l, saId_ (sa_at w l) = ids l ∧ timeout_ok (sa_at w l)) ∧
  (∀ id p, localAbilityMap_ w !! id = Some p → ∃ l, p = Some l ∧ ids l = id).

(** The abstract map of a registry. *)
Definition registry_of (w : world) (m : gmap Z loc) : Prop := localAbilityMap_ w = Some <$> m.

(** ** Lemmas *)

Lemma SetDependTimeout_ok v s : timeout_ok s → timeout_ok (SetDependTimeout v s).
Proof.
  unfold SetDependTimeout, timeout_ok. intros Hs.
  destruct (Z.leb_spec MIN_DEPENDENCY_TIMEOUT v), (Z.leb_spec v MAX_DEPENDENCY_TIMEOUT); simpl; auto.
Qed.

Lemma set_profile_attrs_id pr s : saId_ (set_profile_attrs pr s) = saId_ s.
Proof. unfold set_profile_attrs, SetDependTimeout. simpl. by case_match. Qed.

Lemma set_profile_attrs_timeout pr s : timeout_ok s → timeout_ok (set_profile_attrs pr s).
Proof.
  intros Hs. unfold set_profile_attrs.
  enough (timeout_ok (SetDependTimeout (dependTimeout pr)
    (SetDependSa (dependSa pr) (SetRunOnCreate (runOnCreate pr) (SetLibPath (libPath pr) s))))) by done.
  by apply SetDependTimeout_ok.
Qed.

(** What a registration does, in one equation. *)
Lemma AddAbility_run l w :
  AddAbility (Some l) w =
  match GetProfile (saId_ (sa_at w l)) (profileParser_ w), localAbilityMap_ w !! saId_ (sa_at w l) with
  | Some pr, None =>
      (true, set_localAbilityMap_ (<[saId_ (sa_at w l) := Some l]> (localAbilityMap_ w))
               (set_heap (<[l := set_profile_attrs pr (sa_at w l)]> (heap w)) w))
  | _, _ => (false, w)
  end.
Proof.
  unfold AddAbility. run_prog. destruct (GetProfile _ _) as [pr|]; [|done].
  destruct (localAbilityMap_ w !! _) eqn:E; [done|]. simpl. by rewrite std_insert_fresh.
Qed.

Lemma reg_sim ids o w m :
  registry_wf ids w → registry_of w m →
  let '(r, w') := reg_exec o w in
  let '(r', m') := reg_spec ids (λ id, bool_decide (is_Some (GetProfile id (profileParser_ w)))) o m in
  r = r' ∧ registry_wf ids w' ∧ registry_of w' m' ∧ profileParser_ w' = profileParser_ w.
Proof.
  intros [Hh Hk] Hm. unfold registry_of in *. destruct o as [[l|]|id|id]; cbn [reg_exec reg_spec].
  - unfold bind. rewrite AddAbility_run. destruct (Hh l) as [-> Ht]. simpl.
    rewrite Hm, lookup_fmap. destruct (GetProfile _ _) as [pr|]; simpl; [|done].
    destruct (m !! ids l) eqn:El; simpl; [done|]. split_and!; [done|split|by rewrite fmap_insert|done].
    + intros l'. pose proof (sa_at_heap l l' (set_profile_attrs pr (sa_at w l)) w) as Hl'.
      unfold sa_at in *; cbn [heap set_localAbilityMap_]. rewrite Hl'. case_decide; [subst l'|apply Hh].
      rewrite set_profile_attrs_id. split; [apply Hh|by apply set_profile_attrs_timeout].
    + intros id p Hp. simpl in Hp. apply lookup_insert_Some in Hp as [[<- <-]|[_ Hp]]; [by exists l|].
      rewrite <- Hm in Hp. by apply Hk.
  - done.
  - unfold bind, RemoveAbility. destruct (id <=? 0); simpl; [done|]. split_and!; [done|split| |done].
    + exact Hh.
    + intros id' p Hp. simpl in Hp. apply lookup_delete_Some in Hp as [_ Hp]. by apply Hk.
    + simpl. by rewrite Hm, fmap_delete.
  - unfold bind, GetAbility. simpl. rewrite Hm, lookup_fmap. by destruct (m !! id).
Qed.

Lemma reg_sim_all ids os w m :
  registry_wf ids w → registry_of w m →
  let '(rs, w') := reg_exec_all os w in
  let '(rs', m') := reg_spec_all ids (λ id, bool_decide (is_Some (GetProfile id (profileParser_ w)))) os m in
  rs = rs' ∧ registry_wf ids w' ∧ registry_of w' m'.
Proof.
  revert w m. induction os as [|o os IH]; intros w m Hw Hm; simpl; [done|].
  unfold bind. pose proof (reg_sim ids o w m Hw Hm) as Hs.
  destruct (reg_exec o w) as [r w1]. destruct (reg_spec _ _ o m) as [r' m1].
  destruct Hs as (-> & Hw1 & Hm1 & Hp). specialize (IH w1 m1 Hw1 Hm1). rewrite Hp in IH.
  destruct (reg_exec_all os w1) as [rs w2]. destruct (reg_spec_all _ _ os m1) as [rs' m2].
  destruct IH as (-> & Hw2 & Hm2). done.
Qed.

Lemma naps_S n w : naps (S n) w = (usleep 100000 (naps n w)).2.
Proof. revert w. induction n as [|n IH]; intros w; [done|]. simpl. by rewrite <- IH. Qed.

(** The polling loop stops at the first nap after which the ability is there. *)
Lemma wait_for_ability_found id n w k :
  (k < n)%nat → is_Some (localAbilityMap_ (naps k w) !! id) →
  (∀ j, (j < k)%nat → localAbilityMap_ (naps j w) !! id = None) →
  wait_for_ability id n w = ((n - k)%nat, naps k w).
Proof.
  revert k w. induction n as [|n IH]; intros k w Hk [p Hp] Hn; [lia|]. simpl. run_prog.
  destruct k as [|k]; simpl in *; [by rewrite Hp|].
  pose proof (Hn 0%nat ltac:(lia)) as H0. simpl in H0. rewrite H0. unfold usleep, enter, bind, call.
  set (w1 := (elapse 100000 (set_trace (trace w ++ [EvSleep 100000]) w)).2).
  assert (naps k w1 = naps (S k) w) as Hk1 by done.
  assert (wait_for_ability id n w1 = ((n - k)%nat, naps k w1)) as Hw1.
  { apply IH; [lia|by exists p|]. intros j Hj. apply (Hn (S j)). lia. }
  unfold w1 in Hw1. by destruct (elapse _ _) as [[] w2].
Qed.

Lemma wait_for_ability_timeout id n w :
  (∀ j, (j < n)%nat → localAbilityMap_ (naps j w) !! id = None) →
  wait_for_ability id n w = (0%nat, naps n w).
Proof.
  revert w. induction n as [|n IH]; intros w Hn; [done|]. simpl. run_prog.
  pose proof (Hn 0%nat ltac:(lia)) as H0. simpl in H0. rewrite H0. unfold usleep, enter, bind, call.
  set (w1 := (elapse 100000 (set_trace (trace w ++ [EvSleep 100000]) w)).2).
  assert (wait_for_ability id n w1 = (0%nat, naps n w1)) as Hw1.
  { apply IH. intros j Hj. apply (Hn (S j)). lia. }
  unfold w1 in Hw1. by destruct (elapse _ _) as [[] w2].
Qed.

(** What the requests for the detached threads change. *)
Lemma LocalStartAbility_view id e w :
  let '(ok, w') := LocalStartAbility id e w in
  ok = true ∧ threads w' = threads w ++ [StartOndemandTask id] ∧
  saIdToStartReason_ w' = <[id := StringToJsonObj e]> (saIdToStartReason_ w) ∧
  saIdToStopReason_ w' = saIdToStopReason_ w ∧ trace w' = trace w.
Proof. done. Qed.
Lemma LocalStopAbility_view id e w :
  let '(ok, w') := LocalStopAbility id e w in
  ok = true ∧ threads w' = threads w ++ [StopOndemandTask id] ∧
  saIdToStopReason_ w' = <[id := StringToJsonObj e]> (saIdToStopReason_ w) ∧
  saIdToStartReason_ w' = saIdToStartReason_ w ∧ trace w' = trace w.
Proof. done. Qed.
Lemma GetStartReason_val id (w : world) : (GetStartReason id w).1 = default jnull (saIdToStartReason_ w !! id).
Proof. unfold GetStartReason. by destruct (saIdToStartReason_ w !! id). Qed.
Lemma GetStopReason_val id (w : world) : (GetStopReason id w).1 = default jnull (saIdToStopReason_ w !! id).
Proof. unfold GetStopReason. by destruct (saIdToStopReason_ w !! id). Qed.

(** ** Properties *)

(** C17: over any sequence of registrations, removals and lookups that starts with
    an empty registry, the manager answers exactly as a map from ids to
    objects does that takes a new id with a profile, never overwrites, and
    ignores ids that are not positive on removal; every entry stays non-null
    and under its object's own id, and every object keeps a dependency
    timeout within [MIN_DEPENDENCY_TIMEOUT] and [MAX_DEPENDENCY_TIMEOUT]. *)
Theorem registry_refines_map ids os w :
  (∀ l, saId_ (sa_at w l) = ids l ∧ timeout_ok (sa_at w l)) → localAbilityMap_ w = ∅ →
  let known id := bool_decide (is_Some (GetProfile id (profileParser_ w))) in
  (reg_exec_all os w).1 = (reg_spec_all ids known os ∅).1 ∧
  registry_wf ids (reg_exec_all os w).2 ∧
  registry_of (reg_exec_all os w).2 (reg_spec_all ids known os ∅).2.
Proof.
  intros Hw He. assert (registry_wf ids w) as Hwf by (split; [done|intros id p; rewrite He; done]).
  pose proof (reg_sim_all ids os w ∅ Hwf) as Hs. simpl.
  destruct (reg_exec_all os w) as [rs w']. destruct (reg_spec_all ids _ os ∅) as [rs' m'].
  apply Hs. unfold registry_of. by rewrite He, fmap_empty.
Qed.

(** [AddAbility] succeeds exactly for a non-null ability that has a profile
    and is not registered yet; then it is registered under its id with the
    attributes of the profile, except that a dependency timeout outside
    [200, 60000] leaves the old one, and its lifecycle state is untouched;
    otherwise nothing changes. *)
Theorem add_ability_spec p w :
  let '(ok, w') := AddAbility p w in
  match p with
  | None => ok = false ∧ w' = w
  | Some l =>
      let s := sa_at w l in
      match GetProfile (saId_ s) (profileParser_ w), localAbilityMap_ w !! saId_ s with
      | Some pr, None =>
          ok = true ∧ localAbilityMap_ w' = <[saId_ s := Some l]> (localAbilityMap_ w) ∧
          sa_at w' l = mk_sa (saId_ s) (libPath pr) (dependSa pr) (runOnCreate pr) (distributed pr)
            (dumpLevel pr)
            (if (200 <=? dependTimeout pr) && (dependTimeout pr <=? 60000)
             then dependTimeout pr else dependTimeout_ s)
            (isRunning_ s) (abilityState_ s) (capability_ s) (publishObj_ s) (permission_ s) ∧
          (∀ l', l' ≠ l → sa_at w' l' = sa_at w l') ∧ trace w' = trace w
      | _, _ => ok = false ∧ w' = w
      end
  end.
Proof.
  destruct p as [l|]; [|done]. rewrite AddAbility_run. cbv zeta.
  destruct (GetProfile _ _) as [pr|]; [|done]. destruct (localAbilityMap_ w !! _); [done|].
  split_and!; try done.
  - etransitivity; [apply (sa_at_heap l l)|]. rewrite decide_True by done.
    unfold set_profile_attrs, SetDependTimeout, MIN_DEPENDENCY_TIMEOUT, MAX_DEPENDENCY_TIMEOUT.
    by destruct (_ && _).
  - intros l' Hl. etransitivity; [apply (sa_at_heap l l')|]. by rewrite decide_False.
Qed.

(** A request to an ability that is not registered is refused with [false] or
    [INVALID_DATA] and has no effect; a registered ability gets exactly the
    call of the request, with the reason converted from its JSON. *)
Theorem request_dispatch id w :
  (∀ j r d a ty lv ext par fd args,
     match localAbilityMap_ w !! id with
     | Some (Some l) =>
         let reason j := JsonToOnDemandReason (indet_reason_id (trace w)) j in
         ActiveAbility id j w = (true, (Active l (reason j) w).2) ∧
         IdleAbility id r d w = ((true, (Idle l (reason r) w).1), (Idle l (reason r) w).2) ∧
         OnStartAbility id w = (true, (Start l w).2) ∧
         OnStopAbility id w = (true, (Stop l w).2) ∧
         GetRunningStatus id w = (isRunning_ (sa_at w l), w) ∧
         (SendStrategyToSA ty id lv a w).1.1 = true ∧
         SystemAbilityExtProc ext id None w = ((INVALID_DATA, None), w) ∧
         (SystemAbilityExtProc ext id (Some par) w).1.1 =
           (enter (EvOnExtension l ext) (OnExtension l ext par.1 par.2) w).1.1.1 ∧
         ServiceControlCmd fd id args w = enter (EvOnSvcCmd l fd args) (OnSvcCmd l fd args) w
     | _ =>
         ActiveAbility id j w = (false, w) ∧ IdleAbility id r d w = ((false, d), w) ∧
         OnStartAbility id w = (false, w) ∧ OnStopAbility id w = (false, w) ∧
         GetRunningStatus id w = (false, w) ∧ SendStrategyToSA ty id lv a w = ((false, a), w) ∧
         (∀ cb, SystemAbilityExtProc ext id cb w = ((INVALID_DATA, cb), w)) ∧
         ServiceControlCmd fd id args w = (INVALID_DATA, w)
     end).
Proof.
  intros. unfold ActiveAbility, IdleAbility, OnStartAbility, OnStopAbility, GetRunningStatus,
    SendStrategyToSA, SystemAbilityExtProc, ServiceControlCmd, GetAbility, json_reason, gets, ret, bind, get_sa.
  destruct (localAbilityMap_ w !! id) as [[l|]|] eqn:E; simpl;
    [|split_and!; try done; intros [[]|]; by rewrite ?E..].
  split_and!; try done.
  - by destruct (Active _ _ _) as [[] ?].
  - by destruct (Idle _ _ _) as [? ?].
  - by destruct (Start l w) as [[] ?].
  - by destruct (Stop l w) as [[] ?].
  - by destruct (enter _ _ _) as [? ?].
  - destruct par as [data reply]. rewrite E. by destruct (enter _ _ _) as [[[? ?] ?] ?].
Qed.

(** An on-demand start whose library loads starts the ability iff it is
    registered at one of the first ten looks, 100 ms apart, and then at the
    first of them; it gives up after ten sleeps, without a last look, and it
    does nothing when the library does not load. *)
Theorem start_ondemand_spec id w :
  let '(loaded, w0) := enter (EvLoadSaLib id) (LoadSaLib id) w in
  let run := (StartOndemandSystemAbility id w).2 in
  (loaded = false → run = w0) ∧
  (∀ k, loaded = true → (k < 10)%nat → is_Some (localAbilityMap_ (naps k w0) !! id) →
     (∀ j, (j < k)%nat → localAbilityMap_ (naps j w0) !! id = None) →
     run = (OnStartAbility id (naps k w0)).2) ∧
  (loaded = true → (∀ j, (j < 10)%nat → localAbilityMap_ (naps j w0) !! id = None) →
     run = naps 10 w0).
Proof.
  destruct (enter (EvLoadSaLib id) (LoadSaLib id) w) as [b w0] eqn:E. cbv zeta.
  assert (StartOndemandSystemAbility id w = (if negb b then ret tt else
    let! timeout := wait_for_ability id RETRY_TIMES_FOR_ONDEMAND in
    if Nat.leb timeout 0 then ret tt else do! OnStartAbility id in ret tt) w0) as ->.
  { unfold StartOndemandSystemAbility. unfold bind at 1. by rewrite E. }
  destruct b; cbv beta iota delta [negb]; (split_and!; [done|..]); try done.
  - intros k _ Hk Hs Hn. unfold bind at 1.
    rewrite (wait_for_ability_found id RETRY_TIMES_FOR_ONDEMAND w0 k) by done.
    unfold RETRY_TIMES_FOR_ONDEMAND. destruct (Nat.leb_spec (10 - k) 0); [lia|].
    unfold bind. by destruct (OnStartAbility id _) as [b w1].
  - intros _ Hn. unfold bind at 1.
    by rewrite (wait_for_ability_timeout id RETRY_TIMES_FOR_ONDEMAND w0).
Qed.

(** A start or stop request is always accepted, records its reason and leaves
    one detached thread; until other code runs, the reason of the last start
    request is what [GetStartReason] returns, so two pending threads for one
    ability both see the later reason; stop reasons are separate. *)
Theorem start_reason_last_wins id e1 e2 e3 w :
  let '(ok1, w1) := LocalStartAbility id e1 w in
  let '(ok2, w2) := LocalStartAbility id e2 w1 in
  let '(ok3, w3) := LocalStopAbility id e3 w2 in
  ok1 = true ∧ ok2 = true ∧ ok3 = true ∧
  threads w3 = threads w ++ [StartOndemandTask id; StartOndemandTask id; StopOndemandTask id] ∧
  (GetStartReason id w3).1 = StringToJsonObj e2 ∧ (GetStopReason id w3).1 = StringToJsonObj e3 ∧
  (∀ id', id' ≠ id → (GetStartReason id' w3).1 = (GetStartReason id' w).1) ∧ trace w3 = trace w.
Proof.
  pose proof (LocalStartAbility_view id e1 w) as H1. destruct (LocalStartAbility id e1 w) as [ok1 w1].
  pose proof (LocalStartAbility_view id e2 w1) as H2. destruct (LocalStartAbility id e2 w1) as [ok2 w2].
  pose proof (LocalStopAbility_view id e3 w2) as H3. destruct (LocalStopAbility id e3 w2) as [ok3 w3].
  destruct H1 as (-> & Ht1 & Hs1 & _ & Htr1), H2 as (-> & Ht2 & Hs2 & _ & Htr2), H3 as (-> & Ht3 & Hp3 & Hs3 & Htr3).
  rewrite Ht3, Ht2, Ht1, Htr3, Htr2, Htr1, <- !(assoc_L (++)), GetStopReason_val, Hp3, lookup_insert_eq.
  split_and!; try done; [|intros id' Hid]; rewrite !GetStartReason_val, Hs3, Hs2.
  - by rewrite lookup_insert_eq.
  - by rewrite Hs1, !lookup_insert_ne by done.
Qed.

(** [IsResident] answers true iff some registered ability runs on create. *)
Theorem is_resident_spec w :
  (IsResident w).1 = true ↔
  ∃ id l, localAbilityMap_ w !! id = Some (Some l) ∧ isRunOnCreate_ (sa_at w l) = true.
Proof.
  unfold IsResident, gets. simpl. rewrite existsb_exists. split.
  - intros ([id [l|]] & Hin & Hr); [|done]. exists id, l. split; [|done].
    apply (elem_of_map_iter Z.le). by apply list_elem_of_In.
  - intros (id & l & Hm & Hr). exists (id, Some l). split; [|done].
    apply list_elem_of_In. by apply elem_of_map_iter.
Qed.
End registry.

(** ** Witnesses *)

Import DemoDefs.

(** Ability 401 at address 1 is registered twice, looked up and removed. *)
Lemma registry_refines_map_witness :
  let w := DemoEnv.demo_world [DemoProfiles.demo_profile 401 true 1 [] (-1)] in
  let ids l := saId_ (sa_at w l) in
  (reg_exec_all [RegAdd (Some 1%positive); RegAdd (Some 1%positive); RegGet 401; RegRemove 401; RegGet 401] w).1 =
  [inl true; inl false; inr (Some 1%positive); inl true; inr None].
Proof.
  intros w ids.
  destruct (registry_refines_map ids
    [RegAdd (Some 1%positive); RegAdd (Some 1%positive); RegGet 401; RegRemove 401; RegGet 401] w)
    as [-> _]; [|reflexivity|reflexivity].
  intros l. split; [reflexivity|]. unfold w, sa_at.
  destruct (decide (1%positive = l)) as [<-|Hne]; [by vm_compute|].
  unfold DemoEnv.demo_world; simpl. rewrite lookup_singleton_ne by done. by vm_compute.
Defined.

(** A registered, published ability. *)
Definition registered : DemoEnv.dworld :=
  (AddAbility (Some 1%positive)
    (DemoEnv.demo_world [DemoProfiles.demo_profile 401 true 1 [] (-1)])).2.

Lemma start_ondemand_spec_witness :
  abilityState_ (sa_at (StartOndemandSystemAbility (Env0 := publishing_env) 401 registered).2 1%positive)
    = ACTIVE.
Proof.
  destruct (start_ondemand_spec (Env0 := publishing_env) 401 registered) as (_ & H & _).
  rewrite (H 0%nat); [reflexivity|reflexivity|lia|by eexists|lia].
Defined.
