(* ===== verification/Overrides.v ===== *)
(** * Overrides: the virtual functions of an ability and the classes that override them

    [SystemAbility] declares the functions its subclasses override
    ([services/safwk/include/system_ability.h]) and gives each a body
    ([services/safwk/src/system_ability.cpp]).  A class is the record of the
    functions it overrides; a call on an object runs the override of the object's
    class or the inherited body.  Two inherited bodies call another virtual
    function of the same object: the ones that take a reason call the ones that
    do not.

    [class_env] is the environment in which the [On*] functions of [World.v] are
    these calls, so every theorem about the framework applies to objects given by
    their classes. *)

From S2P Require Import Prelude Interfaces Monad World SystemAbility Registry.

Section overrides.
  Context {J P U : Type} `{!Json J} `{!MessageParcel P} `{PU : !ParseUtil U} `{SD : !SamgrDefs}.

  #[local] Abbreviation M := (prog J U).
  #[local] Abbreviation reason := SystemAbilityOnDemandReason.

(** [None]: not overridden. *)
(* [services/safwk/include/system_ability.h:96-169] SystemAbility *)
Record overrides := mk_overrides {
  o_OnDump : option (loc → M unit);
  o_OnStart : option (loc → M unit);
  o_OnStartReason : option (loc → reason → M unit);
  o_OnIdle : option (loc → reason → M Z);
  o_OnActive : option (loc → reason → M unit);
  o_OnStop : option (loc → M unit);
  o_OnStopReason : option (loc → reason → M unit);
  o_OnAddSystemAbility : option (loc → Z → string → M unit);
  o_OnRemoveSystemAbility : option (loc → Z → string → M unit);
  o_OnSvcCmd : option (loc → Z → list u16string → M Z);
  o_OnDeviceLevelChanged : option (loc → Z → Z → string → M string);
  o_OnExtension : option (loc → string → P → P → M (Z * P * P));
}.

(** A class that overrides nothing. *)
Definition no_overrides : overrides :=
  mk_overrides None None None None None None None None None None None None.

(** ** The inherited bodies *)

(* [services/safwk/src/system_ability.cpp:382-384] SystemAbility::OnDump *)
Definition base_OnDump (this : loc) : M unit := ret tt.
(* [services/safwk/src/system_ability.cpp:387-389] SystemAbility::OnStart *)
Definition base_OnStart (this : loc) : M unit := ret tt.
(* [services/safwk/src/system_ability.cpp:404-408] SystemAbility::OnActive *)
Definition base_OnActive (this : loc) (activeReason : reason) : M unit := ret tt.
(* [services/safwk/src/system_ability.cpp:411-413] SystemAbility::OnStop *)
Definition base_OnStop (this : loc) : M unit := ret tt.
(* [services/safwk/src/system_ability.cpp:422-424] SystemAbility::OnAddSystemAbility *)
Definition base_OnAddSystemAbility (this : loc) (systemAbilityId : Z) (deviceId : string) : M unit := ret tt.
(* [services/safwk/src/system_ability.cpp:427-429] SystemAbility::OnRemoveSystemAbility *)
Definition base_OnRemoveSystemAbility (this : loc) (systemAbilityId : Z) (deviceId : string) : M unit := ret tt.
(** The result is the final value of the reference [action]. *)
(* [services/safwk/src/system_ability.cpp:465-467] SystemAbility::OnDeviceLevelChanged *)
Definition base_OnDeviceLevelChanged (this : loc) (type level : Z) (action : string) : M string := ret action.

(** ** Calls on an object of class [c] *)

Definition v_OnStart (c : overrides) (this : loc) : M unit := default base_OnStart (o_OnStart c) this.
(* [services/safwk/src/system_ability.cpp:392-395] SystemAbility::OnStart *)
Definition base_OnStartReason (c : overrides) (this : loc) (startReason : reason) : M unit := v_OnStart c this.
Definition v_OnStartReason (c : overrides) (this : loc) (r : reason) : M unit :=
  default (base_OnStartReason c) (o_OnStartReason c) this r.

Definition v_OnStop (c : overrides) (this : loc) : M unit := default base_OnStop (o_OnStop c) this.
(* [services/safwk/src/system_ability.cpp:416-419] SystemAbility::OnStop *)
Definition base_OnStopReason (c : overrides) (this : loc) (stopReason : reason) : M unit := v_OnStop c this.
Definition v_OnStopReason (c : overrides) (this : loc) (r : reason) : M unit :=
  default (base_OnStopReason c) (o_OnStopReason c) this r.

Definition v_OnDump (c : overrides) (this : loc) : M unit := default base_OnDump (o_OnDump c) this.
(* [services/safwk/src/system_ability.cpp:297-300] SystemAbility::SADump *)
Definition SADump (c : overrides) (this : loc) : M unit := v_OnDump c this.

Definition v_OnIdle (c : overrides) (this : loc) (r : reason) : M Z :=
  default (λ _, base_OnIdle) (o_OnIdle c) this r.
Definition v_OnActive (c : overrides) : loc → reason → M unit := default base_OnActive (o_OnActive c).
Definition v_OnAddSystemAbility (c : overrides) : loc → Z → string → M unit :=
  default base_OnAddSystemAbility (o_OnAddSystemAbility c).
Definition v_OnRemoveSystemAbility (c : overrides) : loc → Z → string → M unit :=
  default base_OnRemoveSystemAbility (o_OnRemoveSystemAbility c).
Definition v_OnDeviceLevelChanged (c : overrides) : loc → Z → Z → string → M string :=
  default base_OnDeviceLevelChanged (o_OnDeviceLevelChanged c).
Definition v_OnExtension (c : overrides) : loc → string → P → P → M (Z * P * P) :=
  default (λ _, base_OnExtension) (o_OnExtension c).
Definition v_OnSvcCmd (c : overrides) : loc → Z → list u16string → M Z :=
  default (λ _, base_OnSvcCmd) (o_OnSvcCmd c).

(** The environment of objects with the classes [class_of]; the rest is that of
    [EN]. *)
Definition class_env (EN : Env J P U) (class_of : loc → overrides) : Env J P U := {|
  respond := respond;
  extra_data_parcel := extra_data_parcel;
  indet_reason_id := indet_reason_id;
  OnStart l := v_OnStartReason (class_of l) l;
  OnStop l := v_OnStopReason (class_of l) l;
  OnActive l := v_OnActive (class_of l) l;
  OnIdle l := v_OnIdle (class_of l) l;
  OnAddSystemAbility l := v_OnAddSystemAbility (class_of l) l;
  OnRemoveSystemAbility l := v_OnRemoveSystemAbility (class_of l) l;
  OnDeviceLevelChanged l := v_OnDeviceLevelChanged (class_of l) l;
  OnExtension l := v_OnExtension (class_of l) l;
  OnSvcCmd l := v_OnSvcCmd (class_of l) l;
  LoadSaLib := LoadSaLib;
  OpenSo := OpenSo;
  realpath := realpath;
  elapse := elapse;
|}.

(** ** What the framework expects of a class *)

Definition keeps_lc (this : loc) {A} (m : M A) : Prop := ∀ w, lc_of (m w).2 this = lc_of w this.
Definition may_publish (this : loc) {A} (m : M A) : Prop :=
  ∀ w, lc_of (m w).2 this = lc_of w this ∨ lc_of (m w).2 this = (ACTIVE, (lc_of w this).2).

(** The functions a class overrides keep the lifecycle fields of the object, but
    for a publication by [OnStart]. *)
Record well_behaved (c : overrides) (this : loc) : Prop := {
  wb_OnStart f : o_OnStart c = Some f → may_publish this (f this);
  wb_OnStartReason f r : o_OnStartReason c = Some f → may_publish this (f this r);
  wb_OnIdle f r : o_OnIdle c = Some f → keeps_lc this (f this r);
  wb_OnActive f r : o_OnActive c = Some f → keeps_lc this (f this r);
  wb_OnStop f : o_OnStop c = Some f → keeps_lc this (f this);
  wb_OnStopReason f r : o_OnStopReason c = Some f → keeps_lc this (f this r);
}.

(** The inherited bodies are as good: the whole class is. *)
Lemma class_callbacks EN class_of this :
  well_behaved (class_of this) this → LifecycleCallbacks (Env0 := class_env EN class_of) this.
Proof.
  intros [Hs Hsr Hi Ha Ht Htr]. split; intros r w;
    cbn [OnStart OnIdle OnActive OnStop class_env];
    unfold v_OnStartReason, v_OnIdle, v_OnActive, v_OnStopReason.
  - destruct (o_OnStartReason (class_of this)) as [f|]; cbn [default from_option]; [by eapply Hsr|].
    unfold base_OnStartReason, v_OnStart. destruct (o_OnStart (class_of this)); cbn; [by eapply Hs|by left].
  - destruct (o_OnIdle (class_of this)) as [f|]; cbn; [by eapply Hi|done].
  - destruct (o_OnActive (class_of this)) as [f|]; cbn; [by eapply Ha|done].
  - destruct (o_OnStopReason (class_of this)) as [f|]; cbn [default from_option]; [by eapply Htr|].
    unfold base_OnStopReason, v_OnStop. destruct (o_OnStop (class_of this)); cbn; [by eapply Ht|done].
Qed.

(** What a start and a stop run in the end: the override that takes the reason, or
    else the one that does not, or else nothing. *)
Definition starter (c : overrides) (this : loc) (r : reason) : M unit :=
  match o_OnStartReason c, o_OnStart c with
  | Some f, _ => f this r
  | None, Some f => f this
  | None, None => ret tt
  end.
Definition stopper (c : overrides) (this : loc) (r : reason) : M unit :=
  match o_OnStopReason c, o_OnStop c with
  | Some f, _ => f this r
  | None, Some f => f this
  | None, None => ret tt
  end.

(** The world in which an override runs: the event is the last of the trace. *)
Definition entered (e : event) (w : world J U) : world J U := set_trace (trace w ++ [e]) w.

Lemma calls_override EN class_of this r0 w :
  let E := class_env EN class_of in
  let c := class_of this in
  (abilityState_ (sa_at w this) = NOT_LOADED →
     let '(r, w0) := Start_reason (Env0 := E) this w in
     Start (Env0 := E) this w = Start_finish this (starter c this r (entered (EvOnStart this r) w0)).2) ∧
  (abilityState_ (sa_at w this) ≠ NOT_LOADED →
     let '(r, w0) := Stop_reason (Env0 := E) this w in
     Stop (Env0 := E) this w =
       Stop_finish (Env0 := E) this (stopper c this r (entered (EvOnStop this r) w0)).2) ∧
  (abilityState_ (sa_at w this) = ACTIVE →
     let '(r, w0) := GetOnDemandReasonExtraData (Env0 := E) r0 w in
     let w1 := entered (EvOnIdle this r) w0 in
     let '(d, w2) := match o_OnIdle c with Some f => f this r w1 | None => (0, w1) end in
     Idle (Env0 := E) this r0 w = (d, (Idle_finish this d w2).2)) ∧
  (abilityState_ (sa_at w this) = IDLE →
     let '(r, w0) := GetOnDemandReasonExtraData (Env0 := E) r0 w in
     Active (Env0 := E) this r0 w =
       Active_finish this (match o_OnActive c with Some f => f this r | None => ret tt end
                             (entered (EvOnActive this r) w0)).2).
Proof.
  cbv zeta. set (E := class_env EN class_of). split_and!; intros Hs.
  - rewrite Start_run by done. unfold Start_body. destruct (Start_reason this w) as [r w0] eqn:Er.
    unfold bind at 1. rewrite Er. cbn [enter bind call OnStart E class_env].
    unfold v_OnStartReason, base_OnStartReason, v_OnStart, starter, entered.
    by destruct (o_OnStartReason _), (o_OnStart _).
  - rewrite Stop_run by done. unfold Stop_body. destruct (Stop_reason this w) as [r w0] eqn:Er.
    unfold bind at 1. rewrite Er. cbn [enter bind call OnStop E class_env].
    unfold v_OnStopReason, base_OnStopReason, v_OnStop, stopper, entered.
    by destruct (o_OnStopReason _), (o_OnStop _).
  - rewrite Idle_run by done. unfold Idle_body. destruct (GetOnDemandReasonExtraData r0 w) as [r w0] eqn:Er.
    unfold bind at 1. rewrite Er. cbn [enter bind call OnIdle E class_env]. unfold v_OnIdle, entered.
    destruct (o_OnIdle _) as [f|]; cbn [default from_option id]; [by destruct (f _ _ _)|done].
  - rewrite Active_run by done. unfold Active_body. destruct (GetOnDemandReasonExtraData r0 w) as [r w0] eqn:Er.
    unfold bind at 1. rewrite Er. cbn [enter bind call OnActive E class_env]. unfold v_OnActive, entered.
    by destruct (o_OnActive _).
Qed.

(** C23: The framework calls what the class overrides, with the reason that was
    recorded: a start takes the JSON recorded as the start reason of this very
    ability, or null, completes the reason it describes with the extra data, runs
    the class's [OnStart] with it, or else its [OnStart] without one, or else
    nothing, and then sets [isRunning_]; a stop likewise with the recorded stop
    reason and [OnStop], and then the ability is not loaded, not running and
    removed from the manager; an idle request takes its delay from the class's
    [OnIdle], or 0, which makes the ability [IDLE]; an activation runs its
    [OnActive] and makes it [ACTIVE].  The world each override gets is the one
    before the call but for the calls made to find the reason. *)
Theorem lifecycle_calls_override EN class_of this r0 w :
  let E := class_env EN class_of in
  let c := class_of this in
  (abilityState_ (sa_at w this) = NOT_LOADED →
     let '(r, w1) := start_entry (Env0 := E) this w in
     let w2 := match o_OnStartReason c, o_OnStart c with
               | Some f, _ => (f this r w1).2 | None, Some f => (f this w1).2 | None, None => w1
               end in
     Start (Env0 := E) this w = put_sa (set_isRunning_ true) this w2) ∧
  (abilityState_ (sa_at w this) ≠ NOT_LOADED →
     let '(r, w1) := stop_entry (Env0 := E) this w in
     let w2 := match o_OnStopReason c, o_OnStop c with
               | Some f, _ => (f this r w1).2 | None, Some f => (f this w1).2 | None, None => w1
               end in
     let proxy := EvGetSystemAbilityManager in
     Stop (Env0 := E) this w =
       (tt, set_trace (trace w2 ++ proxy ::
              (if respond (trace w2) proxy =? 0 then [] else [EvRemoveSystemAbility (saId_ (sa_at w2 this))]))
            (put_sa (λ s, set_isRunning_ false (set_abilityState_ NOT_LOADED s)) this w2).2)) ∧
  (abilityState_ (sa_at w this) = ACTIVE →
     let '(r, w1) := override_entry (Env0 := E) (EvOnIdle this) r0 w in
     let '(d, w2) := match o_OnIdle c with Some f => f this r w1 | None => (0, w1) end in
     Idle (Env0 := E) this r0 w =
       (d, if d =? 0 then (put_sa (set_abilityState_ IDLE) this w2).2 else w2)) ∧
  (abilityState_ (sa_at w this) = IDLE →
     let '(r, w1) := override_entry (Env0 := E) (EvOnActive this) r0 w in
     let w2 := match o_OnActive c with Some f => (f this r w1).2 | None => w1 end in
     Active (Env0 := E) this r0 w = put_sa (set_abilityState_ ACTIVE) this w2).
Proof.
  cbv zeta. set (E := class_env EN class_of). split_and!; intros Hs.
  - rewrite Start_run by done. rewrite Start_body_entry. destruct (start_entry this w) as [r w1].
    cbn [OnStart E class_env]. unfold v_OnStartReason, base_OnStartReason, v_OnStart.
    by destruct (o_OnStartReason _), (o_OnStart _).
  - rewrite Stop_run by done. rewrite Stop_body_entry. destruct (stop_entry this w) as [r w1].
    rewrite Stop_finish_run. cbn [OnStop E class_env]. unfold v_OnStopReason, base_OnStopReason, v_OnStop.
    by destruct (o_OnStopReason _), (o_OnStop _).
  - rewrite Idle_run by done. unfold Idle_body. rewrite override_entry_run. destruct (override_entry _ r0 w) as [r w1].
    cbn [OnIdle E class_env]. unfold v_OnIdle.
    destruct (o_OnIdle _) as [f|]; cbn [default from_option id]; [destruct (f _ _ _) as [d w2]|done].
    unfold Idle_finish. by destruct (d =? 0).
  - rewrite Active_run by done. unfold Active_body. rewrite override_entry_run. destruct (override_entry _ r0 w) as [r w1].
    cbn [OnActive E class_env]. unfold v_OnActive. by destruct (o_OnActive _).
Qed.

(** ** New objects *)

(** [new] of a subclass object: an unused address. *)
(* [services/safwk/src/system_ability.cpp:34-49] SystemAbility::SystemAbility *)
Definition new_ability (systemAbilityId : Z) (runOnCreate : bool) : M loc := λ w,
  let l := fresh (dom (heap w)) in
  (l, set_heap (<[l := new_SystemAbility systemAbilityId runOnCreate]> (heap w)) w).

(** The static initialiser of a library. *)
(* [services/safwk/include/system_ability.h:29-31] REGISTER_SYSTEM_ABILITY_BY_ID *)
Definition REGISTER_SYSTEM_ABILITY_BY_ID (systemAbilityId : Z) (runOnCreate : bool) : M bool :=
  let! l := new_ability systemAbilityId runOnCreate in MakeAndRegisterAbility (Some l).

Lemma new_ability_view id b w :
  let '(l, w') := new_ability id b w in
  heap w !! l = None ∧ sa_at w' l = new_SystemAbility id b ∧ (∀ l', l' ≠ l → sa_at w' l' = sa_at w l') ∧
  localAbilityMap_ w' = localAbilityMap_ w ∧ profileParser_ w' = profileParser_ w.
Proof.
  unfold new_ability. split_and!; try done.
  - apply not_elem_of_dom, is_fresh.
  - unfold sa_at. simpl. by rewrite lookup_insert_eq.
  - intros l' Hl. unfold sa_at. simpl. by rewrite lookup_insert_ne.
Qed.

(** A library registers its ability when the profile of the process has it and no
    other object does; the new object then has the attributes of the profile.
    Otherwise nothing points to the object any more. *)
Theorem register_by_id_spec id b w :
  let '(ok, w') := REGISTER_SYSTEM_ABILITY_BY_ID id b w in
  ∃ l, heap w !! l = None ∧
  match GetProfile id (profileParser_ w), localAbilityMap_ w !! id with
  | Some pr, None =>
      ok = true ∧ localAbilityMap_ w' = <[id := Some l]> (localAbilityMap_ w) ∧
      heap w' = <[l := set_profile_attrs pr (new_SystemAbility id b)]> (heap w)
  | _, _ => ok = false ∧ localAbilityMap_ w' = localAbilityMap_ w ∧
            heap w' = <[l := new_SystemAbility id b]> (heap w)
  end.
Proof.
  unfold REGISTER_SYSTEM_ABILITY_BY_ID, MakeAndRegisterAbility. unfold bind at 1.
  pose proof (new_ability_view id b w) as Hv. destruct (new_ability id b w) as [l w1] eqn:E.
  destruct Hv as (Hl & Hs & _ & Hm & Hp). unfold new_ability in E. injection E as <- <-.
  rewrite AddAbility_run, Hs, Hm, Hp. cbn [saId_ new_SystemAbility].
  destruct (GetProfile id _) as [pr|], (localAbilityMap_ w !! id) as [q|]; (eexists; split; [exact Hl|]); try done.
  split_and!; [done|done|]. cbn [heap set_localAbilityMap_ set_heap]. apply insert_insert_eq.
Qed.
End overrides.

(** ** Witness *)

Module DemoOverrides.
Import DemoJson DemoParcel DemoProfiles.
(** A class that overrides [OnStart] without a reason, and publishes. *)
Definition publisher : overrides (J := dj) (P := dp) (U := du) :=
  mk_overrides None (Some (λ this, do! Publish (Env0 := DemoEnv.base_env) this 5 in ret tt))
    None None None None None None None None None None.
Definition publisher_env := class_env DemoEnv.base_env (λ _, publisher).

Lemma publisher_behaves : well_behaved publisher 1%positive.
Proof.
  split; try done. intros f [= <-] w. unfold bind.
  pose proof (Publish_lc (Env0 := DemoEnv.base_env) 1%positive 5 w) as H.
  by destruct (Publish (Env0 := DemoEnv.base_env) 1%positive 5 w).
Qed.
#[export] Instance publisher_callbacks : LifecycleCallbacks (Env0 := publisher_env) 1%positive :=
  class_callbacks _ _ _ publisher_behaves.
End DemoOverrides.
Import DemoOverrides.

Lemma lifecycle_calls_override_witness :
  lc_of (Start (Env0 := publisher_env) 1%positive (DemoEnv.demo_world [])).2 1%positive = (ACTIVE, true) ∧
  let '(r, w1) := start_entry (Env0 := publisher_env) 1%positive (DemoEnv.demo_world []) in
  Start (Env0 := publisher_env) 1%positive (DemoEnv.demo_world []) =
    put_sa (set_isRunning_ true) 1%positive (Publish (Env0 := DemoEnv.base_env) 1%positive 5 w1).2.
Proof.
  pose proof (lifecycle_calls_override DemoEnv.base_env (λ _, publisher) 1%positive (default_reason 0)
    (DemoEnv.demo_world [])) as [H _].
  specialize (H ltac:(vm_compute; reflexivity)). fold publisher_env in H.
  destruct (start_entry (Env0 := publisher_env) 1%positive (DemoEnv.demo_world [])) as [r w1] eqn:E.
  cbn [publisher o_OnStartReason o_OnStart] in H. rewrite bind_run in H. cbn [ret snd] in H.
  split; [|exact H]. rewrite H. vm_compute in E. injection E as <- <-. vm_compute. reflexivity.
Defined.
