(* ===== verification/Listeners.v ===== *)
(** * Listeners: abilities that listen for other abilities

    [localListenerMap_] of [services/safwk/src/local_ability_manager.cpp]: for
    each ability listened for, the listening abilities in order of registration,
    each INIT or NOTIFIED.  A handler is a section under [listenerLock_] that
    changes the map, followed by calls made without the lock; the sections are
    definitions of their own, because they are what other threads interleave
    with. *)

From S2P Require Import Prelude Interfaces.
From S2P Require Export Registry.

Section listeners.
  Context {J P U : Type} `{!Json J} `{!MessageParcel P} `{!ParseUtil U} `{!SamgrDefs} `{!Env J P U}.

  #[local] Abbreviation M := (prog J U).
  #[local] Abbreviation world := (world J U).

(* [services/safwk/src/local_ability_manager.cpp:913-920] LocalAbilityManager::GetSystemAbilityStatusChange *)
Definition GetSystemAbilityStatusChange : M unit :=
  let! l := gets statusChangeListener_ in
  if negb l then modify (set_statusChangeListener_ true) else ret tt.

(* [services/safwk/src/local_ability_manager.cpp:396-420] LocalAbilityManager::NotifyAbilityListener *)
Definition NotifyAbilityListener (systemAbilityId listenerSaId : Z) (deviceId : string) (code : Z)
    : M unit :=
  let! ability := GetAbility listenerSaId in
  match ability with
  | None => ret tt
  | Some l =>
      if code =? ON_ADD_SYSTEM_ABILITY then
        enter (EvOnAddSystemAbility l systemAbilityId deviceId) (OnAddSystemAbility l systemAbilityId deviceId)
      else if code =? ON_REMOVE_SYSTEM_ABILITY then
        enter (EvOnRemoveSystemAbility l systemAbilityId deviceId)
          (OnRemoveSystemAbility l systemAbilityId deviceId)
      else ret tt
  end.

Definition has_listener (listenerSaId : Z) (l : list (Z * ListenerState)) : bool :=
  existsb (λ p, p.1 =? listenerSaId) l.

Definition put_listeners (systemAbilityId : Z) (l : list (Z * ListenerState)) : M unit :=
  modify (λ w, set_localListenerMap_ (<[systemAbilityId := l]> (localListenerMap_ w)) w).

(** The section under the lock; its result is [isNeedNotify] and the final size. *)
(* [services/safwk/src/local_ability_manager.cpp:315-336] LocalAbilityManager::AddSystemAbilityListener *)
Definition add_listener_locked (systemAbilityId listenerSaId : Z) : M (bool * nat) :=
  let! m := gets localListenerMap_ in
  let listenerList := match m !! systemAbilityId with Some l => l | None => [] end in
  do! put_listeners systemAbilityId listenerList in
  let! isNeedNotify :=
    (if Nat.ltb 0 (length listenerList) then
       let! object := call (EvCheckSystemAbility systemAbilityId) in ret (negb (object =? 0))
     else ret false) in
  let listenerList' :=
    if has_listener listenerSaId listenerList then listenerList
    else listenerList ++ [(listenerSaId, if isNeedNotify : bool then NOTIFIED else INIT)] in
  do! put_listeners systemAbilityId listenerList' in
  ret (isNeedNotify, length listenerList').

(* [services/safwk/src/local_ability_manager.cpp:302-351] LocalAbilityManager::AddSystemAbilityListener *)
Definition AddSystemAbilityListener (systemAbilityId listenerSaId : Z) : M bool :=
  if negb (CheckInputSysAbilityId systemAbilityId) || negb (CheckInputSysAbilityId listenerSaId)
  then ret false
  else
    let! samgrProxy := GetSystemAbilityManager in
    if negb samgrProxy then ret false
    else
      let! r := add_listener_locked systemAbilityId listenerSaId in
      let '(isNeedNotify, listenerListSize) := r in
      if Nat.ltb 1 listenerListSize then
        do! (if isNeedNotify : bool
             then NotifyAbilityListener systemAbilityId listenerSaId "" ON_ADD_SYSTEM_ABILITY
             else ret tt) in
        ret true
      else
        do! GetSystemAbilityStatusChange in
        let! r := call (EvSubscribeSystemAbility systemAbilityId) in
        ret (r =? 0).

(** [list::erase] of the first entry of the listener. *)
Fixpoint erase_listener (listenerSaId : Z) (l : list (Z * ListenerState)) : list (Z * ListenerState) :=
  match l with
  | [] => []
  | p :: l' => if p.1 =? listenerSaId then l' else p :: erase_listener listenerSaId l'
  end.

(** The section under the lock; [true] when the last listener has gone. *)
(* [services/safwk/src/local_ability_manager.cpp:360-380] LocalAbilityManager::RemoveSystemAbilityListener *)
Definition remove_listener_locked (systemAbilityId listenerSaId : Z) : M bool :=
  let! m := gets localListenerMap_ in
  match m !! systemAbilityId with
  | None => ret false
  | Some listenerList =>
      let listenerList' := erase_listener listenerSaId listenerList in
      do! put_listeners systemAbilityId listenerList' in
      match listenerList' with
      | _ :: _ => ret false
      | [] =>
          do! modify (λ w, set_localListenerMap_ (delete systemAbilityId (localListenerMap_ w)) w) in
          ret true
      end
  end.

(* [services/safwk/src/local_ability_manager.cpp:353-394] LocalAbilityManager::RemoveSystemAbilityListener *)
Definition RemoveSystemAbilityListener (systemAbilityId listenerSaId : Z) : M bool :=
  if negb (CheckInputSysAbilityId systemAbilityId) || negb (CheckInputSysAbilityId listenerSaId)
  then ret false
  else
    let! last := remove_listener_locked systemAbilityId listenerSaId in
    if negb last then ret true
    else
      let! samgrProxy := GetSystemAbilityManager in
      if negb samgrProxy then ret false
      else
        do! GetSystemAbilityStatusChange in
        let! r := call (EvUnSubscribeSystemAbility systemAbilityId) in
        ret (r =? 0).

(** One pass of the loop over the listeners: the ids to notify so far, and the
    updated entries. *)
(* [services/safwk/src/local_ability_manager.cpp:435-451] LocalAbilityManager::FindAndNotifyAbilityListeners *)
Fixpoint mark_listeners (code : Z) (l : list (Z * ListenerState)) (listenerSaIdVec : list Z)
    : list Z * list (Z * ListenerState) :=
  match l with
  | [] => (listenerSaIdVec, [])
  | (id, st) :: l' =>
      if code =? ON_ADD_SYSTEM_ABILITY then
        if decide (st = INIT) then
          let '(v, r) := mark_listeners code l' (listenerSaIdVec ++ [id]) in (v, (id, NOTIFIED) :: r)
        else
          let '(v, r) := mark_listeners code l' listenerSaIdVec in (v, (id, st) :: r)
      else if code =? ON_REMOVE_SYSTEM_ABILITY then
        let '(v, r) := mark_listeners code l' (listenerSaIdVec ++ [id]) in
        (v, (id, if decide (st = NOTIFIED) then INIT else st) :: r)
      else let '(v, r) := mark_listeners code l' listenerSaIdVec in (v, (id, st) :: r)
  end.

(** The section under the lock: the listeners to notify. *)
(* [services/safwk/src/local_ability_manager.cpp:427-452] LocalAbilityManager::FindAndNotifyAbilityListeners *)
Definition find_listeners_locked (systemAbilityId code : Z) : M (list Z) :=
  let! m := gets localListenerMap_ in
  match m !! systemAbilityId with
  | None => ret []
  | Some l =>
      let '(v, l') := mark_listeners code l [] in
      do! put_listeners systemAbilityId l' in ret v
  end.

(* [services/safwk/src/local_ability_manager.cpp:422-458] LocalAbilityManager::FindAndNotifyAbilityListeners *)
Definition FindAndNotifyAbilityListeners (systemAbilityId : Z) (deviceId : string) (code : Z) : M unit :=
  let! listenerSaIdVec := find_listeners_locked systemAbilityId code in
  for_each (λ listenerSaId, NotifyAbilityListener systemAbilityId listenerSaId deviceId code)
    listenerSaIdVec.

(* [services/safwk/src/local_ability_manager.cpp:922-933] SystemAbilityListener::OnAddSystemAbility *)
Definition Listener_OnAddSystemAbility (systemAbilityId : Z) (deviceId : string) : M unit :=
  if negb (CheckInputSysAbilityId systemAbilityId) then ret tt
  else FindAndNotifyAbilityListeners systemAbilityId deviceId ON_ADD_SYSTEM_ABILITY.

(* [services/safwk/src/local_ability_manager.cpp:935-946] SystemAbilityListener::OnRemoveSystemAbility *)
Definition Listener_OnRemoveSystemAbility (systemAbilityId : Z) (deviceId : string) : M unit :=
  if negb (CheckInputSysAbilityId systemAbilityId) then ret tt
  else FindAndNotifyAbilityListeners systemAbilityId deviceId ON_REMOVE_SYSTEM_ABILITY.

(** The wrappers of [SystemAbility] pass their own id as the listener. *)
(* [services/safwk/src/system_ability.cpp:62-66] SystemAbility::AddSystemAbilityListener *)
Definition SA_AddSystemAbilityListener (this : loc) (systemAbilityId : Z) : M bool :=
  let! saId := get_sa saId_ this in AddSystemAbilityListener systemAbilityId saId.

(* [services/safwk/src/system_ability.cpp:68-72] SystemAbility::RemoveSystemAbilityListener *)
Definition SA_RemoveSystemAbilityListener (this : loc) (systemAbilityId : Z) : M bool :=
  let! saId := get_sa saId_ this in RemoveSystemAbilityListener systemAbilityId saId.

(** ** Well-formed listener maps *)

Definition listeners_ok (l : list (Z * ListenerState)) : Prop := l ≠ [] ∧ NoDup l.*1.

Definition listeners_wf (w : world) : Prop :=
  ∀ sa l, localListenerMap_ w !! sa = Some l → listeners_ok l.

(** The overrides of the abilities keep the map well-formed (they may call the
    operations of this file). *)
Class ListenersKept : Prop := {
  OnAdd_listeners_wf l sa d w : listeners_wf w → listeners_wf (OnAddSystemAbility l sa d w).2;
  OnRemove_listeners_wf l sa d w : listeners_wf w → listeners_wf (OnRemoveSystemAbility l sa d w).2;
}.

(** The requests and status changes that reach this component. *)
Inductive lst_op :=
| LAdd (sa listener : Z) | LRemove (sa listener : Z)
| LOnAdd (sa : Z) (deviceId : string) | LOnRemove (sa : Z) (deviceId : string).

Definition lst_exec (o : lst_op) : M unit :=
  match o with
  | LAdd sa l => do! AddSystemAbilityListener sa l in ret tt
  | LRemove sa l => do! RemoveSystemAbilityListener sa l in ret tt
  | LOnAdd sa d => Listener_OnAddSystemAbility sa d
  | LOnRemove sa d => Listener_OnRemoveSystemAbility sa d
  end.

(** ** What one listener is told about one ability *)

(** The specification of a listener's entry: told of an addition only when it
    was not told already, of every removal. *)
Definition listener_step (added : bool) (st : ListenerState) : bool * ListenerState :=
  if added then match st with INIT => (true, NOTIFIED) | NOTIFIED => (false, NOTIFIED) end
  else (true, INIT).

(** What a listener is told by a sequence of additions ([true]) and removals. *)
Fixpoint listener_run (changes : list bool) (st : ListenerState) : list bool :=
  match changes with
  | [] => []
  | c :: cs =>
      let '(told, st') := listener_step c st in
      if told then c :: listener_run cs st' else listener_run cs st'
  end.

Definition change_code (added : bool) : Z :=
  if added then ON_ADD_SYSTEM_ABILITY else ON_REMOVE_SYSTEM_ABILITY.

(** What the sections under the lock select the listener for. *)
Fixpoint told_changes (sa listener : Z) (changes : list bool) : M (list bool) :=
  match changes with
  | [] => ret []
  | c :: cs =>
      let! v := find_listeners_locked sa (change_code c) in
      let! r := told_changes sa listener cs in
      ret (if bool_decide (listener ∈ v) then c :: r else r)
  end.

(** ** Lemmas *)

Lemma mark_listeners_spec `{!SamgrDefsLaws} code l v :
  mark_listeners code l v =
  if code =? ON_ADD_SYSTEM_ABILITY then (v ++ (filter (λ p, p.2 = INIT) l).*1, (λ p, (p.1, NOTIFIED)) <$> l)
  else if code =? ON_REMOVE_SYSTEM_ABILITY then (v ++ l.*1, (λ p, (p.1, INIT)) <$> l)
  else (v, l).
Proof.
  revert v. induction l as [|[id st] l IH]; intros v; simpl.
  - by repeat case_match; rewrite ?app_nil_r.
  - rewrite filter_cons. destruct (code =? ON_ADD_SYSTEM_ABILITY); [|destruct (code =? ON_REMOVE_SYSTEM_ABILITY)].
    + destruct st; simpl; rewrite IH; [|done]. by rewrite <- (assoc_L (++)).
    + rewrite IH, <- (assoc_L (++)). by destruct st.
    + by rewrite IH.
Qed.

Lemma mark_listeners_fst `{!SamgrDefsLaws} code l v : (mark_listeners code l v).2.*1 = l.*1.
Proof. rewrite mark_listeners_spec. repeat case_match; simpl; rewrite <- ?list_fmap_compose; done. Qed.

Lemma has_listener_spec x l : has_listener x l = bool_decide (x ∈ l.*1).
Proof.
  induction l as [|[y st] l IH]; [done|]. unfold has_listener in *. simpl. rewrite IH.
  destruct (Z.eqb_spec y x) as [->|Hne]; simpl.
  - symmetry. apply bool_decide_eq_true_2. set_solver.
  - apply bool_decide_ext. rewrite elem_of_cons. naive_solver.
Qed.

Lemma erase_listener_sublist x l : sublist (erase_listener x l) l.
Proof.
  induction l as [|p l IH]; simpl; [done|].
  destruct (p.1 =? x); [by apply sublist_cons|by apply sublist_skip].
Qed.
Lemma erase_listener_last x st l : x ∉ l.*1 → erase_listener x (l ++ [(x, st)]) = l.
Proof.
  induction l as [|[y s] l IH]; simpl; intros Hx; [by rewrite Z.eqb_refl|].
  destruct (Z.eqb_spec y x) as [->|]; [set_solver|]. rewrite IH; [done|set_solver].
Qed.

Lemma listeners_wf_insert sa l (w w' : world) :
  listeners_wf w → listeners_ok l → localListenerMap_ w' = <[sa := l]> (localListenerMap_ w) →
  listeners_wf w'.
Proof.
  intros Hw Hl Hm sa' l' Hl'. rewrite Hm in Hl'.
  apply lookup_insert_Some in Hl' as [[_ <-]|[_ Hl']]; [done|by eapply Hw].
Qed.

(** Programs that leave the listener map alone. *)
Definition keeps_listeners {A} (m : M A) : Prop := ∀ w, localListenerMap_ (m w).2 = localListenerMap_ w.

Lemma keeps_listeners_wf {A} (m : M A) w : keeps_listeners m → listeners_wf w → listeners_wf (m w).2.
Proof. intros Hm Hw sa l. rewrite Hm. apply Hw. Qed.

Lemma keeps_status_change : keeps_listeners GetSystemAbilityStatusChange.
Proof. intros w. unfold GetSystemAbilityStatusChange. run_prog. by destruct (statusChangeListener_ w). Qed.

(** The locked section of a registration, in one equation. *)
Lemma add_listener_run sa x w :
  let l := default [] (localListenerMap_ w !! sa) in
  let '((need, size), w') := add_listener_locked sa x w in
  let l' := if bool_decide (x ∈ l.*1) then l else l ++ [(x, if need then NOTIFIED else INIT)] in
  need = negb (bool_decide (l = [])) && negb (respond (trace w) (EvCheckSystemAbility sa) =? 0) ∧
  size = length l' ∧ localListenerMap_ w' = <[sa := l']> (localListenerMap_ w) ∧
  trace w' = trace w ++ (if bool_decide (l = []) then [] else [EvCheckSystemAbility sa]) ∧
  localAbilityMap_ w' = localAbilityMap_ w ∧ heap w' = heap w.
Proof.
  cbv zeta. unfold add_listener_locked. run_prog.
  destruct (localListenerMap_ w !! sa) as [[|p l]|]; simpl;
    rewrite ?insert_insert_eq, ?app_nil_r; try done.
  pose proof (has_listener_spec x (p :: l)) as Hh. simpl in Hh. by rewrite Hh.
Qed.

Lemma add_listener_locked_wf sa x w : listeners_wf w → listeners_wf (add_listener_locked sa x w).2.
Proof.
  intros Hw. pose proof (add_listener_run sa x w) as Hr. cbv zeta in Hr.
  destruct (add_listener_locked sa x w) as [[need size] w']. destruct Hr as (_ & _ & Hm & _).
  eapply listeners_wf_insert; [exact Hw| |exact Hm].
  destruct (localListenerMap_ w !! sa) as [l|] eqn:El; simpl.
  - destruct (Hw _ _ El) as [Hl Hn]. destruct (bool_decide_reflect (x ∈ l.*1)) as [Hx|Hx]; [done|]. split; [by destruct l|].
    rewrite fmap_app. apply NoDup_app. split_and!; [done|set_solver|apply NoDup_singleton].
  - split; [done|]. simpl. apply NoDup_singleton.
Qed.

Lemma remove_listener_run sa x w :
  let '(last, w') := remove_listener_locked sa x w in
  match localListenerMap_ w !! sa with
  | None => last = false ∧ w' = w
  | Some l =>
      last = bool_decide (erase_listener x l = []) ∧
      localListenerMap_ w' = (if last then delete sa (localListenerMap_ w)
                              else <[sa := erase_listener x l]> (localListenerMap_ w)) ∧
      trace w' = trace w
  end.
Proof.
  unfold remove_listener_locked. run_prog. destruct (localListenerMap_ w !! sa) as [l|]; [|done].
  simpl. destruct (erase_listener x l); simpl; [|done]. by rewrite delete_insert_eq.
Qed.

Lemma remove_listener_locked_wf sa x w : listeners_wf w → listeners_wf (remove_listener_locked sa x w).2.
Proof.
  intros Hw. pose proof (remove_listener_run sa x w) as Hr.
  destruct (remove_listener_locked sa x w) as [last w'].
  destruct (localListenerMap_ w !! sa) as [l|] eqn:El; [|by destruct Hr as [_ ->]].
  destruct Hr as (-> & Hm & _). case_bool_decide as He.
  - intros sa' l' Hl'. simpl in Hl'. rewrite Hm in Hl'. apply lookup_delete_Some in Hl' as [_ Hl']. by eapply Hw.
  - eapply listeners_wf_insert; [exact Hw| |exact Hm]. split; [done|].
    destruct (Hw _ _ El) as [_ Hn]. eapply sublist_NoDup; [exact Hn|].
    apply fmap_sublist, erase_listener_sublist.
Qed.

Lemma find_listeners_run sa code w :
  find_listeners_locked sa code w =
  match localListenerMap_ w !! sa with
  | None => ([], w)
  | Some l => ((mark_listeners code l []).1,
               set_localListenerMap_ (<[sa := (mark_listeners code l []).2]> (localListenerMap_ w)) w)
  end.
Proof.
  unfold find_listeners_locked. run_prog. destruct (localListenerMap_ w !! sa) as [l|]; [|done].
  by destruct (mark_listeners code l []).
Qed.

Lemma find_listeners_locked_wf `{!SamgrDefsLaws} sa code w :
  listeners_wf w → listeners_wf (find_listeners_locked sa code w).2.
Proof.
  intros Hw. rewrite find_listeners_run. destruct (localListenerMap_ w !! sa) as [l|] eqn:El; [|done].
  eapply listeners_wf_insert; [exact Hw| |done]. destruct (Hw _ _ El) as [Hl Hn]. split.
  - intros He. apply Hl. apply (f_equal (fmap fst)) in He. rewrite mark_listeners_fst in He.
    by destruct l.
  - by rewrite mark_listeners_fst.
Qed.

Lemma NotifyAbilityListener_wf `{!ListenersKept} sa x d code w :
  listeners_wf w → listeners_wf (NotifyAbilityListener sa x d code w).2.
Proof.
  intros Hw. unfold NotifyAbilityListener, GetAbility. run_prog.
  destruct (match localAbilityMap_ w !! x with Some p => p | None => None end) as [l|]; [|done].
  repeat case_match; [by apply OnAdd_listeners_wf|by apply OnRemove_listeners_wf|done].
Qed.

(** Preservation through the monad. *)
Definition wf_kept {A} (m : M A) : Prop := ∀ w, listeners_wf w → listeners_wf (m w).2.
Lemma wf_kept_bind {A B} (m : M A) (k : A → M B) :
  wf_kept m → (∀ a, wf_kept (k a)) → wf_kept (bind m k).
Proof.
  intros Hm Hk w Hw. unfold bind. specialize (Hm w Hw). destruct (m w) as [a w1]. by apply Hk.
Qed.
Lemma wf_kept_listeners {A} (m : M A) : keeps_listeners m → wf_kept m.
Proof. intros Hm w. by apply keeps_listeners_wf. Qed.
Lemma wf_kept_for_each {A} (f : A → M unit) l : (∀ a, wf_kept (f a)) → wf_kept (for_each f l).
Proof. intros Hf. induction l as [|a l IH]; [by intros w|]. apply wf_kept_bind; auto. Qed.

Lemma wf_kept_ret {A} (a : A) : wf_kept (ret a).
Proof. by intros w. Qed.
Lemma wf_kept_manager : wf_kept GetSystemAbilityManager.
Proof. intros w Hw. exact Hw. Qed.
Lemma wf_kept_call_ret e (f : Z → bool) : wf_kept (let! r := call e in ret (f r)).
Proof. intros w Hw. exact Hw. Qed.
Lemma wf_kept_ignore {A} (m : M A) : wf_kept m → wf_kept (do! m in ret tt).
Proof. intros Hm. apply wf_kept_bind; [exact Hm|]. intros _. apply wf_kept_ret. Qed.

Lemma wf_kept_notify `{!SamgrDefsLaws, !ListenersKept} sa d code :
  wf_kept (FindAndNotifyAbilityListeners sa d code).
Proof.
  apply wf_kept_bind; [intros w; apply find_listeners_locked_wf|].
  intros v. apply wf_kept_for_each. intros x w. apply NotifyAbilityListener_wf.
Qed.

Lemma wf_kept_add `{!ListenersKept} sa x : wf_kept (AddSystemAbilityListener sa x).
Proof.
  unfold AddSystemAbilityListener. case_match; [apply wf_kept_ret|].
  apply wf_kept_bind; [apply wf_kept_manager|intros []; [cbn [negb]|apply wf_kept_ret]].
  apply wf_kept_bind; [intros w; apply add_listener_locked_wf|intros [need size]].
  case_match.
  - apply wf_kept_bind; [|intros; apply wf_kept_ret]. destruct need; [|apply wf_kept_ret].
    intros w. apply NotifyAbilityListener_wf.
  - apply wf_kept_bind; [apply wf_kept_listeners, keeps_status_change|].
    intros _. apply wf_kept_call_ret.
Qed.

Lemma wf_kept_remove sa x : wf_kept (RemoveSystemAbilityListener sa x).
Proof.
  unfold RemoveSystemAbilityListener. case_match; [apply wf_kept_ret|].
  apply wf_kept_bind; [intros w; apply remove_listener_locked_wf|intros []; [cbn [negb]|apply wf_kept_ret]].
  apply wf_kept_bind; [apply wf_kept_manager|intros []; [cbn [negb]|apply wf_kept_ret]].
  apply wf_kept_bind; [apply wf_kept_listeners, keeps_status_change|].
  intros _. apply wf_kept_call_ret.
Qed.

Lemma lst_exec_wf `{!SamgrDefsLaws, !ListenersKept} o : wf_kept (lst_exec o).
Proof.
  destruct o as [sa x|sa x|sa d|sa d]; cbn [lst_exec].
  - apply wf_kept_ignore, wf_kept_add.
  - apply wf_kept_ignore, wf_kept_remove.
  - unfold Listener_OnAddSystemAbility. case_match; [apply wf_kept_ret|apply wf_kept_notify].
  - unfold Listener_OnRemoveSystemAbility. case_match; [apply wf_kept_ret|apply wf_kept_notify].
Qed.

(** An entry of the map, and what a status change makes of it. *)
Lemma find_listeners_entry `{!SamgrDefsLaws} sa x st c w l :
  localListenerMap_ w !! sa = Some l → NoDup l.*1 → (x, st) ∈ l →
  let '(v, w') := find_listeners_locked sa (change_code c) w in
  bool_decide (x ∈ v) = (listener_step c st).1 ∧
  ∃ l', localListenerMap_ w' !! sa = Some l' ∧ NoDup l'.*1 ∧ (x, (listener_step c st).2) ∈ l'.
Proof.
  intros Hl Hn Hx. rewrite find_listeners_run, Hl. pose proof add_remove_distinct as Hd.
  split; [|exists (mark_listeners (change_code c) l []).2; split_and!].
  - rewrite mark_listeners_spec. destruct c; simpl.
    + rewrite Z.eqb_refl. simpl. destruct st; simpl.
      * apply bool_decide_eq_true_2, list_elem_of_fmap. exists (x, INIT). split; [done|].
        by apply list_elem_of_filter.
      * apply bool_decide_eq_false_2. intros ([y s] & -> & [Hs Hy]%list_elem_of_filter)%list_elem_of_fmap.
        simpl in *. subst s. enough (NOTIFIED = INIT) by done.
        apply list_elem_of_lookup in Hx as [i Hi]. apply list_elem_of_lookup in Hy as [j Hj].
        assert (i = j) as ->; [|congruence].
        eapply (NoDup_lookup _ _ _ y Hn); by rewrite list_lookup_fmap, ?Hi, ?Hj.
    + destruct (Z.eqb_spec ON_REMOVE_SYSTEM_ABILITY ON_ADD_SYSTEM_ABILITY); [congruence|].
      rewrite Z.eqb_refl. simpl. apply bool_decide_eq_true_2, list_elem_of_fmap. by exists (x, st).
  - simpl. by rewrite lookup_insert_eq.
  - by rewrite mark_listeners_fst.
  - rewrite mark_listeners_spec. destruct c; simpl.
    + rewrite Z.eqb_refl. simpl. apply list_elem_of_fmap. exists (x, st). by destruct st.
    + destruct (Z.eqb_spec ON_REMOVE_SYSTEM_ABILITY ON_ADD_SYSTEM_ABILITY); [congruence|].
      rewrite Z.eqb_refl. simpl. apply list_elem_of_fmap. by exists (x, st).
Qed.

Lemma told_changes_run `{!SamgrDefsLaws} sa x changes : ∀ st w l,
  localListenerMap_ w !! sa = Some l → NoDup l.*1 → (x, st) ∈ l →
  (told_changes sa x changes w).1 = listener_run changes st.
Proof.
  induction changes as [|c cs IH]; intros st w l Hl Hn Hx; [done|]. cbn [told_changes listener_run].
  unfold bind. pose proof (find_listeners_entry sa x st c w l Hl Hn Hx) as Hf.
  destruct (find_listeners_locked sa (change_code c) w) as [v w1].
  destruct Hf as (-> & l1 & Hl1 & Hn1 & Hx1). specialize (IH _ _ _ Hl1 Hn1 Hx1).
  destruct (listener_step c st) as [told st']. simpl in IH.
  destruct (told_changes sa x cs w1) as [r w2]. simpl in IH. subst r. by destruct told.
Qed.

(** The map after a registration and after a removal. *)
Lemma add_listener_map sa x w :
  CheckInputSysAbilityId sa = true → CheckInputSysAbilityId x = true →
  respond (trace w) EvGetSystemAbilityManager ≠ 0 →
  (∀ l d, keeps_listeners (OnAddSystemAbility l sa d)) →
  let l := default [] (localListenerMap_ w !! sa) in
  ∃ st, localListenerMap_ (AddSystemAbilityListener sa x w).2 =
  <[sa := if bool_decide (x ∈ l.*1) then l else l ++ [(x, st)]]> (localListenerMap_ w).
Proof.
  intros Hsa Hx Hp Hcb. cbv zeta. unfold AddSystemAbilityListener. rewrite Hsa, Hx. cbn [negb orb].
  unfold GetSystemAbilityManager, bind at 1 2, call, ret. apply Z.eqb_neq in Hp. rewrite Hp. cbn [negb snd].
  set (w0 := set_trace _ w). pose proof (add_listener_run sa x w0) as Hr. cbv zeta in Hr.
  unfold bind at 1. destruct (add_listener_locked sa x w0) as [[need size] w1]. destruct Hr as (_ & _ & Hm & _).
  eexists. etransitivity; [|exact Hm]. destruct (1 <? size)%nat.
  - destruct need; unfold bind, ret; simpl; [|done].
    unfold NotifyAbilityListener, GetAbility. run_prog.
    destruct (match localAbilityMap_ w1 !! x with Some p => p | None => None end) as [l|]; [|done].
    rewrite Z.eqb_refl. specialize (Hcb l "" (set_trace (trace w1 ++ [EvOnAddSystemAbility l sa ""]) w1)).
    unfold bind. by destruct (OnAddSystemAbility l sa "" _) as [[] w2].
  - unfold GetSystemAbilityStatusChange. run_prog. by destruct (statusChangeListener_ w1).
Qed.

Lemma remove_listener_map sa x w :
  CheckInputSysAbilityId sa = true → CheckInputSysAbilityId x = true →
  localListenerMap_ (RemoveSystemAbilityListener sa x w).2 =
  match localListenerMap_ w !! sa with
  | None => localListenerMap_ w
  | Some l => if bool_decide (erase_listener x l = []) then delete sa (localListenerMap_ w)
              else <[sa := erase_listener x l]> (localListenerMap_ w)
  end.
Proof.
  intros Hsa Hx. unfold RemoveSystemAbilityListener. rewrite Hsa, Hx. cbn [negb orb].
  unfold bind at 1. pose proof (remove_listener_run sa x w) as Hr.
  destruct (remove_listener_locked sa x w) as [last w1].
  assert (localListenerMap_ ((if negb last then ret true else
      let! samgrProxy := GetSystemAbilityManager in
      if negb samgrProxy then ret false
      else do! GetSystemAbilityStatusChange in
           let! r := call (EvUnSubscribeSystemAbility sa) in ret (r =? 0)) w1).2 = localListenerMap_ w1) as ->.
  { destruct last; [|done]. unfold GetSystemAbilityManager, GetSystemAbilityStatusChange. run_prog.
    destruct (_ =? 0); simpl; [done|]. by destruct (statusChangeListener_ w1). }
  destruct (localListenerMap_ w !! sa) as [l|]; [|by destruct Hr as [_ ->]].
  destruct Hr as (-> & Hm & _). exact Hm.
Qed.

(** ** Properties *)

(** Every list of listeners is non-empty and names each listener once, after any
    sequence of registrations, removals and status changes from an empty
    map, whatever the overrides of the abilities do with these operations. *)
Theorem listeners_wf_history `{!SamgrDefsLaws, !ListenersKept} os w :
  localListenerMap_ w = ∅ → listeners_wf (for_each lst_exec os w).2.
Proof.
  intros Hw. apply wf_kept_for_each; [apply lst_exec_wf|]. intros sa l. by rewrite Hw.
Qed.

(** A status change calls, once each and in order of registration, exactly the
    listeners the change concerns: for an addition those not told yet, which
    all count as told afterwards; for a removal all of them, which then are
    all untold; the calls go through the updated map, and nobody else is
    called. *)
Theorem find_and_notify_spec `{!SamgrDefsLaws} sa d (added : bool) w :
  let l := default [] (localListenerMap_ w !! sa) in
  let told := if added then (filter (λ p, p.2 = INIT) l).*1 else l.*1 in
  let w1 := match localListenerMap_ w !! sa with
            | None => w
            | Some _ => set_localListenerMap_
                (<[sa := (λ p, (p.1, if added then NOTIFIED else INIT)) <$> l]> (localListenerMap_ w)) w
            end in
  FindAndNotifyAbilityListeners sa d (change_code added) w =
  for_each (λ x, NotifyAbilityListener sa x d (change_code added)) told w1.
Proof.
  cbv zeta. unfold FindAndNotifyAbilityListeners, bind. rewrite find_listeners_run.
  pose proof add_remove_distinct as Hd.
  destruct (localListenerMap_ w !! sa) as [l|]; simpl; [|by destruct added].
  rewrite mark_listeners_spec. destruct added; simpl; rewrite ?Z.eqb_refl; [done|].
  by destruct (Z.eqb_spec ON_REMOVE_SYSTEM_ABILITY ON_ADD_SYSTEM_ABILITY); [congruence|].
Qed.

(** C10: over any sequence of status changes of an ability, each of its listeners is
    selected exactly as the two-state automaton of its entry says: once per
    addition that follows its registration or a removal, never twice in a row
    for additions, and for every removal. *)
Theorem listener_told_by_automaton `{!SamgrDefsLaws} sa x st changes w l :
  listeners_wf w → localListenerMap_ w !! sa = Some l → (x, st) ∈ l →
  (told_changes sa x changes w).1 = listener_run changes st.
Proof. intros Hw Hl. apply told_changes_run with (1 := Hl). by eapply Hw. Qed.

(** A registration answers true without subscribing when the list already had
    another entry, and otherwise as the subscription goes; the map gets the
    listener at the end, as told iff the ability is known to be there, and
    at most once. *)
Theorem add_listener_spec sa x w :
  CheckInputSysAbilityId sa = true → CheckInputSysAbilityId x = true →
  respond (trace w) EvGetSystemAbilityManager ≠ 0 →
  let l := default [] (localListenerMap_ w !! sa) in
  let '((need, size), w1) := add_listener_locked sa x (GetSystemAbilityManager w).2 in
  let '(ok, w2) := AddSystemAbilityListener sa x w in
  localListenerMap_ w1 = <[sa := if bool_decide (x ∈ l.*1) then l
                                 else l ++ [(x, if need then NOTIFIED else INIT)]]> (localListenerMap_ w) ∧
  (if (1 <? size)%nat
   then ok = true ∧ w2 = if need then (NotifyAbilityListener sa x "" ON_ADD_SYSTEM_ABILITY w1).2 else w1
   else localListenerMap_ w2 = localListenerMap_ w1 ∧ statusChangeListener_ w2 = true ∧
        trace w2 = trace w1 ++ [EvSubscribeSystemAbility sa] ∧
        (ok = true ↔ respond (trace w1) (EvSubscribeSystemAbility sa) = 0)).
Proof.
  intros Hsa Hx Hp. cbv zeta. unfold AddSystemAbilityListener. rewrite Hsa, Hx. cbn [negb orb].
  unfold GetSystemAbilityManager, bind at 1 2 3 5, call, ret. apply Z.eqb_neq in Hp. rewrite Hp. cbn [negb].
  set (w0 := set_trace _ w). pose proof (add_listener_run sa x w0) as Hr. cbv zeta in Hr.
  unfold bind at 1. cbn [snd]. destruct (add_listener_locked sa x w0) as [[need size] w1]. destruct Hr as (_ & _ & Hm & _).
  destruct (1 <? size)%nat.
  - destruct need; unfold bind; simpl; [|done].
    by destruct (NotifyAbilityListener sa x "" ON_ADD_SYSTEM_ABILITY w1) as [[] w2].
  - unfold GetSystemAbilityStatusChange. run_prog.
    destruct (statusChangeListener_ w1) eqn:Es; simpl; split_and!; try done; by rewrite Z.eqb_eq.
Qed.

(** Removing a listener undoes its registration: the map is what it was before,
    for a new listener whose override leaves the map alone. *)
Theorem listener_roundtrip sa x w :
  listeners_wf w → x ∉ (default [] (localListenerMap_ w !! sa)).*1 →
  CheckInputSysAbilityId sa = true → CheckInputSysAbilityId x = true →
  respond (trace w) EvGetSystemAbilityManager ≠ 0 →
  (∀ l d, keeps_listeners (OnAddSystemAbility l sa d)) →
  localListenerMap_ (RemoveSystemAbilityListener sa x (AddSystemAbilityListener sa x w).2).2 =
  localListenerMap_ w.
Proof.
  intros Hw Hx Hsa Hxi Hp Hcb.
  destruct (add_listener_map sa x w Hsa Hxi Hp Hcb) as [st Hm]. rewrite bool_decide_eq_false_2 in Hm by done.
  set (w1 := (AddSystemAbilityListener sa x w).2) in *.
  rewrite remove_listener_map by done. rewrite Hm, lookup_insert_eq, erase_listener_last by done.
  destruct (localListenerMap_ w !! sa) as [l|] eqn:El; simpl.
  - destruct (Hw _ _ El) as [Hl _]. rewrite bool_decide_eq_false_2 by done.
    rewrite insert_insert_eq. by apply insert_id.
  - by rewrite delete_insert_eq, delete_id.
Qed.

(** A registration whose subscription fails answers false but leaves the
    listener in the list; the next listener of the same ability then answers
    true although nothing has been subscribed. *)
Theorem failed_subscribe_sticks sa x y w :
  CheckInputSysAbilityId sa = true → CheckInputSysAbilityId x = true →
  CheckInputSysAbilityId y = true → x ≠ y → localListenerMap_ w !! sa = None →
  (∀ h, respond h EvGetSystemAbilityManager ≠ 0) →
  (∀ h, respond h (EvSubscribeSystemAbility sa) ≠ 0) →
  (∀ h, respond h (EvCheckSystemAbility sa) = 0) →
  let '(ok1, w1) := AddSystemAbilityListener sa x w in
  let '(ok2, w2) := AddSystemAbilityListener sa y w1 in
  ok1 = false ∧ ok2 = true ∧
  trace w1 = trace w ++ [EvGetSystemAbilityManager; EvSubscribeSystemAbility sa] ∧
  trace w2 = trace w1 ++ [EvGetSystemAbilityManager; EvCheckSystemAbility sa] ∧
  localListenerMap_ w2 !! sa = Some [(x, INIT); (y, INIT)].
Proof.
  intros Hsa Hx Hy Hne Hm Hp Hs Hc.
  assert (AddSystemAbilityListener sa x w = (false, set_trace (trace w ++ [EvGetSystemAbilityManager; EvSubscribeSystemAbility sa])
    (set_statusChangeListener_ true (set_localListenerMap_ (<[sa := [(x, INIT)]]> (localListenerMap_ w)) w)))) as ->.
  { unfold AddSystemAbilityListener, add_listener_locked, GetSystemAbilityManager, GetSystemAbilityStatusChange.
    rewrite Hsa, Hx. run_prog. rewrite (proj2 (Z.eqb_neq _ _) (Hp _)). simpl. rewrite Hm. simpl.
    rewrite insert_insert_eq. destruct (statusChangeListener_ w) eqn:E; simpl;
      rewrite (proj2 (Z.eqb_neq _ _) (Hs _)), <- (assoc_L (++)); destruct w; simpl in *; by subst. }
  unfold AddSystemAbilityListener, add_listener_locked, GetSystemAbilityManager.
  rewrite Hsa, Hy. run_prog. rewrite (proj2 (Z.eqb_neq _ _) (Hp _)). simpl. rewrite lookup_insert_eq. simpl.
  rewrite Hc. simpl. rewrite (proj2 (Z.eqb_neq x y)) by done. simpl. rewrite !lookup_insert_eq.
  split_and!; try done. by rewrite <- !(assoc_L (++)).
Qed.
End listeners.

(** ** Witnesses *)

Import DemoDefs.

#[export] Instance demo_listeners_kept : ListenersKept (Env0 := publishing_env).
Proof. by split. Qed.

(** Ability 401 listens for 402, then 403 does. *)
Definition listening : DemoEnv.dworld :=
  (for_each (lst_exec (Env0 := publishing_env)) [LAdd 402 401; LAdd 402 403] registered).2.

Lemma listeners_wf_history_witness :
  localListenerMap_ listening = {[402 := [(401, INIT); (403, NOTIFIED)]]} ∧ listeners_wf listening.
Proof.
  split; [vm_compute; reflexivity|].
  apply (listeners_wf_history (Env0 := publishing_env) [LAdd 402 401; LAdd 402 403] registered).
  reflexivity.
Defined.

Lemma find_and_notify_spec_witness :
  (FindAndNotifyAbilityListeners (Env0 := publishing_env) 402 "" ON_ADD_SYSTEM_ABILITY listening).2 =
  (NotifyAbilityListener (Env0 := publishing_env) 402 401 "" ON_ADD_SYSTEM_ABILITY
    (set_localListenerMap_ {[402 := [(401, NOTIFIED); (403, NOTIFIED)]]} listening)).2.
Proof.
  etransitivity; [exact (f_equal snd (find_and_notify_spec (Env0 := publishing_env) 402 "" true listening))|].
  vm_compute. reflexivity.
Defined.

Lemma listener_told_by_automaton_witness :
  (told_changes 402 403 [true; false; true; true] listening).1 = [false; true].
Proof.
  rewrite (listener_told_by_automaton 402 403 NOTIFIED [true; false; true; true] listening
    [(401, INIT); (403, NOTIFIED)]); [reflexivity| |vm_compute; reflexivity|].
  - apply (wf_kept_for_each (lst_exec (Env0 := publishing_env)) [LAdd 402 401; LAdd 402 403]);
      [apply lst_exec_wf|by intros sa l].
  - apply list_elem_of_In. right. by left.
Defined.

Lemma add_listener_spec_witness :
  localListenerMap_ (add_listener_locked (Env0 := publishing_env) 402 401
    (GetSystemAbilityManager (Env0 := publishing_env) registered).2).2 = {[402 := [(401, INIT)]]}.
Proof.
  pose proof (add_listener_spec (Env0 := publishing_env) 402 401 registered eq_refl eq_refl
    ltac:(vm_compute; discriminate)) as H.
  vm_compute in H |- *. exact (proj1 H).
Defined.

Lemma listener_roundtrip_witness :
  localListenerMap_ (RemoveSystemAbilityListener (Env0 := publishing_env) 402 401
    (AddSystemAbilityListener (Env0 := publishing_env) 402 401 registered).2).2 = ∅.
Proof.
  apply (listener_roundtrip (Env0 := publishing_env) 402 401 registered); try done.
  apply not_elem_of_nil.
Defined.

(** The environment of the witnesses, with a manager that refuses subscriptions
    and has no ability 402. *)
Definition refusing_env : Env DemoJson.dj DemoParcel.dp DemoProfiles.du :=
  DemoEnv.demo_env (λ h e, match e with
    | EvSubscribeSystemAbility _ => 1 | EvCheckSystemAbility _ => 0
    | _ => DemoEnv.demo_respond h e end) (λ _ _, ret tt).

Lemma failed_subscribe_sticks_witness :
  (AddSystemAbilityListener (Env0 := refusing_env) 402 401 registered).1 = false ∧
  (AddSystemAbilityListener (Env0 := refusing_env) 402 403
    (AddSystemAbilityListener (Env0 := refusing_env) 402 401 registered).2).1 = true.
Proof.
  pose proof (failed_subscribe_sticks (Env0 := refusing_env) 402 401 403 registered
    eq_refl eq_refl eq_refl ltac:(done) eq_refl ltac:(done) ltac:(done) ltac:(done)) as H.
  destruct (AddSystemAbilityListener 402 401 registered) as [ok1 w1]. simpl.
  destruct (AddSystemAbilityListener 402 403 w1) as [ok2 w2].
  split; [exact (proj1 H)|exact (proj1 (proj2 H))].
Defined.
