(* ===== verification/ListenerThreads.v ===== *)
(** * ListenerThreads: registrations, removals and status changes interleaved

    The operations of [Listeners.v] as threads.  [listenerLock_] makes the sections
    of [services/safwk/src/local_ability_manager.cpp] under it atomic; between
    them, and around every call to the system ability manager and every callback,
    other threads get in.

    [subscribed] is read off the trace: the abilities for which the last
    successful call to the manager was a subscription. *)

From S2P Require Import Prelude Interfaces.
From S2P Require Export Listeners.

(** Where a thread is: before its operation, before the locked section of a
    registration, before it subscribes, before it looks for the manager and before
    it unsubscribes, in the loop over the listeners to notify, at its end. *)
(* [services/safwk/src/local_ability_manager.cpp:302-458] LocalAbilityManager::AddSystemAbilityListener, RemoveSystemAbilityListener, FindAndNotifyAbilityListeners *)
Inductive lst_pc :=
| LStart (o : lst_op)
| LAddLock (sa x : Z)
| LSubscribe (sa : Z)
| LUnsubProxy (sa : Z)
| LUnsubscribe (sa : Z)
| LNotify (sa : Z) (deviceId : string) (code : Z) (ids : list Z)
| LDone.
#[export] Instance lst_op_eq_dec : EqDecision lst_op.
Proof. solve_decision. Defined.
#[export] Instance lst_pc_eq_dec : EqDecision lst_pc.
Proof. solve_decision. Defined.

Section threads.
  Context {J P U : Type} `{!Json J} `{!MessageParcel P} `{!ParseUtil U} `{SD : !SamgrDefs} `{EN : !Env J P U}.

  #[local] Abbreviation M := (prog J U).
  #[local] Abbreviation world := (world J U).

(** The next section of a thread and where it leads; [None] at the end. *)
(* [services/safwk/src/local_ability_manager.cpp:302-458] LocalAbilityManager::AddSystemAbilityListener, RemoveSystemAbilityListener, FindAndNotifyAbilityListeners *)
Definition lst_thread_step (pc : lst_pc) : option (M lst_pc) :=
  match pc with
  | LStart (LAdd sa x) => Some (
      if negb (CheckInputSysAbilityId sa) || negb (CheckInputSysAbilityId x) then ret LDone
      else let! samgrProxy := GetSystemAbilityManager in ret (if samgrProxy : bool then LAddLock sa x else LDone))
  | LStart (LRemove sa x) => Some (
      if negb (CheckInputSysAbilityId sa) || negb (CheckInputSysAbilityId x) then ret LDone
      else let! last := remove_listener_locked sa x in ret (if last : bool then LUnsubProxy sa else LDone))
  | LStart (LOnAdd sa d) => Some (
      if negb (CheckInputSysAbilityId sa) then ret LDone
      else let! v := find_listeners_locked sa ON_ADD_SYSTEM_ABILITY in ret (LNotify sa d ON_ADD_SYSTEM_ABILITY v))
  | LStart (LOnRemove sa d) => Some (
      if negb (CheckInputSysAbilityId sa) then ret LDone
      else let! v := find_listeners_locked sa ON_REMOVE_SYSTEM_ABILITY in ret (LNotify sa d ON_REMOVE_SYSTEM_ABILITY v))
  | LAddLock sa x => Some (
      let! r := add_listener_locked sa x in
      let '(isNeedNotify, listenerListSize) := r in
      ret (if Nat.ltb 1 listenerListSize
           then LNotify sa "" ON_ADD_SYSTEM_ABILITY (if isNeedNotify : bool then [x] else [])
           else LSubscribe sa))
  | LSubscribe sa => Some (
      do! GetSystemAbilityStatusChange in do! call (EvSubscribeSystemAbility sa) in ret LDone)
  | LUnsubProxy sa => Some (
      let! samgrProxy := GetSystemAbilityManager in ret (if samgrProxy : bool then LUnsubscribe sa else LDone))
  | LUnsubscribe sa => Some (
      do! GetSystemAbilityStatusChange in do! call (EvUnSubscribeSystemAbility sa) in ret LDone)
  | LNotify sa d code (x :: ids) => Some (do! NotifyAbilityListener sa x d code in ret (LNotify sa d code ids))
  | LNotify _ _ _ [] => Some (ret LDone)
  | LDone => None
  end.

Record lst_sys := mk_lst { lst_pcs : list lst_pc; lst_world : world }.

Definition lst_sys_step (i : nat) (s : lst_sys) : option lst_sys :=
  match lst_pcs s !! i with
  | None => None
  | Some pc =>
      match lst_thread_step pc with
      | None => None
      | Some m => let '(pc', w') := m (lst_world s) in Some (mk_lst (<[i := pc']> (lst_pcs s)) w')
      end
  end.

Fixpoint lst_run (sched : list nat) (s : lst_sys) : option lst_sys :=
  match sched with
  | [] => Some s
  | i :: sched' => match lst_sys_step i s with Some s' => lst_run sched' s' | None => None end
  end.

Definition lst_initial (os : list lst_op) (w : world) : lst_sys := mk_lst (LStart <$> os) w.

(** ** Subscriptions *)

Definition subs_apply (h : list event) (e : event) (s : gset Z) : gset Z :=
  match e with
  | EvSubscribeSystemAbility sa => if respond h e =? 0 then {[sa]} ∪ s else s
  | EvUnSubscribeSystemAbility sa => if respond h e =? 0 then s ∖ {[sa]} else s
  | _ => s
  end.
(** Of a trace, last call first. *)
Fixpoint subs_of (rt : list event) : gset Z :=
  match rt with [] => ∅ | e :: rt' => subs_apply (rev rt') e (subs_of rt') end.
Definition subscribed (w : world) : gset Z := subs_of (rev (trace w)).

(** The ability a thread is going to unsubscribe from. *)
Definition unsubscribing (pc : lst_pc) : option Z :=
  match pc with LUnsubProxy sa | LUnsubscribe sa => Some sa | _ => None end.

(** Whether the next step of a thread is anything but registering a listener of an
    ability that another thread is about to unsubscribe from. *)
Definition calm (i : nat) (s : lst_sys) : bool :=
  match lst_pcs s !! i with
  | Some (LAddLock sa _) => forallb (λ pc, negb (bool_decide (unsubscribing pc = Some sa))) (lst_pcs s)
  | _ => true
  end.
Definition calm_step (s s' : lst_sys) : Prop := ∃ i, calm i s = true ∧ lst_sys_step i s = Some s'.

(** What the subscriptions depend on. *)
Definition watch (w : world) : gmap Z (list (Z * ListenerState)) * gset Z := (localListenerMap_ w, subscribed w).

(** The callbacks do not register or remove listeners themselves (an ability that
    does so uses another thread of the system). *)
Class ListenersFrame : Prop := {
  OnAdd_watch l sa d : keeps watch (OnAddSystemAbility l sa d);
  OnRemove_watch l sa d : keeps watch (OnRemoveSystemAbility l sa d);
}.

(** An ability with listeners is subscribed or about to be; one that is about to be
    unsubscribed from has no listeners. *)
Record lst_inv (s : lst_sys) : Prop := {
  inv_sub sa l : localListenerMap_ (lst_world s) !! sa = Some l →
    sa ∈ subscribed (lst_world s) ∨ LSubscribe sa ∈ lst_pcs s;
  inv_unsub pc sa : pc ∈ lst_pcs s → unsubscribing pc = Some sa → localListenerMap_ (lst_world s) !! sa = None;
}.

(** ** Lemmas *)

Lemma subs_snoc h e : subs_of (rev (h ++ [e])) = subs_apply h e (subs_of (rev h)).
Proof. rewrite rev_app_distr. cbn. by rewrite rev_involutive. Qed.

Definition harmless (e : event) : Prop :=
  match e with EvSubscribeSystemAbility _ | EvUnSubscribeSystemAbility _ => False | _ => True end.
Lemma subs_harmless h e : harmless e → subs_of (rev (h ++ [e])) = subs_of (rev h).
Proof. intros He. rewrite subs_snoc. by destruct e. Qed.

Lemma watch_call e : harmless e → keeps watch (call e).
Proof. intros He w. unfold watch, subscribed. cbn. by rewrite subs_harmless. Qed.
Lemma watch_status_change : keeps watch GetSystemAbilityStatusChange.
Proof. intros w. unfold GetSystemAbilityStatusChange. run_prog. by destruct (statusChangeListener_ w). Qed.
Lemma watch_manager : keeps watch GetSystemAbilityManager.
Proof. apply keeps_bind; [by apply watch_call|by intros]. Qed.
Lemma watch_notify `{!ListenersFrame} sa x d code : keeps watch (NotifyAbilityListener sa x d code).
Proof.
  apply keeps_bind; [done|intros [l|]; [|done]]. repeat case_match; [| |done];
    (apply keeps_bind; [by apply watch_call|intros _]); [apply OnAdd_watch|apply OnRemove_watch].
Qed.

(** The sections that change the map leave the subscriptions alone. *)
Lemma subscribed_add sa x w : subscribed (add_listener_locked sa x w).2 = subscribed w.
Proof.
  pose proof (add_listener_run sa x w) as Hr. cbv zeta in Hr.
  destruct (add_listener_locked sa x w) as [[need size] w']. destruct Hr as (_ & _ & _ & Ht & _).
  unfold subscribed. cbn [snd]. rewrite Ht. case_bool_decide; [by rewrite app_nil_r|by apply subs_harmless].
Qed.
Lemma subscribed_remove sa x w : subscribed (remove_listener_locked sa x w).2 = subscribed w.
Proof.
  pose proof (remove_listener_run sa x w) as Hr. destruct (remove_listener_locked sa x w) as [last w'].
  unfold subscribed. cbn [snd]. destruct (localListenerMap_ w !! sa); [|by destruct Hr as [_ ->]].
  by destruct Hr as (_ & _ & ->).
Qed.

(** A thread that moves keeps the others where they are. *)
Lemma other_stays (l : list lst_pc) i pc pc' q :
  l !! i = Some pc → q ∈ l → q ≠ pc → q ∈ <[i := pc']> l.
Proof.
  intros Hi [j Hj]%list_elem_of_lookup Hq. apply list_elem_of_lookup. exists j.
  rewrite list_lookup_insert_ne; [done|]. intros ->. congruence.
Qed.
Lemma moved_or_there (l : list lst_pc) i pc' q : q ∈ <[i := pc']> l → q = pc' ∨ q ∈ l.
Proof.
  intros [j Hj]%list_elem_of_lookup. destruct (decide (i = j)) as [<-|Hne].
  - apply list_lookup_insert_Some in Hj as [(_ & -> & _)|(Hn & _)]; [by left|done].
  - rewrite list_lookup_insert_ne in Hj by done. right. by eapply list_elem_of_lookup_2.
Qed.

(** A step after which every listened ability was listened before or is about to
    be subscribed, and which takes no subscription away. *)
Lemma inv_grows i pc pc' w' s :
  lst_inv s → lst_pcs s !! i = Some pc → (∀ sa, pc = LSubscribe sa → sa ∈ subscribed w') →
  (∀ sa, sa ∈ subscribed (lst_world s) → is_Some (localListenerMap_ w' !! sa) → sa ∈ subscribed w') →
  (∀ sa, is_Some (localListenerMap_ w' !! sa) → is_Some (localListenerMap_ (lst_world s) !! sa) ∨ pc' = LSubscribe sa) →
  (∀ q sa, unsubscribing q = Some sa → q = pc' ∨ q ∈ lst_pcs s → localListenerMap_ w' !! sa = None) →
  lst_inv (mk_lst (<[i := pc']> (lst_pcs s)) w').
Proof.
  intros [Hs Hu] Hi Hsub Hkeep Hmap Hun. split; simpl.
  - intros sa l Hl. destruct (Hmap sa ltac:(by eexists)) as [[l0 Hl0]| ->].
    + destruct (Hs sa l0 Hl0) as [Hin|Hin]; [left; by eapply Hkeep|].
      destruct (decide (pc = LSubscribe sa)) as [->|Hne]; [left; by apply Hsub|].
      right. by eapply other_stays.
    + right. apply list_elem_of_lookup. exists i. apply list_lookup_insert_eq. by eapply lookup_lt_Some.
  - intros q sa Hq Hun'. eapply Hun; [done|]. by apply moved_or_there in Hq.
Qed.

(** A step that touches neither the map nor the subscriptions. *)
Lemma inv_watch i pc pc' w' s :
  lst_inv s → lst_pcs s !! i = Some pc → watch w' = watch (lst_world s) → (∀ sa, pc ≠ LSubscribe sa) →
  (∀ sa, unsubscribing pc' = Some sa → unsubscribing pc = Some sa) →
  lst_inv (mk_lst (<[i := pc']> (lst_pcs s)) w').
Proof.
  intros Hinv Hi [= Hm Hs] Hpc Hun. eapply inv_grows; [done|done| | | |].
  - intros sa E. by destruct (Hpc sa).
  - intros sa. by rewrite Hs.
  - intros sa. rewrite Hm. by left.
  - intros q sa Hq [->|Hin]; rewrite Hm; [|by eapply inv_unsub].
    apply (inv_unsub s Hinv pc); [by eapply list_elem_of_lookup_2|by apply Hun].
Qed.

Class SubscribeWorks : Prop := { subscribe_ok h sa : respond h (EvSubscribeSystemAbility sa) = 0 }.

Lemma subscribed_call e w : subscribed (call e w).2 = subs_apply (trace w) e (subscribed w).
Proof. apply subs_snoc. Qed.

Lemma inv_add_section i sa x s :
  lst_inv s → lst_pcs s !! i = Some (LAddLock sa x) →
  (∀ pc, pc ∈ lst_pcs s → unsubscribing pc ≠ Some sa) →
  let '((need, size), w') := add_listener_locked sa x (lst_world s) in
  lst_inv (mk_lst (<[i := if (1 <? size)%nat then LNotify sa "" ON_ADD_SYSTEM_ABILITY (if need then [x] else [])
                          else LSubscribe sa]> (lst_pcs s)) w').
Proof.
  intros Hinv Hi Hcalm. pose proof (add_listener_run sa x (lst_world s)) as Hr.
  pose proof (subscribed_add sa x (lst_world s)) as Hs. cbv zeta in Hr.
  destruct (add_listener_locked sa x (lst_world s)) as [[need size] w']. destruct Hr as (_ & Hsize & Hm & _).
  eapply inv_grows; [done|done|by intros|cbn in Hs; by rewrite Hs| |].
  - intros sa'. rewrite Hm, lookup_insert_is_Some'. intros [<-|Hsa']; [|by left].
    destruct (localListenerMap_ (lst_world s) !! sa) as [l|]; [left; by eexists|].
    right. by rewrite Hsize.
  - intros q sa' Hq [->|Hin]; [by destruct (1 <? size)%nat|].
    rewrite Hm, lookup_insert_ne; [by eapply inv_unsub|]. intros <-. by eapply Hcalm.
Qed.

Lemma calm_spec sa pcs :
  forallb (λ pc, negb (bool_decide (unsubscribing pc = Some sa))) pcs = true →
  ∀ pc, pc ∈ pcs → unsubscribing pc ≠ Some sa.
Proof.
  rewrite forallb_forall. intros Hc pc Hin%list_elem_of_In. specialize (Hc pc Hin).
  by apply negb_true_iff, bool_decide_eq_false in Hc.
Qed.

Lemma inv_remove_section i sa x pc s :
  lst_inv s → lst_pcs s !! i = Some pc → (∀ sa, pc ≠ LSubscribe sa) →
  let '(last, w') := remove_listener_locked sa x (lst_world s) in
  lst_inv (mk_lst (<[i := if last then LUnsubProxy sa else LDone]> (lst_pcs s)) w').
Proof.
  intros Hinv Hi Hpc. pose proof (remove_listener_run sa x (lst_world s)) as Hr.
  pose proof (subscribed_remove sa x (lst_world s)) as Hs.
  destruct (remove_listener_locked sa x (lst_world s)) as [last w'].
  assert (∀ sa', localListenerMap_ (lst_world s) !! sa' = None → localListenerMap_ w' !! sa' = None) as Hnone.
  { intros sa' Hn. destruct (localListenerMap_ (lst_world s) !! sa) as [l|] eqn:El; [|by destruct Hr as [_ ->]].
    destruct Hr as (_ & -> & _). destruct last; [by rewrite lookup_delete_None; right|].
    rewrite lookup_insert_ne; [done|]. intros <-. congruence. }
  eapply inv_grows; [done|done|by intros sa' E; destruct (Hpc sa')|cbn in Hs; by rewrite Hs| |].
  - intros sa' [l' Hl']. left. destruct (localListenerMap_ (lst_world s) !! sa') eqn:E; [by eexists|].
    by rewrite Hnone in Hl'.
  - intros q sa' Hq [->|Hin]; [|by eapply Hnone, inv_unsub]. destruct last; [|done].
    injection Hq as <-. destruct (localListenerMap_ (lst_world s) !! sa); [|by destruct Hr].
    destruct Hr as (_ & -> & _). apply lookup_delete_eq.
Qed.

Lemma inv_find_section i sa d code pc s :
  lst_inv s → lst_pcs s !! i = Some pc → (∀ sa, pc ≠ LSubscribe sa) →
  let '(v, w') := find_listeners_locked sa code (lst_world s) in
  lst_inv (mk_lst (<[i := LNotify sa d code v]> (lst_pcs s)) w').
Proof.
  intros Hinv Hi Hpc. rewrite find_listeners_run. destruct (localListenerMap_ (lst_world s) !! sa) as [l|] eqn:El.
  - eapply inv_grows; [done|done|by intros sa' E; destruct (Hpc sa')|by intros| |]; cbn [localListenerMap_ set_localListenerMap_].
    + intros sa' [->|]%lookup_insert_is_Some'; left; [by rewrite El|done].
    + intros q sa' Hq [->|Hin]; [done|]. pose proof (inv_unsub s Hinv _ _ Hin Hq).
      rewrite lookup_insert_ne; [done|congruence].
  - by apply (inv_watch i pc).
Qed.

Lemma inv_subscribe i sa w' s :
  lst_inv s → lst_pcs s !! i = Some (LSubscribe sa) → localListenerMap_ w' = localListenerMap_ (lst_world s) →
  subscribed w' = {[sa]} ∪ subscribed (lst_world s) → lst_inv (mk_lst (<[i := LDone]> (lst_pcs s)) w').
Proof.
  intros Hinv Hi Hm Hs. eapply inv_grows; [done|done| | | |].
  - intros sa' [= ->]. set_solver.
  - set_solver.
  - intros sa'. rewrite Hm. by left.
  - intros q sa' Hq [->|Hin]; [done|]. rewrite Hm. by eapply inv_unsub.
Qed.

Lemma inv_unsubscribe i sa w' s :
  lst_inv s → lst_pcs s !! i = Some (LUnsubscribe sa) → localListenerMap_ w' = localListenerMap_ (lst_world s) →
  subscribed (lst_world s) ∖ {[sa]} ⊆ subscribed w' → lst_inv (mk_lst (<[i := LDone]> (lst_pcs s)) w').
Proof.
  intros Hinv Hi Hm Hs. pose proof (inv_unsub s Hinv _ sa (list_elem_of_lookup_2 _ _ _ Hi) eq_refl) as Hnone.
  eapply inv_grows; [done|done|by intros| | |].
  - intros sa' Hin [l Hl]. rewrite Hm in Hl. apply Hs. assert (sa' ≠ sa) by congruence. set_solver.
  - intros sa'. rewrite Hm. by left.
  - intros q sa' Hq [->|Hin]; [done|]. rewrite Hm. by eapply inv_unsub.
Qed.

(** The check of the ids at the head of an operation. *)
Ltac ids_checked H :=
  match type of H with context [if ?b then ret LDone else _] => destruct b end.

Lemma calm_step_inv `{!ListenersFrame, !SubscribeWorks} s s' : lst_inv s → calm_step s s' → lst_inv s'.
Proof.
  intros Hinv (i & Hcalm & Hs). unfold lst_sys_step in Hs. unfold calm in Hcalm.
  destruct (lst_pcs s !! i) as [pc|] eqn:Hi; [|done].
  destruct pc as [[sa x|sa x|sa d|sa d]|sa x|sa|sa|sa|sa d code [|x ids]|]; cbn [lst_thread_step] in Hs; try done.
  - ids_checked Hs; [injection Hs as <-; by eapply inv_watch|].
    rewrite bind_run in Hs. pose proof (watch_manager (lst_world s)) as Hw.
    destruct (GetSystemAbilityManager (lst_world s)) as [[] w']; injection Hs as <-; by eapply inv_watch.
  - ids_checked Hs; [injection Hs as <-; by eapply inv_watch|].
    pose proof (inv_remove_section i sa x _ s Hinv Hi ltac:(done)) as Hr. rewrite bind_run in Hs.
    destruct (remove_listener_locked sa x (lst_world s)) as [last w']. by injection Hs as <-.
  - ids_checked Hs; [injection Hs as <-; by eapply inv_watch|].
    pose proof (inv_find_section i sa d ON_ADD_SYSTEM_ABILITY _ s Hinv Hi ltac:(done)) as Hr. rewrite bind_run in Hs.
    destruct (find_listeners_locked sa _ (lst_world s)) as [v w']. by injection Hs as <-.
  - ids_checked Hs; [injection Hs as <-; by eapply inv_watch|].
    pose proof (inv_find_section i sa d ON_REMOVE_SYSTEM_ABILITY _ s Hinv Hi ltac:(done)) as Hr. rewrite bind_run in Hs.
    destruct (find_listeners_locked sa _ (lst_world s)) as [v w']. by injection Hs as <-.
  - pose proof (inv_add_section i sa x s Hinv Hi (calm_spec _ _ Hcalm)) as Hr. rewrite bind_run in Hs.
    destruct (add_listener_locked sa x (lst_world s)) as [[need size] w']. by injection Hs as <-.
  - rewrite !bind_run in Hs. injection Hs as <-. set (w1 := (GetSystemAbilityStatusChange (lst_world s)).2).
    pose proof (watch_status_change (lst_world s)) as [= Hm1 Hs1]. fold w1 in Hm1, Hs1.
    eapply inv_subscribe; [done|done|done|].
    change (subscribed (call (EvSubscribeSystemAbility sa) w1).2 = {[sa]} ∪ subscribed (lst_world s)).
    rewrite subscribed_call. cbn [subs_apply]. by rewrite subscribe_ok, Hs1.
  - rewrite bind_run in Hs. pose proof (watch_manager (lst_world s)) as Hw.
    destruct (GetSystemAbilityManager (lst_world s)) as [[] w']; injection Hs as <-; eapply inv_watch; done.
  - rewrite !bind_run in Hs. injection Hs as <-. set (w1 := (GetSystemAbilityStatusChange (lst_world s)).2).
    pose proof (watch_status_change (lst_world s)) as [= Hm1 Hs1]. fold w1 in Hm1, Hs1.
    eapply inv_unsubscribe; [done|done|done|].
    change (subscribed (lst_world s) ∖ {[sa]} ⊆ subscribed (call (EvUnSubscribeSystemAbility sa) w1).2).
    rewrite subscribed_call. cbn [subs_apply]. fold (subscribed w1). rewrite Hs1. case_match; set_solver.
  - injection Hs as <-. by eapply inv_watch.
  - rewrite bind_run in Hs. injection Hs as <-. eapply inv_watch; [done|done|apply watch_notify|done|done].
Qed.

Lemma thread_wf `{!SamgrDefsLaws, !ListenersKept} pc m : lst_thread_step pc = Some m → wf_kept m.
Proof.
  destruct pc as [[sa x|sa x|sa d|sa d]|sa x|sa|sa|sa|sa d code [|x ids]|]; cbn [lst_thread_step]; intros [= <-];
    repeat case_match; try apply wf_kept_ret; apply wf_kept_bind; try (intros; apply wf_kept_ret).
  - apply wf_kept_manager.
  - intros w. apply remove_listener_locked_wf.
  - intros w. apply find_listeners_locked_wf.
  - intros w. apply find_listeners_locked_wf.
  - intros w. apply add_listener_locked_wf.
  - intros [need size]. apply wf_kept_ret.
  - apply wf_kept_listeners, keeps_status_change.
  - intros _. apply wf_kept_bind; [by intros w|intros; apply wf_kept_ret].
  - apply wf_kept_manager.
  - apply wf_kept_listeners, keeps_status_change.
  - intros _. apply wf_kept_bind; [by intros w|intros; apply wf_kept_ret].
  - intros w. apply NotifyAbilityListener_wf.
Qed.

(** ** Properties *)

Definition lst_next (s s' : lst_sys) : Prop := ∃ i, lst_sys_step i s = Some s'.

(** C18: whatever registrations, removals and status changes run at the same time, and
    however their sections, calls and callbacks interleave, every list of
    listeners is non-empty and names each listener once in every state on the way. *)
Theorem interleaved_listeners_wf `{!SamgrDefsLaws, !ListenersKept} os w s :
  localListenerMap_ w = ∅ → rtc lst_next (lst_initial os w) s → listeners_wf (lst_world s).
Proof.
  intros Hw Hr. assert (listeners_wf (lst_world (lst_initial os w))) as Hwf by (intros sa l; cbn; by rewrite Hw).
  revert Hwf. induction Hr as [s|s s1 s2 [i Hs] _ IH]; intros Hwf; [done|]. apply IH. unfold lst_sys_step in Hs.
  destruct (lst_pcs s !! i) as [pc|]; [|done]. destruct (lst_thread_step pc) as [m|] eqn:Em; [|done].
  pose proof (thread_wf pc m Em _ Hwf) as Hwf'. destruct (m (lst_world s)) as [pc' w']. by injection Hs as <-.
Qed.

(** C11: an ability with listeners is subscribed to, or a registration is about to
    subscribe; when all threads have finished it is subscribed to.  This holds in
    every interleaving of registrations, removals and status changes in which no
    registration enters its locked section between the locked section of a
    removal of the last listener and the unsubscription of that removal,
    provided subscribing succeeds. *)
Theorem listened_is_subscribed `{!ListenersFrame, !SubscribeWorks} os w s sa l :
  localListenerMap_ w = ∅ → rtc calm_step (lst_initial os w) s → localListenerMap_ (lst_world s) !! sa = Some l →
  (sa ∈ subscribed (lst_world s) ∨ LSubscribe sa ∈ lst_pcs s) ∧
  (Forall (eq LDone) (lst_pcs s) → sa ∈ subscribed (lst_world s)).
Proof.
  intros Hw Hr Hl. assert (lst_inv s) as [Hs _].
  { assert (lst_inv (lst_initial os w)) as Hi.
    { split; cbn; rewrite Hw; [by intros ??|done]. }
    clear Hl. induction Hr as [|s1 s2 s3 Hs _ IH]; [done|]. by eapply IH, calm_step_inv. }
  specialize (Hs sa l Hl). split; [done|]. intros Hd. destruct Hs as [|Hin]; [done|].
  by apply (proj1 (Forall_forall _ _) Hd) in Hin.
Qed.

(** Schedules reach states. *)
Lemma lst_run_reachable sched s s' : lst_run sched s = Some s' → rtc lst_next s s'.
Proof.
  revert s. induction sched as [|i sched IH]; cbn; intros s; [by intros [= ->]|].
  destruct (lst_sys_step i s) as [s1|] eqn:Hs; [|done]. intros Hr. eapply rtc_l; [by eexists|by apply IH].
Qed.
Fixpoint calm_run (sched : list nat) (s : lst_sys) : option lst_sys :=
  match sched with
  | [] => Some s
  | i :: sched' =>
      if calm i s then match lst_sys_step i s with Some s' => calm_run sched' s' | None => None end else None
  end.
Lemma calm_run_reachable sched s s' : calm_run sched s = Some s' → rtc calm_step s s'.
Proof.
  revert s. induction sched as [|i sched IH]; cbn; intros s; [by intros [= ->]|].
  destruct (calm i s) eqn:Hc; [|done]. destruct (lst_sys_step i s) as [s1|] eqn:Hs; [|done].
  intros Hr. eapply rtc_l; [by exists i|by apply IH].
Qed.

(** The sections of the two threads below, in one equation each. *)
Lemma remove_only sa x st (w : world) :
  localListenerMap_ w !! sa = Some [(x, st)] →
  remove_listener_locked sa x w = (true, set_localListenerMap_ (delete sa (localListenerMap_ w)) w).
Proof.
  intros Hl. unfold remove_listener_locked. run_prog. rewrite Hl. cbn. rewrite Z.eqb_refl. cbn.
  by rewrite delete_insert_eq.
Qed.
Lemma add_first sa y (w : world) :
  localListenerMap_ w !! sa = None →
  add_listener_locked sa y w =
  ((false, 1%nat), set_localListenerMap_ (<[sa := [(y, INIT)]]> (localListenerMap_ w)) w).
Proof. intros Hl. unfold add_listener_locked. run_prog. rewrite Hl. cbn. by rewrite insert_insert_eq. Qed.

(** Removing the last listener of an ability while another is registered can leave
    the ability unsubscribed with a listener in the list: the lock is released
    before the unsubscription, which then takes away the subscription the
    registration has made in between. *)
Theorem unsubscribe_overtakes `{!SubscribeWorks} sa x y st w :
  CheckInputSysAbilityId sa = true → CheckInputSysAbilityId x = true → CheckInputSysAbilityId y = true →
  localListenerMap_ w !! sa = Some [(x, st)] → (∀ h, respond h EvGetSystemAbilityManager ≠ 0) →
  (∀ h, respond h (EvUnSubscribeSystemAbility sa) = 0) →
  ∃ s, lst_run [0; 1; 1; 1; 0; 0]%nat (lst_initial [LRemove sa x; LAdd sa y] w) = Some s ∧
    lst_pcs s = [LDone; LDone] ∧ localListenerMap_ (lst_world s) !! sa = Some [(y, INIT)] ∧
    sa ∉ subscribed (lst_world s).
Proof.
  intros Hsa Hx Hy Hl Hp Hu.
  cbn [lst_run]. unfold lst_sys_step at 1. cbn. rewrite Hsa, Hx. cbn. rewrite bind_run, (remove_only sa x st) by done. cbn.
  unfold lst_sys_step at 1. cbn. rewrite Hsa, Hy. cbn.
  rewrite (proj2 (Z.eqb_neq _ _) (Hp _)). cbn [negb lst_thread_step].
  rewrite bind_run, add_first by apply lookup_delete_eq. cbn.
  unfold lst_sys_step at 1. cbn. unfold GetSystemAbilityStatusChange. run_prog.
  destruct (statusChangeListener_ w) eqn:Es; cbn; unfold lst_sys_step, GetSystemAbilityManager; run_prog;
    rewrite (proj2 (Z.eqb_neq _ _) (Hp _)); cbn; unfold GetSystemAbilityStatusChange; run_prog;
    rewrite ?Es; cbn; (eexists; split_and!; [done|done|apply lookup_insert_eq|]);
    unfold subscribed; cbn; rewrite subs_snoc; cbn; rewrite Hu; cbn; set_solver.
Qed.
End threads.

(** ** Witnesses *)

Import DemoDefs.

(** The state of a system after a schedule. *)
Definition at_end (os : list lst_op) (w : DemoEnv.dworld) (sched : list nat) :=
  default (lst_initial os w) (lst_run (EN := publishing_env) sched (lst_initial os w)).

(** 401 registers while 403 does, and 402 appears. *)
Definition crowd : list lst_op := [LAdd 402 401; LAdd 402 403; LOnAdd 402 ""].
Definition crowd_order : list nat := [0; 1; 0; 2; 1; 2; 1; 0; 2]%nat.

Lemma interleaved_listeners_wf_witness :
  localListenerMap_ (lst_world (at_end crowd registered crowd_order)) = {[402 := [(401, NOTIFIED); (403, NOTIFIED)]]} ∧
  listeners_wf (lst_world (at_end crowd registered crowd_order)).
Proof.
  split; [vm_compute; reflexivity|].
  apply (interleaved_listeners_wf (EN := publishing_env) crowd registered); [reflexivity|].
  apply (lst_run_reachable (EN := publishing_env) crowd_order). vm_compute. reflexivity.
Defined.

#[export] Instance publishing_subscribe : SubscribeWorks (EN := publishing_env).
Proof. by split. Qed.
#[export] Instance publishing_frame : ListenersFrame (EN := publishing_env).
Proof. by split. Qed.

(** 401 registers and goes again, then 403 registers while 402 appears. *)
Definition visitors : list lst_op := [LAdd 402 401; LRemove 402 401; LAdd 402 403; LOnAdd 402 ""].
Definition visits : list nat := [0; 2; 0; 0; 1; 1; 1; 3; 2; 3; 2]%nat.

Lemma listened_is_subscribed_witness : 402 ∈ subscribed (EN := publishing_env) (lst_world (at_end visitors registered visits)).
Proof.
  refine (proj2 (listened_is_subscribed (EN := publishing_env) visitors registered
    (at_end visitors registered visits) 402 [(403, INIT)] _ _ _) _).
  - reflexivity.
  - apply (calm_run_reachable (EN := publishing_env) visits). vm_compute. reflexivity.
  - vm_compute. reflexivity.
  - vm_compute. repeat constructor.
Defined.

(** [registered], with 401 listening for 402. *)
Definition attended : DemoEnv.dworld := set_localListenerMap_ {[402 := [(401, INIT)]]} registered.

Lemma unsubscribe_overtakes_witness :
  ∃ s, lst_run (EN := publishing_env) [0; 1; 1; 1; 0; 0]%nat (lst_initial [LRemove 402 401; LAdd 402 403] attended) = Some s ∧
    lst_pcs s = [LDone; LDone] ∧ localListenerMap_ (lst_world s) !! 402 = Some [(403, INIT)] ∧
    402 ∉ subscribed (EN := publishing_env) (lst_world s).
Proof. by apply (unsubscribe_overtakes (EN := publishing_env) 402 401 403 INIT attended). Defined.

(** The callbacks of two status changes can come in the other order: the listener is
    told last that the ability has been added, while its entry, and the manager,
    say that it has gone. *)
Theorem notifications_overtake :
  let s := at_end [LOnAdd 402 ""; LOnRemove 402 ""] attended [0; 1; 1; 1; 0; 0]%nat in
  lst_pcs s = [LDone; LDone] ∧ localListenerMap_ (lst_world s) !! 402 = Some [(401, INIT)] ∧
  trace (lst_world s) = trace attended ++ [EvOnRemoveSystemAbility 1 402 ""; EvOnAddSystemAbility 1 402 ""].
Proof. split_and!; vm_compute; reflexivity. Qed.
