(* ===== verification/Boot.v ===== *)
(** * Boot: from the profiles of a process to its started abilities

    [DoStartSAProcess] and what it calls in
    [services/safwk/src/local_ability_manager.cpp]: parsing and trusting the
    profiles, waiting for the system ability manager, registering on-demand
    abilities, and starting the others phase by phase on a thread pool.

    The pool runs whole tasks, one at a time, in any order ([EvWaitForTasks]:
    the answer 0 lets the wait time out, any other picks a queued task); tasks
    that a wait has given up stay queued.  The polling loop of a task with
    dependencies takes [fuel]; [depend_task_terminates] bounds what it needs. *)

From S2P Require Import Prelude Interfaces.
From S2P Require Export Listeners.

Section boot.
  Context {J P U : Type} `{!Json J} `{!MessageParcel P} `{!ParseUtil U} `{!StringUtil}
    `{!SamgrDefs} `{!Env J P U}.
  Variable fuel : nat.

  #[local] Abbreviation M := (prog J U).
  #[local] Abbreviation world := (world J U).

(* [services/safwk/src/local_ability_manager.cpp:53-53] DEFAULT_SAID *)
Definition DEFAULT_SAID : Z := -1.
(* [services/safwk/src/local_ability_manager.cpp:86-86] BOOT_START *)
Definition BOOT_START : Z := 1.
(* [services/safwk/src/local_ability_manager.cpp:88-88] OTHER_START *)
Definition OTHER_START : Z := 3.
Definition PATH_MAX : Z := 4096.
(* [services/safwk/src/local_ability_manager.cpp:64-64] SUFFIX_LENGTH *)
Definition SUFFIX_LENGTH : nat := 5.
(* [services/safwk/src/local_ability_manager.cpp:52-52] RETRY_TIMES_FOR_SAMGR *)
Definition RETRY_TIMES_FOR_SAMGR : nat := 50.
(* [services/safwk/include/local_ability_manager.h:132-132] LocalAbilityManager::MAX_TASK_NUMBER *)
Definition MAX_TASK_NUMBER : Z := 20.

(** ** Paths and tags *)

(* [services/safwk/src/local_ability_manager.cpp:157-170] LocalAbilityManager::GetTraceTag *)
Definition GetTraceTag (profilePath : string) : string :=
  match last (SplitStr profilePath "/") with
  | None => "default_proc"
  | Some traceTag =>
      let size := String.length traceTag in
      if Nat.ltb SUFFIX_LENGTH size then String.substring 0 (size - SUFFIX_LENGTH) traceTag else traceTag
  end.

(* [services/safwk/src/local_ability_manager.cpp:172-185] LocalAbilityManager::CheckAndGetProfilePath *)
Definition CheckAndGetProfilePath (profilePath : string) : M (option string) :=
  if PATH_MAX <? Z.of_nat (String.length profilePath) then ret None
  else do! call (EvRealPath profilePath) in ret (realpath profilePath).

(** ** Profiles *)

(* [services/safwk/src/local_ability_manager.cpp:73-74] PREFIX *)
Definition PREFIX : string := "/system/profile/".
(* [services/safwk/src/local_ability_manager.cpp:75-75] SUFFIX *)
Definition SUFFIX : string := "_trust.json".

(* [services/safwk/src/local_ability_manager.cpp:237-254] LocalAbilityManager::CheckTrustSa *)
Definition CheckTrustSa (path process : string) (saInfos : list SaProfile) : M unit :=
  let! u := gets profileParser_ in
  match ParseTrustConfig path u with
  | None => ret tt
  | Some trustMaps =>
      if decide (trustMaps = ∅) then ret tt
      else
        let saSets := match trustMaps !! Str8ToStr16 process with Some s => s | None => ∅ end in
        for_each (λ saInfo,
          if decide (saId saInfo ∈ saSets) then ret tt
          else modify (λ w, set_profileParser_ (RemoveSaProfile (saId saInfo) (profileParser_ w)) w))
          saInfos
  end.

(* [services/safwk/src/local_ability_manager.cpp:639-659] LocalAbilityManager::InitializeSaProfilesInnerLocked *)
Definition InitializeSaProfilesInnerLocked (saProfile : SaProfile) : M bool :=
  let! iterProfile := gets (λ w, localAbilityMap_ w !! saId saProfile) in
  match iterProfile with
  | None => ret false
  | Some None => ret false
  | Some (Some systemAbility) =>
      if OTHER_START <? bootPhase saProfile then ret false
      else
        do! modify (λ w, set_abilityPhaseMap_ (<[bootPhase saProfile :=
              default [] (abilityPhaseMap_ w !! bootPhase saProfile) ++ [Some systemAbility]]>
              (abilityPhaseMap_ w)) w) in
        ret true
  end.

(** The scheduling priority of the calling thread; a failure is only logged. *)
(* [services/safwk/src/local_ability_manager.cpp:95-102] SetThreadPrio *)
Definition SetThreadPrio (priority : Z) : M unit :=
  let! tid := call EvGetTid in
  do! call (EvSetPriority (wrap32 tid) priority) in ret tt.

(* [services/safwk/src/local_ability_manager.cpp:69-69] OPEN_SO_PRIO *)
Definition OPEN_SO_PRIO : Z := -20.
(* [services/safwk/src/local_ability_manager.cpp:70-70] NORMAL_PRIO *)
Definition NORMAL_PRIO : Z := 0.
(** The calls between [#ifdef SAFWK_ENABLE_RUN_ON_DEMAND_QOS] and [#endif]. *)
Definition if_qos (m : M unit) : M unit := if SAFWK_ENABLE_RUN_ON_DEMAND_QOS then m else ret tt.

(* [services/safwk/src/local_ability_manager.cpp:614-637] LocalAbilityManager::InitializeOnDemandSaProfile *)
Definition InitializeOnDemandSaProfile (saId : Z) : M bool :=
  do! if_qos (SetThreadPrio OPEN_SO_PRIO) in
  let! result := enter (EvLoadSaLib saId) (LoadSaLib saId) in
  do! if_qos (SetThreadPrio NORMAL_PRIO) in
  if negb result then ret false
  else
    let! saProfile := gets (λ w, GetProfile saId (profileParser_ w)) in
    match saProfile with
    | None => ret false
    | Some saProfile => InitializeSaProfilesInnerLocked saProfile
    end.

(* [services/safwk/src/local_ability_manager.cpp:841-849] LocalAbilityManager::InitializeRunOnCreateSaProfiles *)
Definition load_profile (phase : Z) (saProfile : SaProfile) : M unit :=
  if decide (bootPhase saProfile ≠ phase) then ret tt
  else do! InitializeSaProfilesInnerLocked saProfile in ret tt.

(* [services/safwk/src/local_ability_manager.cpp:826-851] LocalAbilityManager::InitializeRunOnCreateSaProfiles *)
Definition InitializeRunOnCreateSaProfiles (phase : Z) : M bool :=
  if OTHER_START <? phase then ret false
  else
    do! enter (EvOpenSo phase) (OpenSo phase) in
    let! saProfileList := gets (λ w, GetAllSaProfiles (profileParser_ w)) in
    if decide (saProfileList = []) then ret false
    else
      do! for_each (load_profile phase) saProfileList in
      ret true.

(* [services/safwk/src/local_ability_manager.cpp:228-235] LocalAbilityManager::InitializeSaProfiles *)
Definition InitializeSaProfiles (saId : Z) : M bool :=
  if negb (saId =? DEFAULT_SAID) then InitializeOnDemandSaProfile saId
  else InitializeRunOnCreateSaProfiles BOOT_START.

(* [services/safwk/src/local_ability_manager.cpp:206-226] LocalAbilityManager::InitSystemAbilityProfiles *)
Definition InitSystemAbilityProfiles (profilePath : string) (saId : Z) : M bool :=
  let! r := (λ w, let '(ok, u) := ParseSaProfiles profilePath (profileParser_ w) in
                  (ok, set_profileParser_ u w)) in
  if negb r then ret false
  else
    do! modify (λ w, set_procName_ (GetProcessName (profileParser_ w)) w) in
    let! saInfos := gets (λ w, GetAllSaProfiles (profileParser_ w)) in
    let! process := gets (λ w, Str16ToStr8 (procName_ w)) in
    let path := (PREFIX +:+ process +:+ SUFFIX)%string in
    let! isExist := gets (λ w, CheckPathExist path (profileParser_ w)) in
    do! (if isExist : bool then CheckTrustSa path process saInfos else ret tt) in
    InitializeSaProfiles saId.

(* [services/safwk/src/local_ability_manager.cpp:256-259] LocalAbilityManager::ClearResource *)
Definition LAM_ClearResource : M unit :=
  modify (λ w, set_profileParser_ (ClearResource (profileParser_ w)) w).

(** ** The system ability manager *)

(** The loop, from the value of [timeout] and the pointer [samgrProxy]. *)
(* [services/safwk/src/local_ability_manager.cpp:192-202] LocalAbilityManager::CheckSystemAbilityManagerReady *)
Fixpoint wait_for_samgr (timeout : nat) (samgrProxy : bool) : M bool :=
  if samgrProxy then ret true
  else
    match timeout with
    | O => ret false
    | S timeout' =>
        do! usleep 200000 in
        let! samgrProxy := GetSystemAbilityManager in
        wait_for_samgr timeout' samgrProxy
    end.

(* [services/safwk/src/local_ability_manager.cpp:187-204] LocalAbilityManager::CheckSystemAbilityManagerReady *)
Definition CheckSystemAbilityManagerReady : M bool :=
  let! samgrProxy := GetSystemAbilityManager in
  wait_for_samgr RETRY_TIMES_FOR_SAMGR samgrProxy.

(* [services/safwk/src/local_ability_manager.cpp:874-887] LocalAbilityManager::AddLocalAbilityManager *)
Definition AddLocalAbilityManager : M bool :=
  let! samgrProxy := GetSystemAbilityManager in
  if negb samgrProxy then ret false
  else
    let! m := gets localAbilityManager_ in
    do! (if negb m then modify (set_localAbilityManager_ true) else ret tt) in
    let! procName := gets procName_ in
    let! r := call (EvAddSystemProcess procName) in
    ret (r =? ERR_OK).

(* [services/safwk/src/local_ability_manager.cpp:764-768] LocalAbilityManager::NeedRegisterOnDemand *)
Definition NeedRegisterOnDemand (saProfile : SaProfile) (said : Z) : bool :=
  ((said =? DEFAULT_SAID) && negb (runOnCreate saProfile)) ||
  (negb (said =? DEFAULT_SAID) && negb (saId saProfile =? said)).

(* [services/safwk/src/local_ability_manager.cpp:742-760] LocalAbilityManager::RegisterOnDemandSystemAbility *)
Definition RegisterOnDemandSystemAbility (said : Z) : M unit :=
  let! samgrProxy := GetSystemAbilityManager in
  if negb samgrProxy then ret tt
  else
    let! saProfileList := gets (λ w, GetAllSaProfiles (profileParser_ w)) in
    for_each (λ saProfile,
      if NeedRegisterOnDemand saProfile said then
        let! procName := gets procName_ in
        do! call (EvAddOnDemandSystemAbilityInfo (saId saProfile) procName) in ret tt
      else ret tt) saProfileList.

(** ** Start tasks *)

Fixpoint check_dependencies (dependSa : list Z) : M (list Z) :=
  match dependSa with
  | [] => ret []
  | saId :: dependSa' =>
      if CheckInputSysAbilityId saId then
        let! saObject := call (EvCheckSystemAbility saId) in
        let! r := check_dependencies dependSa' in
        ret (if saObject =? 0 then saId :: r else r)
      else check_dependencies dependSa'
  end.

(* [services/safwk/src/local_ability_manager.cpp:661-681] LocalAbilityManager::CheckDependencyStatus *)
Definition CheckDependencyStatus (dependSa : list Z) : M (list Z) :=
  let! samgrProxy := GetSystemAbilityManager in
  if negb samgrProxy then ret dependSa else check_dependencies dependSa.

(** [int64_t] arithmetic wraps here; the second branch overflows whenever it is
    taken. *)
(* [services/safwk/src/local_ability_manager.cpp:696-696] LocalAbilityManager::StartDependSaTask *)
Definition depend_duration (start end_ : Z) : Z :=
  if start <=? end_ then wrap64 (end_ - start) else wrap64 (wrap64 (INT64_MAX - end_) + start).

(** The loop; [None] when the fuel runs out. *)
(* [services/safwk/src/local_ability_manager.cpp:694-708] LocalAbilityManager::StartDependSaTask *)
Fixpoint depend_loop (fuel : nat) (ability : loc) (start dependTimeout : Z) (lastSize : nat)
    : M (option unit) :=
  if Nat.ltb 0 lastSize then
    match fuel with
    | O => ret None
    | S fuel' =>
        let! end_ := call EvGetTickCount in
        if depend_duration start end_ <? dependTimeout then
          do! usleep 50000 in
          let! deps := get_sa GetDependSa ability in
          let! temp := CheckDependencyStatus deps in
          depend_loop fuel' ability start dependTimeout (length temp)
        else ret (Some tt)
    end
  else ret (Some tt).

(** The result tells whether the loop finished within the fuel. *)
(* [services/safwk/src/local_ability_manager.cpp:683-719] LocalAbilityManager::StartDependSaTask *)
Definition StartDependSaTask (ability : ptr) : M (option unit) :=
  match ability with
  | None => ret (Some tt)
  | Some l =>
      let! start := call EvGetTickCount in
      let! dependTimeout := get_sa GetDependTimeout l in
      let! deps := get_sa GetDependSa l in
      let! missing := CheckDependencyStatus deps in
      let! r := depend_loop fuel l start dependTimeout (length missing) in
      match r with
      | None => ret None
      | Some _ =>
          let! deps := get_sa GetDependSa l in
          let! unpreparedDeps := CheckDependencyStatus deps in
          do! (match unpreparedDeps with [] => Start l | _ :: _ => ret tt end) in
          ret (Some tt)
      end
  end.

(** What a start task does with its ability, before it reports. *)
(* [services/safwk/src/local_ability_manager.cpp:723-733] LocalAbilityManager::StartSystemAbilityTask *)
Definition start_task_body (ability : ptr) : M unit :=
  match ability with
  | None => ret tt
  | Some l =>
      let! deps := get_sa GetDependSa l in
      match deps with
      | [] => Start l
      | _ :: _ => do! StartDependSaTask ability in ret tt
      end
  end.

(** The section under [startPhaseLock_]. *)
(* [services/safwk/src/local_ability_manager.cpp:735-738] LocalAbilityManager::StartSystemAbilityTask *)
Definition start_task_done : M unit :=
  modify (λ w, if 0 <? startTaskNum_ w then set_startTaskNum_ (startTaskNum_ w - 1) w else w).

(* [services/safwk/src/local_ability_manager.cpp:721-740] LocalAbilityManager::StartSystemAbilityTask *)
Definition StartSystemAbilityTask (ability : ptr) : M unit :=
  do! start_task_body ability in start_task_done.

(* [services/safwk/src/local_ability_manager.cpp:780-780] LocalAbilityManager::StartPhaseTasks *)
Definition count_task : M unit :=
  modify (λ w, set_startTaskNum_ (wrap32 (startTaskNum_ w + 1)) w).
(* [services/safwk/src/local_ability_manager.cpp:781-782] LocalAbilityManager::StartPhaseTasks *)
Definition queue_task (l : loc) : M unit := modify (λ w, set_initPool_ (initPool_ w ++ [l]) w).

(* [services/safwk/src/local_ability_manager.cpp:770-785] LocalAbilityManager::StartPhaseTasks *)
Definition StartPhaseTasks (systemAbilityList : list ptr) : M unit :=
  for_each (λ systemAbility : ptr,
    match systemAbility with
    | None => ret tt
    | Some l => do! count_task in queue_task l
    end) systemAbilityList.

(** The pool takes the [i]-th queued task and runs it. *)
Definition run_task (i : nat) : M unit :=
  let! q := gets initPool_ in
  match q !! i with
  | None => ret tt
  | Some l =>
      do! modify (set_initPool_ (delete i q)) in
      do! call (EvRunTask l) in
      StartSystemAbilityTask (Some l)
  end.

(** The wait on the condition variable, for at most [n] tasks; [false] on a
    timeout. *)
(* [services/safwk/src/local_ability_manager.cpp:791-793] LocalAbilityManager::WaitForTasks *)
Fixpoint wait_tasks (n : nat) : M bool :=
  let! num := gets startTaskNum_ in
  if num =? 0 then ret true
  else
    match n with
    | O => ret false
    | S n' =>
        let! q := gets initPool_ in
        let! r := call (EvWaitForTasks (Z.of_nat (length q))) in
        if (r =? 0) || bool_decide (q = []) then ret false
        else do! run_task (Z.to_nat (r mod Z.of_nat (length q))) in wait_tasks n'
    end.

(* [services/safwk/src/local_ability_manager.cpp:787-800] LocalAbilityManager::WaitForTasks *)
Definition WaitForTasks : M unit :=
  let! q := gets initPool_ in
  do! wait_tasks (length q) in
  modify (set_startTaskNum_ 0).

(** One phase of the loops of [FindAndStartPhaseTasks]. *)
(* [services/safwk/src/local_ability_manager.cpp:804-823] LocalAbilityManager::FindAndStartPhaseTasks *)
Definition start_phase_tasks (saId phase : Z) : M unit :=
  let! iter := gets (λ w, abilityPhaseMap_ w !! phase) in
  if saId =? DEFAULT_SAID then
    match iter with
    | Some l =>
        do! StartPhaseTasks l in
        do! InitializeRunOnCreateSaProfiles (phase + 1) in
        WaitForTasks
    | None => do! InitializeRunOnCreateSaProfiles (phase + 1) in ret tt
    end
  else
    match iter with
    | Some l => do! StartPhaseTasks l in WaitForTasks
    | None => ret tt
    end.

(* [services/safwk/src/local_ability_manager.cpp:802-824] LocalAbilityManager::FindAndStartPhaseTasks *)
Definition FindAndStartPhaseTasks (saId : Z) : M unit :=
  for_each (start_phase_tasks saId) [1; 2; 3].

(* [services/safwk/src/local_ability_manager.cpp:853-872] LocalAbilityManager::Run *)
Definition Run (saId : Z) : M bool :=
  let! addResult := AddLocalAbilityManager in
  if negb addResult then ret false
  else
    let! concurrentThreads := call EvHardwareConcurrency in
    do! call (EvPoolStart concurrentThreads) in
    do! RegisterOnDemandSystemAbility saId in
    do! FindAndStartPhaseTasks saId in
    do! call EvPoolStop in
    ret true.

(** ** What the theorems assume of the environment *)

(** [GetTickCount] counts milliseconds (up to the end of its range), never goes
    back, and a sleep takes its time; other code only appends to the trace. *)
Class SteadyClock : Prop := {
  tick_range h : 0 ≤ respond h EvGetTickCount ≤ INT64_MAX;
  tick_mono h es : respond h EvGetTickCount ≤ respond (h ++ es) EvGetTickCount;
  tick_sleep h us es :
    Z.min INT64_MAX (respond h EvGetTickCount + us / 1000) ≤ respond (h ++ EvSleep us :: es) EvGetTickCount;
  elapse_trace us w : ∃ es, trace (elapse us w).2 = trace w ++ es;
}.

(** The tasks the pool has run, in order. *)
Definition runs (h : list event) : list loc :=
  omap (λ e, match e with EvRunTask l => Some l | _ => None end) h.

(** The priorities the thread has set, in order. *)
Definition priorities (h : list event) : list Z :=
  omap (λ e, match e with EvSetPriority _ p => Some p | _ => None end) h.

Definition boot_view (w : world) := (initPool_ w, startTaskNum_ w, abilityPhaseMap_ w, runs (trace w)).

(** The code of the libraries and abilities does not touch the private members
    of the manager that the boot works on. *)
Class BootFrame : Prop := {
  OnStart_frame l r : keeps boot_view (OnStart l r);
  OpenSo_frame p : keeps boot_view (OpenSo p);
  elapse_frame us : keeps boot_view (elapse us);
}.

(** The abilities of a phase. *)
Definition phase_list (w : world) (phase : Z) : list loc :=
  omap id (default [] (abilityPhaseMap_ w !! phase)).

(** The world at the [k]-th look for the manager. *)
Fixpoint samgr_look (k : nat) (w : world) : world :=
  match k with
  | O => w
  | S k' => samgr_look k' (usleep 200000 (GetSystemAbilityManager w).2).2
  end.

(** ** Lemmas *)

Lemma runs_app h h' : runs (h ++ h') = runs h ++ runs h'.
Proof. apply omap_app. Qed.

Lemma wait_for_samgr_spec n w :
  (wait_for_samgr n (GetSystemAbilityManager w).1 (GetSystemAbilityManager w).2).1 = true ↔
  ∃ k, (k ≤ n)%nat ∧ respond (trace (samgr_look k w)) EvGetSystemAbilityManager ≠ 0.
Proof.
  revert w. induction n as [|n IH]; intros w; simpl;
    destruct (Z.eqb_spec (respond (trace w) EvGetSystemAbilityManager) 0) as [Hz|Hz]; simpl.
  - split; [done|]. intros ([|k] & Hk & Hr); [done|lia].
  - split; [|done]. by exists 0%nat.
  - unfold bind at 1. fold (GetSystemAbilityManager (Env0 := Env0)).
    set (w0 := set_trace _ w).
    assert (samgr_look 1 w = (usleep 200000 w0).2) as Hw1 by done.
    destruct (usleep 200000 w0) as [[] w1]. simpl in Hw1. specialize (IH w1).
    unfold bind at 1. destruct (GetSystemAbilityManager w1) as [p w2] eqn:E. simpl in IH. rewrite IH.
    split.
    + intros (k & Hk & Hr). exists (S k). split; [lia|]. simpl in Hw1 |- *. by rewrite Hw1.
    + intros ([|k] & Hk & Hr); [done|]. exists k. split; [lia|]. simpl in Hw1, Hr. by rewrite Hw1 in Hr.
  - split; [|done]. intros _. exists 0%nat. split; [lia|done].
Qed.

Lemma check_dependencies_trace deps w :
  ∃ es, (check_dependencies deps w).2 = set_trace (trace w ++ es) w.
Proof.
  revert w. induction deps as [|d deps IH]; [apply only_calls_ret|]. simpl.
  intros w. destruct (CheckInputSysAbilityId d); [|apply IH].
  revert w. apply only_calls_bind; [apply only_calls_call|]. intros o.
  apply only_calls_bind; [exact IH|]. intros. apply only_calls_ret.
Qed.

Lemma CheckDependencyStatus_calls deps : only_calls (CheckDependencyStatus deps).
Proof.
  apply only_calls_bind; [apply GetSystemAbilityManager_calls|].
  intros []; simpl; [intros w; apply check_dependencies_trace|apply only_calls_ret].
Qed.

Lemma wrap64_small x : 0 ≤ x ≤ INT64_MAX → wrap64 x = x.
Proof.
  unfold wrap64, wrap_s, INT64_MAX. intros Hx. change (2 ^ 64) with 18446744073709551616.
  change (2 ^ (64 - 1)) with 9223372036854775808. rewrite Z.mod_small by lia.
  destruct (Z.ltb_spec x 9223372036854775808); lia.
Qed.

(** The loop needs at most one pass per 50 ms of the timeout left. *)
Lemma depend_loop_terminates `{!SteadyClock} n l start timeout size w :
  0 ≤ start → start + 60000 ≤ INT64_MAX → start ≤ respond (trace w) EvGetTickCount → timeout ≤ 60000 →
  start + 60000 - 50 * (Z.of_nat n - 1) ≤ respond (trace w) EvGetTickCount → (0 < n)%nat →
  (depend_loop n l start timeout size w).1 = Some tt.
Proof.
  intros Hst0 Hmax Hst Hto. revert size w Hst. induction n as [|n IH]; intros size w Hst Hn Hp; [lia|].
  cbn [depend_loop]. destruct (Nat.ltb 0 size); [|done].
  unfold bind at 1, call at 1. set (w1 := set_trace _ w).
  pose proof (tick_range (trace w)) as Hr. unfold depend_duration.
  destruct (Z.leb_spec start (respond (trace w) EvGetTickCount)); [|lia].
  rewrite wrap64_small by lia.
  destruct (Z.ltb_spec (respond (trace w) EvGetTickCount - start) timeout) as [Hlt|]; [|done].
  assert (n ≠ 0%nat) as Hn0 by lia.
  unfold bind at 1, usleep, enter, bind at 1, call at 1.
  set (w2 := set_trace _ w1). destruct (elapse_trace 50000 w2) as [es Hes].
  destruct (elapse 50000 w2) as [[] w3]. simpl in Hes. unfold bind at 1, get_sa at 1.
  unfold bind at 1. destruct (CheckDependencyStatus_calls (dependSa_ (sa_at w3 l)) w3) as [es' He'].
  destruct (CheckDependencyStatus _ w3) as [temp w4]. simpl in He'. subst w4.
  assert (trace w3 ++ es' = trace w ++ EvGetTickCount :: EvSleep 50000 :: es ++ es') as Htr.
  { rewrite Hes. simpl. by rewrite <- !(assoc_L (++)). }
  assert (Z.min INT64_MAX (respond (trace w) EvGetTickCount + 50) ≤ respond (trace w3 ++ es') EvGetTickCount)
    as Htick.
  { rewrite Htr. pose proof (tick_mono (trace w) [EvGetTickCount]).
    pose proof (tick_sleep (trace w ++ [EvGetTickCount]) 50000 (es ++ es')) as Hsl.
    rewrite <- (assoc_L (++)) in Hsl. simpl in Hsl. change (50000 / 1000) with 50 in Hsl. lia. }
  apply IH; simpl; lia.
Qed.

(** ** Frames of the boot *)

Lemma boot_view_call e : (∀ l, e ≠ EvRunTask l) → keeps boot_view (call e).
Proof.
  intros He w. unfold boot_view. simpl. rewrite runs_app.
  destruct e; simpl; rewrite ?app_nil_r; try done. by destruct (He ability).
Qed.

Lemma boot_view_same (g : world → world) :
  (∀ w, initPool_ (g w) = initPool_ w ∧ startTaskNum_ (g w) = startTaskNum_ w ∧
        abilityPhaseMap_ (g w) = abilityPhaseMap_ w ∧ trace (g w) = trace w) →
  keeps boot_view (modify g).
Proof. intros Hg w. unfold boot_view. simpl. by destruct (Hg w) as (-> & -> & -> & ->). Qed.

Ltac keep_boot :=
  repeat match goal with
  | |- keeps _ (bind _ _) => apply keeps_bind; [|intros ?]
  | |- keeps _ (ret _) => apply keeps_ret
  | |- keeps _ (get_sa _ _) => apply keeps_get_sa
  | |- keeps _ (gets _) => apply keeps_gets
  | |- keeps _ (call _) => apply boot_view_call; intros ?; discriminate
  | |- keeps _ (modify _) => apply boot_view_same; intros ?; repeat split
  | |- keeps _ (if ?b then _ else _) => destruct b
  | |- keeps _ (match ?b with _ => _ end) => destruct b
  end.

Lemma GetOnDemandReasonExtraData_boot r : keeps boot_view (GetOnDemandReasonExtraData r).
Proof. unfold GetOnDemandReasonExtraData, GetSystemAbilityManager. keep_boot. Qed.

Lemma Start_boot `{!BootFrame} l : keeps boot_view (Start l).
Proof.
  unfold Start, Start_check, Start_body, Start_reason, Start_finish, put_sa, enter, json_reason.
  keep_boot; try apply GetOnDemandReasonExtraData_boot; try apply OnStart_frame.
  intros w. unfold GetStartReason. by case_match.
Qed.

Lemma check_dependencies_boot deps : keeps boot_view (check_dependencies deps).
Proof. induction deps as [|d deps IH]; simpl; keep_boot; apply IH. Qed.

Lemma CheckDependencyStatus_boot deps : keeps boot_view (CheckDependencyStatus deps).
Proof.
  unfold CheckDependencyStatus, GetSystemAbilityManager. keep_boot. apply check_dependencies_boot.
Qed.

Lemma depend_loop_boot `{!BootFrame} n l start timeout size :
  keeps boot_view (depend_loop n l start timeout size).
Proof.
  revert size. induction n as [|n IH]; intros size; simpl; unfold usleep, enter; keep_boot;
    try apply elapse_frame; try apply CheckDependencyStatus_boot; apply IH.
Qed.

Lemma StartDependSaTask_boot `{!BootFrame} p : keeps boot_view (StartDependSaTask p).
Proof.
  unfold StartDependSaTask. keep_boot;
    try apply CheckDependencyStatus_boot; try apply depend_loop_boot; apply Start_boot.
Qed.

Lemma keeps_view {A} (m : M A) w :
  keeps boot_view m →
  initPool_ (m w).2 = initPool_ w ∧ startTaskNum_ (m w).2 = startTaskNum_ w ∧
  abilityPhaseMap_ (m w).2 = abilityPhaseMap_ w ∧ runs (trace (m w).2) = runs (trace w).
Proof. intros Hm. specialize (Hm w). unfold boot_view in Hm. by injection Hm as -> -> -> ->. Qed.

Lemma start_task_body_boot `{!BootFrame} p : keeps boot_view (start_task_body p).
Proof. unfold start_task_body. keep_boot; [apply Start_boot|apply StartDependSaTask_boot]. Qed.

(** A task leaves the pool and the phases alone and counts itself off. *)
Lemma StartSystemAbilityTask_view `{!BootFrame} p w :
  let w' := (StartSystemAbilityTask p w).2 in
  initPool_ w' = initPool_ w ∧
  startTaskNum_ w' = (if 0 <? startTaskNum_ w then startTaskNum_ w - 1 else startTaskNum_ w) ∧
  abilityPhaseMap_ w' = abilityPhaseMap_ w ∧ runs (trace w') = runs (trace w).
Proof.
  unfold StartSystemAbilityTask, start_task_done. rewrite bind_run. cbn [snd modify].
  pose proof (keeps_view _ w (start_task_body_boot p)) as (<- & <- & <- & <-).
  by destruct (0 <? startTaskNum_ _).
Qed.

Lemma run_task_view `{!BootFrame} i l w :
  initPool_ w !! i = Some l → 0 < startTaskNum_ w →
  let w' := (run_task i w).2 in
  initPool_ w' = delete i (initPool_ w) ∧ startTaskNum_ w' = startTaskNum_ w - 1 ∧
  abilityPhaseMap_ w' = abilityPhaseMap_ w ∧ runs (trace w') = runs (trace w) ++ [l].
Proof.
  intros Hl Hn. unfold run_task. run_prog. rewrite Hl.
  match goal with |- context [StartSystemAbilityTask (Some l) ?w0] =>
    pose proof (StartSystemAbilityTask_view (Some l) w0) as Hv end.
  simpl in Hv. destruct (Z.ltb_spec 0 (startTaskNum_ w)); [|lia].
  rewrite runs_app in Hv. exact Hv.
Qed.

(** Without timeouts a wait runs the queued tasks, each once. *)
Lemma wait_tasks_view `{!BootFrame} n w :
  (∀ h k, 0 < respond h (EvWaitForTasks k)) →
  length (initPool_ w) = n → startTaskNum_ w = Z.of_nat n →
  let '(ok, w') := wait_tasks n w in
  ok = true ∧ initPool_ w' = [] ∧ startTaskNum_ w' = 0 ∧ abilityPhaseMap_ w' = abilityPhaseMap_ w ∧
  ∃ ls, runs (trace w') = runs (trace w) ++ ls ∧ ls ≡ₚ initPool_ w.
Proof.
  intros Hr. revert w. induction n as [|n IH]; intros w Hl Hn; cbn [wait_tasks]; unfold bind at 1, gets at 1;
    rewrite Hn; simpl.
  - split_and!; try done; [by apply nil_length_inv|]. exists []. rewrite app_nil_r.
    split; [done|]. by apply nil_length_inv in Hl as ->.
  - unfold bind at 1, gets at 1, bind at 1, call at 1. set (w1 := set_trace _ w).
    specialize (Hr (trace w) (Z.of_nat (length (initPool_ w)))).
    destruct (Z.eqb_spec (respond (trace w) (EvWaitForTasks (Z.of_nat (length (initPool_ w))))) 0); [lia|].
    rewrite bool_decide_eq_false_2 by (intros E; rewrite E in Hl; done). simpl.
    set (i := Z.to_nat _). destruct (lookup_lt_is_Some_2 (initPool_ w) i) as [l Hi].
    { unfold i. apply Nat2Z.inj_lt. rewrite Z2Nat.id; [apply Z.mod_pos_bound; lia|apply Z.mod_pos_bound; lia]. }
    unfold bind at 1. pose proof (run_task_view i l w1 Hi ltac:(simpl; lia)) as Hv.
    destruct (run_task i w1) as [[] w2]. simpl in Hv. destruct Hv as (Hp & Hs & Hm & Hru).
    specialize (IH w2). rewrite Hp, Hs, length_delete in IH by done.
    specialize (IH ltac:(lia) ltac:(lia)). destruct (wait_tasks n w2) as [ok w3].
    destruct IH as (-> & -> & -> & -> & ls & -> & Hls). split_and!; [done..|].
    exists (l :: ls). rewrite Hru, runs_app, app_nil_r, <- (assoc_L (++)). split; [done|].
    rewrite Hls. symmetry. by apply delete_Permutation.
Qed.

Lemma StartPhaseTasks_view l w :
  0 ≤ startTaskNum_ w → startTaskNum_ w + Z.of_nat (length l) ≤ INT32_MAX →
  let w' := (StartPhaseTasks l w).2 in
  initPool_ w' = initPool_ w ++ omap id l ∧
  startTaskNum_ w' = startTaskNum_ w + Z.of_nat (length (omap id l)) ∧
  abilityPhaseMap_ w' = abilityPhaseMap_ w ∧ runs (trace w') = runs (trace w).
Proof.
  revert w. induction l as [|[x|] l IH]; intros w Hn0 Hn.
  - simpl. by rewrite app_nil_r, Z.add_0_r.
  - set (w1 := set_initPool_ (initPool_ w ++ [x]) (set_startTaskNum_ (wrap32 (startTaskNum_ w + 1)) w)).
    assert (StartPhaseTasks (Some x :: l) w = StartPhaseTasks l w1) as -> by done.
    cbn [length] in Hn.
    assert (startTaskNum_ w1 = startTaskNum_ w + 1) as Hw1.
    { simpl. apply wrap32_id. unfold int32, INT32_MIN, INT32_MAX in *. lia. }
    specialize (IH w1 ltac:(lia) ltac:(lia)). cbv zeta in IH |- *. destruct IH as (-> & -> & -> & ->).
    rewrite Hw1. replace (omap id (Some x :: l)) with (x :: omap id l) by done. cbn [length].
    split_and!; [by simpl; rewrite <- (assoc_L (++))|lia|done..].
  - assert (StartPhaseTasks (None :: l) w = StartPhaseTasks l w) as -> by done.
    cbn [length] in Hn. apply IH; lia.
Qed.

(** Loading a phase touches only that phase's list. *)
Definition loads_phase (p : Z) (w w' : world) : Prop :=
  initPool_ w' = initPool_ w ∧ startTaskNum_ w' = startTaskNum_ w ∧ runs (trace w') = runs (trace w) ∧
  ∀ q, q ≠ p → abilityPhaseMap_ w' !! q = abilityPhaseMap_ w !! q.

#[local] Instance loads_phase_preorder p : PreOrder (loads_phase p).
Proof.
  split; [done|]. intros w1 w2 w3 (H1 & H2 & H3 & H4) (H1' & H2' & H3' & H4').
  unfold loads_phase. rewrite H1', H2', H3'. split_and!; [done..|].
  intros q Hq. by rewrite H4', H4.
Qed.

Lemma InitializeInner_loads pr : respects (loads_phase (bootPhase pr)) (InitializeSaProfilesInnerLocked pr).
Proof.
  intros w. unfold InitializeSaProfilesInnerLocked. run_prog.
  destruct (localAbilityMap_ w !! saId pr) as [[l|]|]; simpl; try reflexivity.
  destruct (OTHER_START <? bootPhase pr); simpl; [reflexivity|]. split_and!; try done.
  intros q Hq. simpl. by rewrite lookup_insert_ne.
Qed.

Lemma InitializeRunOnCreate_loads `{!BootFrame} p :
  respects (loads_phase p) (InitializeRunOnCreateSaProfiles p).
Proof.
  unfold InitializeRunOnCreateSaProfiles. destruct (OTHER_START <? p); [apply respects_ret, _|].
  assert (respects (loads_phase p) (enter (EvOpenSo p) (OpenSo p))) as Ho.
  { intros w. unfold loads_phase. assert (keeps boot_view (enter (EvOpenSo p) (OpenSo p))) as Hk.
    { unfold enter. keep_boot. apply OpenSo_frame. }
    destruct (keeps_view _ w Hk) as (-> & -> & -> & ->). done. }
  apply respects_bind; [apply _|exact Ho|intros []].
  apply respects_bind; [apply _|apply respects_gets, _|intros prs].
  case_decide; [apply respects_ret, _|].
  apply respects_bind; [apply _| |intros; apply respects_ret, _].
  apply respects_for_each; [apply _|]. intros pr. unfold load_profile.
  destruct (decide (bootPhase pr ≠ p)) as [|He].
  - apply respects_ret, _.
  - apply respects_bind; [apply _| |intros; apply respects_ret, _].
    assert (bootPhase pr = p) as <- by (destruct (decide (bootPhase pr = p)); tauto).
    apply InitializeInner_loads.
Qed.

(** One phase of a default boot. *)
Definition phase_done (p : Z) (w w' : world) : Prop :=
  initPool_ w' = [] ∧ startTaskNum_ w' = 0 ∧
  (∀ q, q ≠ p + 1 → abilityPhaseMap_ w' !! q = abilityPhaseMap_ w !! q) ∧
  ∃ ls, runs (trace w') = runs (trace w) ++ ls ∧ ls ≡ₚ phase_list w p.

Lemma start_phase_view `{!BootFrame} p w :
  (∀ h k, 0 < respond h (EvWaitForTasks k)) → initPool_ w = [] → startTaskNum_ w = 0 →
  Z.of_nat (length (default [] (abilityPhaseMap_ w !! p))) ≤ INT32_MAX →
  phase_done p w (start_phase_tasks DEFAULT_SAID p w).2.
Proof.
  intros Hr Hp Hs Hn. unfold start_phase_tasks.
  pose proof (InitializeRunOnCreate_loads (p + 1)) as Hi.
  unfold gets at 1, bind at 1. cbv beta iota. change (DEFAULT_SAID =? DEFAULT_SAID) with true. cbv iota.
  destruct (abilityPhaseMap_ w !! p) as [l|] eqn:El; simpl in Hn.
  - pose proof (StartPhaseTasks_view l w ltac:(lia) ltac:(lia)) as Hv. cbv zeta in Hv.
    unfold bind at 1. destruct (StartPhaseTasks l w) as [[] w1]. simpl in Hv.
    rewrite Hp, Hs in Hv. simpl in Hv. destruct Hv as (Hp1 & Hs1 & Hm1 & Hr1).
    unfold bind at 1. specialize (Hi w1). destruct (InitializeRunOnCreateSaProfiles (p + 1) w1) as [b w2].
    destruct Hi as (Hp2 & Hs2 & Hr2 & Hm2). simpl in *.
    unfold WaitForTasks, gets at 1, bind at 1 2. cbv beta iota.
    pose proof (wait_tasks_view (length (initPool_ w2)) w2 Hr eq_refl) as Hw.
    rewrite Hs2, Hs1, Hp2, Hp1 in Hw. specialize (Hw eq_refl). rewrite Hp2, Hp1.
    destruct (wait_tasks (length (omap id l)) w2) as [ok w3].
    destruct Hw as (_ & Hp3 & _ & Hm3 & ls & Hr3 & Hls). unfold modify. simpl. split_and!; [done|done| |].
    + intros q Hq. simpl. by rewrite Hm3, Hm2, Hm1.
    + exists ls. simpl. rewrite Hr3, Hr2, Hr1. split; [done|]. unfold phase_list. by rewrite El.
  - unfold bind at 1. specialize (Hi w). destruct (InitializeRunOnCreateSaProfiles (p + 1) w) as [b w2].
    destruct Hi as (Hp2 & Hs2 & Hr2 & Hm2). simpl in *. split_and!; [congruence|congruence|exact Hm2|].
    exists []. unfold phase_list. by rewrite El, app_nil_r.
Qed.

(** A phase changes at most the list of the next one, however its wait ends. *)
Definition map_except (p : Z) (w w' : world) : Prop :=
  ∀ q, q ≠ p → abilityPhaseMap_ w' !! q = abilityPhaseMap_ w !! q.
#[local] Instance map_except_preorder p : PreOrder (map_except p).
Proof. split; [done|]. intros w1 w2 w3 H1 H2 q Hq. by rewrite H2, H1. Qed.

Lemma map_except_keeps p {A} (m : M A) : keeps abilityPhaseMap_ m → respects (map_except p) m.
Proof. intros Hm w q Hq. by rewrite Hm. Qed.

Lemma run_task_map `{!BootFrame} i : keeps abilityPhaseMap_ (run_task i).
Proof.
  intros w. unfold run_task. run_prog. destruct (initPool_ w !! i) as [l|]; [|done].
  match goal with |- context [StartSystemAbilityTask (Some l) ?w0] =>
    by destruct (StartSystemAbilityTask_view (Some l) w0) as (_ & _ & -> & _) end.
Qed.

Lemma wait_tasks_map `{!BootFrame} n : keeps abilityPhaseMap_ (wait_tasks n).
Proof.
  induction n as [|n IH]; cbn [wait_tasks]; (apply keeps_bind; [done|intros num]);
    destruct (num =? 0); try done.
  apply keeps_bind; [done|intros q]. apply keeps_bind; [done|intros r].
  destruct (_ || _); [done|]. apply keeps_bind; [apply run_task_map|done].
Qed.

Lemma StartPhaseTasks_map l : keeps abilityPhaseMap_ (StartPhaseTasks l).
Proof. apply keeps_for_each. by intros [x|]. Qed.

Lemma start_phase_map `{!BootFrame} p : respects (map_except (p + 1)) (start_phase_tasks DEFAULT_SAID p).
Proof.
  assert (respects (map_except (p + 1)) (InitializeRunOnCreateSaProfiles (p + 1))) as Hi.
  { intros w. by destruct (InitializeRunOnCreate_loads (p + 1) w) as (_ & _ & _ & Hm). }
  assert (respects (map_except (p + 1)) WaitForTasks) as Hw.
  { apply map_except_keeps. apply keeps_bind; [done|intros q].
    apply keeps_bind; [apply wait_tasks_map|by intros]. }
  unfold start_phase_tasks. apply respects_bind; [apply _|apply respects_gets, _|intros [l|]]; simpl.
  - apply respects_bind; [apply _|apply map_except_keeps, StartPhaseTasks_map|intros _].
    by apply respects_bind; [apply _| |intros _].
  - apply respects_bind; [apply _|exact Hi|intros _]. apply respects_ret, _.
Qed.

(** The ability a profile contributes to the list of a phase. *)
Definition loaded_ability (p : Z) (w : world) (pr : SaProfile) : option ptr :=
  if decide (bootPhase pr = p)
  then match localAbilityMap_ w !! saId pr with Some (Some l) => Some (Some l) | _ => None end
  else None.

Lemma load_profile_run p pr w :
  p ≤ OTHER_START →
  (load_profile p pr w).2 =
  match loaded_ability p w pr with
  | Some x => set_abilityPhaseMap_ (<[p := default [] (abilityPhaseMap_ w !! p) ++ [x]]> (abilityPhaseMap_ w)) w
  | None => w
  end.
Proof.
  intros Hp. unfold load_profile, loaded_ability.
  destruct (decide (bootPhase pr = p)) as [He|He]; [|by rewrite decide_True].
  rewrite decide_False by tauto. rewrite bind_run.
  unfold InitializeSaProfilesInnerLocked. rewrite bind_run. cbn [gets fst snd].
  destruct (localAbilityMap_ w !! saId pr) as [[l|]|]; try done.
  destruct (Z.ltb_spec OTHER_START (bootPhase pr)); [lia|]. by rewrite He.
Qed.

Lemma load_profiles_run p prs w :
  p ≤ OTHER_START →
  let w' := (for_each (load_profile p) prs w).2 in
  default [] (abilityPhaseMap_ w' !! p) = default [] (abilityPhaseMap_ w !! p) ++ omap (loaded_ability p w) prs ∧
  (∀ q, q ≠ p → abilityPhaseMap_ w' !! q = abilityPhaseMap_ w !! q) ∧
  localAbilityMap_ w' = localAbilityMap_ w ∧ trace w' = trace w.
Proof.
  intros Hp. revert w. induction prs as [|pr prs IH]; intros w; cbv zeta.
  { simpl. by rewrite app_nil_r. }
  cbn [for_each]. rewrite bind_run, load_profile_run by done. simpl.
  destruct (loaded_ability p w pr) as [x|]; [|apply IH].
  match goal with |- context [for_each _ prs ?w0] => destruct (IH w0) as (-> & Hq & -> & ->) end.
  simpl. rewrite lookup_insert_eq. simpl. split_and!; try done.
  - by rewrite <- (assoc_L (++)).
  - intros q Hqp. rewrite Hq by done. simpl. by rewrite lookup_insert_ne.
Qed.

Lemma StartDependSaTask_run l w :
  let w1 := set_trace (trace w ++ [EvGetTickCount]) w in
  let c1 := CheckDependencyStatus (dependSa_ (sa_at w1 l)) w1 in
  let r := depend_loop fuel l (respond (trace w) EvGetTickCount) (dependTimeout_ (sa_at w1 l))
             (length c1.1) c1.2 in
  StartDependSaTask (Some l) w =
  match r.1 with
  | None => (None, r.2)
  | Some _ =>
      let c2 := CheckDependencyStatus (dependSa_ (sa_at r.2 l)) r.2 in
      (Some tt, match c2.1 with [] => (Start l c2.2).2 | _ :: _ => c2.2 end)
  end.
Proof.
  cbv zeta. unfold StartDependSaTask. rewrite bind_run. cbn [call fst snd].
  rewrite bind_run. cbn [get_sa fst snd]. rewrite bind_run. cbn [get_sa fst snd].
  rewrite bind_run. cbn [fst snd]. rewrite bind_run. destruct (depend_loop _ _ _ _ _ _) as [[[]|] w2]; [|done].
  cbn [fst snd]. rewrite bind_run. cbn [get_sa fst snd]. rewrite bind_run.
  destruct (CheckDependencyStatus _ w2) as [m w3]. cbn [fst snd]. rewrite bind_run. by destruct m.
Qed.

(** ** Properties *)

(** C16: a default boot starts the abilities phase by phase: when no wait times out,
    the tasks the pool runs are, in order, all abilities of phase 1, then all
    of phase 2, then all of phase 3, each once and within a phase in any
    order; at the end no task is left queued or counted.  The abilities of
    later phases are loaded while earlier ones start. *)
Theorem boot_phase_order `{!BootFrame} w :
  (∀ h k, 0 < respond h (EvWaitForTasks k)) → initPool_ w = [] → startTaskNum_ w = 0 →
  let w' := (FindAndStartPhaseTasks DEFAULT_SAID w).2 in
  (∀ p l, abilityPhaseMap_ w' !! p = Some l → Z.of_nat (length l) ≤ INT32_MAX) →
  initPool_ w' = [] ∧ startTaskNum_ w' = 0 ∧
  ∃ l1 l2 l3, runs (trace w') = runs (trace w) ++ l1 ++ l2 ++ l3 ∧
    l1 ≡ₚ phase_list w' 1 ∧ l2 ≡ₚ phase_list w' 2 ∧ l3 ≡ₚ phase_list w' 3.
Proof.
  intros Hr Hp Hs. cbv zeta.
  set (w1 := (start_phase_tasks DEFAULT_SAID 1 w).2).
  set (w2 := (start_phase_tasks DEFAULT_SAID 2 w1).2).
  set (w3 := (start_phase_tasks DEFAULT_SAID 3 w2).2).
  assert ((FindAndStartPhaseTasks DEFAULT_SAID w).2 = w3) as ->.
  { unfold w3, w2, w1, FindAndStartPhaseTasks. cbn [for_each]. unfold bind at 1.
    destruct (start_phase_tasks DEFAULT_SAID 1 w) as [[] ?]. unfold bind at 1.
    destruct (start_phase_tasks DEFAULT_SAID 2 _) as [[] ?]. unfold bind at 1.
    by destruct (start_phase_tasks DEFAULT_SAID 3 _) as [[] ?]. }
  intros Hlen. assert (∀ p, Z.of_nat (length (default [] (abilityPhaseMap_ w3 !! p))) ≤ INT32_MAX) as Hlen'.
  { intros p. destruct (abilityPhaseMap_ w3 !! p) eqn:E; [by eapply Hlen|done]. }
  assert (∀ q u v, abilityPhaseMap_ u !! q = abilityPhaseMap_ v !! q → phase_list u q = phase_list v q) as Hpl.
  { intros q u v Hq. unfold phase_list. by rewrite Hq. }
  pose proof (start_phase_map 1 w) as M1. pose proof (start_phase_map 2 w1) as M2.
  pose proof (start_phase_map 3 w2) as M3. fold w1 in M1. fold w2 in M2. fold w3 in M3.
  destruct (start_phase_view 1 w Hr Hp Hs) as (Hp1 & Hs1 & _ & l1 & Hr1 & Hl1).
  { rewrite <- M1, <- M2, <- M3 by lia. apply Hlen'. }
  destruct (start_phase_view 2 w1 Hr Hp1 Hs1) as (Hp2 & Hs2 & _ & l2 & Hr2 & Hl2).
  { rewrite <- M2, <- M3 by lia. apply Hlen'. }
  destruct (start_phase_view 3 w2 Hr Hp2 Hs2) as (Hp3 & Hs3 & _ & l3 & Hr3 & Hl3).
  { rewrite <- M3 by lia. apply Hlen'. }
  split_and!; [exact Hp3|exact Hs3|]. exists l1, l2, l3. split_and!.
  - unfold w3. rewrite Hr3. unfold w2. rewrite Hr2. unfold w1. rewrite Hr1. by rewrite <- !(assoc_L (++)).
  - rewrite Hl1. erewrite (Hpl 1 w3 w); [done|]. by rewrite M3, M2, M1 by lia.
  - rewrite Hl2. erewrite (Hpl 2 w3 w1); [done|]. by rewrite M3, M2 by lia.
  - rewrite Hl3. erewrite (Hpl 3 w3 w2); [done|]. by rewrite M3 by lia.
Qed.

(** Loading a phase opens its libraries and then puts into the phase's list, in
    profile order and behind what is there, exactly the abilities that have a
    profile of this phase and are registered with a non-null object; it fails
    without profiles and for phases after the last. *)
Theorem load_phase_spec p w :
  let '(ok, w') := InitializeRunOnCreateSaProfiles p w in
  if OTHER_START <? p then ok = false ∧ w' = w
  else
    let w1 := (enter (EvOpenSo p) (OpenSo p) w).2 in
    let prs := GetAllSaProfiles (profileParser_ w1) in
    let new := omap (loaded_ability p w1) prs in
    ok = negb (bool_decide (prs = [])) ∧
    default [] (abilityPhaseMap_ w' !! p) = default [] (abilityPhaseMap_ w1 !! p) ++ new ∧
    (∀ q, q ≠ p → abilityPhaseMap_ w' !! q = abilityPhaseMap_ w1 !! q) ∧
    localAbilityMap_ w' = localAbilityMap_ w1 ∧ trace w' = trace w1.
Proof.
  unfold InitializeRunOnCreateSaProfiles. destruct (Z.ltb_spec OTHER_START p) as [|Hp]; [done|].
  rewrite bind_run. set (w1 := (enter (EvOpenSo p) (OpenSo p) w).2). cbv zeta.
  rewrite bind_run. cbn [gets fst snd]. pose proof (load_profiles_run p (GetAllSaProfiles (profileParser_ w1)) w1 Hp) as Hl.
  destruct (decide (GetAllSaProfiles (profileParser_ w1) = [])) as [He|He].
  { rewrite He in Hl |- *. by rewrite bool_decide_eq_true_2. }
  rewrite bool_decide_eq_false_2 by done. rewrite bind_run. by split.
Qed.

(** The process waits for the system ability manager by looking for it at most
    51 times, 200 ms apart, and goes on iff one of these looks finds it. *)
Theorem samgr_ready_spec w :
  (CheckSystemAbilityManagerReady w).1 = true ↔
  ∃ k, (k ≤ 50)%nat ∧ respond (trace (samgr_look k w)) EvGetSystemAbilityManager ≠ 0.
Proof.
  unfold CheckSystemAbilityManagerReady. rewrite bind_run. apply wait_for_samgr_spec.
Qed.

(** The ids a dependency check reports are, in order, the valid ids for which
    the manager has no object; ids outside the range of ability ids count as
    available, and without a manager everything counts as missing. *)
Theorem check_dependency_spec (up : Z → bool) deps w :
  (∀ h d, (respond h (EvCheckSystemAbility d) =? 0) = negb (up d)) →
  (CheckDependencyStatus deps w).1 =
  if respond (trace w) EvGetSystemAbilityManager =? 0 then deps
  else filter (λ d, CheckInputSysAbilityId d = true ∧ up d = false) deps.
Proof.
  intros Hup. unfold CheckDependencyStatus, GetSystemAbilityManager. run_prog.
  destruct (respond (trace w) EvGetSystemAbilityManager =? 0); simpl; [done|].
  generalize (set_trace (trace w ++ [EvGetSystemAbilityManager]) w). clear w.
  induction deps as [|d deps IH]; intros w; [done|]. cbn [check_dependencies]. rewrite filter_cons.
  destruct (CheckInputSysAbilityId d) eqn:Ed.
  - rewrite bind_run. unfold call. cbn [fst snd]. rewrite bind_run. cbn [ret fst snd]. rewrite IH, Hup.
    destruct (up d) eqn:Eu; case_decide; naive_solver.
  - rewrite IH. case_decide; naive_solver.
Qed.

(** C29: a start task with dependencies that is not begun in the last minute of the
    tick counter always ends, within 1201 passes of its loop however the dependencies come and go, and it starts its ability exactly
    when the final check finds nothing missing. *)
Theorem depend_task_terminates `{!SteadyClock} l w :
  (1201 ≤ fuel)%nat → dependTimeout_ (sa_at w l) ≤ MAX_DEPENDENCY_TIMEOUT →
  respond (trace w) EvGetTickCount + 60000 ≤ INT64_MAX →
  ∃ w1, StartDependSaTask (Some l) w =
    (Some tt, let '(missing, w2) := CheckDependencyStatus (dependSa_ (sa_at w1 l)) w1 in
              match missing with [] => (Start l w2).2 | _ :: _ => w2 end).
Proof.
  intros Hf Hto Hmax. pose proof (StartDependSaTask_run l w) as Hrun. cbv zeta in Hrun.
  set (w1 := set_trace _ w) in Hrun. set (c1 := CheckDependencyStatus _ w1) in Hrun.
  destruct (CheckDependencyStatus_calls (dependSa_ (sa_at w1 l)) w1) as [es Hes]. fold c1 in Hes.
  assert (respond (trace w) EvGetTickCount ≤ respond (trace c1.2) EvGetTickCount) as Ht.
  { rewrite Hes. unfold w1. simpl. rewrite <- (assoc_L (++)). apply tick_mono. }
  pose proof (tick_range (trace w)) as Hr. unfold MAX_DEPENDENCY_TIMEOUT in Hto.
  assert ((depend_loop fuel l (respond (trace w) EvGetTickCount) (dependTimeout_ (sa_at w1 l))
    (length c1.1) c1.2).1 = Some tt) as Hd.
  { clear Hrun. apply depend_loop_terminates; try done; lia. }
  set (r := depend_loop _ _ _ _ _ _) in *. rewrite Hd in Hrun. rewrite Hrun. exists r.2. f_equal.
  by destruct (CheckDependencyStatus (dependSa_ (sa_at r.2 l)) r.2) as [[] ?].
Qed.

(** The formula for a tick counter that has gone back overflows [int64_t]
    whenever it is used: the exact value is above [INT64_MAX], and what is
    computed is negative, so that the wait goes on. *)
Theorem depend_duration_overflows start end_ :
  0 ≤ end_ < start → start ≤ INT64_MAX →
  INT64_MAX - end_ + start > INT64_MAX ∧ depend_duration start end_ < 0.
Proof.
  intros He Hs. split; [lia|]. unfold depend_duration. destruct (Z.leb_spec start end_); [lia|].
  rewrite (wrap64_small (INT64_MAX - end_)) by lia. unfold wrap64, wrap_s, INT64_MAX in *.
  change (2 ^ 64) with 18446744073709551616. change (2 ^ (64 - 1)) with 9223372036854775808.
  rewrite Z.mod_small by lia. destruct (Z.ltb_spec (9223372036854775807 - end_ + start) 9223372036854775808); lia.
Qed.

(** With the build flag, the library of an on-demand start is loaded at the raised
    priority, and the thread goes back to the normal one on every path, whatever the
    library does and whether or not it loads; without it no priority is set. *)
Theorem thread_prio_restored id w :
  let w1 := (if_qos (SetThreadPrio OPEN_SO_PRIO) w).2 in
  let w2 := (enter (EvLoadSaLib id) (LoadSaLib id) w1).2 in
  let w' := (InitializeOnDemandSaProfile id w).2 in
  if SAFWK_ENABLE_RUN_ON_DEMAND_QOS then
    last (priorities (trace w1)) = Some OPEN_SO_PRIO ∧ last (priorities (trace w')) = Some NORMAL_PRIO
  else w1 = w ∧ trace w' = trace w2.
Proof.
  assert (∀ (b : bool) (w : world), trace ((if negb b then ret false
    else let! saProfile := gets (λ w, GetProfile id (profileParser_ w)) in
         match saProfile with None => ret false | Some saProfile => InitializeSaProfilesInnerLocked saProfile end) w).2
      = trace w) as Hp.
  { intros b w0. destruct b; [|done]. cbn [negb]. rewrite bind_run. cbn [gets fst snd].
    destruct (GetProfile id _); [|done]. unfold InitializeSaProfilesInnerLocked. run_prog. by repeat case_match. }
  assert (∀ p (w : world), last (priorities (trace (SetThreadPrio p w).2)) = Some p) as Hs.
  { intros p w0. unfold SetThreadPrio, priorities. run_prog. rewrite omap_app. apply last_snoc. }
  intros w1 w2 w'. unfold w', w2, w1, InitializeOnDemandSaProfile, if_qos.
  destruct SAFWK_ENABLE_RUN_ON_DEMAND_QOS; rewrite !bind_run, Hp; [by rewrite !Hs|done].
Qed.

(** With a trust configuration that parses and is not empty, exactly the
    profiles of abilities trusted in this process stay loadable; without one,
    all do. *)
Theorem trust_filter `{!ParseUtilLaws U} path process w :
  let w' := (CheckTrustSa path process (GetAllSaProfiles (profileParser_ w)) w).2 in
  GetAllSaProfiles (profileParser_ w') =
  match ParseTrustConfig path (profileParser_ w) with
  | Some m => if decide (m = ∅) then GetAllSaProfiles (profileParser_ w)
              else filter (λ p, saId p ∈ default ∅ (m !! Str8ToStr16 process))
                     (GetAllSaProfiles (profileParser_ w))
  | None => GetAllSaProfiles (profileParser_ w)
  end.
Proof.
  cbv zeta. unfold CheckTrustSa. rewrite bind_run. cbn [gets fst snd].
  destruct (ParseTrustConfig path (profileParser_ w)) as [m|]; [|done].
  destruct (decide (m = ∅)); [done|].
  change (match m !! Str8ToStr16 process with Some s => s | None => ∅ end)
    with (default ∅ (m !! Str8ToStr16 process)).
  set (S := default ∅ _).
  assert (∀ prs (w : world), GetAllSaProfiles (profileParser_ (for_each (λ saInfo,
      if decide (saId saInfo ∈ S) then ret tt
      else modify (λ w, set_profileParser_ (RemoveSaProfile (saId saInfo) (profileParser_ w)) w)) prs w).2) =
    filter (λ p, Forall (λ q, saId q = saId p → saId q ∈ S) prs) (GetAllSaProfiles (profileParser_ w))) as Hf.
  { clear w. induction prs as [|q prs IH]; intros w.
    - simpl. symmetry. by apply filter_all.
    - cbn [for_each]. rewrite bind_run, IH. destruct (decide (saId q ∈ S)) as [Hq|Hq]; cbn [ret modify snd].
      + apply list_filter_iff. intros p. rewrite Forall_cons. naive_solver.
      + simpl. rewrite GetAllSaProfiles_Remove, list_filter_filter. apply list_filter_iff. intros p.
        rewrite Forall_cons. naive_solver congruence. }
  rewrite Hf. apply filter_ext_in. intros p Hp. rewrite Forall_forall. split; [intros Hq; by apply Hq|].
  by intros Hs q _ ->.
Qed.

(** Registering on-demand abilities tells the manager, in profile order, exactly
    the abilities this process will not start itself: without a given ability
    those that do not run on create, and otherwise all but the given one,
    run-on-create or not; nothing else changes. *)
Theorem register_on_demand_spec said w :
  (RegisterOnDemandSystemAbility said w).2 =
  set_trace (trace w ++ EvGetSystemAbilityManager ::
    if respond (trace w) EvGetSystemAbilityManager =? 0 then []
    else (λ pr, EvAddOnDemandSystemAbilityInfo (saId pr) (procName_ w)) <$>
      filter (λ pr, (said = DEFAULT_SAID ∧ runOnCreate pr = false) ∨ (said ≠ DEFAULT_SAID ∧ saId pr ≠ said))
        (GetAllSaProfiles (profileParser_ w))) w.
Proof.
  unfold RegisterOnDemandSystemAbility, GetSystemAbilityManager. rewrite bind_run. cbn [bind call ret fst snd].
  destruct (respond (trace w) EvGetSystemAbilityManager =? 0); [done|]. cbn [negb].
  rewrite bind_run. cbn [gets fst snd]. set (w0 := set_trace _ w).
  change (procName_ w) with (procName_ w0). change (profileParser_ w) with (profileParser_ w0).
  assert (∀ l h, set_trace (h ++ l) w = set_trace (h ++ l) w0) as Hset by (by destruct w).
  rewrite cons_middle, (assoc_L (++)), Hset. change (trace w ++ [EvGetSystemAbilityManager]) with (trace w0).
  generalize (GetAllSaProfiles (profileParser_ w0)) as prs. generalize w0. clear. intros w prs.
  revert w. induction prs as [|pr prs IH]; intros w; cbn [for_each].
  { simpl. by rewrite app_nil_r, set_trace_trace. }
  rewrite bind_run, filter_cons.
  assert (NeedRegisterOnDemand pr said = bool_decide ((said = DEFAULT_SAID ∧ runOnCreate pr = false) ∨
    (said ≠ DEFAULT_SAID ∧ saId pr ≠ said))) as ->.
  { unfold NeedRegisterOnDemand. destruct (Z.eqb_spec said DEFAULT_SAID), (Z.eqb_spec (saId pr) said),
      (runOnCreate pr); case_bool_decide; naive_solver. }
  destruct (decide ((said = DEFAULT_SAID ∧ runOnCreate pr = false) ∨
    (said ≠ DEFAULT_SAID ∧ saId pr ≠ said))) as [Hd|Hd].
  - rewrite bool_decide_eq_true_2 by exact Hd. rewrite bind_run. cbn [gets fst snd]. rewrite bind_run.
    cbn [call ret fst snd]. rewrite IH. simpl. rewrite set_trace_twice. by rewrite <- (assoc_L (++)).
  - rewrite bool_decide_eq_false_2 by exact Hd. apply IH.
Qed.
End boot.

(** ** Witnesses *)

Import DemoDefs DemoProfiles.

(** A clock that advances with the sleeps, and a pool that runs the last task. *)
Definition slept (h : list event) : Z :=
  foldr (λ e z, match e with EvSleep us => Z.max 0 (us / 1000) + z | _ => z end) 0 h.
Definition ticking_respond (h : list event) (e : event) : Z :=
  match e with
  | EvGetTickCount => Z.min (slept h) INT64_MAX
  | EvWaitForTasks n => 1
  | _ => DemoEnv.demo_respond h e
  end.
Definition booting_env := DemoEnv.demo_env ticking_respond (λ _ _, ret tt).

#[export] Instance booting_frame : BootFrame (Env0 := booting_env).
Proof. by split. Qed.

(** Two registered abilities, of phases 1 and 3. *)
Definition booting : DemoEnv.dworld :=
  set_abilityPhaseMap_ {[1 := [Some 1%positive; Some 2%positive]; 3 := [Some 3%positive]]}
    (set_heap {[1%positive := new_SystemAbility 401 true; 2%positive := new_SystemAbility 402 true;
                3%positive := SetDependSa [401] (new_SystemAbility 403 true)]}
      (new_LocalAbilityManager (mk_du [100] [] None))).

Lemma boot_phase_order_witness :
  let w' := (FindAndStartPhaseTasks (Env0 := booting_env) 10 DEFAULT_SAID booting).2 in
  runs (trace w') = [2; 1; 3]%positive ∧
  ∃ l1 l2 l3, runs (trace w') = l1 ++ l2 ++ l3 ∧
    l1 ≡ₚ phase_list w' 1 ∧ l2 ≡ₚ phase_list w' 2 ∧ l3 ≡ₚ phase_list w' 3.
Proof.
  split; [vm_compute; reflexivity|].
  apply (boot_phase_order (Env0 := booting_env) 10 booting); [done|reflexivity|reflexivity|].
  assert (abilityPhaseMap_ (FindAndStartPhaseTasks (Env0 := booting_env) 10 DEFAULT_SAID booting).2 =
    {[1 := [Some 1%positive; Some 2%positive]; 3 := [Some 3%positive]]}) as -> by (vm_compute; reflexivity).
  intros p l [[_ <-]|[_ [_ <-]%lookup_singleton_Some]]%lookup_insert_Some; by vm_compute.
Defined.

Lemma check_dependency_spec_witness :
  (CheckDependencyStatus (Env0 := booting_env) [401; 0; -5] booting).1 = [0].
Proof.
  rewrite (check_dependency_spec (Env0 := booting_env) (λ d, negb (d =? 0)) [401; 0; -5] booting);
    [vm_compute; reflexivity|].
  intros h d. simpl. by destruct (d =? 0).
Defined.

Lemma slept_app h h' : slept (h ++ h') = slept h + slept h'.
Proof. induction h as [|e h IH]; simpl; [done|]. destruct e; lia. Qed.

Lemma slept_nonneg h : 0 ≤ slept h.
Proof. induction h as [|e h IH]; simpl; [done|]. destruct e; lia. Qed.

#[export] Instance booting_clock : SteadyClock (Env0 := booting_env).
Proof.
  split; unfold respond; simpl; intros.
  - pose proof (slept_nonneg h). unfold INT64_MAX. lia.
  - rewrite slept_app. pose proof (slept_nonneg es). lia.
  - rewrite slept_app. simpl. pose proof (slept_nonneg es). lia.
  - exists []. by rewrite app_nil_r.
Qed.

Lemma depend_duration_overflows_witness : depend_duration 10 5 < 0.
Proof.
  exact (proj2 (depend_duration_overflows 10 5 ltac:(lia) ltac:(vm_compute; discriminate))).
Defined.

(** Ability 403 depends on 401, which is there. *)
Lemma depend_task_terminates_witness :
  isRunning_ (sa_at (StartDependSaTask (Env0 := booting_env) 1201 (Some 3%positive) booting).2 3%positive) = true ∧
  (StartDependSaTask (Env0 := booting_env) 1201 (Some 3%positive) booting).1 = Some tt.
Proof.
  split; [vm_compute; reflexivity|].
  destruct (depend_task_terminates (Env0 := booting_env) 1201 3%positive booting) as [w1 ->];
    [lia|vm_compute; discriminate|vm_compute; discriminate|reflexivity].
Defined.

(** Only ability 401 is trusted in the process. *)
Lemma trust_filter_witness :
  let ps := [demo_profile 401 true 1 [] (-1); demo_profile 402 true 1 [] (-1)] in
  let w := set_profileParser_ (mk_du [100] ps (Some {[[100] := {[401]}]})) booting in
  GetAllSaProfiles (profileParser_ (CheckTrustSa "" "" ps w).2) = [demo_profile 401 true 1 [] (-1)].
Proof.
  intros ps w.
  pose proof (trust_filter "" "" w) as H. cbv zeta in H.
  change (GetAllSaProfiles (profileParser_ w)) with ps in H. rewrite H. vm_compute. reflexivity.
Defined.
