(* ===== verification/StartPhase.v ===== *)
(** * StartPhase: the phases of a boot under every interleaving

    [Boot.v] runs the start tasks one at a time, inside the wait of their phase.
    Here the boot thread and the tasks of the pool are interleaved: the boot
    thread queues the abilities of a phase, loads the libraries of the next one
    while the tasks already run, and waits on [startPhaseCV_] until
    [startTaskNum_] is zero or the time is up
    ([StartPhaseTasks], [WaitForTasks], [FindAndStartPhaseTasks] and
    [StartSystemAbilityTask] in [services/safwk/src/local_ability_manager.cpp]).

    A step is one section between two points at which other threads can get in;
    the sections are those of [Boot.v].  The only step that keeps
    [startPhaseLock_] is the one before [AddTask], which may have to wait for
    room in the pool while it holds the lock ([BPush]). *)

From S2P Require Import Prelude Interfaces.
From S2P Require Export Boot.

(** [ThreadPool] of the common utilities: whether [AddTask] takes a task when that
    many are queued, and whether a thread is free when that many tasks run. *)
Class ThreadPool := {
  pool_accepts : nat → bool;
  pool_takes : nat → bool;
}.

(** Below [SetMaxTaskNum] a task is taken; with nothing running a thread is free. *)
Class ThreadPoolLaws `{ThreadPool} : Prop := {
  accepts_below n : Z.of_nat n < MAX_TASK_NUMBER → pool_accepts n = true;
  takes_idle : pool_takes 0 = true;
}.

(** Where the boot thread is: at the head of the loop, queueing the abilities that
    are left, inside [AddTask] with the lock, loading the next phase, about to
    wait, waiting (and notified or not), past the loop. *)
(* [services/safwk/src/local_ability_manager.cpp:804-823] LocalAbilityManager::FindAndStartPhaseTasks *)
Inductive boot_pc :=
| BPhase (p : Z)
| BAdd (p : Z) (l : list ptr)
| BPush (p : Z) (x : loc) (l : list ptr)
| BLoad (p : Z) (wait : bool)
| BWait (p : Z)
| BBlocked (p : Z) (notified : bool)
| BEnd.

(** A running task: in its body, or with the body behind it. *)
(* [services/safwk/src/local_ability_manager.cpp:721-740] LocalAbilityManager::StartSystemAbilityTask *)
Inductive task_pc := TBody (l : loc) | TDone (l : loc).
Definition task_loc (t : task_pc) : loc := match t with TBody l | TDone l => l end.

(** Who moves: the boot thread, its timeout, a spurious wake-up, a pool thread that
    takes the [i]-th queued task, the [i]-th running task. *)
Inductive boot_action := AMain | ATimeout | ASpurious | ATake (i : nat) | ATask (i : nat).

Section phases.
  Context {J P U : Type} `{!Json J} `{!MessageParcel P} `{!ParseUtil U} `{SU : !StringUtil}
    `{SD : !SamgrDefs} `{EN : !Env J P U} `{TP : !ThreadPool}.
  Variable fuel : nat.
  Variable saId : Z.

  #[local] Abbreviation world := (world J U).

(** Besides the threads and the process: how many waits have timed out, and which
    abilities have been counted and have finished. *)
Record boot_sys := mk_boot {
  main_pc : boot_pc;
  running : list task_pc;
  bworld : world;
  timeouts : nat;
  added : list loc;
  finished : list loc;
}.

(** The end of [WaitForTasks], after [wait_for] has returned [ok]. *)
(* [services/safwk/src/local_ability_manager.cpp:794-797] LocalAbilityManager::WaitForTasks *)
Definition leave_wait (p : Z) (ok : bool) (s : boot_sys) : boot_sys :=
  mk_boot (BPhase (p + 1)) (running s) (set_startTaskNum_ 0 (bworld s))
    (if ok then timeouts s else S (timeouts s)) (added s) (finished s).

Definition at_pc (pc : boot_pc) (s : boot_sys) : boot_sys :=
  mk_boot pc (running s) (bworld s) (timeouts s) (added s) (finished s).
Definition in_world (w : world) (s : boot_sys) : boot_sys :=
  mk_boot (main_pc s) (running s) w (timeouts s) (added s) (finished s).

Definition no_tasks (s : boot_sys) : bool := startTaskNum_ (bworld s) =? 0.

(** The boot thread; [None] when it cannot go on. *)
(* [services/safwk/src/local_ability_manager.cpp:770-824] LocalAbilityManager::StartPhaseTasks, WaitForTasks, FindAndStartPhaseTasks *)
Definition main_step (s : boot_sys) : option boot_sys :=
  match main_pc s with
  | BPhase p =>
      if OTHER_START <? p then Some (at_pc BEnd s)
      else
        match abilityPhaseMap_ (bworld s) !! p with
        | Some l => Some (at_pc (BAdd p l) s)
        | None => Some (at_pc (if saId =? DEFAULT_SAID then BLoad p false else BPhase (p + 1)) s)
        end
  | BAdd p [] => Some (at_pc (if saId =? DEFAULT_SAID then BLoad p true else BWait p) s)
  | BAdd p (None :: l) => Some (at_pc (BAdd p l) s)
  | BAdd p (Some x :: l) =>
      Some (mk_boot (BPush p x l) (running s) (count_task (bworld s)).2 (timeouts s)
              (added s ++ [x]) (finished s))
  | BPush p x l =>
      if pool_accepts (length (initPool_ (bworld s)))
      then Some (at_pc (BAdd p l) (in_world (queue_task x (bworld s)).2 s))
      else None
  | BLoad p wait =>
      Some (at_pc (if wait then BWait p else BPhase (p + 1))
              (in_world (InitializeRunOnCreateSaProfiles (p + 1) (bworld s)).2 s))
  | BWait p | BBlocked p true =>
      Some (if no_tasks s then leave_wait p true s else at_pc (BBlocked p false) s)
  | BBlocked _ false | BEnd => None
  end.

(** [startPhaseCV_.notify_one()] *)
Definition notify (pc : boot_pc) : boot_pc :=
  match pc with BBlocked p _ => BBlocked p true | pc => pc end.
Definition holds_lock (pc : boot_pc) : bool := match pc with BPush _ _ _ => true | _ => false end.

(* [services/safwk/src/local_ability_manager.cpp:721-740] LocalAbilityManager::StartSystemAbilityTask *)
Definition task_step (i : nat) (s : boot_sys) : option boot_sys :=
  match running s !! i with
  | None => None
  | Some (TBody l) =>
      Some (mk_boot (main_pc s) (<[i := TDone l]> (running s)) (start_task_body fuel (Some l) (bworld s)).2
              (timeouts s) (added s) (finished s))
  | Some (TDone l) =>
      if holds_lock (main_pc s) then None
      else Some (mk_boot (notify (main_pc s)) (delete i (running s)) (start_task_done (bworld s)).2
                   (timeouts s) (added s) (finished s ++ [l]))
  end.

(** A free thread of the pool takes a task. *)
Definition take_step (i : nat) (s : boot_sys) : option boot_sys :=
  match initPool_ (bworld s) !! i with
  | None => None
  | Some l =>
      if pool_takes (length (running s)) then
        Some (mk_boot (main_pc s) (running s ++ [TBody l])
                (set_initPool_ (delete i (initPool_ (bworld s))) (bworld s))
                (timeouts s) (added s) (finished s))
      else None
  end.

Definition boot_step (a : boot_action) (s : boot_sys) : option boot_sys :=
  match a, main_pc s with
  | AMain, _ => main_step s
  | ATimeout, BBlocked p _ => Some (leave_wait p (no_tasks s) s)
  | ASpurious, BBlocked p false => Some (at_pc (BBlocked p true) s)
  | ATimeout, _ | ASpurious, _ => None
  | ATake i, _ => take_step i s
  | ATask i, _ => task_step i s
  end.

Fixpoint boot_run (acts : list boot_action) (s : boot_sys) : option boot_sys :=
  match acts with
  | [] => Some s
  | a :: acts' => match boot_step a s with Some s' => boot_run acts' s' | None => None end
  end.

Definition boot_next (s s' : boot_sys) : Prop := ∃ a, boot_step a s = Some s'.

(** A boot about to begin. *)
Definition boot_initial (w : world) : boot_sys := mk_boot (BPhase BOOT_START) [] w 0 [] [].
Definition boot_reachable (w : world) : boot_sys → Prop := rtc boot_next (boot_initial w).

(** ** The count *)

(** The ability inside [AddTask]. *)
Definition pushing (pc : boot_pc) : list loc := match pc with BPush _ x _ => [x] | _ => [] end.
(** The abilities counted but not finished. *)
Definition outstanding (s : boot_sys) : list loc :=
  pushing (main_pc s) ++ initPool_ (bworld s) ++ (task_loc <$> running s).
(** The boot thread is between two phases. *)
Definition idle_pc (pc : boot_pc) : bool :=
  match pc with BPhase _ | BLoad _ false | BEnd => true | _ => false end.

(** What the lock protects: the count never exceeds what is outstanding, and says
    exactly that while no wait has timed out; a boot thread that sleeps without a
    notification has something to wait for. *)
Record boot_inv (s : boot_sys) : Prop := {
  inv_perm : added s ≡ₚ finished s ++ outstanding s;
  inv_count : 0 ≤ startTaskNum_ (bworld s) ≤ Z.of_nat (length (outstanding s));
  inv_exact : timeouts s = 0%nat → startTaskNum_ (bworld s) = Z.of_nat (length (outstanding s));
  inv_asleep p : main_pc s = BBlocked p false → startTaskNum_ (bworld s) ≠ 0;
  inv_idle : timeouts s = 0%nat → idle_pc (main_pc s) = true → startTaskNum_ (bworld s) = 0;
}.

(** ** Lemmas *)

Lemma count_task_num (w : world) :
  0 ≤ startTaskNum_ w < INT32_MAX → startTaskNum_ (count_task w).2 = startTaskNum_ w + 1.
Proof. intros Hw. simpl. apply wrap32_id. unfold int32, INT32_MIN, INT32_MAX in *. lia. Qed.
Lemma start_task_done_view (w : world) :
  0 ≤ startTaskNum_ w →
  initPool_ (start_task_done w).2 = initPool_ w ∧
  startTaskNum_ (start_task_done w).2 = Z.max 0 (startTaskNum_ w - 1).
Proof.
  intros Hw. unfold start_task_done, modify. simpl.
  destruct (Z.ltb_spec 0 (startTaskNum_ w)); simpl; (split; [done|lia]).
Qed.

(** A step that only moves the boot thread. *)
Lemma inv_moves pc w s :
  boot_inv s → initPool_ w = initPool_ (bworld s) → startTaskNum_ w = startTaskNum_ (bworld s) →
  pushing pc = [] → pushing (main_pc s) = [] →
  (∀ p, pc = BBlocked p false → startTaskNum_ w ≠ 0) →
  (timeouts s = 0%nat → idle_pc pc = true → startTaskNum_ w = 0) →
  boot_inv (at_pc pc (in_world w s)).
Proof.
  intros [Hp Hc He Ha Hi] Hq Hn Hpc Hpc0 Hb Hid.
  unfold outstanding in *. rewrite Hpc0 in *. cbn [app] in *.
  split; unfold outstanding; simpl; rewrite ?Hq, ?Hn, ?Hpc; cbn [app]; try done.
  - by rewrite <- Hn.
  - by rewrite <- Hn.
Qed.

Lemma inv_leaves p s :
  boot_inv s → pushing (main_pc s) = [] → boot_inv (leave_wait p (no_tasks s) s).
Proof.
  intros [Hp Hc He Ha Hi] Hpc0. unfold no_tasks. unfold outstanding in *. rewrite Hpc0 in *. cbn [app] in *.
  split; unfold outstanding, leave_wait; simpl; try done.
  - lia.
  - destruct (Z.eqb_spec (startTaskNum_ (bworld s)) 0) as [E|]; [|done].
    intros Ht. specialize (He Ht). lia.
Qed.

(** The test under the lock, on entry and after a notification. *)
Lemma inv_tests p s :
  boot_inv s → pushing (main_pc s) = [] →
  boot_inv (if no_tasks s then leave_wait p true s else at_pc (BBlocked p false) s).
Proof.
  intros Hs Hpc. pose proof (inv_leaves p s Hs Hpc) as Hl. destruct (no_tasks s) eqn:E; [done|].
  apply (inv_moves _ (bworld s)); try done. intros _ _. unfold no_tasks in E. by apply Z.eqb_neq in E.
Qed.

Lemma main_step_inv `{!BootFrame} s s' :
  boot_inv s → main_step s = Some s' → Z.of_nat (length (added s')) ≤ INT32_MAX → boot_inv s'.
Proof.
  intros Hinv Hs Hn. pose proof Hinv as [Hp Hc He Ha Hi]. unfold main_step in Hs.
  destruct (main_pc s) as [p|p [|[x|] l]|p x l|p wait|p|p [|]|] eqn:Epc; try done;
    unfold outstanding in *; rewrite Epc in *; cbn [pushing app] in *.
  - (* BPhase *)
    destruct (OTHER_START <? p); [|destruct (abilityPhaseMap_ (bworld s) !! p)]; injection Hs as <-;
      [| |destruct (saId =? DEFAULT_SAID)]; apply (inv_moves _ (bworld s)); rewrite ?Epc; auto; done.
  - destruct (saId =? DEFAULT_SAID); injection Hs as <-; apply (inv_moves _ (bworld s)); rewrite ?Epc; auto; done.
  - (* BAdd, an ability *)
    injection Hs as <-. simpl in Hn. rewrite Hp, !length_app in Hn. cbn [length] in Hn.
    rewrite length_app in Hc, He.
    pose proof (count_task_num (bworld s) ltac:(lia)) as Hk.
    cbn [count_task modify snd startTaskNum_ set_startTaskNum_] in Hk.
    split; unfold outstanding; cbn [main_pc running bworld timeouts added finished pushing app idle_pc length
      initPool_ startTaskNum_ set_startTaskNum_]; try done; rewrite ?Hk, ?length_app.
    + rewrite Hp. solve_Permutation.
    + lia.
    + intros Ht. specialize (He Ht). lia.
  - injection Hs as <-. apply (inv_moves _ (bworld s)); rewrite ?Epc; auto; done.
  - (* BPush *)
    destruct (pool_accepts _); [|done]. injection Hs as <-.
    split; unfold outstanding; cbn [main_pc at_pc in_world queue_task modify running bworld timeouts added finished pushing
      snd app idle_pc initPool_ set_initPool_ startTaskNum_]; try done.
    + rewrite Hp. solve_Permutation.
    + cbn [length] in Hc. rewrite !length_app in *. cbn [length]. lia.
    + intros Ht. specialize (He Ht). cbn [length] in He. rewrite !length_app in *. cbn [length]. lia.
  - (* BLoad *)
    injection Hs as <-. destruct (InitializeRunOnCreate_loads (p + 1) (bworld s)) as (Hq & Hk & _).
    destruct wait; apply inv_moves; rewrite ?Epc; try done; rewrite Hk; auto.
  - injection Hs as <-. apply inv_tests; [done|by rewrite Epc].
  - injection Hs as <-. apply inv_tests; [done|by rewrite Epc].
Qed.

Lemma pushing_notify pc : pushing (notify pc) = pushing pc ∧ idle_pc (notify pc) = idle_pc pc.
Proof. by destruct pc. Qed.

Lemma task_step_inv `{!BootFrame} i s s' : boot_inv s → task_step i s = Some s' → boot_inv s'.
Proof.
  intros [Hp Hc He Ha Hi]. unfold task_step, outstanding in *.
  destruct (running s !! i) as [[l|l]|] eqn:Er; [| |done].
  - intros <-%(inj Some). destruct (keeps_view _ (bworld s) (start_task_body_boot fuel (Some l))) as (Hq & Hn & _).
    assert (task_loc <$> <[i := TDone l]> (running s) = task_loc <$> running s) as Ht.
    { rewrite list_fmap_insert. apply list_insert_id. by rewrite list_lookup_fmap, Er. }
    split; unfold outstanding; cbn [main_pc running bworld timeouts added finished]; by rewrite ?Ht, ?Hq, ?Hn.
  - destruct (holds_lock (main_pc s)) eqn:Hl; [done|]. intros <-%(inj Some).
    destruct (start_task_done_view (bworld s)) as (Hq & Hn); [lia|].
    destruct (pushing_notify (main_pc s)) as [Hpn Hin].
    assert (task_loc <$> running s ≡ₚ l :: (task_loc <$> delete i (running s))) as Hd.
    { rewrite (delete_Permutation (running s) i (TDone l)) at 1 by done. done. }
    rewrite Hd in Hp. apply Permutation_length in Hd. rewrite !length_app, Hd in *. cbn [length] in *.
    split; unfold outstanding; cbn [main_pc running bworld timeouts added finished];
      rewrite ?Hq, ?Hn, ?Hpn, ?Hin, ?length_app; [| | | |].
    + rewrite Hp. solve_Permutation.
    + lia.
    + intros Ht. specialize (He Ht). lia.
    + intros p. by destruct (main_pc s).
    + intros Ht Hid. specialize (Hi Ht Hid). lia.
Qed.

Lemma take_step_inv i s s' : boot_inv s → take_step i s = Some s' → boot_inv s'.
Proof.
  intros [Hp Hc He Ha Hi]. unfold take_step, outstanding in *.
  destruct (initPool_ (bworld s) !! i) as [l|] eqn:El; [|done].
  destruct (pool_takes _); [|done]. intros <-%(inj Some).
  pose proof (delete_Permutation _ _ _ El) as Hd. rewrite Hd in Hp. apply Permutation_length in Hd.
  rewrite !length_app, Hd in *. cbn [length] in *.
  split; unfold outstanding; cbn [main_pc running bworld timeouts added finished startTaskNum_ initPool_ set_initPool_];
    rewrite ?fmap_app, ?length_app; cbn [length fmap list_fmap task_loc]; try done.
  - rewrite Hp. solve_Permutation.
  - lia.
  - intros Ht. specialize (He Ht). lia.
Qed.

Lemma boot_step_inv `{!BootFrame} a s s' :
  boot_inv s → boot_step a s = Some s' → Z.of_nat (length (added s')) ≤ INT32_MAX → boot_inv s'.
Proof.
  intros Hinv Hs Hn. destruct a as [| | |i|i]; cbn [boot_step] in Hs.
  - by apply (main_step_inv s).
  - destruct (main_pc s) eqn:Epc; try done. injection Hs as <-. apply inv_leaves; [done|by rewrite Epc].
  - destruct (main_pc s) as [| | | | |p []|] eqn:Epc; try done. injection Hs as <-.
    apply (inv_moves _ (bworld s)); rewrite ?Epc; done.
  - by apply (take_step_inv i s).
  - by apply (task_step_inv i s).
Qed.

Lemma boot_step_added a s s' : boot_step a s = Some s' → ∃ ls, added s' = added s ++ ls.
Proof.
  intros Hs. destruct a as [| | |i|i]; cbn [boot_step] in Hs.
  - unfold main_step in Hs. repeat case_match; simplify_eq/=; first [by exists []; rewrite app_nil_r|by eexists].
  - exists []. rewrite app_nil_r. by repeat case_match; simplify_eq/=.
  - exists []. rewrite app_nil_r. by repeat case_match; simplify_eq/=.
  - exists []. rewrite app_nil_r. unfold take_step in Hs. by repeat case_match; simplify_eq/=.
  - exists []. rewrite app_nil_r. unfold task_step in Hs. by repeat case_match; simplify_eq/=.
Qed.

(** A process before its first phase. *)
Definition unstarted (w : world) : Prop := initPool_ w = [] ∧ startTaskNum_ w = 0.

Lemma boot_reachable_inv `{!BootFrame} w s :
  unstarted w → boot_reachable w s → Z.of_nat (length (added s)) ≤ INT32_MAX → boot_inv s.
Proof.
  intros [Hq Hn] Hr. revert s Hr.
  apply (rtc_ind_r (λ s, Z.of_nat (length (added s)) ≤ INT32_MAX → boot_inv s)).
  - intros _. split; unfold outstanding; simpl; rewrite ?Hq, ?Hn; simpl; (done || lia).
  - intros s1 s2 _ [a Ha] IH Hl. apply (boot_step_inv a s1); [|done|done].
    apply IH. apply boot_step_added in Ha as [ls Ha]. rewrite Ha, length_app in Hl. lia.
Qed.

(** Between two phases nothing is left. *)
Lemma between_phases `{!BootFrame} w s :
  unstarted w → boot_reachable w s → timeouts s = 0%nat → Z.of_nat (length (added s)) ≤ INT32_MAX →
  idle_pc (main_pc s) = true → finished s ≡ₚ added s ∧ initPool_ (bworld s) = [] ∧ running s = [].
Proof.
  intros Hw Hr Ht Hl Hid. destruct (boot_reachable_inv w s Hw Hr Hl) as [Hp Hc He Ha Hi].
  specialize (He Ht). specialize (Hi Ht Hid).
  assert (outstanding s = []) as Ho by (apply nil_length_inv; lia).
  rewrite Ho, app_nil_r in Hp. unfold outstanding in Ho.
  apply app_eq_nil in Ho as [_ [Hq Hf]%app_eq_nil]. apply fmap_nil_inv in Hf. by rewrite Hp.
Qed.

(** ** Properties *)

(** C8: Nothing of a phase is left when the next one begins: in every interleaving of
    the boot thread with the tasks of the pool in which no wait has timed out, and
    with fewer than 2^31 tasks, [startTaskNum_] is the number of abilities that
    are counted and not finished, and whenever the boot thread is between two
    phases every ability queued so far has been started and has reported, and
    neither the queue nor the pool holds a task. *)
Theorem phase_barrier `{!BootFrame} w s :
  unstarted w → boot_reachable w s → timeouts s = 0%nat → Z.of_nat (length (added s)) ≤ INT32_MAX →
  added s ≡ₚ finished s ++ outstanding s ∧
  startTaskNum_ (bworld s) = Z.of_nat (length (outstanding s)) ∧
  (idle_pc (main_pc s) = true → finished s ≡ₚ added s ∧ initPool_ (bworld s) = [] ∧ running s = []).
Proof.
  intros Hw Hr Ht Hl. destruct (boot_reachable_inv w s Hw Hr Hl) as [Hp _ He _ _].
  split_and!; [done|by apply He|]. by apply (between_phases w).
Qed.

(** ** Progress *)

(** Steps that are neither a timeout nor a spurious wake-up. *)
Definition productive (a : boot_action) : bool :=
  match a with ATimeout | ASpurious => false | _ => true end.

(** The boot thread is inside a phase. *)
Definition in_phase (s : boot_sys) : Prop := match main_pc s with BPhase _ | BEnd => False | _ => True end.

(** The steps that are left in the phase, at most. *)
Definition main_rank (pc : boot_pc) : nat :=
  match pc with
  | BPhase _ | BEnd => 0
  | BAdd _ l => 10 + 7 * length l
  | BPush _ _ l => 15 + 7 * length l
  | BLoad _ _ => 5 | BWait _ => 3 | BBlocked _ true => 2 | BBlocked _ false => 1
  end.
Definition task_rank (t : task_pc) : nat := match t with TBody _ => 3 | TDone _ => 2 end.
Definition phase_rank (s : boot_sys) : nat :=
  main_rank (main_pc s) + 4 * length (initPool_ (bworld s)) + sum_list_with task_rank (running s).

Lemma rank_insert l i t t' :
  l !! i = Some t →
  (sum_list_with task_rank (<[i := t']> l) + task_rank t = sum_list_with task_rank l + task_rank t')%nat.
Proof.
  revert i. induction l as [|x l IH]; intros [|i] Hi; simplify_eq/=; [lia|]. specialize (IH _ Hi). lia.
Qed.
Lemma rank_delete l i t :
  l !! i = Some t → (sum_list_with task_rank (delete i l) + task_rank t = sum_list_with task_rank l)%nat.
Proof.
  revert i. induction l as [|x l IH]; intros [|i] Hi; simplify_eq/=; [lia|]. specialize (IH _ Hi). lia.
Qed.

(** A step of the pool uses up some of what is left, wherever the boot thread is. *)
Lemma worker_rank `{!BootFrame} a s s' :
  0 ≤ startTaskNum_ (bworld s) → match a with ATake _ | ATask _ => True | _ => False end →
  boot_step a s = Some s' →
  (phase_rank s' < phase_rank s)%nat ∧ (main_pc s' = main_pc s ∨ main_pc s' = notify (main_pc s)).
Proof.
  unfold phase_rank. intros Hn Ha Hs. destruct a as [| | |i|i]; try done; cbn [boot_step] in Hs.
  - unfold take_step in Hs. destruct (initPool_ (bworld s) !! i) as [l|] eqn:El; [|done].
    destruct (pool_takes _); [|done]. simplify_eq/=. rewrite sum_list_with_app. simpl.
    pose proof (delete_Permutation _ _ _ El) as Hd%Permutation_length. simpl in Hd. split; [lia|by left].
  - unfold task_step in Hs. destruct (running s !! i) as [[l|l]|] eqn:Er; [| |done].
    + apply (inj Some) in Hs. subst s'. cbn [main_pc bworld running].
      destruct (keeps_view _ (bworld s) (start_task_body_boot fuel (Some l))) as (Hq & _). rewrite Hq.
      pose proof (rank_insert _ _ _ (TDone l) Er) as Hk. simpl in Hk. split; [lia|by left].
    + destruct (holds_lock (main_pc s)); [done|]. apply (inj Some) in Hs. subst s'. cbn [main_pc bworld running].
      destruct (start_task_done_view (bworld s) Hn) as [-> _].
      pose proof (rank_delete _ _ _ Er) as Hk. simpl in Hk.
      assert (main_rank (notify (main_pc s)) ≤ main_rank (main_pc s) + 1)%nat by
        (destruct (main_pc s) as [| | | | |? []|]; simpl; lia). split; [lia|by right].
Qed.

(** Inside a phase every productive step brings its end nearer. *)
Lemma step_rank `{!BootFrame} a s s' :
  0 ≤ startTaskNum_ (bworld s) → in_phase s → productive a = true → boot_step a s = Some s' → in_phase s' →
  (phase_rank s' < phase_rank s)%nat.
Proof.
  intros Hn Hp Ha Hs Hp'. destruct a as [| | |i|i]; try done; [|by apply (worker_rank (ATake i))|by apply (worker_rank (ATask i))].
  unfold in_phase, phase_rank in *. cbn [boot_step] in Hs.
  unfold main_step in Hs. destruct (main_pc s) as [p|p [|[x|] l]|p x l|p wait|p|p [|]|] eqn:Epc; try done.
  - destruct (saId =? DEFAULT_SAID); simplify_eq/=; lia.
  - simplify_eq/=. lia.
  - simplify_eq/=. lia.
  - destruct (pool_accepts _); simplify_eq/=. rewrite length_app. simpl. lia.
  - destruct (InitializeRunOnCreate_loads (p + 1) (bworld s)) as (Hq & _).
    apply (inj Some) in Hs. subst s'. cbn [main_pc bworld running at_pc in_world] in *. rewrite Hq.
    destruct wait; simpl; [lia|done].
  - destruct (no_tasks s); simplify_eq/=; [done|lia].
  - destruct (no_tasks s); simplify_eq/=; [done|lia].
Qed.

(** A thread that cannot go on, has something to wait for that can. *)
Lemma boot_progress `{!ThreadPoolLaws} s :
  boot_inv s → main_pc s ≠ BEnd → Z.of_nat (length (added s)) ≤ MAX_TASK_NUMBER →
  ∃ a s', productive a = true ∧ boot_step a s = Some s'.
Proof.
  intros [Hp Hc He Ha _] Hend Hl.
  assert (is_Some (main_step s) ∨ ∃ p, main_pc s = BBlocked p false) as [[s' Hs]|[p Epc]].
  { unfold main_step. destruct (main_pc s) as [p|p [|[x|] l]|p x l|p wait|p|p [|]|] eqn:Epc; try done;
      try (left; repeat case_match; by eexists); try (right; by eexists).
    - left. apply Permutation_length in Hp. unfold outstanding in Hp. rewrite Epc, !length_app in Hp. simpl in Hp.
      rewrite accepts_below by lia. by eexists. }
  { by exists AMain, s'. }
  specialize (Ha p Epc). unfold outstanding in Hc. rewrite Epc, length_app in Hc. simpl in Hc.
  destruct (running s) as [|t ts] eqn:Er.
  - destruct (initPool_ (bworld s)) as [|l q] eqn:Eq; [simpl in Hc; lia|].
    eexists (ATake 0), _. split; [done|]. cbn [boot_step]. unfold take_step. rewrite Eq, Er. simpl.
    by rewrite takes_idle.
  - exists (ATask 0). cbn [boot_step]. unfold task_step. rewrite Er, Epc. simpl. destruct t; eauto.
Qed.

(** A step inside a phase, and the abilities it has still to queue. *)
Definition phase_next (s s' : boot_sys) : Prop :=
  ∃ a, productive a = true ∧ boot_step a s = Some s' ∧ in_phase s'.
Definition to_add (pc : boot_pc) : list ptr := match pc with BAdd _ l | BPush _ _ l => l | _ => [] end.
Definition phase_fits (s : boot_sys) : Prop :=
  in_phase s ∧ boot_inv s ∧ Z.of_nat (length (added s) + length (to_add (main_pc s))) ≤ MAX_TASK_NUMBER.

Lemma to_add_step a s s' :
  in_phase s → boot_step a s = Some s' →
  (length (added s') + length (to_add (main_pc s')) ≤ length (added s) + length (to_add (main_pc s)))%nat.
Proof.
  unfold in_phase. intros Hp Hs. destruct a as [| | |i|i]; cbn [boot_step] in Hs.
  - unfold main_step in Hs. repeat case_match; simplify_eq/=; rewrite ?length_app; simpl; lia.
  - repeat case_match; simplify_eq/=; lia.
  - by repeat case_match; simplify_eq/=.
  - unfold take_step in Hs. by repeat case_match; simplify_eq/=.
  - unfold task_step in Hs. repeat case_match; simplify_eq/=; done.
Qed.

Lemma phase_next_fits `{!BootFrame} s s' : phase_fits s → phase_next s s' → phase_fits s'.
Proof.
  intros (Hp & Hi & Hl) (a & Ha & Hs & Hp'). pose proof (to_add_step _ _ _ Hp Hs) as Hk.
  unfold MAX_TASK_NUMBER in Hl.
  split; [done|split; [|unfold MAX_TASK_NUMBER; lia]]. apply (boot_step_inv a s); [done|done|].
  unfold INT32_MAX. lia.
Qed.

(** A phase always ends, and no wake-up is lost: with at most [MAX_TASK_NUMBER]
    abilities in the boot, from every point inside a phase (timeouts and
    spurious wake-ups may have happened before) no schedule gets stuck, and no
    schedule stays in the phase for more than [phase_rank] steps, so the boot
    thread reaches the next phase whatever the scheduler does, without needing
    the timeout. *)
Theorem phase_ends `{!BootFrame, !ThreadPoolLaws} w s n s' :
  unstarted w → boot_reachable w s → in_phase s →
  Z.of_nat (length (added s) + length (to_add (main_pc s))) ≤ MAX_TASK_NUMBER →
  nsteps phase_next n s s' →
  (n + phase_rank s' ≤ phase_rank s)%nat ∧ ∃ a s'', productive a = true ∧ boot_step a s' = Some s''.
Proof.
  intros Hw Hr Hp Hl Hn. assert (phase_fits s) as Hf.
  { split; [done|split; [|done]]. apply (boot_reachable_inv w s Hw Hr). unfold MAX_TASK_NUMBER, INT32_MAX in *. lia. }
  clear Hr Hp Hl. revert Hf. induction Hn as [s|n s s1 s' Hs Hn IH]; intros Hf.
  - split; [lia|]. destruct Hf as (Hp & Hi & Hl). apply boot_progress; [done| |lia].
    intros E. unfold in_phase in Hp. by rewrite E in Hp.
  - destruct (IH (phase_next_fits _ _ Hf Hs)) as [Hk Hx]. split; [|done].
    destruct Hf as (Hp & [_ [Hc _] _ _ _] & _), Hs as (a & Ha & Hs & Hp').
    pose proof (step_rank a s s1 Hc Hp Ha Hs Hp'). lia.
Qed.

(** How far the boot is; [4] is the phase behind the last one. *)
Definition stage (pc : boot_pc) : nat :=
  match pc with
  | BEnd => 0
  | BPhase p => 2 * Z.to_nat (4 - p) + 1
  | BAdd p _ | BPush p _ _ | BLoad p _ | BWait p | BBlocked p _ => 2 * Z.to_nat (4 - p)
  end.
Definition pc_ok (pc : boot_pc) : Prop :=
  match pc with
  | BEnd => True
  | BPhase p => 1 ≤ p ≤ 4
  | BAdd p _ | BPush p _ _ | BLoad p _ | BWait p | BBlocked p _ => 1 ≤ p ≤ 3
  end.

Lemma main_step_stage s s' :
  pc_ok (main_pc s) → main_step s = Some s' →
  pc_ok (main_pc s') ∧
  ((stage (main_pc s') < stage (main_pc s))%nat ∨
   stage (main_pc s') = stage (main_pc s) ∧ in_phase s ∧ in_phase s').
Proof.
  unfold main_step, in_phase, OTHER_START. intros Hp Hs.
  destruct (main_pc s) as [p|p [|[x|] l]|p x l|p wait|p|p [|]|] eqn:Epc; try done; cbn [pc_ok stage] in *.
  - destruct (Z.ltb_spec 3 p); [simplify_eq/=; split; [done|lia]|].
    destruct (abilityPhaseMap_ (bworld s) !! p); [simplify_eq/=; lia|].
    destruct (saId =? DEFAULT_SAID); simplify_eq/=; lia.
  - destruct (saId =? DEFAULT_SAID); simplify_eq/=; tauto.
  - simplify_eq/=. tauto.
  - simplify_eq/=. tauto.
  - destruct (pool_accepts _); simplify_eq/=. tauto.
  - apply (inj Some) in Hs. subst s'. destruct wait; cbn [at_pc main_pc pc_ok stage]; [tauto|lia].
  - destruct (no_tasks s); simplify_eq/=; [lia|tauto].
  - destruct (no_tasks s); simplify_eq/=; [lia|tauto].
Qed.

(** Every step but a spurious wake-up brings the end of the boot nearer. *)
Lemma boot_step_stage `{!BootFrame} a s s' :
  0 ≤ startTaskNum_ (bworld s) → pc_ok (main_pc s) → boot_step a s = Some s' →
  pc_ok (main_pc s') ∧
  (a ≠ ASpurious →
   (stage (main_pc s') < stage (main_pc s))%nat ∨
   stage (main_pc s') = stage (main_pc s) ∧ (phase_rank s' < phase_rank s)%nat).
Proof.
  intros Hn Hp Hs. destruct a as [| | |i|i]; cbn [boot_step] in Hs.
  - destruct (main_step_stage s s' Hp Hs) as [Hp' [Hst|(Hst & Hi & Hi')]]; (split; [done|]); [by left|].
    right. split; [done|]. by apply (step_rank AMain).
  - destruct (main_pc s) eqn:Epc; simplify_eq/=. split; [lia|]. left. lia.
  - destruct (main_pc s) as [| | | | |p []|] eqn:Epc; simplify_eq/=. done.
  - destruct (worker_rank (ATake i) s s') as [Hk [E|E]]; [done..| |]; rewrite E; [by eauto|].
    by destruct (main_pc s); eauto.
  - destruct (worker_rank (ATask i) s s') as [Hk [E|E]]; [done..| |]; rewrite E; [by eauto|].
    by destruct (main_pc s); eauto.
Qed.

(** A step that is not a spurious wake-up, while the queue of the pool has room for
    everything queued so far. *)
Definition boot_onward (s' s : boot_sys) : Prop :=
  ∃ a, a ≠ ASpurious ∧ boot_step a s = Some s' ∧ Z.of_nat (length (added s')) ≤ MAX_TASK_NUMBER.

Lemma onward_acc `{!BootFrame} s : boot_inv s → pc_ok (main_pc s) → Acc boot_onward s.
Proof.
  remember (stage (main_pc s)) as n eqn:En. revert s En.
  induction (lt_wf n) as [n _ IHn]. intros s. remember (phase_rank s) as m eqn:Em. revert s Em.
  induction (lt_wf m) as [m _ IHm]. intros s -> -> Hi Hp. constructor. intros s' (a & Ha & Hs & Hl).
  destruct (boot_step_stage a s s' (proj1 (inv_count s Hi)) Hp Hs) as [Hp' Hr].
  assert (boot_inv s') as Hi'.
  { apply (boot_step_inv a s); [done|done|]. unfold MAX_TASK_NUMBER, INT32_MAX in *. lia. }
  destruct (Hr Ha) as [Hst|[Hst Hk]]; [by apply (IHn _ Hst)|by apply (IHm _ Hk)].
Qed.

Lemma reachable_pc_ok `{!BootFrame} w s :
  unstarted w → boot_reachable w s → Z.of_nat (length (added s)) ≤ INT32_MAX → pc_ok (main_pc s).
Proof.
  intros Hw Hr. revert s Hr. apply (rtc_ind_r (λ s, Z.of_nat (length (added s)) ≤ INT32_MAX → pc_ok (main_pc s))).
  - done.
  - intros s1 s2 Hr [a Ha] IH Hl. destruct (boot_step_added a s1 s2 Ha) as [ls Hls]. rewrite Hls, length_app in Hl.
    assert (Z.of_nat (length (added s1)) ≤ INT32_MAX) as Hl1 by lia.
    pose proof (boot_reachable_inv w s1 Hw Hr Hl1) as Hi.
    by apply (boot_step_stage a s1 s2 (proj1 (inv_count s1 Hi)) (IH Hl1)).
Qed.

(** C15: A boot always ends: from every state it can get into, as long as at most
    [MAX_TASK_NUMBER] abilities have been queued, no schedule of the boot thread, its
    timeouts and the tasks of the pool goes on for ever, spurious wake-ups apart, and
    none gets stuck before the boot thread is past the last phase. *)
Theorem boot_ends `{!BootFrame, !ThreadPoolLaws} w s :
  unstarted w → boot_reachable w s → Z.of_nat (length (added s)) ≤ MAX_TASK_NUMBER →
  Acc boot_onward s ∧ (main_pc s ≠ BEnd → ∃ a s', productive a = true ∧ boot_step a s = Some s').
Proof.
  intros Hw Hr Hl. assert (Z.of_nat (length (added s)) ≤ INT32_MAX) as Hl'
    by (unfold MAX_TASK_NUMBER, INT32_MAX in *; lia).
  pose proof (boot_reachable_inv w s Hw Hr Hl') as Hi. split.
  - by apply onward_acc, (reachable_pc_ok w).
  - intros Hend. by apply boot_progress.
Qed.

Lemma boot_run_reachable acts s s' : boot_run acts s = Some s' → rtc boot_next s s'.
Proof.
  revert s. induction acts as [|a acts IH]; intros s; cbn [boot_run]; [intros [= ->]; apply rtc_refl|].
  destruct (boot_step a s) as [s1|] eqn:E; [|done]. intros Hr%IH. apply rtc_l with s1; [by exists a|done].
Qed.

(** ** What the count does not protect *)

(** [WaitForTasks] resets the count when it gives up, and a task it gave up on
    still counts itself off when it ends: in the wait of the next phase it takes
    the place of a task of that phase, and the wait ends, without timing out,
    while an ability of the phase is still starting. *)
Theorem late_task_cuts_wait p b late l s :
  main_pc s = BBlocked p b → startTaskNum_ (bworld s) = 1 → running s = [TDone late; TBody l] →
  ∃ s', boot_run [ATask 0; AMain] s = Some s' ∧
    main_pc s' = BPhase (p + 1) ∧ running s' = [TBody l] ∧ timeouts s' = timeouts s.
Proof.
  intros Hp Hc Hr. cbn [boot_run boot_step]. unfold task_step. rewrite Hr, Hp. cbn [lookup list_lookup holds_lock notify].
  unfold main_step. cbn [main_pc]. unfold no_tasks, start_task_done. cbn [bworld modify snd].
  rewrite Hc. simpl. by eexists.
Qed.

(** [AddTask] is called with [startPhaseLock_] held: when the queue of the pool is
    full and every thread of it has come to the end of a task, where it needs
    the lock to report, no thread can go on. *)
Theorem full_pool_deadlocks p x l s :
  main_pc s = BPush p x l → pool_accepts (length (initPool_ (bworld s))) = false →
  pool_takes (length (running s)) = false → Forall (λ t, ∃ k, t = TDone k) (running s) →
  ∀ a, boot_step a s = None.
Proof.
  intros Hp Ha Ht Hd a. destruct a as [| | |i|i]; cbn [boot_step]; rewrite ?Hp.
  - unfold main_step. by rewrite Hp, Ha.
  - done.
  - done.
  - unfold take_step. rewrite Ht. by case_match.
  - unfold task_step. destruct (running s !! i) as [t|] eqn:Er; [|done].
    destruct (Forall_lookup_1 _ _ _ _ Hd Er) as [k ->]. by rewrite Hp.
Qed.
End phases.

(** ** Witnesses *)

Module DemoPool.
(** A pool of two threads that queues at most [MAX_TASK_NUMBER] tasks. *)
#[global] Instance demo_pool : ThreadPool := {
  pool_accepts n := Z.of_nat n <? MAX_TASK_NUMBER;
  pool_takes n := Nat.ltb n 2;
}.
#[global] Instance demo_pool_laws : ThreadPoolLaws.
Proof. split; [|done]. intros n Hn. by apply Z.ltb_lt. Qed.

Import DemoDefs DemoJson DemoParcel DemoProfiles.
Abbreviation start := (boot_initial booting).
Abbreviation state := (boot_sys (J := dj) (U := du)).
Definition step_demo := boot_step (EN := booting_env) 10 DEFAULT_SAID.
Definition after (acts : list boot_action) (s : state) : state :=
  default s (boot_run (EN := booting_env) 10 DEFAULT_SAID acts s).

(** Both abilities of phase 1 are queued, and the boot thread waits. *)
Definition waiting : state := after (replicate 8 AMain) start.
(** Both are started and finish, and the boot thread goes on to the next phase. *)
Definition first_done : state :=
  after [ATake 1; ATake 0; ATask 0; ATask 1; ATask 1; ATask 0; AMain]%nat waiting.
(** The first wait times out while ability 1 is starting; ability 3 of the last
    phase is counted, and taken; then the body of ability 1 ends. *)
Definition late_phase : gmap Z (list ptr) := {[1 := [Some 1%positive]; 2 := [Some 3%positive]]}.
Definition late : state :=
  after ([AMain; AMain; AMain; AMain; AMain; AMain; ATake 0; ATimeout] ++ replicate 6 AMain ++ [ATake 0; ATask 0])%nat
    (boot_initial (set_abilityPhaseMap_ late_phase booting)).
(** Twenty-three abilities of one phase and a pool of two threads. *)
Definition crowd : gmap Z (list ptr) := {[1 := replicate 23 (Some 1%positive)]}.
Definition stuck : state :=
  after (replicate 5 AMain ++ [ATake 0; ATake 0; ATask 0; ATask 1] ++ replicate 41 AMain)%nat
    (boot_initial (set_abilityPhaseMap_ crowd booting)).
End DemoPool.
Import DemoDefs DemoJson DemoParcel DemoProfiles DemoPool.

Lemma phase_barrier_witness :
  main_pc first_done = BPhase 2 ∧ finished first_done ≡ₚ added first_done ∧ length (added first_done) = 2%nat ∧
  running first_done = [].
Proof.
  destruct (phase_barrier (EN := booting_env) 10 DEFAULT_SAID booting first_done) as (_ & _ & H);
    [by split| |vm_compute; reflexivity|vm_compute; discriminate|].
  - unfold boot_reachable. transitivity waiting;
      [apply (boot_run_reachable (EN := booting_env) 10 DEFAULT_SAID (replicate 8 AMain))
      |apply (boot_run_reachable (EN := booting_env) 10 DEFAULT_SAID
          [ATake 1; ATake 0; ATask 0; ATask 1; ATask 1; ATask 0; AMain]%nat)]; vm_compute; reflexivity.
  - destruct (H ltac:(vm_compute; reflexivity)) as (Hf & _ & Hr).
    split_and!; [vm_compute; reflexivity|exact Hf|vm_compute; reflexivity|exact Hr].
Defined.

(** The boot thread waits for both abilities of phase 1. *)
Lemma boot_ends_witness :
  main_pc waiting = BBlocked 1 false ∧ Acc (boot_onward (EN := booting_env) 10 DEFAULT_SAID) waiting ∧
  ∃ a s', productive a = true ∧ boot_step (EN := booting_env) 10 DEFAULT_SAID a waiting = Some s'.
Proof.
  destruct (boot_ends (EN := booting_env) 10 DEFAULT_SAID booting waiting) as [Ha Hs].
  - by split.
  - apply (boot_run_reachable (EN := booting_env) 10 DEFAULT_SAID (replicate 8 AMain)). vm_compute. reflexivity.
  - vm_compute. discriminate.
  - split_and!; [vm_compute; reflexivity|exact Ha|apply Hs; vm_compute; discriminate].
Defined.

Lemma phase_ends_witness :
  (2 + phase_rank (after [ATake 1; ATask 0]%nat waiting) ≤ phase_rank waiting)%nat.
Proof.
  refine (proj1 (phase_ends (EN := booting_env) 10 DEFAULT_SAID booting waiting 2
    (after [ATake 1; ATask 0]%nat waiting) _ _ _ _ _)).
  - by split.
  - apply (boot_run_reachable (EN := booting_env) 10 DEFAULT_SAID (replicate 8 AMain)). vm_compute. reflexivity.
  - vm_compute. exact I.
  - vm_compute. discriminate.
  - apply nsteps_l with (after [ATake 1]%nat waiting).
    { exists (ATake 1). split; [reflexivity|]. split; [vm_compute; reflexivity|vm_compute; exact I]. }
    apply nsteps_l with (after [ATake 1; ATask 0]%nat waiting); [|apply nsteps_O].
    exists (ATask 0). split; [reflexivity|]. split; [vm_compute; reflexivity|vm_compute; exact I].
Defined.

(** Only the first wait has timed out, but the second one ends while ability 3 is
    starting. *)
Lemma late_task_cuts_wait_witness :
  timeouts late = 1%nat ∧ ∃ s', boot_run (EN := booting_env) 10 DEFAULT_SAID [ATask 0; AMain]%nat late = Some s' ∧
    main_pc s' = BPhase 3 ∧ running s' = [TBody 3%positive] ∧ timeouts s' = 1%nat.
Proof.
  split; [vm_compute; reflexivity|].
  apply (late_task_cuts_wait (EN := booting_env) 10 DEFAULT_SAID 2 false 1%positive 3%positive late);
    vm_compute; reflexivity.
Defined.

Lemma full_pool_deadlocks_witness :
  main_pc stuck = BPush 1 1%positive [] ∧ ∀ a, step_demo a stuck = None.
Proof.
  split; [vm_compute; reflexivity|].
  apply (full_pool_deadlocks (EN := booting_env) 10 DEFAULT_SAID 1 1%positive []); try (vm_compute; reflexivity).
  assert (running stuck = [TDone 1%positive; TDone 1%positive]) as -> by (vm_compute; reflexivity).
  repeat constructor; by eexists.
Defined.
