(* ===== verification/BootStarts.v ===== *)
(** * BootStarts: what a boot has started

    [StartPhase.v] counts tasks; here are their effects.  With every dependency at
    hand, each ability that has been queued is started exactly once, under any
    interleaving of the boot thread with the tasks of the pool. *)

From S2P Require Import Prelude Interfaces.
From S2P Require Export Lifecycle StartPhase.

Section starts.
  Context {J P U : Type} `{!Json J} `{!MessageParcel P} `{PU : !ParseUtil U} `{SU : !StringUtil}
    `{SD : !SamgrDefs} `{EN : !Env J P U} `{TP : !ThreadPool}.
  Variable fuel : nat.
  Variable saId : Z.

  #[local] Abbreviation M := (prog J U).
  #[local] Abbreviation world := (world J U).
  #[local] Abbreviation boot_sys := (boot_sys (J := J) (U := U)).
  #[local] Abbreviation boot_reachable := (boot_reachable fuel saId).
  #[local] Abbreviation boot_step := (boot_step fuel saId).

(** What the framework sees of an ability: how often [OnStart] has been entered,
    its state and whether it runs. *)
Definition start_view (l : loc) (w : world) : nat * lc_state := (onstarts l w, lc_of w l).

(** An override starts no other ability and calls no [OnStart]; loading libraries
    starts nothing (a new object is not loaded). *)
Class StartFrame : Prop := {
  OnStart_others l l' r : l ≠ l' → keeps (start_view l') (OnStart l r);
  OnStart_self l r : keeps (onstarts l) (OnStart l r);
  OpenSo_starts p l : keeps (start_view l) (OpenSo p);
}.

(** The manager is there and has every ability it is asked for. *)
Class DependenciesUp : Prop := {
  manager_up h : respond h EvGetSystemAbilityManager ≠ 0;
  dependency_up h d : CheckInputSysAbilityId d = true → respond h (EvCheckSystemAbility d) ≠ 0;
}.

(** ** Programs that start nothing *)

Lemma sv_call l e : ¬ is_OnStart l e → keeps (start_view l) (call e).
Proof. intros He w. unfold start_view. f_equal. by apply quiet_call. Qed.
Lemma sv_same l {A} (m : M A) : (∀ w, trace (m w).2 = trace w ∧ heap (m w).2 = heap w) → keeps (start_view l) m.
Proof. intros Hm w. destruct (Hm w) as [Ht Hh]. unfold start_view, onstarts, lc_of, sa_at. by rewrite Ht, Hh. Qed.

Ltac keep_start :=
  repeat match goal with
  | |- keeps _ (bind _ _) => apply keeps_bind; [|intros ?]
  | |- keeps _ (ret _) => apply keeps_ret
  | |- keeps _ (get_sa _ _) => apply keeps_get_sa
  | |- keeps _ (gets _) => apply keeps_gets
  | |- keeps _ (call _) => apply sv_call; intros []; done
  | |- keeps _ (modify _) => apply sv_same; intros ?; split; reflexivity
  | |- keeps _ (if ?b then _ else _) => destruct b
  | |- keeps _ (match ?b with _ => _ end) => destruct b
  end.

Lemma sv_manager l : keeps (start_view l) GetSystemAbilityManager.
Proof. unfold GetSystemAbilityManager. keep_start. Qed.
Lemma sv_extra l r : keeps (start_view l) (GetOnDemandReasonExtraData r).
Proof. unfold GetOnDemandReasonExtraData, GetSystemAbilityManager. keep_start. Qed.
Lemma sv_Start_reason l this : keeps (start_view l) (Start_reason this).
Proof.
  unfold Start_reason, json_reason. keep_start; [|apply sv_extra].
  apply sv_same. intros w. unfold GetStartReason. by case_match.
Qed.
Lemma sv_check l deps : keeps (start_view l) (CheckDependencyStatus deps).
Proof.
  unfold CheckDependencyStatus. keep_start; [apply sv_manager|].
  induction deps as [|d deps IH]; cbn [check_dependencies]; keep_start; apply IH.
Qed.
Lemma sv_load l p `{!StartFrame} : keeps (start_view l) (InitializeRunOnCreateSaProfiles p).
Proof.
  unfold InitializeRunOnCreateSaProfiles, enter. keep_start; [apply OpenSo_starts|].
  apply keeps_for_each. intros pr. unfold load_profile, InitializeSaProfilesInnerLocked. keep_start.
Qed.

(** ** Start *)

Lemma Start_others l l' `{!StartFrame} : l ≠ l' → keeps (start_view l') (Start l).
Proof.
  intros Hne. unfold Start, Start_check, Start_body, Start_finish, enter. keep_start.
  - apply sv_Start_reason.
  - apply sv_call. cbn. congruence.
  - by apply OnStart_others.
  - intros w. unfold start_view, lc_of. rewrite sa_at_put. by rewrite decide_False.
Qed.

Lemma Start_starts l w `{!StartFrame} :
  abilityState_ (sa_at w l) = NOT_LOADED →
  onstarts l (Start l w).2 = S (onstarts l w) ∧ isRunning_ (sa_at (Start l w).2 l) = true.
Proof.
  intros Hs. rewrite Start_run by done. unfold Start_finish. rewrite sa_at_put, decide_True by done.
  split; [|done]. change (onstarts l (Start_body l w).2 = S (onstarts l w)). unfold Start_body.
  destruct (body_split (Start_reason l) (EvOnStart l) (OnStart l) w) as (r & w0 & Hw0 & ->).
  rewrite OnStart_self. pose proof (quiet_Start_reason l w) as Hq. rewrite Hw0 in Hq. simpl in Hq. rewrite <- Hq.
  unfold onstarts. simpl. rewrite filter_app, length_app, filter_cons_True by done. simpl. lia.
Qed.

(** With all dependencies there, a task gets to [Start]. *)
Lemma check_up deps w `{!DependenciesUp} : (CheckDependencyStatus deps w).1 = [].
Proof.
  unfold CheckDependencyStatus, GetSystemAbilityManager. run_prog. rewrite (proj2 (Z.eqb_neq _ _) (manager_up _)). simpl.
  generalize (set_trace (trace w ++ [EvGetSystemAbilityManager]) w). induction deps as [|d deps IH]; intros w'; [done|].
  cbn [check_dependencies]. destruct (CheckInputSysAbilityId d) eqn:Hd; [|apply IH]. rewrite !bind_run. cbn [call fst snd ret].
  rewrite (proj2 (Z.eqb_neq _ _) (dependency_up _ _ Hd)). apply IH.
Qed.

Lemma task_body_up l w `{!DependenciesUp} :
  ∃ w1, (∀ l', start_view l' w1 = start_view l' w) ∧ (start_task_body fuel (Some l) w).2 = (Start l w1).2.
Proof.
  unfold start_task_body. rewrite bind_run. cbn [get_sa fst snd GetDependSa].
  destruct (dependSa_ (sa_at w l)) as [|d deps]; [by exists w|].
  unfold StartDependSaTask. rewrite !bind_run. cbn [call get_sa fst snd ret].
  set (w0 := set_trace _ w). rewrite (check_up _ w0).
  assert (∀ start timeout, depend_loop fuel l start timeout (length (@nil Z)) = ret (Some tt)) as Hl by (by destruct fuel).
  rewrite Hl. cbn [ret fst snd]. rewrite !bind_run. cbn [get_sa fst snd]. rewrite (check_up _ _).
  eexists. split; [|reflexivity]. intros l'.
  rewrite !(sv_check l' _ _). exact (sv_call l' EvGetTickCount (λ H, H) w).
Qed.

(** ** The invariant *)

(** The abilities whose task has run its body. *)
Definition body_done (t : task_pc) : option loc := match t with TBody _ => None | TDone l => Some l end.
Definition ran (s : boot_sys) : list loc := finished s ++ omap body_done (running s).

Definition starts_inv (s : boot_sys) : Prop :=
  ∀ l, if decide (l ∈ ran s)
       then onstarts l (bworld s) = 1%nat ∧ isRunning_ (sa_at (bworld s) l) = true
       else onstarts l (bworld s) = 0%nat ∧ abilityState_ (sa_at (bworld s) l) = NOT_LOADED.

Lemma inv_same_view s s' :
  starts_inv s → (∀ l, start_view l (bworld s') = start_view l (bworld s)) → (∀ l, l ∈ ran s' ↔ l ∈ ran s) →
  starts_inv s'.
Proof.
  intros Hi Hv Hr l. specialize (Hi l). specialize (Hv l). injection Hv as -> -> ->.
  by rewrite (decide_ext _ _ _ _ (Hr l)).
Qed.

(** A task in its body has not run it, and its ability no other task has. *)
Lemma in_body_not_ran i l s :
  boot_inv s → NoDup (added s) → running s !! i = Some (TBody l) → l ∉ ran s.
Proof.
  intros [Hp _ _ _ _] Hn Hi. rewrite Hp in Hn. unfold outstanding in Hn.
  assert (running s ≡ₚ TBody l :: delete i (running s)) as Hd by by apply delete_Permutation.
  rewrite Hd in Hn. cbn [fmap list_fmap task_loc] in Hn. unfold ran. rewrite Hd. cbn [omap list_omap body_done].
  assert (∀ ts : list task_pc, omap body_done ts ⊆ (task_loc <$> ts : list loc)) as Hsub.
  { intros ts x (t & Ht & Hx)%list_elem_of_omap. apply list_elem_of_fmap. exists t. by destruct t; simplify_eq/=. }
  specialize (Hsub (delete i (running s)) l).
  rewrite !NoDup_app, NoDup_cons in Hn. set_solver.
Qed.

Lemma ran_body i l s w l' :
  running s !! i = Some (TBody l) →
  l' ∈ ran (mk_boot (main_pc s) (<[i:=TDone l]> (running s)) w (timeouts s) (added s) (finished s)) ↔ l' = l ∨ l' ∈ ran s.
Proof.
  intros Hi. unfold ran. cbn [finished running]. rewrite insert_take_drop by by eapply lookup_lt_Some.
  rewrite <- (take_drop_middle _ _ _ Hi) at 3. rewrite !omap_app. cbn [omap list_omap body_done]. set_solver.
Qed.
Lemma ran_done i l s pc w l' :
  running s !! i = Some (TDone l) →
  l' ∈ ran (mk_boot pc (delete i (running s)) w (timeouts s) (added s) (finished s ++ [l])) ↔ l' ∈ ran s.
Proof.
  intros Hi. unfold ran. cbn [finished running]. rewrite delete_take_drop.
  rewrite <- (take_drop_middle _ _ _ Hi) at 3. rewrite !omap_app. cbn [omap list_omap body_done]. set_solver.
Qed.

Lemma task_step_starts `{!StartFrame, !DependenciesUp} i s s' :
  boot_inv s → NoDup (added s) → starts_inv s → task_step fuel i s = Some s' → starts_inv s'.
Proof.
  intros Hb Hn Hs. unfold task_step. destruct (running s !! i) as [[l|l]|] eqn:Er; [| |done].
  - intros <-%(inj Some). pose proof (in_body_not_ran i l s Hb Hn Er) as Hl.
    destruct (task_body_up l (bworld s)) as (w1 & Hw1 & Hw). intros l'.
    rewrite (decide_ext _ _ _ _ (ran_body i l s _ l' Er)). cbn [bworld]. rewrite Hw.
    specialize (Hs l'). specialize (Hw1 l'). injection Hw1 as Hc Hst Hrun. destruct (decide (l' = l)) as [->|Hne].
    + rewrite decide_True by by left. rewrite decide_False in Hs by done. destruct Hs as [Hc0 Hst0].
      destruct (Start_starts l w1) as [-> ->]; [congruence|]. split; [congruence|done].
    + pose proof (Start_others l l' ltac:(done) w1) as [= -> -> ->].
      rewrite Hc, Hst, Hrun. by repeat case_decide; naive_solver.
  - destruct (holds_lock (main_pc s)); [done|]. intros <-%(inj Some).
    apply (inv_same_view s); [done| |intros l'; by apply ran_done].
    intros l'. cbn [bworld]. apply sv_same. intros w. unfold start_task_done, modify. cbn. by case_match.
Qed.

Lemma main_step_starts `{!StartFrame} s s' : starts_inv s → main_step saId s = Some s' → starts_inv s'.
Proof.
  intros Hs Hm. assert ((∀ l, start_view l (bworld s') = start_view l (bworld s)) ∧ ran s' = ran s) as [Hv Hr].
  { unfold main_step in Hm. repeat case_match; simplify_eq/=; (split; [intros ?|done]); try done.
    all: by apply sv_load. }
  apply (inv_same_view s); [done|done|intros l; by rewrite Hr].
Qed.

Lemma boot_step_starts `{!StartFrame, !DependenciesUp} a s s' :
  boot_inv s → NoDup (added s) → starts_inv s → boot_step a s = Some s' → starts_inv s'.
Proof.
  intros Hb Hn Hs Ha. destruct a as [| | |i|i]; cbn [StartPhase.boot_step] in Ha.
  - by apply (main_step_starts s).
  - destruct (main_pc s); try done. injection Ha as <-. by apply (inv_same_view s).
  - destruct (main_pc s) as [| | | | |p []|]; try done. injection Ha as <-. by apply (inv_same_view s).
  - unfold take_step in Ha. repeat case_match; simplify_eq. apply (inv_same_view s); [done|done|].
    intros l. unfold ran. cbn [finished running]. rewrite omap_app. cbn. by rewrite app_nil_r.
  - by apply (task_step_starts i s).
Qed.

Lemma boot_reachable_starts `{!BootFrame, !StartFrame, !DependenciesUp} w s :
  unstarted w → (∀ l, onstarts l w = 0%nat ∧ abilityState_ (sa_at w l) = NOT_LOADED) → boot_reachable w s →
  Z.of_nat (length (added s)) ≤ INT32_MAX → NoDup (added s) → starts_inv s.
Proof.
  intros Hw Hfresh Hr. revert s Hr.
  apply (rtc_ind_r (λ s, Z.of_nat (length (added s)) ≤ INT32_MAX → NoDup (added s) → starts_inv s)).
  - intros _ _ l. rewrite decide_False by apply not_elem_of_nil. apply Hfresh.
  - intros s1 s2 Hr [a Ha] IH Hl Hn. destruct (boot_step_added _ _ a s1 s2 Ha) as [ls Hls].
    rewrite Hls, length_app in Hl. rewrite Hls in Hn. apply NoDup_app in Hn as (Hn & _ & _).
    apply (boot_step_starts a s1); [|done|by apply IH; [lia|]|done].
    apply (boot_reachable_inv fuel saId w); [done|done|lia].
Qed.

(** ** Properties *)

(** C9: a boot starts every ability it has queued exactly once: in every interleaving
    of the boot thread with the tasks of the pool, over a manager that has the
    dependencies, [OnStart] is entered at most once for any ability; it has been
    entered, and the ability counts as running, when the task of the ability has
    reported; and whenever the boot thread is between two phases and no wait has
    timed out, [OnStart] has been entered for exactly the abilities queued so far.
    No ability is queued twice, and the overrides start no other abilities. *)
Theorem boot_starts_once `{!BootFrame, !StartFrame, !DependenciesUp} w s l :
  unstarted w → (∀ l, onstarts l w = 0%nat ∧ abilityState_ (sa_at w l) = NOT_LOADED) → boot_reachable w s →
  Z.of_nat (length (added s)) ≤ INT32_MAX → NoDup (added s) →
  (onstarts l (bworld s) ≤ 1)%nat ∧
  (l ∈ finished s → onstarts l (bworld s) = 1%nat ∧ isRunning_ (sa_at (bworld s) l) = true) ∧
  (timeouts s = 0%nat → idle_pc (main_pc s) = true →
   onstarts l (bworld s) = if bool_decide (l ∈ added s) then 1%nat else 0%nat).
Proof.
  intros Hw Hfresh Hr Hl Hn. pose proof (boot_reachable_starts w s Hw Hfresh Hr Hl Hn l) as Hs.
  split_and!.
  - case_decide; destruct Hs as [-> _]; lia.
  - intros Hin. rewrite decide_True in Hs; [done|]. unfold ran. set_solver.
  - intros Ht Hid. destruct (between_phases fuel saId w s Hw Hr Ht Hl Hid) as (Hf & _ & Hrun).
    assert (l ∈ ran s ↔ l ∈ added s) as Hin by (unfold ran; by rewrite Hrun, app_nil_r, Hf).
    rewrite (decide_ext _ _ _ _ Hin) in Hs. case_bool_decide as Hd;
      [rewrite decide_True in Hs by done|rewrite decide_False in Hs by done]; by destruct Hs.
Qed.
End starts.

(** ** Witnesses *)

Import DemoDefs DemoPool.

(** The environment of the witnesses of [StartPhase.v], with every ability at hand. *)
Definition peopled_env : Env DemoJson.dj DemoParcel.dp DemoProfiles.du :=
  DemoEnv.demo_env (λ h e, match e with EvCheckSystemAbility _ => 1 | _ => ticking_respond h e end) (λ _ _, ret tt).
#[export] Instance peopled_frame : BootFrame (Env0 := peopled_env).
Proof. by split. Qed.
#[export] Instance peopled_starts : StartFrame (EN := peopled_env).
Proof. by split. Qed.
#[export] Instance peopled_dependencies : DependenciesUp (EN := peopled_env).
Proof. by split. Qed.

Lemma boot_starts_once_witness :
  onstarts 1%positive (bworld first_done) = 1%nat ∧ onstarts 3%positive (bworld first_done) = 0%nat.
Proof.
  assert (∀ l, onstarts l booting = 0%nat ∧ abilityState_ (sa_at booting l) = NOT_LOADED) as Hfresh.
  { intros l. split; [reflexivity|]. unfold sa_at.
    assert (map_Forall (λ _ x, abilityState_ x = NOT_LOADED) (heap booting)) as Hall
      by (apply (bool_decide_unpack _); vm_compute; exact I).
    destruct (heap booting !! l) as [x|] eqn:E; [by apply (Hall l)|done]. }
  assert (boot_reachable (EN := peopled_env) 10 DEFAULT_SAID booting first_done) as Hr.
  { unfold boot_reachable. transitivity waiting;
      [apply (boot_run_reachable (EN := peopled_env) 10 DEFAULT_SAID (replicate 8 AMain))
      |apply (boot_run_reachable (EN := peopled_env) 10 DEFAULT_SAID
          [ATake 1; ATake 0; ATask 0; ATask 1; ATask 1; ATask 0; AMain]%nat)]; vm_compute; reflexivity. }
  pose proof (λ l H1 H2, boot_starts_once (EN := peopled_env) 10 DEFAULT_SAID booting first_done l
    (conj eq_refl eq_refl) Hfresh Hr H1 H2) as H.
  split.
  - exact (proj1 (proj1 (proj2 (H 1%positive ltac:(vm_compute; discriminate)
      ltac:(apply (bool_decide_unpack _); vm_compute; exact I))) ltac:(apply (bool_decide_unpack _); vm_compute; exact I))).
  - exact (proj2 (proj2 (H 3%positive ltac:(vm_compute; discriminate)
      ltac:(apply (bool_decide_unpack _); vm_compute; exact I))) ltac:(vm_compute; reflexivity) ltac:(vm_compute; reflexivity)).
Defined.
