(* ===== verification/UnusedTimer.v ===== *)
(** * UnusedTimer: unloading abilities that nobody uses

    The timed query of [services/safwk/src/local_ability_manager.cpp]: a process
    without a run-on-create ability checks once a minute which of its on-demand
    abilities have been idle for longer than their threshold, and asks the
    manager to unload them.  [DoStartSAProcess], which ends by starting the
    query, is here too. *)

From S2P Require Import Prelude Interfaces.
From S2P Require Export Boot.

Section unused.
  Context {J P U : Type} `{!Json J} `{!MessageParcel P} `{!ParseUtil U} `{!StringUtil}
    `{!SamgrDefs} `{!Env J P U}.
  Variable fuel : nat.

  #[local] Abbreviation M := (prog J U).
  #[local] Abbreviation world := (world J U).

(* [services/safwk/src/local_ability_manager.cpp:54-54] UNUSED_ONDEMAND_TIMER_INTERVAL_MSECONDS *)
Definition UNUSED_ONDEMAND_TIMER_INTERVAL_MSECONDS : Z := 1000 * 60 * 1.
(* [services/safwk/src/local_ability_manager.cpp:55-55] ONDEMAND_SA_UNUSED_TIMEOUT_LOWLIMIT *)
Definition ONDEMAND_SA_UNUSED_TIMEOUT_LOWLIMIT : Z := UNUSED_ONDEMAND_TIMER_INTERVAL_MSECONDS.
(* [services/safwk/src/local_ability_manager.cpp:56-56] ONDEMAND_SA_UNUSED_TIMEOUT_UPLIMIT *)
Definition ONDEMAND_SA_UNUSED_TIMEOUT_UPLIMIT : Z := 1000 * 60 * 120.
(* [services/safwk/src/local_ability_manager.cpp:59-59] TIME_S_TO_MS *)
Definition TIME_S_TO_MS : Z := 1000.

(* [services/safwk/src/local_ability_manager.cpp:1066-1070] LocalAbilityManager::NoNeedCheckUnused *)
Definition NoNeedCheckUnused (saId : Z) : bool :=
  let saIdWhiteList : gset Z := ∅ in bool_decide (saId ∈ saIdWhiteList).

(* [services/safwk/src/local_ability_manager.cpp:1072-1076] LocalAbilityManager::IsConfigUnused *)
Definition IsConfigUnused : M bool := gets (λ w, negb (bool_decide (unusedCfgMap_ w = ∅))).

(** The product is computed in [int32_t] and widened afterwards. *)
(* [services/safwk/src/local_ability_manager.cpp:1080-1087] LocalAbilityManager::LimitUnusedTimeout *)
Definition limit_timeout (timeout : Z) : Z :=
  let millisecTimeout := wrap32 (timeout * TIME_S_TO_MS) in
  if millisecTimeout <? ONDEMAND_SA_UNUSED_TIMEOUT_LOWLIMIT then ONDEMAND_SA_UNUSED_TIMEOUT_LOWLIMIT
  else if ONDEMAND_SA_UNUSED_TIMEOUT_UPLIMIT <? millisecTimeout then ONDEMAND_SA_UNUSED_TIMEOUT_UPLIMIT
  else millisecTimeout.

(* [services/safwk/src/local_ability_manager.cpp:1078-1088] LocalAbilityManager::LimitUnusedTimeout *)
Definition LimitUnusedTimeout (saId timeout : Z) : M unit :=
  modify (λ w, set_unusedCfgMap_ (<[saId := limit_timeout timeout]> (unusedCfgMap_ w)) w).

(* [services/safwk/src/local_ability_manager.cpp:1090-1098] LocalAbilityManager::InitUnusedCfg *)
Definition InitUnusedCfg : M unit :=
  let! saProfileList := gets (λ w, GetAllSaProfiles (profileParser_ w)) in
  for_each (λ saProfile,
    if negb (runOnCreate saProfile) && negb (unusedTimeout saProfile =? -1)
    then LimitUnusedTimeout (saId saProfile) (unusedTimeout saProfile)
    else ret tt) saProfileList.

(** The time is unsigned ([uint64_t]); the published object's stub answers it. *)
(* [services/safwk/src/local_ability_manager.cpp:1100-1119] LocalAbilityManager::GetSaLastRequestTime *)
Definition GetSaLastRequestTime (saId : Z) : M (option Z) :=
  let! ability := GetAbility saId in
  match ability with
  | None => ret None
  | Some l =>
      let! object := get_sa GetAbilityRemoteObject l in
      if object =? 0 then ret None
      else let! t := call (EvGetLastRequestTime object) in ret (Some t)
  end.

(** What the loop does for one entry of [unusedCfgMap_]. *)
(* [services/safwk/src/local_ability_manager.cpp:1133-1148] LocalAbilityManager::IdentifyUnusedOndemand *)
Definition check_unused (currTime : Z) (it : Z * Z) : M unit :=
  let '(saId, threshold) := it in
  let! lastRequestTime := GetSaLastRequestTime saId in
  match lastRequestTime with
  | None => ret tt
  | Some lastRequestTime =>
      if currTime <=? lastRequestTime then ret tt
      else
        let idleTime := wrapu64 (currTime - lastRequestTime) in
        if wrapu64 threshold <? idleTime
        then do! call (EvUnloadSystemAbility saId) in ret tt
        else ret tt
  end.

(* [services/safwk/src/local_ability_manager.cpp:1121-1149] LocalAbilityManager::IdentifyUnusedOndemand *)
Definition IdentifyUnusedOndemand : M unit :=
  let! currTime := call EvSteadyClock in
  let! samgr := GetSystemAbilityManager in
  if negb samgr then ret tt
  else
    let! m := gets unusedCfgMap_ in
    for_each (check_unused (wrapu64 currTime)) (zmap_iter m).

(* [services/safwk/src/local_ability_manager.cpp:1151-1164] LocalAbilityManager::StartOnDemandTimer *)
Definition StartOnDemandTimer : M unit :=
  do! InitUnusedCfg in
  let! configured := IsConfigUnused in
  if configured then
    do! modify (set_idleTimer_ true) in
    let! id := call (EvRegisterTimer UNUSED_ONDEMAND_TIMER_INTERVAL_MSECONDS) in
    modify (set_ondemandTimer_ (wrapu32 id))
  else ret tt.

(* [services/safwk/src/local_ability_manager.cpp:1166-1181] LocalAbilityManager::StartTimedQuery *)
Definition StartTimedQuery : M unit :=
  let! m := gets localAbilityMap_ in
  if existsb (λ it, NoNeedCheckUnused it.1) (zmap_iter m) then ret tt
  else
    let! resident := IsResident in
    if negb resident then StartOnDemandTimer else ret tt.

(* [services/safwk/src/local_ability_manager.cpp:1183-1190] LocalAbilityManager::StopTimedQuery *)
Definition StopTimedQuery : M unit :=
  let! t := gets idleTimer_ in
  if t then
    let! id := gets ondemandTimer_ in
    do! call (EvUnregisterTimer id) in
    modify (set_idleTimer_ false)
  else ret tt.

(** The result tells whether the process got as far as serving requests. *)
(* [services/safwk/src/local_ability_manager.cpp:116-155] LocalAbilityManager::DoStartSAProcess *)
Definition DoStartSAProcess (profilePath : string) (saId : Z) : M bool :=
  let! begin_ := call EvGetTickCount in
  do! modify (set_startBegin_ begin_) in
  let! path := CheckAndGetProfilePath profilePath in
  match path with
  | None => do! call (EvReportSaMainExit "DoStartSAProcess invalid path") in ret false
  | Some realProfilePath =>
      let! r := InitSystemAbilityProfiles realProfilePath saId in
      if negb r then do! call (EvReportSaMainExit "InitSaProfiles no right profile") in ret false
      else
        let! r := CheckSystemAbilityManagerReady in
        if negb r then do! call (EvReportSaMainExit "CheckSamgrReady failed") in ret false
        else
          let! r := Run fuel saId in
          if negb r then do! call (EvReportSaMainExit "SA Run failed") in ret false
          else
            do! StartTimedQuery in
            do! call EvJoinWorkThread in
            ret true
  end.

(** ** Lemmas *)

(** The last time an ability was asked for, as the timer sees it. *)
Definition last_request (w : world) (id : Z) : option Z :=
  match localAbilityMap_ w !! id with
  | Some (Some l) => if publishObj_ (sa_at w l) =? 0 then None else Some (publishObj_ (sa_at w l))
  | _ => None
  end.

Lemma GetSaLastRequestTime_run id w :
  GetSaLastRequestTime id w =
  match last_request w id with
  | Some obj => (Some (respond (trace w) (EvGetLastRequestTime obj)),
                 set_trace (trace w ++ [EvGetLastRequestTime obj]) w)
  | None => (None, w)
  end.
Proof.
  unfold GetSaLastRequestTime, last_request, GetAbility. rewrite bind_run. cbn [gets fst snd].
  destruct (localAbilityMap_ w !! id) as [[l|]|]; try done.
  rewrite bind_run. cbn [get_sa fst snd]. cbn [GetAbilityRemoteObject]; by destruct (publishObj_ (sa_at w l) =? 0).
Qed.

(** An ability is due: published, and idle for longer than its threshold. *)
Definition due (times : Z → Z) (now : Z) (w : world) (it : Z * Z) : bool :=
  match last_request w it.1 with
  | Some obj => it.2 <? now - times obj
  | None => false
  end.

Definition unloads (h : list event) : list Z :=
  omap (λ e, match e with EvUnloadSystemAbility sa => Some sa | _ => None end) h.

Lemma unloads_app h h' : unloads (h ++ h') = unloads h ++ unloads h'.
Proof. apply omap_app. Qed.

Lemma check_unused_unloads times now its w :
  (∀ h obj, respond h (EvGetLastRequestTime obj) = times obj) →
  (∀ obj, 0 ≤ times obj) → 0 ≤ now ≤ UINT64_MAX → (∀ it, it ∈ its → 0 ≤ it.2 ≤ UINT64_MAX) →
  ∃ es, (for_each (check_unused now) its w).2 = set_trace (trace w ++ es) w ∧
    unloads es = (filter (λ it, due times now w it = true) its).*1.
Proof.
  intros Ht Hp Hn. revert w. induction its as [|[id th] its IH]; intros w Hits.
  { exists []. simpl. by rewrite app_nil_r, set_trace_trace. }
  assert (0 ≤ th ≤ UINT64_MAX) as Hth by (apply (Hits (id, th)); by left).
  cbn [for_each]. rewrite bind_run.
  assert (∃ es, (check_unused now (id, th) w).2 = set_trace (trace w ++ es) w ∧
    unloads es = if due times now w (id, th) then [id] else []) as (es1 & -> & He1).
  { unfold check_unused, due. rewrite bind_run, GetSaLastRequestTime_run. cbn [fst snd].
    destruct (last_request w id) as [obj|].
    2:{ exists []. by rewrite app_nil_r, set_trace_trace. }
    cbn [fst snd]. rewrite Ht. specialize (Hp obj).
    destruct (Z.leb_spec now (times obj)).
    { exists [EvGetLastRequestTime obj]. split; [done|]. destruct (Z.ltb_spec th (now - times obj)); [lia|done]. }
    rewrite !wrapu64_id by lia. destruct (Z.ltb_spec th (now - times obj)).
    - exists [EvGetLastRequestTime obj; EvUnloadSystemAbility id]. split; [|done].
      simpl. rewrite set_trace_twice. by rewrite <- (assoc_L (++)).
    - by exists [EvGetLastRequestTime obj]. }
  destruct (IH (set_trace (trace w ++ es1) w)) as (es2 & -> & He2).
  { intros it Hit. apply Hits. by right. }
  exists (es1 ++ es2). simpl. rewrite set_trace_twice, (assoc_L (++)). split; [done|].
  rewrite unloads_app, He1, He2, filter_cons.
  change (due times now (set_trace (trace w ++ es1) w)) with (due times now w).
  destruct (due times now w (id, th)); case_decide; done.
Qed.

(** The profiles the timer is configured from. *)
Definition has_unused_cfg (pr : SaProfile) : bool := negb (runOnCreate pr) && negb (unusedTimeout pr =? -1).

Definition add_cfg (m : gmap Z Z) (pr : SaProfile) : gmap Z Z :=
  <[saId pr := limit_timeout (unusedTimeout pr)]> m.

Lemma InitUnusedCfg_run w :
  (InitUnusedCfg w).2 = set_unusedCfgMap_ (foldl add_cfg (unusedCfgMap_ w)
    (filter (λ pr, has_unused_cfg pr = true) (GetAllSaProfiles (profileParser_ w)))) w.
Proof.
  unfold InitUnusedCfg. rewrite bind_run. cbn [gets fst snd].
  generalize (GetAllSaProfiles (profileParser_ w)) as prs. intros prs. revert w.
  induction prs as [|pr prs IH]; intros w; [by destruct w|].
  cbn [for_each]. rewrite bind_run, IH, filter_cons. fold (has_unused_cfg pr).
  destruct (has_unused_cfg pr); case_decide; try done.
Qed.

Lemma cfg_fold_lookup prs m id v :
  foldl add_cfg m prs !! id = Some v →
  m !! id = Some v ∨ ∃ pr, pr ∈ prs ∧ saId pr = id ∧ v = limit_timeout (unusedTimeout pr).
Proof.
  revert m. induction prs as [|pr prs IH]; intros m Hv; [by left|].
  apply IH in Hv as [Hv|(pr' & ? & ?)]; [|set_solver].
  unfold add_cfg in Hv. apply lookup_insert_Some in Hv as [[<- <-]|[_ Hv]]; [|by left]. right. exists pr. set_solver.
Qed.

Lemma cfg_fold_dom prs m id :
  is_Some (foldl add_cfg m prs !! id) ↔
  is_Some (m !! id) ∨ ∃ pr, pr ∈ prs ∧ saId pr = id.
Proof.
  revert m. induction prs as [|pr prs IH]; intros m; simpl; [set_solver|].
  rewrite IH. unfold add_cfg. rewrite lookup_insert_is_Some. split.
  - intros [[<-|[_ Hm]]|(pr' & ? & ?)]; [right; exists pr; set_solver|by left|right; exists pr'; set_solver].
  - intros [Hm|(pr' & [->|Hin]%elem_of_cons & He)]; [|by left; left|right; by exists pr'].
    left. destruct (decide (saId pr = id)); [by left|by right].
Qed.

Lemma limit_timeout_range t :
  ONDEMAND_SA_UNUSED_TIMEOUT_LOWLIMIT ≤ limit_timeout t ≤ ONDEMAND_SA_UNUSED_TIMEOUT_UPLIMIT.
Proof.
  unfold limit_timeout, ONDEMAND_SA_UNUSED_TIMEOUT_LOWLIMIT, ONDEMAND_SA_UNUSED_TIMEOUT_UPLIMIT,
    UNUSED_ONDEMAND_TIMER_INTERVAL_MSECONDS.
  set (m := wrap32 _). destruct (Z.ltb_spec m (1000 * 60 * 1)), (Z.ltb_spec (1000 * 60 * 120) m); lia.
Qed.

(** ** Properties *)

(** C26: one run of the timer asks the manager to unload exactly the configured
    abilities that are published and have been idle for longer than their
    threshold, each once and in the order of their ids, and makes no other
    change; times are compared as unsigned 64-bit values without wrapping. *)
Theorem unused_exact times w :
  (∀ h obj, respond h (EvGetLastRequestTime obj) = times obj) → (∀ obj, 0 ≤ times obj) →
  (∀ id th, unusedCfgMap_ w !! id = Some th → 0 ≤ th ≤ UINT64_MAX) →
  0 ≤ respond (trace w) EvSteadyClock ≤ UINT64_MAX →
  respond (trace w ++ [EvSteadyClock]) EvGetSystemAbilityManager ≠ 0 →
  ∃ es, (IdentifyUnusedOndemand w).2 = set_trace (trace w ++ es) w ∧
    unloads es = (filter (λ it, due times (respond (trace w) EvSteadyClock) w it = true)
                    (zmap_iter (unusedCfgMap_ w))).*1.
Proof.
  intros Ht Hp Hc Hn Hs. unfold IdentifyUnusedOndemand, GetSystemAbilityManager.
  rewrite bind_run. cbn [call fst snd]. rewrite bind_run. cbn [bind call ret fst snd trace set_trace].
  apply Z.eqb_neq in Hs. rewrite Hs. cbn [negb]. rewrite bind_run. cbn [gets fst snd].
  set (w0 := set_trace _ _).
  destruct (check_unused_unloads times (respond (trace w) EvSteadyClock) (zmap_iter (unusedCfgMap_ w)) w0 Ht Hp Hn)
    as (es & He & Hu).
  { intros [id th] Hin. apply (Hc id th). by apply (elem_of_map_iter Z.le). }
  exists (EvSteadyClock :: EvGetSystemAbilityManager :: es). split.
  - rewrite wrapu64_id by done. etransitivity; [exact He|]. unfold w0. simpl.
    rewrite !set_trace_twice. by rewrite <- !(assoc_L (++)).
  - exact Hu.
Qed.

(** A threshold is always between one minute and two hours; it is the configured
    number of seconds in milliseconds, brought into that range, as long as the
    product fits [int32_t]. *)
Theorem limit_timeout_bounds t :
  ONDEMAND_SA_UNUSED_TIMEOUT_LOWLIMIT ≤ limit_timeout t ≤ ONDEMAND_SA_UNUSED_TIMEOUT_UPLIMIT ∧
  (int32 (t * 1000) → limit_timeout t = Z.min (Z.max (t * 1000) 60000) 7200000).
Proof.
  split; [apply limit_timeout_range|]. intros Ht. unfold limit_timeout, TIME_S_TO_MS.
  rewrite wrap32_id by done.
  unfold ONDEMAND_SA_UNUSED_TIMEOUT_LOWLIMIT, ONDEMAND_SA_UNUSED_TIMEOUT_UPLIMIT,
    UNUSED_ONDEMAND_TIMER_INTERVAL_MSECONDS.
  destruct (Z.ltb_spec (t * 1000) (1000 * 60 * 1)), (Z.ltb_spec (1000 * 60 * 120) (t * 1000)); lia.
Qed.

(** The product is computed in 32 bits before it is widened: a configured
    timeout of 2147484 to 4294967 seconds, which is above the upper limit,
    overflows and gives the lower limit. *)
Theorem limit_timeout_overflow t :
  2147484 ≤ t ≤ 4294967 →
  t * 1000 > ONDEMAND_SA_UNUSED_TIMEOUT_UPLIMIT ∧ limit_timeout t = ONDEMAND_SA_UNUSED_TIMEOUT_LOWLIMIT.
Proof.
  intros Ht. split; [unfold ONDEMAND_SA_UNUSED_TIMEOUT_UPLIMIT; lia|].
  unfold limit_timeout, TIME_S_TO_MS. rewrite wrap32_unfold. cbv zeta. rewrite Z.mod_small by lia.
  destruct (Z.ltb_spec (t * 1000) 2147483648); [lia|].
  destruct (Z.ltb_spec (t * 1000 - 4294967296) ONDEMAND_SA_UNUSED_TIMEOUT_LOWLIMIT); [done|].
  unfold ONDEMAND_SA_UNUSED_TIMEOUT_LOWLIMIT, UNUSED_ONDEMAND_TIMER_INTERVAL_MSECONDS in *. lia.
Qed.

(** Starting the query leaves a resident process alone; otherwise it configures
    exactly the abilities that do not run on create and have a timeout, each
    with a threshold in range, and registers one timer, of a minute, iff some
    ability is configured. *)
Theorem timed_query_spec w :
  unusedCfgMap_ w = ∅ → idleTimer_ w = false →
  let w' := (StartTimedQuery w).2 in
  if (IsResident w).1 then w' = w
  else
    (∀ id, is_Some (unusedCfgMap_ w' !! id) ↔
       ∃ pr, pr ∈ GetAllSaProfiles (profileParser_ w) ∧ saId pr = id ∧
             runOnCreate pr = false ∧ unusedTimeout pr ≠ -1) ∧
    (∀ id th, unusedCfgMap_ w' !! id = Some th → 60000 ≤ th ≤ 7200000) ∧
    idleTimer_ w' = negb (bool_decide (unusedCfgMap_ w' = ∅)) ∧
    trace w' = trace w ++ (if idleTimer_ w' then [EvRegisterTimer 60000] else []).
Proof.
  intros Hc Hi. cbv zeta. unfold StartTimedQuery. rewrite bind_run. cbn [gets fst snd].
  replace (existsb _ _) with false.
  2:{ symmetry. apply not_true_is_false. rewrite existsb_exists. intros (it & _ & Hit).
      unfold NoNeedCheckUnused in Hit. apply bool_decide_eq_true in Hit. set_solver. }
  rewrite bind_run. change ((IsResident w).2) with w. destruct (IsResident w).1; [done|]. cbn [negb].
  unfold StartOnDemandTimer. rewrite bind_run, InitUnusedCfg_run, Hc.
  set (prs := filter _ _). set (m := foldl _ ∅ prs). set (w1 := set_unusedCfgMap_ m w).
  rewrite bind_run. unfold IsConfigUnused. cbn [gets fst snd].
  assert (∀ id, is_Some (m !! id) ↔ ∃ pr, pr ∈ GetAllSaProfiles (profileParser_ w) ∧ saId pr = id ∧
      runOnCreate pr = false ∧ unusedTimeout pr ≠ -1) as Hdom.
  { intros id. unfold m. rewrite cfg_fold_dom, lookup_empty. unfold prs, has_unused_cfg. split.
    - intros [[? [=]]|(pr & [Hp Hin]%list_elem_of_filter & <-)]. exists pr.
      apply andb_true_iff in Hp as [Hr Hu]. apply negb_true_iff in Hr, Hu. apply Z.eqb_neq in Hu. done.
    - intros (pr & Hin & <- & Hr & Hu). right. exists pr. split; [|done]. apply list_elem_of_filter.
      split; [|done]. rewrite Hr. simpl. by apply negb_true_iff, Z.eqb_neq. }
  assert (∀ id th, m !! id = Some th → 60000 ≤ th ≤ 7200000) as Hrange.
  { intros id th Hth. apply cfg_fold_lookup in Hth as [[=]|(pr & _ & _ & ->)]. apply limit_timeout_range. }
  change (unusedCfgMap_ w1) with m. destruct (bool_decide (m = ∅)) eqn:Em; cbn [negb].
  - unfold ret. cbn [snd]. change (unusedCfgMap_ w1) with m. rewrite Em.
    split_and!; [exact Hdom|exact Hrange|exact Hi|]. change (idleTimer_ w1) with (idleTimer_ w).
    by rewrite Hi, app_nil_r.
  - rewrite !bind_run. cbn [modify call snd fst]. set (w2 := set_ondemandTimer_ _ _).
    change (unusedCfgMap_ w2) with m. rewrite Em. by split_and!.
Qed.

(** The boot of a process either serves requests or has reported why it exits:
    it succeeds exactly when the profile path resolves, the profiles
    initialise, the manager is found and the process registers with it, and
    the last thing it did is joining the work thread or the report. *)
Theorem boot_outcome profilePath said w :
  let '(ok, w') := DoStartSAProcess profilePath said w in
  let w1 := set_startBegin_ (respond (trace w) EvGetTickCount) (set_trace (trace w ++ [EvGetTickCount]) w) in
  let '(path, w2) := CheckAndGetProfilePath profilePath w1 in
  (ok = true ↔ ∃ real, path = Some real ∧
     let '(initialised, w3) := InitSystemAbilityProfiles real said w2 in
     initialised = true ∧
     let '(ready, w4) := CheckSystemAbilityManagerReady w3 in
     ready = true ∧ (AddLocalAbilityManager w4).1 = true) ∧
  (if ok then last (trace w') = Some EvJoinWorkThread
   else ∃ why, last (trace w') = Some (EvReportSaMainExit why)).
Proof.
  unfold DoStartSAProcess. rewrite bind_run. cbn [call fst snd]. rewrite bind_run. cbn [modify fst snd].
  rewrite bind_run. cbv zeta. set (w1 := set_startBegin_ _ _).
  destruct (CheckAndGetProfilePath profilePath w1) as [[real|] w2]; cbn [fst snd].
  2:{ rewrite bind_run. simpl. rewrite last_snoc. split; [|by eexists]. split; [done|naive_solver]. }
  rewrite bind_run. destruct (InitSystemAbilityProfiles real said w2) as [init w3] eqn:E3; cbn [fst snd].
  assert (∀ why (w : world) Q, (Q → False) →
    let '(ok, w') := (do! call (EvReportSaMainExit why) in ret false) w in
    (ok = true ↔ Q) ∧ (if ok : bool then last (trace w') = Some EvJoinWorkThread
                       else ∃ why, last (trace w') = Some (EvReportSaMainExit why))) as Hfail.
  { intros why w' Q HQ. rewrite bind_run. simpl. rewrite last_snoc. split; [by split|by eexists]. }
  destruct init; cbn [negb].
  2:{ apply Hfail. intros (real' & [= <-] & Hr). rewrite E3 in Hr. by destruct Hr. }
  rewrite bind_run. destruct (CheckSystemAbilityManagerReady w3) as [ready w4] eqn:E4; cbn [fst snd].
  destruct ready; cbn [negb].
  2:{ apply Hfail. intros (real' & [= <-] & Hr). rewrite E3, E4 in Hr. by destruct Hr as (_ & ? & _). }
  rewrite bind_run. assert ((Run fuel said w4).1 = (AddLocalAbilityManager w4).1) as Hrun.
  { unfold Run. rewrite bind_run. destruct (AddLocalAbilityManager w4).1; cbn [negb]; [|done].
    by rewrite !bind_run. }
  rewrite Hrun. destruct (AddLocalAbilityManager w4).1 eqn:E5; cbn [negb].
  - rewrite !bind_run. simpl. rewrite last_snoc. split; [|done]. split; [|done]. intros _.
    exists real. rewrite E3, E4, E5. done.
  - apply Hfail. intros (real' & [= <-] & Hr). rewrite E3, E4 in Hr. destruct Hr as (_ & _ & Hr). congruence.
Qed.
End unused.

(** ** Witnesses *)

Import DemoDefs DemoProfiles.

(** Every object was last asked for at time 100, and it is 200000 now. *)
Definition timed_respond (h : list event) (e : event) : Z :=
  match e with
  | EvGetLastRequestTime _ => 100
  | EvSteadyClock => 200000
  | _ => DemoEnv.demo_respond h e
  end.
Definition timed_env := DemoEnv.demo_env timed_respond (λ _ _, ret tt).

(** Published abilities 401 and 402 with thresholds of one and ten minutes; 403
    is configured but not there. *)
Definition timed : DemoEnv.dworld :=
  set_unusedCfgMap_ {[401 := 60000; 402 := 600000; 403 := 60000]}
    (set_localAbilityMap_ {[401 := Some 1%positive; 402 := Some 2%positive]}
      (set_heap {[1%positive := set_publishObj_ 5 (new_SystemAbility 401 false);
                  2%positive := set_publishObj_ 6 (new_SystemAbility 402 false)]}
        (new_LocalAbilityManager (mk_du [100] [demo_profile 401 false 3 [] 30] None)))).

Lemma unused_exact_witness : unloads (trace (IdentifyUnusedOndemand (Env0 := timed_env) timed).2) = [401].
Proof.
  destruct (unused_exact (Env0 := timed_env) (λ _, 100) timed) as (es & -> & He);
    [done|done| |by vm_compute|by vm_compute|].
  - intros id th Hth. unfold timed in Hth. simpl in Hth.
    apply lookup_insert_Some in Hth as [[_ <-]|[_ Hth]]; [by vm_compute|].
    apply lookup_insert_Some in Hth as [[_ <-]|[_ Hth]]; [by vm_compute|].
    apply lookup_singleton_Some in Hth as [_ <-]. by vm_compute.
  - simpl. rewrite He. vm_compute. reflexivity.
Defined.

Lemma limit_timeout_bounds_witness : limit_timeout 300 = 300000 ∧ limit_timeout 10 = 60000.
Proof.
  split; [rewrite (proj2 (limit_timeout_bounds 300))|rewrite (proj2 (limit_timeout_bounds 10))];
    try reflexivity; by vm_compute.
Defined.

Lemma limit_timeout_overflow_witness : limit_timeout 3000000 = 60000.
Proof. exact (proj2 (limit_timeout_overflow 3000000 ltac:(lia))). Defined.

Lemma timed_query_spec_witness :
  let w := set_unusedCfgMap_ ∅ timed in
  idleTimer_ (StartTimedQuery (Env0 := timed_env) w).2 = true ∧
  trace (StartTimedQuery (Env0 := timed_env) w).2 = [EvRegisterTimer 60000].
Proof.
  intros w. pose proof (timed_query_spec (Env0 := timed_env) w eq_refl eq_refl) as H.
  cbv zeta in H. replace ((IsResident w).1) with false in H by (vm_compute; reflexivity).
  destruct H as (_ & _ & Hi & Ht). rewrite Ht. split.
  - rewrite Hi. vm_compute. reflexivity.
  - rewrite Hi. vm_compute. reflexivity.
Defined.
