(* ===== verification/Stub.v ===== *)
(** * Stub: the requests of other processes

    [LocalAbilityManagerStub] ([services/safwk/src/local_ability_manager_stub.cpp]):
    each request is checked for the interface token and for the permission of
    its code, dispatched by code, and its arguments are read from the parcel.
    The virtual functions it calls are the class [ILocalAbilityManager], which
    [Manager.v] implements; parcels are threaded through explicitly.  A handler
    returns its error code and the two parcels. *)

From S2P Require Import Prelude Interfaces.
From S2P Require Export Monad.

(** The pure virtual functions of the stub. *)
Class ILocalAbilityManager (S J P : Type) := {
  i_StartAbility : Z → string → sprog S bool;
  i_StopAbility : Z → string → sprog S bool;
  i_ActiveAbility : Z → J → sprog S bool;
  i_IdleAbility : Z → J → Z → sprog S (bool * Z);
  i_SendStrategyToSA : Z → Z → Z → string → sprog S (bool * string);
  i_IpcStatCmdProc : Z → Z → sprog S bool;
  i_FfrtStatCmdProc : Z → Z → sprog S bool;
  i_FfrtDumperProc : string → sprog S (bool * string);
  i_SystemAbilityExtProc : string → Z → option (P * P) → sprog S (Z * option (P * P));
  i_ServiceControlCmd : Z → Z → list u16string → sprog S Z;
}.

(** The IPC skeleton, the access token kit and [close]. *)
Class StubEnv (S P : Type) := {
  GetCallingTokenID : sprog S Z;
  VerifyAccessToken : Z → string → sprog S Z;
  close : Z → sprog S unit;
  IPCObjectStub_OnRemoteRequest : Z → P → P → sprog S (Z * P * P);
}.

Section stub.
  Context {S J P : Type} `{!Json J} `{!MessageParcel P} `{!SamgrDefs}.
  Context `{!StubEnv S P} `{!ILocalAbilityManager S J P}.

  #[local] Abbreviation M := (sprog S).
  #[local] Abbreviation handler := (P → P → M (Z * P * P)).

(* [services/safwk/src/local_ability_manager_stub.cpp:39-39] PERMISSION_EXT_TRANSACTION *)
Definition PERMISSION_EXT_TRANSACTION : string := "ohos.permission.ACCESS_EXT_SYSTEM_ABILITY".
(* [services/safwk/src/local_ability_manager_stub.cpp:40-40] PERMISSION_MANAGE *)
Definition PERMISSION_MANAGE : string := "ohos.permission.MANAGE_SYSTEM_ABILITY".
(* [services/safwk/src/local_ability_manager_stub.cpp:41-41] PERMISSION_SVC *)
Definition PERMISSION_SVC : string := "ohos.permission.CONTROL_SVC_CMD".
Definition ERR_NONE : Z := 0.

(* [services/safwk/src/local_ability_manager_stub.cpp:331-334] LocalAbilityManagerStub::CheckInputSysAbilityId *)
Definition valid_said (systemAbilityId : Z) : bool :=
  (FIRST_SYS_ABILITY_ID <=? systemAbilityId) && (systemAbilityId <=? LAST_SYS_ABILITY_ID).

(* [services/safwk/src/local_ability_manager_stub.cpp:336-340] LocalAbilityManagerStub::EnforceInterceToken *)
Definition EnforceInterceToken (data : P) : bool * P :=
  let '(interfaceToken, data) := ReadInterfaceToken data in
  (bool_decide (interfaceToken = LOCAL_ABILITY_MANAGER_INTERFACE_TOKEN), data).

(* [services/safwk/src/local_ability_manager_stub.cpp:73-79] LocalAbilityManagerStub::CheckPermission *)
Definition permission_of (code : Z) : string :=
  if code =? code_value SYSTEM_ABILITY_EXT_TRANSACTION then PERMISSION_EXT_TRANSACTION
  else if code =? code_value SERVICE_CONTROL_CMD_TRANSACTION then PERMISSION_SVC
  else PERMISSION_MANAGE.

(* [services/safwk/src/local_ability_manager_stub.cpp:68-83] LocalAbilityManagerStub::CheckPermission *)
Definition CheckPermission (code : Z) : M bool :=
  let! accessToken := GetCallingTokenID in
  let! ret_ := VerifyAccessToken accessToken (permission_of code) in
  ret (ret_ =? PERMISSION_GRANTED).

(** ** The handlers *)

(* [services/safwk/src/local_ability_manager_stub.cpp:109-131] LocalAbilityManagerStub::StartAbilityInner *)
Definition StartAbilityInner : handler := λ data reply,
  match ReadInt32 data with
  | (None, data) => ret (ERR_NULL_OBJECT, data, reply)
  | (Some saId, data) =>
      if negb (valid_said saId) then ret (ERR_NULL_OBJECT, data, reply)
      else
        let '(eventStr, data) := ReadStringValue data in
        if bool_decide (eventStr = "") then ret (ERR_NULL_OBJECT, data, reply)
        else do! i_StartAbility saId eventStr in ret (ERR_NONE, data, reply)
  end.

(* [services/safwk/src/local_ability_manager_stub.cpp:133-154] LocalAbilityManagerStub::StopAbilityInner *)
Definition StopAbilityInner : handler := λ data reply,
  match ReadInt32 data with
  | (None, data) => ret (ERR_NULL_OBJECT, data, reply)
  | (Some saId, data) =>
      if negb (valid_said saId) then ret (ERR_NULL_OBJECT, data, reply)
      else
        let '(eventStr, data) := ReadStringValue data in
        if bool_decide (eventStr = "") then ret (ERR_NULL_OBJECT, data, reply)
        else do! i_StopAbility saId eventStr in ret (ERR_NONE, data, reply)
  end.

(* [services/safwk/src/local_ability_manager_stub.cpp:156-177] LocalAbilityManagerStub::ActiveAbilityInner *)
Definition ActiveAbilityInner : handler := λ data reply,
  match ReadInt32 data with
  | (None, data) => ret (ERR_NULL_OBJECT, data, reply)
  | (Some saId, data) =>
      if negb (valid_said saId) then ret (ERR_NULL_OBJECT, data, reply)
      else
        let '(s, data) := ReadStringValue data in
        let! result := i_ActiveAbility saId (StringToJsonObj s) in
        match WriteBool result reply with
        | (false, reply) => ret (ERR_NULL_OBJECT, data, reply)
        | (true, reply) => ret (ERR_NONE, data, reply)
        end
  end.

(* [services/safwk/src/local_ability_manager_stub.cpp:179-205] LocalAbilityManagerStub::IdleAbilityInner *)
Definition IdleAbilityInner : handler := λ data reply,
  match ReadInt32 data with
  | (None, data) => ret (ERR_NULL_OBJECT, data, reply)
  | (Some saId, data) =>
      if negb (valid_said saId) then ret (ERR_NULL_OBJECT, data, reply)
      else
        let '(s, data) := ReadStringValue data in
        let! r := i_IdleAbility saId (StringToJsonObj s) 0 in
        let '(result, delayTime) := r in
        match WriteBool result reply with
        | (false, reply) => ret (ERR_NULL_OBJECT, data, reply)
        | (true, reply) =>
            match WriteInt32 delayTime reply with
            | (false, reply) => ret (ERR_NULL_OBJECT, data, reply)
            | (true, reply) => ret (ERR_NONE, data, reply)
            end
        end
  end.

(* [services/safwk/src/local_ability_manager_stub.cpp:207-239] LocalAbilityManagerStub::SendStrategyToSAInner *)
Definition SendStrategyToSAInner : handler := λ data reply,
  match ReadInt32 data with
  | (None, data) => ret (ERR_NULL_OBJECT, data, reply)
  | (Some type, data) =>
      match ReadInt32 data with
      | (None, data) => ret (ERR_NULL_OBJECT, data, reply)
      | (Some saId, data) =>
          if negb (valid_said saId) then ret (ERR_NULL_OBJECT, data, reply)
          else
            match ReadInt32 data with
            | (None, data) => ret (ERR_NULL_OBJECT, data, reply)
            | (Some level, data) =>
                match ReadString data with
                | (None, data) => ret (ERR_NULL_OBJECT, data, reply)
                | (Some aciton, data) =>
                    let! r := i_SendStrategyToSA type saId level aciton in
                    let '(result, _) := r in
                    if negb result then ret (ERR_NULL_OBJECT, data, reply)
                    else ret (ERR_NONE, data, reply)
                end
            end
      end
  end.

(* [services/safwk/src/local_ability_manager_stub.cpp:241-262] LocalAbilityManagerStub::IpcStatCmdProcInner *)
Definition IpcStatCmdProcInner : handler := λ data reply,
  let '(fd, data) := ReadFileDescriptor data in
  if fd <? 0 then ret (ERR_NULL_OBJECT, data, reply)
  else
    match ReadInt32 data with
    | (None, data) => do! close fd in ret (ERR_NULL_OBJECT, data, reply)
    | (Some cmd, data) =>
        let! result := i_IpcStatCmdProc fd cmd in
        match WriteBool result reply with
        | (false, reply) => do! close fd in ret (ERR_NULL_OBJECT, data, reply)
        | (true, reply) => do! close fd in ret (ERR_NONE, data, reply)
        end
    end.

(* [services/safwk/src/local_ability_manager_stub.cpp:264-285] LocalAbilityManagerStub::FfrtStatCmdProcInner *)
Definition FfrtStatCmdProcInner : handler := λ data reply,
  let '(fd, data) := ReadFileDescriptor data in
  if fd <? 0 then ret (ERR_NULL_OBJECT, data, reply)
  else
    match ReadInt32 data with
    | (None, data) => do! close fd in ret (ERR_NULL_OBJECT, data, reply)
    | (Some cmd, data) =>
        let! result := i_FfrtStatCmdProc fd cmd in
        match WriteBool result reply with
        | (false, reply) => do! close fd in ret (ERR_NULL_OBJECT, data, reply)
        | (true, reply) => do! close fd in ret (ERR_NONE, data, reply)
        end
    end.

(* [services/safwk/src/local_ability_manager_stub.cpp:287-298] LocalAbilityManagerStub::FfrtDumperProcInner *)
Definition FfrtDumperProcInner : handler := λ data reply,
  let! r := i_FfrtDumperProc "" in
  let '(_, ffrtDumperInfo) := r in
  match WriteString ffrtDumperInfo reply with
  | (false, reply) => ret (ERR_NULL_OBJECT, data, reply)
  | (true, reply) => ret (ERR_NONE, data, reply)
  end.

(* [services/safwk/src/local_ability_manager_stub.cpp:300-329] LocalAbilityManagerStub::SystemAbilityExtProcInner *)
Definition SystemAbilityExtProcInner : handler := λ data reply,
  match ReadInt32 data with
  | (None, data) => ret (INVALID_DATA, data, reply)
  | (Some saId, data) =>
      if negb (valid_said saId) then ret (INVALID_DATA, data, reply)
      else
        let '(extension, data) := ReadStringValue data in
        if bool_decide (extension = "") then ret (INVALID_DATA, data, reply)
        else
          let! r := i_SystemAbilityExtProc extension saId (Some (data, reply)) in
          let '(result, callback) := r in
          let '(data, reply) := match callback with Some c => c | None => (data, reply) end in
          if negb (result =? ERR_NONE) then ret (result, data, reply)
          else ret (ERR_NONE, data, reply)
  end.

(* [services/safwk/src/local_ability_manager_stub.cpp:342-375] LocalAbilityManagerStub::ServiceControlCmdInner *)
Definition ServiceControlCmdInner : handler := λ data reply,
  match ReadInt32 data with
  | (None, data) => ret (INVALID_DATA, data, reply)
  | (Some systemAbilityId, data) =>
      if negb (valid_said systemAbilityId) then ret (INVALID_DATA, data, reply)
      else
        let '(fd, data) := ReadFileDescriptor data in
        if fd <? 0 then ret (INVALID_DATA, data, reply)
        else
          match ReadString16Vector data with
          | (None, data) => do! close fd in ret (INVALID_DATA, data, reply)
          | (Some args, data) =>
              let! result := i_ServiceControlCmd fd systemAbilityId args in
              do! close fd in ret (result, data, reply)
          end
  end.

(** ** Dispatch *)

(** The static functions of the map, which call the members. *)
(* [services/safwk/include/local_ability_manager_stub.h:38-77] LocalAbilityManagerStub::LocalStartAbility .. LocalServiceControlCmd *)
Definition handler_of (c : SafwkInterfaceCode) : handler :=
  match c with
  | START_ABILITY_TRANSACTION => StartAbilityInner
  | STOP_ABILITY_TRANSACTION => StopAbilityInner
  | ACTIVE_ABILITY_TRANSACTION => ActiveAbilityInner
  | IDLE_ABILITY_TRANSACTION => IdleAbilityInner
  | SEND_STRATEGY_TO_SA_TRANSACTION => SendStrategyToSAInner
  | IPC_STAT_CMD_TRANSACTION => IpcStatCmdProcInner
  | FFRT_DUMPER_TRANSACTION => FfrtDumperProcInner
  | SYSTEM_ABILITY_EXT_TRANSACTION => SystemAbilityExtProcInner
  | FFRT_STAT_CMD_TRANSACTION => FfrtStatCmdProcInner
  | SERVICE_CONTROL_CMD_TRANSACTION => ServiceControlCmdInner
  end.

(** The entries of [memberFuncMap_], in the order the constructor makes them. *)
(* [services/safwk/src/local_ability_manager_stub.cpp:44-66] LocalAbilityManagerStub::LocalAbilityManagerStub *)
Definition memberFuncMap_ : list (Z * handler) := [
  (code_value START_ABILITY_TRANSACTION, handler_of START_ABILITY_TRANSACTION);
  (code_value STOP_ABILITY_TRANSACTION, handler_of STOP_ABILITY_TRANSACTION);
  (code_value ACTIVE_ABILITY_TRANSACTION, handler_of ACTIVE_ABILITY_TRANSACTION);
  (code_value IDLE_ABILITY_TRANSACTION, handler_of IDLE_ABILITY_TRANSACTION);
  (code_value SEND_STRATEGY_TO_SA_TRANSACTION, handler_of SEND_STRATEGY_TO_SA_TRANSACTION);
  (code_value IPC_STAT_CMD_TRANSACTION, handler_of IPC_STAT_CMD_TRANSACTION);
  (code_value FFRT_DUMPER_TRANSACTION, handler_of FFRT_DUMPER_TRANSACTION);
  (code_value SYSTEM_ABILITY_EXT_TRANSACTION, handler_of SYSTEM_ABILITY_EXT_TRANSACTION);
  (code_value FFRT_STAT_CMD_TRANSACTION, handler_of FFRT_STAT_CMD_TRANSACTION);
  (code_value SERVICE_CONTROL_CMD_TRANSACTION, handler_of SERVICE_CONTROL_CMD_TRANSACTION)].

Fixpoint find_handler (code : Z) (l : list (Z * handler)) : option handler :=
  match l with
  | [] => None
  | (c, h) :: l' => if c =? code then Some h else find_handler code l'
  end.

(* [services/safwk/src/local_ability_manager_stub.cpp:85-107] LocalAbilityManagerStub::OnRemoteRequest *)
Definition OnRemoteRequest (code : Z) (data reply : P) : M (Z * P * P) :=
  let '(ok, data) := EnforceInterceToken data in
  if negb ok then ret (ERR_PERMISSION_DENIED, data, reply)
  else
    let! granted := CheckPermission code in
    if negb granted then ret (ERR_PERMISSION_DENIED, data, reply)
    else
      match find_handler code memberFuncMap_ with
      | Some h => h data reply
      | None => IPCObjectStub_OnRemoteRequest code data reply
      end.

(** ** What the theorems assume of the environment *)

(** [closed] lists the descriptors closed so far; of what the handlers call, only
    [close] closes one. *)
Class ClosesLaws (closed : S → list Z) : Prop := {
  close_closed fd w : closed (close fd w).2 = closed w ++ [fd];
  token_closed : keeps closed GetCallingTokenID;
  verify_closed t p : keeps closed (VerifyAccessToken t p);
  start_closed id e : keeps closed (i_StartAbility id e);
  stop_closed id e : keeps closed (i_StopAbility id e);
  active_closed id j : keeps closed (i_ActiveAbility id j);
  idle_closed id j d : keeps closed (i_IdleAbility id j d);
  strategy_closed t id l a : keeps closed (i_SendStrategyToSA t id l a);
  ipc_closed fd c : keeps closed (i_IpcStatCmdProc fd c);
  ffrt_closed fd c : keeps closed (i_FfrtStatCmdProc fd c);
  dumper_closed s : keeps closed (i_FfrtDumperProc s);
  ext_closed e id c : keeps closed (i_SystemAbilityExtProc e id c);
  svc_closed fd id args : keeps closed (i_ServiceControlCmd fd id args);
}.

(** The descriptor a handler takes out of the parcel. *)
Definition taken_fd (c : SafwkInterfaceCode) (data : P) : list Z :=
  let take data := let fd := (ReadFileDescriptor data).1 in if fd <? 0 then [] else [fd] in
  match c with
  | IPC_STAT_CMD_TRANSACTION | FFRT_STAT_CMD_TRANSACTION => take data
  | SERVICE_CONTROL_CMD_TRANSACTION =>
      match ReadInt32 data with
      | (Some id, data) => if valid_said id then take data else []
      | (None, _) => []
      end
  | _ => []
  end.

(** ** Lemmas *)

Lemma find_handler_of `{!SamgrDefsLaws} c : find_handler (code_value c) memberFuncMap_ = Some (handler_of c).
Proof.
  assert (∀ a, (code_value a =? code_value c) = bool_decide (a = c)) as He.
  { intros a. destruct (Z.eqb_spec (code_value a) (code_value c)) as [E|E].
    - apply code_value_inj in E as ->. by rewrite bool_decide_eq_true_2.
    - rewrite bool_decide_eq_false_2; [done|]. by intros ->. }
  unfold memberFuncMap_. cbn [find_handler]. rewrite !He. by destruct c.
Qed.

Lemma valid_said_true id : FIRST_SYS_ABILITY_ID ≤ id ≤ LAST_SYS_ABILITY_ID → valid_said id = true.
Proof.
  intros [H1 H2]. unfold valid_said. by rewrite (proj2 (Z.leb_le _ _) H1), (proj2 (Z.leb_le _ _) H2).
Qed.

Lemma keeps_at {A} (closed : S → list Z) (m : M A) w : keeps closed m → closed (m w).2 = closed w.
Proof. intros Hm. apply Hm. Qed.

(** What a handler that works on a descriptor does with it. *)
Lemma stat_closed `{!ClosesLaws closed} (op : Z → Z → M bool) data reply w :
  (∀ fd c, keeps closed (op fd c)) →
  let fd := (ReadFileDescriptor data).1 in
  closed ((let '(fd, data) := ReadFileDescriptor data in
  if fd <? 0 then ret (ERR_NULL_OBJECT, data, reply)
  else
    match ReadInt32 data with
    | (None, data) => do! close fd in ret (ERR_NULL_OBJECT, data, reply)
    | (Some cmd, data) =>
        let! result := op fd cmd in
        match WriteBool result reply with
        | (false, reply) => do! close fd in ret (ERR_NULL_OBJECT, data, reply)
        | (true, reply) => do! close fd in ret (ERR_NONE, data, reply)
        end
    end) w).2 = closed w ++ (if fd <? 0 then [] else [fd]).
Proof.
  intros Hop. destruct (ReadFileDescriptor data) as [fd d1]. cbn [fst].
  destruct (fd <? 0); [by simpl; rewrite app_nil_r|].
  destruct (ReadInt32 d1) as [[cmd|] d2]; rewrite !bind_run; cbn [fst snd].
  - destruct (WriteBool _ reply) as [[] r1]; rewrite bind_run; cbn [ret snd]; by rewrite close_closed, Hop.
  - cbn [ret snd]. by rewrite close_closed.
Qed.

Lemma handler_closed `{!ClosesLaws closed} c data reply w :
  closed (handler_of c data reply w).2 = closed w ++ taken_fd c data.
Proof.
  destruct c; cbn [handler_of taken_fd]; rewrite ?app_nil_r.
  - unfold StartAbilityInner. destruct (ReadInt32 data) as [[id|] d]; [|done].
    destruct (negb (valid_said id)); [done|]. destruct (ReadStringValue d) as [e d'].
    case_bool_decide; [done|]. rewrite bind_run. apply start_closed.
  - unfold StopAbilityInner. destruct (ReadInt32 data) as [[id|] d]; [|done].
    destruct (negb (valid_said id)); [done|]. destruct (ReadStringValue d) as [e d'].
    case_bool_decide; [done|]. rewrite bind_run. apply stop_closed.
  - unfold ActiveAbilityInner. destruct (ReadInt32 data) as [[id|] d]; [|done].
    destruct (negb (valid_said id)); [done|]. destruct (ReadStringValue d) as [e d'].
    rewrite bind_run. destruct (WriteBool _ reply) as [[] r]; apply active_closed.
  - unfold IdleAbilityInner. destruct (ReadInt32 data) as [[id|] d]; [|done].
    destruct (negb (valid_said id)); [done|]. destruct (ReadStringValue d) as [e d'].
    rewrite bind_run. pose proof (idle_closed (closed := closed) id (StringToJsonObj e) 0 w) as Hi.
    destruct (i_IdleAbility _ _ _ w) as [[ok dl] w']. simpl in *.
    destruct (WriteBool ok reply) as [[] r]; [|done]. by destruct (WriteInt32 dl r) as [[] ?].
  - unfold SendStrategyToSAInner. destruct (ReadInt32 data) as [[ty|] d]; [|done].
    destruct (ReadInt32 d) as [[id|] d']; [|done]. destruct (negb (valid_said id)); [done|].
    destruct (ReadInt32 d') as [[lv|] d'']; [|done]. destruct (ReadString d'') as [[ac|] d3]; [|done].
    rewrite bind_run. pose proof (strategy_closed (closed := closed) ty id lv ac w) as Hi.
    destruct (i_SendStrategyToSA _ _ _ _ w) as [[ok ?] w']. simpl in *. by destruct ok.
  - apply (stat_closed i_IpcStatCmdProc). apply ipc_closed.
  - unfold FfrtDumperProcInner. rewrite bind_run.
    pose proof (dumper_closed (closed := closed) "" w) as Hi.
    destruct (i_FfrtDumperProc "" w) as [[ok s] w']. simpl in *.
    by destruct (WriteString s reply) as [[] ?].
  - unfold SystemAbilityExtProcInner. destruct (ReadInt32 data) as [[id|] d]; [|done].
    destruct (negb (valid_said id)); [done|]. destruct (ReadStringValue d) as [e d'].
    case_bool_decide; [done|]. rewrite bind_run.
    pose proof (ext_closed (closed := closed) e id (Some (d', reply)) w) as Hi.
    destruct (i_SystemAbilityExtProc _ _ _ w) as [[r cb] w']. simpl in *.
    destruct cb as [[d2 r2]|]; by destruct (r =? ERR_NONE).
  - apply (stat_closed i_FfrtStatCmdProc). apply ffrt_closed.
  - unfold ServiceControlCmdInner. destruct (ReadInt32 data) as [[id|] d]; [|by rewrite app_nil_r].
    destruct (valid_said id); cbn [negb]; [|by rewrite app_nil_r].
    destruct (ReadFileDescriptor d) as [fd d']. cbn [fst]. destruct (fd <? 0); [by rewrite app_nil_r|].
    destruct (ReadString16Vector d') as [[args|] d2]; rewrite !bind_run; cbn [ret snd];
      by rewrite close_closed, ?svc_closed.
Qed.

(** ** Properties *)

(** C12: no request reaches a handler unless it carries the interface token and its
    sender holds the permission of its code (the extension permission, the
    service-control permission, or else the management permission); a request
    that fails either check is answered [ERR_PERMISSION_DENIED] and changes
    nothing beyond the check itself; one that passes goes to the handler of
    its code, or to the base class when the code is unknown. *)
Theorem request_guarded `{!SamgrDefsLaws} code data reply w :
  let '(token, data1) := ReadInterfaceToken data in
  let '(caller, w1) := GetCallingTokenID w in
  let '(verdict, w2) := VerifyAccessToken caller (permission_of code) w1 in
  (token ≠ LOCAL_ABILITY_MANAGER_INTERFACE_TOKEN →
     OnRemoteRequest code data reply w = ((ERR_PERMISSION_DENIED, data1, reply), w)) ∧
  (token = LOCAL_ABILITY_MANAGER_INTERFACE_TOKEN → verdict ≠ PERMISSION_GRANTED →
     OnRemoteRequest code data reply w = ((ERR_PERMISSION_DENIED, data1, reply), w2)) ∧
  (token = LOCAL_ABILITY_MANAGER_INTERFACE_TOKEN → verdict = PERMISSION_GRANTED →
     (∀ c, code = code_value c → OnRemoteRequest code data reply w = handler_of c data1 reply w2) ∧
     ((∀ c, code ≠ code_value c) →
        OnRemoteRequest code data reply w = IPCObjectStub_OnRemoteRequest code data1 reply w2)) ∧
  permission_of (code_value SYSTEM_ABILITY_EXT_TRANSACTION) = PERMISSION_EXT_TRANSACTION ∧
  permission_of (code_value SERVICE_CONTROL_CMD_TRANSACTION) = PERMISSION_SVC ∧
  (code ≠ code_value SYSTEM_ABILITY_EXT_TRANSACTION → code ≠ code_value SERVICE_CONTROL_CMD_TRANSACTION →
     permission_of code = PERMISSION_MANAGE).
Proof.
  assert (∀ code, permission_of code = if code =? code_value SYSTEM_ABILITY_EXT_TRANSACTION
    then PERMISSION_EXT_TRANSACTION else if code =? code_value SERVICE_CONTROL_CMD_TRANSACTION
    then PERMISSION_SVC else PERMISSION_MANAGE) as Hp by done.
  assert (code_value SERVICE_CONTROL_CMD_TRANSACTION ≠ code_value SYSTEM_ABILITY_EXT_TRANSACTION) as Hne.
  { by intros E%code_value_inj. }
  unfold OnRemoteRequest, EnforceInterceToken, CheckPermission.
  destruct (ReadInterfaceToken data) as [token d1].
  destruct (GetCallingTokenID w) as [caller w1] eqn:E1.
  destruct (VerifyAccessToken caller (permission_of code) w1) as [verdict w2] eqn:E2.
  split_and!.
  - intros Ht. by rewrite bool_decide_eq_false_2.
  - intros Ht Hv. rewrite bool_decide_eq_true_2 by done. cbn [negb]. rewrite !bind_run, E1. cbn [fst snd].
    rewrite E2. cbn [fst snd ret]. by rewrite (proj2 (Z.eqb_neq _ _) Hv).
  - intros Ht ->. rewrite bool_decide_eq_true_2 by done. cbn [negb]. rewrite !bind_run, E1. cbn [fst snd].
    rewrite E2. cbn [fst snd ret]. rewrite Z.eqb_refl. cbn [negb]. split.
    + intros c ->. by rewrite find_handler_of.
    + intros Hc. unfold memberFuncMap_. cbn [find_handler].
      rewrite !(proj2 (Z.eqb_neq _ _)) by (intros E; by eapply Hc). done.
  - by rewrite Hp, Z.eqb_refl.
  - rewrite Hp, Z.eqb_refl. by rewrite (proj2 (Z.eqb_neq _ _) Hne).
  - intros H1 H2. by rewrite Hp, (proj2 (Z.eqb_neq _ _) H1), (proj2 (Z.eqb_neq _ _) H2).
Qed.

(** C22: on every path of every request, success or error, a file descriptor the
    handler takes out of the parcel is closed exactly once, and no other is
    closed. *)
Theorem fd_closed_once `{!SamgrDefsLaws, !ClosesLaws closed} c data reply w :
  let '(token, data1) := ReadInterfaceToken data in
  let '(caller, w1) := GetCallingTokenID w in
  let passes := bool_decide (token = LOCAL_ABILITY_MANAGER_INTERFACE_TOKEN) &&
    ((VerifyAccessToken caller (permission_of (code_value c)) w1).1 =? PERMISSION_GRANTED) in
  closed (OnRemoteRequest (code_value c) data reply w).2 =
  closed w ++ (if passes then taken_fd c data1 else []).
Proof.
  unfold OnRemoteRequest, EnforceInterceToken, CheckPermission.
  destruct (ReadInterfaceToken data) as [token d1].
  destruct (GetCallingTokenID w) as [caller w1] eqn:E1.
  case_bool_decide; cbn [negb andb]; [|by simpl; rewrite app_nil_r].
  rewrite !bind_run, E1. cbn [ret fst snd].
  pose proof (token_closed (closed := closed) w) as Ht. rewrite E1 in Ht. simpl in Ht.
  pose proof (verify_closed (closed := closed) caller (permission_of (code_value c)) w1) as Hv.
  destruct (VerifyAccessToken caller _ w1) as [verdict w2]. cbn [fst snd] in *.
  destruct (verdict =? PERMISSION_GRANTED); cbn [negb].
  - by rewrite find_handler_of, handler_closed, Hv, Ht.
  - simpl. by rewrite Hv, Ht, app_nil_r.
Qed.

(** A request whose ability id cannot be read or is out of range is answered
    with an error and has no effect: the ability manager is not called. *)
Theorem bad_id_refused `{!SamgrDefsLaws} c data reply w :
  c ∈ [START_ABILITY_TRANSACTION; STOP_ABILITY_TRANSACTION; ACTIVE_ABILITY_TRANSACTION;
       IDLE_ABILITY_TRANSACTION; SYSTEM_ABILITY_EXT_TRANSACTION; SERVICE_CONTROL_CMD_TRANSACTION] →
  (∀ id, (ReadInt32 data).1 = Some id → ¬ (FIRST_SYS_ABILITY_ID ≤ id ≤ LAST_SYS_ABILITY_ID)) →
  ∃ err, handler_of c data reply w = ((err, (ReadInt32 data).2, reply), w) ∧ err ≠ ERR_NONE.
Proof.
  intros Hc Hid. pose proof null_object_error. pose proof invalid_data_error.
  assert (∀ id, (ReadInt32 data).1 = Some id → valid_said id = false) as Hv.
  { intros id Hr. specialize (Hid id Hr). unfold valid_said.
    destruct (Z.leb_spec FIRST_SYS_ABILITY_ID id), (Z.leb_spec id LAST_SYS_ABILITY_ID); try done. lia. }
  assert (c = START_ABILITY_TRANSACTION ∨ c = STOP_ABILITY_TRANSACTION ∨ c = ACTIVE_ABILITY_TRANSACTION ∨
    c = IDLE_ABILITY_TRANSACTION ∨ c = SYSTEM_ABILITY_EXT_TRANSACTION ∨ c = SERVICE_CONTROL_CMD_TRANSACTION)
    as Hc' by set_solver.
  destruct (ReadInt32 data) as [[id|] d] eqn:Er; [specialize (Hv id eq_refl)|clear Hv].
  - destruct Hc' as [->|[->|[->|[->|[->| ->]]]]]; eexists; split; cbn [handler_of];
      try (unfold StartAbilityInner, StopAbilityInner, ActiveAbilityInner, IdleAbilityInner,
        SystemAbilityExtProcInner, ServiceControlCmdInner; rewrite Er, Hv; reflexivity); done.
  - destruct Hc' as [->|[->|[->|[->|[->| ->]]]]]; eexists; split; cbn [handler_of];
      try (unfold StartAbilityInner, StopAbilityInner, ActiveAbilityInner, IdleAbilityInner,
        SystemAbilityExtProcInner, ServiceControlCmdInner; rewrite Er; reflexivity); done.
Qed.

(** What a client writes is what the manager gets: a request parcel that holds
    a valid ability id and a non-empty reason starts, stops, activates or idles
    exactly that ability with exactly that reason, and the reply is written
    behind what it held. *)
Theorem request_roundtrip `{!ParcelLaws P} data reply id e w :
  contents data = [PInt id; PStr e] → FIRST_SYS_ABILITY_ID ≤ id ≤ LAST_SYS_ABILITY_ID → e ≠ "" →
  let data' := (ReadStringValue (ReadInt32 data).2).2 in
  StartAbilityInner data reply w = ((ERR_NONE, data', reply), (i_StartAbility id e w).2) ∧
  StopAbilityInner data reply w = ((ERR_NONE, data', reply), (i_StopAbility id e w).2) ∧
  (ActiveAbilityInner data reply w).2 = (i_ActiveAbility id (StringToJsonObj e) w).2 ∧
  (IdleAbilityInner data reply w).2 = (i_IdleAbility id (StringToJsonObj e) 0 w).2 ∧
  (∀ r1 r2, let '((ok, delay), _) := i_IdleAbility id (StringToJsonObj e) 0 w in
     WriteBool ok reply = (true, r1) → WriteInt32 delay r1 = (true, r2) →
     (IdleAbilityInner data reply w).1 = (ERR_NONE, data', r2) ∧ contents r2 = contents r1 ++ [PInt delay]) ∧
  contents data' = [].
Proof.
  intros Hc Hid He. cbv zeta.
  destruct (ReadInt32_contents id [PStr e] data Hc) as [H1 H2].
  destruct (ReadInt32 data) as [r1 d1] eqn:Er. simpl in H1, H2. subst r1.
  destruct (ReadStringValue_contents e [] d1 H2) as [H3 H4].
  destruct (ReadStringValue d1) as [r2 d2] eqn:Es. simpl in H3, H4. subst r2. cbn [fst snd].
  pose proof (valid_said_true id Hid) as Hv.
  unfold StartAbilityInner, StopAbilityInner, ActiveAbilityInner, IdleAbilityInner.
  rewrite Er, Hv. cbn [negb]. rewrite Es, bool_decide_eq_false_2 by done. cbn [snd].
  rewrite !bind_run. split_and!; try done.
  - by destruct (WriteBool _ reply) as [[] ?].
  - destruct (i_IdleAbility id _ 0 w) as [[ok dl] w1]. cbn [fst snd].
    destruct (WriteBool ok reply) as [[] r]; [|done]. by destruct (WriteInt32 dl r) as [[] ?].
  - intros r1 r2. destruct (i_IdleAbility id _ 0 w) as [[ok dl] w1]. intros Hw1 Hw2. cbn [fst snd].
    rewrite Hw1, Hw2. split; [done|]. by apply WriteInt32_contents.
Qed.
End stub.

(** ** Witnesses *)

Module DemoStub.
Import DemoDefs DemoJson DemoParcel.

(** The state is the list of closed descriptors; the caller holds every
    permission, and every operation succeeds. *)
#[global] Instance demo_stub_env : StubEnv (list Z) dp := {
  GetCallingTokenID := ret 1;
  VerifyAccessToken _ _ := ret 0;
  close fd := modify (λ l, l ++ [fd]);
  IPCObjectStub_OnRemoteRequest _ d r := ret (1, d, r);
}.
#[global] Instance demo_lam : ILocalAbilityManager (list Z) dj dp := {
  i_StartAbility _ _ := ret true;
  i_StopAbility _ _ := ret true;
  i_ActiveAbility _ _ := ret true;
  i_IdleAbility _ _ _ := ret (true, 30);
  i_SendStrategyToSA _ _ _ a := ret (true, a);
  i_IpcStatCmdProc _ _ := ret true;
  i_FfrtStatCmdProc _ _ := ret true;
  i_FfrtDumperProc s := ret (true, s);
  i_SystemAbilityExtProc _ _ c := ret (0, c);
  i_ServiceControlCmd _ _ _ := ret 0;
}.
#[global] Instance demo_closes : ClosesLaws (J := dj) id.
Proof. by split. Qed.

Definition request (l : list pitem) (fd : Z) : dp := mk_dp l 8 fd [76; 65; 77] [] 0.
End DemoStub.
Import DemoDefs DemoParcel DemoStub.

Lemma request_guarded_witness :
  OnRemoteRequest 1 (mk_dp [] 8 0 [0] [] 0) (empty_parcel 8) [] =
    ((ERR_PERMISSION_DENIED, mk_dp [] 8 0 [0] [] 0, empty_parcel 8), []).
Proof.
  pose proof (request_guarded 1 (mk_dp [] 8 0 [0] [] 0) (empty_parcel 8) []) as H. simpl in H.
  refine (proj1 H _). by vm_compute.
Defined.

(** A service-control request with descriptor 7 closes it, although the argument
    list is empty. *)
Lemma fd_closed_once_witness :
  (OnRemoteRequest (code_value SERVICE_CONTROL_CMD_TRANSACTION) (request [PInt 401] 7) (empty_parcel 8) []).2 = [7].
Proof.
  pose proof (fd_closed_once SERVICE_CONTROL_CMD_TRANSACTION (request [PInt 401] 7) (empty_parcel 8) []) as H.
  simpl in H. exact H.
Defined.

Lemma bad_id_refused_witness :
  ∃ err, handler_of IDLE_ABILITY_TRANSACTION (request [PInt (-3)] 7) (empty_parcel 8) [] =
    ((err, request [] 7, empty_parcel 8), []) ∧ err ≠ ERR_NONE.
Proof.
  destruct (bad_id_refused IDLE_ABILITY_TRANSACTION (request [PInt (-3)] 7) (empty_parcel 8) [])
    as (err & He & Hn).
  - set_solver.
  - intros id Hid. vm_compute in Hid. injection Hid as <-. vm_compute. intros [Hl _]. by apply Hl.
  - exists err. split; [exact He|exact Hn].
Defined.

Lemma request_roundtrip_witness :
  StartAbilityInner (request [PInt 401; PStr "{}"] 7) (empty_parcel 8) [] =
    ((ERR_NONE, request [] 7, empty_parcel 8), []).
Proof.
  destruct (request_roundtrip (request [PInt 401; PStr "{}"] 7) (empty_parcel 8) 401 "{}" [])
    as [-> _]; [reflexivity|simpl; lia|discriminate|reflexivity].
Defined.
