(* ===== verification/Dumper.v ===== *)
(** * Dumper: IPC and FFRT statistics

    [services/safwk/src/local_ability_manager_dumper.cpp] with the task handler
    of [services/safwk/src/ffrt_handler.cpp], and the procedures of
    [local_ability_manager.cpp] that run its commands.  The dumper's static
    members and the pending delayed tasks are the state [dumper]; the answers of
    the ffrt runtime and of the IPC statistics are the class [DumperEnv]. *)

From S2P Require Import Prelude CString Interfaces.
From S2P Require Export Monad.
From stdpp Require Import pretty.

Open Scope Z_scope.

(** One entry of the metric buffer; the times are [uint64_t]. *)
Record ffrt_stat := mk_stat { taskName : string; startTime : Z; endTime : Z }.

Inductive ffrt_cmd := DUMP_START_STAT | DUMP_STOP_STAT.

(** What [IPCPayloadStatistics] reports. *)
Record ipc_intf := mk_intf {
  desc : u16string; icode : Z; icount : Z; totalCost : Z; maxCost : Z; minCost : Z; averCost : Z }.
Record ipc_pid := mk_pid { ipid : Z; pcount : Z; pcost : Z; intfs : list ipc_intf }.
Record ipc_stats := mk_stats { TotalCount : Z; TotalCost : Z; pids : list ipc_pid }.

Inductive dump_event :=
| DFfrtDump (c : ffrt_cmd) (live : bool) | DSubmit (delay : Z) | DCancel (task : Z)
| DSave (fd : Z) (s : string) | DStartStatistics | DStopStatistics.

(** The static members; [handler_] is its task map, [pending] the queue's tasks
    that have neither begun nor been cancelled, and [begun] the number of those
    that have begun and wait for [ffrtMetricLock]. *)
(* [services/safwk/src/local_ability_manager_dumper.cpp:34-37] LocalAbilityManagerDumper *)
Record dumper := mk_dumper {
  handler_ : option (gmap string Z);
  ffrtMetricBuffer : option (list ffrt_stat);
  collectEnable : bool;
  pending : list Z;
  begun : nat;
  dlog : list dump_event;
}.
Definition new_dumper : dumper := mk_dumper None None false [] 0 [].

Definition set_handler v (d : dumper) := mk_dumper v (ffrtMetricBuffer d) (collectEnable d) (pending d) (begun d) (dlog d).
Definition set_buffer v (d : dumper) := mk_dumper (handler_ d) v (collectEnable d) (pending d) (begun d) (dlog d).
Definition set_collect v (d : dumper) := mk_dumper (handler_ d) (ffrtMetricBuffer d) v (pending d) (begun d) (dlog d).
Definition set_pending v (d : dumper) := mk_dumper (handler_ d) (ffrtMetricBuffer d) (collectEnable d) v (begun d) (dlog d).
Definition set_begun v (d : dumper) := mk_dumper (handler_ d) (ffrtMetricBuffer d) (collectEnable d) (pending d) v (dlog d).
Definition set_dlog v (d : dumper) := mk_dumper (handler_ d) (ffrtMetricBuffer d) (collectEnable d) (pending d) (begun d) v.

Class DumperEnv := {
  dump_answer : list dump_event → dump_event → Z;
  dump_filled : list dump_event → list ffrt_stat;   (* what [ffrt_dump] leaves in the buffer *)
  ipc_statistics : list dump_event → ipc_stats;
  ffrt_dump_symbol : option string;                 (* [dlsym("ffrt_dump")] and the text it writes *)
  getpid : Z;
  IPC_STAT_CMD_START : Z; IPC_STAT_CMD_STOP : Z; IPC_STAT_CMD_GET : Z; IPC_STAT_CMD_MAX : Z;
  FFRT_STAT_CMD_START : Z; FFRT_STAT_CMD_STOP : Z; FFRT_STAT_CMD_GET : Z; FFRT_STAT_CMD_MAX : Z;
}.

Section dumper.
  Context `{!DumperEnv, !StringUtil}.

  #[local] Abbreviation M := (sprog dumper).

Definition dcall (e : dump_event) : M Z :=
  λ d, (dump_answer (dlog d) e, set_dlog (dlog d ++ [e]) d).

Definition to_string (z : Z) : string := pretty z.

(** ** FFRTHandler *)

(* [services/safwk/src/ffrt_handler.cpp:26-26] CONVERSION_FACTOR *)
Definition CONVERSION_FACTOR : Z := 1000.

(** The handle is non-zero when the queue took the task. *)
(* [services/safwk/src/ffrt_handler.cpp:34-48] FFRTHandler::PostTask *)
Definition PostTask (name : string) (delayTime : Z) : M bool :=
  if UINT64_MAX / CONVERSION_FACTOR <? delayTime then ret false
  else
    let! handler := dcall (DSubmit (wrapu64 (delayTime * CONVERSION_FACTOR))) in
    if handler =? 0 then ret false
    else
      do! modify (λ d, set_handler (insert name handler <$> handler_ d)
                         (set_pending (pending d ++ [handler]) d)) in
      ret true.

(* [services/safwk/src/ffrt_handler.cpp:50-65] FFRTHandler::RemoveTask *)
Definition RemoveTask (name : string) : M unit :=
  let! taskMap_ := gets (λ d, default ∅ (handler_ d)) in
  match taskMap_ !! name with
  | None => ret tt
  | Some item =>
      do! (if negb (item =? 0) then
             do! dcall (DCancel item) in
             modify (λ d, set_pending (remove_all item (pending d)) d)
           else ret tt) in
      modify (λ d, set_handler (delete name <$> handler_ d) d)
  end.

(** ** IPC statistics *)

(* [services/safwk/src/local_ability_manager_dumper.cpp:26-26] DUMP_SUCCESS *)
Definition DUMP_SUCCESS : string := " success" +:+ String "010"%char "".
(* [services/safwk/src/local_ability_manager_dumper.cpp:27-27] DUMP_FAIL *)
Definition DUMP_FAIL : string := " fail" +:+ String "010"%char "".
Definition nl : string := String "010"%char "".

(* [services/safwk/src/local_ability_manager_dumper.cpp:39-45] LocalAbilityManagerDumper::StartIpcStatistics *)
Definition StartIpcStatistics : M (bool * string) :=
  let! r := dcall DStartStatistics in
  let ok := negb (r =? 0) in
  ret (ok, ("StartIpcStatistics pid:" +:+ to_string getpid) +:+ (if ok then DUMP_SUCCESS else DUMP_FAIL)).

(* [services/safwk/src/local_ability_manager_dumper.cpp:47-53] LocalAbilityManagerDumper::StopIpcStatistics *)
Definition StopIpcStatistics : M (bool * string) :=
  let! r := dcall DStopStatistics in
  let ok := negb (r =? 0) in
  ret (ok, ("StopIpcStatistics pid:" +:+ to_string getpid) +:+ (if ok then DUMP_SUCCESS else DUMP_FAIL)).

Fixpoint repeat_string (s : string) (n : nat) : string :=
  match n with O => "" | S n' => s +:+ repeat_string s n' end.

(* [services/safwk/src/local_ability_manager_dumper.cpp:76-97] LocalAbilityManagerDumper::GetIpcStatistics *)
Definition print_intf (i : ipc_intf) : string :=
  nl +:+ repeat_string "~" 32 +:+ "InterfaceStatisticsInfo" +:+ repeat_string "~" 29 +:+
  nl +:+ "DescriptorCode:" +:+ Str16ToStr8 (desc i) +:+ "_" +:+ to_string (icode i) +:+
  nl +:+ "DescriptorCodeCount:" +:+ to_string (icount i) +:+
  nl +:+ "DescriptorCodeTimeCost:" +:+
  nl +:+ "Total:" +:+ to_string (totalCost i) +:+ " | Max:" +:+ to_string (maxCost i) +:+
  " | Min:" +:+ to_string (minCost i) +:+ " | Avg:" +:+ to_string (averCost i) +:+
  nl +:+ repeat_string "~" 84.

(* [services/safwk/src/local_ability_manager_dumper.cpp:66-99] LocalAbilityManagerDumper::GetIpcStatistics *)
Definition print_pid (p : ipc_pid) : string :=
  nl +:+ repeat_string "-" 32 +:+ "ProcessStatisticsInfo" +:+ repeat_string "-" 31 +:+
  nl +:+ "CallingPid:" +:+ to_string (ipid p) +:+
  nl +:+ "CallingPidTotalCount:" +:+ to_string (pcount p) +:+
  nl +:+ "CallingPidTotalTimeCost:" +:+ to_string (pcost p) +:+
  foldr (λ i s, print_intf i +:+ s) "" (intfs p) +:+
  nl +:+ repeat_string "-" 84.

(* [services/safwk/src/local_ability_manager_dumper.cpp:55-102] LocalAbilityManagerDumper::GetIpcStatistics *)
Definition GetIpcStatistics (result : string) : M (bool * string) :=
  let! st := gets (λ d, ipc_statistics (dlog d)) in
  ret (true, result +:+ repeat_string "*" 32 +:+ "GlobalStatisticsInfo" +:+ repeat_string "*" 32 +:+
    nl +:+ "CurrentPid:" +:+ to_string getpid +:+
    nl +:+ "TotalCount:" +:+ to_string (TotalCount st) +:+
    nl +:+ "TotalTimeCost:" +:+ to_string (TotalCost st) +:+
    foldr (λ p s, print_pid p +:+ s) "" (pids st) +:+
    nl +:+ repeat_string "*" 84 +:+ nl).

(** ** FFRT statistics *)

(* [services/safwk/src/local_ability_manager_dumper.cpp:31-31] DELAY_TIME *)
Definition DELAY_TIME : Z := 60 * 1000.
(* [services/safwk/src/local_ability_manager_dumper.cpp:28-28] COLLECT_FFRT_METRIC_MAX_SIZE *)
Definition COLLECT_FFRT_METRIC_MAX_SIZE : nat := 5000.

(* [services/safwk/src/local_ability_manager_dumper.cpp:201-211] LocalAbilityManagerDumper::ClearFfrtStatisticsBufferLocked *)
Definition ClearFfrtStatisticsBufferLocked : M unit :=
  do! modify (set_buffer None) in
  let! h := gets handler_ in
  match h with None => ret tt | Some _ => RemoveTask "ClearFfrtStatistics" end.

(** [ffrt_dump] on the metric buffer: its code, and the buffer it fills; [live]
    tells whether the pointer it is given is not null. *)
Definition ffrt_dump (c : ffrt_cmd) : M Z :=
  let! filled := gets (λ d, dump_filled (dlog d)) in
  let! buf := gets ffrtMetricBuffer in
  let! r := dcall (DFfrtDump c (bool_decide (is_Some buf))) in
  do! modify (λ d, set_buffer ((λ _, take COLLECT_FFRT_METRIC_MAX_SIZE filled) <$> ffrtMetricBuffer d) d) in
  ret r.

(* [services/safwk/src/local_ability_manager_dumper.cpp:104-126] LocalAbilityManagerDumper::StartFfrtStatistics *)
Definition StartFfrtStatistics (result : string) : M (bool * string) :=
  let! collecting := gets collectEnable in
  if collecting then ret (false, result +:+ "collect has been started" +:+ nl)
  else
    do! ClearFfrtStatisticsBufferLocked in
    do! modify (set_buffer (Some [])) in
    let! r := ffrt_dump DUMP_START_STAT in
    if negb (r =? 0) then
      do! ClearFfrtStatisticsBufferLocked in
      ret (false, result +:+ "collect start failed" +:+ nl)
    else
      do! modify (set_collect true) in
      do! modify (λ d, match handler_ d with None => set_handler (Some ∅) d | Some _ => d end) in
      do! PostTask "ClearFfrtStatistics" DELAY_TIME in
      ret (true, result +:+ "collect start success" +:+ nl).

(* [services/safwk/src/local_ability_manager_dumper.cpp:128-143] LocalAbilityManagerDumper::StopFfrtStatistics *)
Definition StopFfrtStatistics (result : string) : M (bool * string) :=
  let! collecting := gets collectEnable in
  if negb collecting then ret (false, result +:+ "collect has not been started" +:+ nl)
  else
    do! modify (set_collect false) in
    let! r := ffrt_dump DUMP_STOP_STAT in
    if negb (r =? 0) then
      do! ClearFfrtStatisticsBufferLocked in
      ret (false, result +:+ "collect stop failed" +:+ nl)
    else ret (true, result +:+ "collect stop success" +:+ nl).

(** The loop of the parser: the figures so far and the text of the tasks. *)
Record figures := mk_figures { sumTime : Z; maxTime : Z; minTime : Z; count : Z; taskInfo : string }.

(* [services/safwk/src/local_ability_manager_dumper.cpp:171-185] LocalAbilityManagerDumper::FfrtStatisticsParser *)
Fixpoint parse_stats (buf : list ffrt_stat) (f : figures) : figures :=
  match buf with
  | [] => f
  | currentStat :: buf' =>
      if bool_decide (taskName currentStat = "") then f
      else if endTime currentStat <? startTime currentStat then parse_stats buf' f
      else
        let duration := wrapu64 (endTime currentStat - startTime currentStat) in
        parse_stats buf' (mk_figures (wrapu64 (sumTime f + duration)) (Z.max (maxTime f) duration)
          (Z.min (minTime f) duration) (wrapu64 (count f + 1))
          (taskInfo f +:+ taskName currentStat +:+ " " +:+ to_string (startTime currentStat) +:+
           " " +:+ to_string (endTime currentStat) +:+ nl))
  end.

(* [services/safwk/src/local_ability_manager_dumper.cpp:166-170] LocalAbilityManagerDumper::FfrtStatisticsParser *)
Definition no_figures : figures := mk_figures 0 0 UINT64_MAX 0 "".

(** The printed minimum and average. *)
(* [services/safwk/src/local_ability_manager_dumper.cpp:186-190] LocalAbilityManagerDumper::FfrtStatisticsParser *)
Definition final_min (f : figures) : Z := if count f =? 0 then 0 else minTime f.
(* [services/safwk/src/local_ability_manager_dumper.cpp:186-190] LocalAbilityManagerDumper::FfrtStatisticsParser *)
Definition final_avg (f : figures) : Z := if count f =? 0 then 0 else sumTime f / count f.

(* [services/safwk/src/local_ability_manager_dumper.cpp:161-199] LocalAbilityManagerDumper::FfrtStatisticsParser *)
Definition FfrtStatisticsParser (result : string) (buf : list ffrt_stat) : string :=
  let f := parse_stats buf no_figures in
  let line := repeat_string "-" 91 +:+ nl in
  result +:+ "sumTime:" +:+ to_string (sumTime f) +:+ " maxTime:" +:+ to_string (maxTime f) +:+
  " minTime:" +:+ to_string (final_min f) +:+ " avgTime:" +:+ to_string (final_avg f) +:+
  " cntTime:" +:+ to_string (count f) +:+ nl +:+ line +:+
  "taskName                                                        startTime(us)   endTime(us)" +:+ nl +:+
  line +:+ taskInfo f +:+ line.

(* [services/safwk/src/local_ability_manager_dumper.cpp:145-159] LocalAbilityManagerDumper::GetFfrtStatistics *)
Definition GetFfrtStatistics (result : string) : M (bool * string) :=
  let! collecting := gets collectEnable in
  if collecting then ret (false, result +:+ "collect has not been stopped" +:+ nl)
  else
    let! buf := gets ffrtMetricBuffer in
    match buf with
    | None => ret (false, result +:+ "info not collected" +:+ nl)
    | Some buf =>
        let result := FfrtStatisticsParser result buf in
        do! ClearFfrtStatisticsBufferLocked in
        do! modify (set_handler None) in
        ret (true, result)
    end.

(** The delayed task, on the queue's thread. *)
(* [services/safwk/src/local_ability_manager_dumper.cpp:213-225] LocalAbilityManagerDumper::ClearFfrtStatistics *)
Definition ClearFfrtStatistics : M unit :=
  let! collecting := gets collectEnable in
  do! (if collecting then
         do! ffrt_dump DUMP_STOP_STAT in modify (set_collect false)
       else ret tt) in
  ClearFfrtStatisticsBufferLocked.

(* [services/safwk/src/local_ability_manager_dumper.cpp:227-249] LocalAbilityManagerDumper::CollectFfrtStatistics *)
Definition CollectFfrtStatistics (cmd : Z) (result : string) : M (bool * string) :=
  let result := result +:+ "pid:" +:+ to_string getpid +:+ " " in
  if cmd =? FFRT_STAT_CMD_START then StartFfrtStatistics result
  else if cmd =? FFRT_STAT_CMD_STOP then StopFfrtStatistics result
  else if cmd =? FFRT_STAT_CMD_GET then GetFfrtStatistics result
  else ret (false, result).

(** The queue begins a pending task, when its delay has passed; the task then
    takes the lock and runs. *)
Definition begin_task (task : Z) (d : dumper) : dumper :=
  set_begun (S (begun d)) (set_pending (remove_all task (pending d)) d).
Definition run_task : M unit :=
  do! modify (λ d, set_begun (pred (begun d)) d) in ClearFfrtStatistics.

(** ** The commands *)

Definition SaveStringToFd (fd : Z) (s : string) : M bool :=
  let! r := dcall (DSave fd s) in ret (negb (r =? 0)).

(* [services/safwk/src/local_ability_manager.cpp:960-993] LocalAbilityManager::IpcStatCmdProc *)
Definition IpcStatCmdProc (fd cmd : Z) : M bool :=
  if (cmd <? IPC_STAT_CMD_START) || (IPC_STAT_CMD_MAX <=? cmd) then ret false
  else
    let finish r := (let '(ok, result) := r in
                     let! saved := SaveStringToFd fd result in
                     ret (if saved : bool then ok else false)) : M bool in
    if cmd =? IPC_STAT_CMD_START then let! r := StartIpcStatistics in finish r
    else if cmd =? IPC_STAT_CMD_STOP then let! r := StopIpcStatistics in finish r
    else if cmd =? IPC_STAT_CMD_GET then let! r := GetIpcStatistics "" in finish r
    else ret false.

(* [services/safwk/src/local_ability_manager.cpp:995-1009] LocalAbilityManager::FfrtStatCmdProc *)
Definition FfrtStatCmdProc (fd cmd : Z) : M bool :=
  if (cmd <? FFRT_STAT_CMD_START) || (FFRT_STAT_CMD_MAX <=? cmd) then ret false
  else
    let! r := CollectFfrtStatistics cmd "" in
    let '(ok, result) := r in
    let! saved := SaveStringToFd fd result in
    ret (if saved : bool then ok else false).

(* [services/safwk/src/local_ability_manager.cpp:1013-1037] LocalAbilityManager::FfrtDumperProc *)
Definition FfrtDumperProc (ffrtDumperInfo : string) : M (bool * string) :=
  match ffrt_dump_symbol with
  | None => ret (false, ffrtDumperInfo +:+ "process " +:+ to_string getpid +:+ " did not load ffrt" +:+ nl)
  | Some buffer =>
      if Nat.eqb (String.length buffer) 0 then ret (false, ffrtDumperInfo)
      else ret (true, ffrtDumperInfo +:+ buffer)
  end.

(** ** The parser *)

(** The entries before the first empty name. *)
Fixpoint named (buf : list ffrt_stat) : list ffrt_stat :=
  match buf with
  | [] => []
  | s :: buf' => if bool_decide (taskName s = "") then [] else s :: named buf'
  end.
(** The entries that count, and their durations. *)
Definition counted (buf : list ffrt_stat) : list ffrt_stat := filter (λ s, startTime s ≤ endTime s) (named buf).
Definition durations (buf : list ffrt_stat) : list Z := (λ s, endTime s - startTime s) <$> counted buf.
Definition stat_wf (s : ffrt_stat) : Prop := 0 ≤ startTime s ≤ UINT64_MAX ∧ 0 ≤ endTime s ≤ UINT64_MAX.
Definition total (l : list Z) : Z := foldr Z.add 0 l.

Lemma total_nonneg l : Forall (λ z, 0 ≤ z) l → 0 ≤ total l.
Proof. unfold total. induction 1; simpl; lia. Qed.
Lemma durations_nonneg buf : Forall (λ z, 0 ≤ z) (durations buf).
Proof.
  unfold durations, counted. apply Forall_fmap, Forall_forall. intros s Hs.
  apply list_elem_of_filter in Hs as [Hs _]. simpl. lia.
Qed.

Lemma counted_cons s buf :
  counted (s :: buf) = if bool_decide (taskName s = "") then [] else
                       if endTime s <? startTime s then counted buf else s :: counted buf.
Proof.
  unfold counted. cbn [named]. case_bool_decide; [done|].
  destruct (Z.ltb_spec (endTime s) (startTime s)); [by rewrite filter_cons_False by lia|by rewrite filter_cons_True by lia].
Qed.
Lemma durations_cons s buf :
  durations (s :: buf) = if bool_decide (taskName s = "") then [] else
    if endTime s <? startTime s then durations buf else endTime s - startTime s :: durations buf.
Proof.
  unfold durations. rewrite counted_cons. case_bool_decide; [done|].
  by destruct (endTime s <? startTime s).
Qed.

(** The parser's figures, from any start. *)
Lemma parse_stats_fold buf f :
  Forall stat_wf buf → 0 ≤ sumTime f → 0 ≤ count f →
  sumTime f + total (durations buf) ≤ UINT64_MAX → count f + Z.of_nat (length buf) ≤ UINT64_MAX →
  parse_stats buf f = mk_figures (sumTime f + total (durations buf)) (foldl Z.max (maxTime f) (durations buf))
    (foldl Z.min (minTime f) (durations buf)) (count f + Z.of_nat (length (counted buf)))
    (taskInfo f +:+ foldr (λ s t, taskName s +:+ " " +:+ to_string (startTime s) +:+ " " +:+
                                 to_string (endTime s) +:+ nl +:+ t) "" (counted buf)).
Proof.
  assert (Hnil : ∀ g, g = mk_figures (sumTime g + 0) (maxTime g) (minTime g) (count g + Z.of_nat 0) (taskInfo g +:+ "")).
  { intros [a b c e t]; simpl. rewrite string_app_nil_r. f_equal; lia. }
  intros Hwf. revert f. induction Hwf as [|s buf [Hs He] Hwf IH]; intros f Hsum Hcount Htot Hlen; [apply Hnil|].
  rewrite durations_cons in Htot |- *. rewrite counted_cons. cbn [parse_stats length] in *.
  case_bool_decide as Hn; [apply Hnil|].
  destruct (Z.ltb_spec (endTime s) (startTime s)) as [Hlt|Hle].
  - apply IH; [done..|exact Htot|lia].
  - pose proof (total_nonneg _ (durations_nonneg buf)) as Hnn.
    change (total (?x :: ?l)) with (x + total l) in Htot |- *. cbn [foldr foldl length].
    rewrite (wrapu64_id (endTime s - startTime s)), !wrapu64_id by lia.
    rewrite IH; cbn [sumTime maxTime minTime count taskInfo]; [|lia..].
    f_equal; [lia|lia|]. by rewrite !string_app_assoc.
Qed.

Lemma foldl_extreme (op : Z → Z → Z) (R : Z → Z → Prop) `{!PreOrder R} a l :
  (∀ x y, (op x y = x ∨ op x y = y) ∧ R x (op x y) ∧ R y (op x y)) →
  (foldl op a l = a ∨ foldl op a l ∈ l) ∧ R a (foldl op a l) ∧ ∀ x, x ∈ l → R x (foldl op a l).
Proof.
  intros Hop. revert a. induction l as [|y l IH]; intros a; cbn [foldl].
  - split; [by left|]. split; [reflexivity|]. intros x Hx. by apply elem_of_nil in Hx.
  - destruct (IH (op a y)) as (Hin & Ha & Hall), (Hop a y) as (Hsel & Ra & Ry). split_and!.
    + destruct Hin as [->|Hin]; [|by right; right]. destruct Hsel as [->| ->]; [by left|right; left].
    + by etrans.
    + intros x [-> | Hx]%elem_of_cons; [by etrans|by apply Hall].
Qed.

Lemma durations_bound buf : Forall stat_wf buf → Forall (λ z, 0 ≤ z ≤ UINT64_MAX) (durations buf).
Proof.
  induction 1 as [|s buf [Hs He] _ IH]; [constructor|]. rewrite durations_cons.
  case_bool_decide; [constructor|]. destruct (Z.ltb_spec (endTime s) (startTime s)); [done|].
  constructor; [lia|done].
Qed.
Lemma durations_length buf : length (durations buf) = length (counted buf).
Proof. unfold durations. apply length_fmap. Qed.
Lemma counted_length buf : (length (counted buf) ≤ length buf)%nat.
Proof.
  induction buf as [|s buf IH]; [done|]. rewrite counted_cons. case_bool_decide; [simpl; lia|].
  destruct (_ <? _); simpl; lia.
Qed.

Lemma total_between (lo hi : Z) l :
  (∀ x, x ∈ l → lo ≤ x ≤ hi) → lo * Z.of_nat (length l) ≤ total l ≤ hi * Z.of_nat (length l).
Proof.
  induction l as [|x l IH]; intros Hl; [cbn; lia|].
  change (total (x :: l)) with (x + total l). cbn [length]. rewrite Nat2Z.inj_succ.
  assert (lo ≤ x ≤ hi) by (apply Hl; left).
  assert (lo * Z.of_nat (length l) ≤ total l ≤ hi * Z.of_nat (length l)) by (apply IH; intros; apply Hl; by right).
  lia.
Qed.

Lemma extremes l :
  l ≠ [] → (∀ x, x ∈ l → 0 ≤ x ≤ UINT64_MAX) →
  foldl Z.max 0 l ∈ l ∧ foldl Z.min UINT64_MAX l ∈ l ∧
  ∀ x, x ∈ l → foldl Z.min UINT64_MAX l ≤ x ≤ foldl Z.max 0 l.
Proof.
  intros Hne Hb.
  destruct (foldl_extreme Z.max Z.le 0 l ltac:(intros; lia)) as (Hmx & _ & Hmax).
  destruct (foldl_extreme Z.min (flip Z.le) UINT64_MAX l ltac:(unfold flip; intros; lia)) as (Hmn & _ & Hmin).
  assert (∃ x, x ∈ l) as [x Hx] by (destruct l as [|x l]; [done|exists x; left]).
  specialize (Hb _ Hx). pose proof (Hmax _ Hx). pose proof (Hmin _ Hx) as Hmin'. unfold flip in *.
  split_and!.
  - destruct Hmx as [Hmx|]; [|done]. by replace (foldl _ _ _) with x by lia.
  - destruct Hmn as [Hmn|]; [|done]. by replace (foldl _ _ _) with x by lia.
  - intros y Hy. split; [by apply Hmin|by apply Hmax].
Qed.

(** C34: The statistics the parser prints are exact: of the entries before the
    first empty name it skips those that end before they start; over the others
    the sum and the count are the true ones, the maximum and the minimum are
    attained and bound every duration, and the average lies between them.  With
    nothing counted every figure is zero.  No [uint64_t] wraps while the
    durations themselves add up to less than 2^64. *)
Theorem parser_exact buf :
  Forall stat_wf buf → (length buf ≤ COLLECT_FFRT_METRIC_MAX_SIZE)%nat → total (durations buf) ≤ UINT64_MAX →
  let f := parse_stats buf no_figures in
  sumTime f = total (durations buf) ∧ count f = Z.of_nat (length (durations buf)) ∧
  (durations buf = [] → maxTime f = 0 ∧ final_min f = 0 ∧ final_avg f = 0 ∧ taskInfo f = "") ∧
  (durations buf ≠ [] →
   maxTime f ∈ durations buf ∧ final_min f ∈ durations buf ∧
   (∀ x, x ∈ durations buf → final_min f ≤ x ≤ maxTime f) ∧
   final_min f ≤ final_avg f ≤ maxTime f ∧
   final_avg f * count f ≤ sumTime f < (final_avg f + 1) * count f).
Proof.
  intros Hwf Hlen Htot. unfold COLLECT_FFRT_METRIC_MAX_SIZE in Hlen.
  rewrite parse_stats_fold; cbn [no_figures sumTime count maxTime minTime taskInfo]; [|done|lia..|].
  2: { unfold UINT64_MAX. lia. }
  cbn zeta. cbn [sumTime count maxTime minTime taskInfo]. unfold final_min, final_avg. cbn [count minTime sumTime].
  rewrite durations_length, !Z.add_0_l. split_and!; [done|done| |].
  - intros Hnil. assert (counted buf = []) as ->. { apply nil_length_inv. by rewrite <- durations_length, Hnil. }
    by rewrite Hnil.
  - intros Hne. pose proof (durations_bound _ Hwf) as Hb. rewrite Forall_forall in Hb.
    assert (0 < Z.of_nat (length (durations buf))) as Hpos by (destruct (durations buf); [done|simpl; lia]).
    destruct (extremes _ Hne Hb) as (Hmx & Hmn & Hall).
    pose proof (total_between _ _ _ Hall) as Ht.
    rewrite <- durations_length. destruct (Z.eqb_spec (Z.of_nat (length (durations buf))) 0) as [|_]; [lia|].
    set (t := total _) in *. set (n := Z.of_nat _) in *.
    pose proof (Z.div_mod t n ltac:(lia)). pose proof (Z.mod_pos_bound t n Hpos).
    split_and!; [done|done|done| | |nia|nia].
    + apply Z.div_le_lower_bound; lia.
    + apply Z.div_le_upper_bound; lia.
Qed.

(** ** The collection *)

#[local] Abbreviation task_name := "ClearFfrtStatistics".

(** Calls among which there is no [ffrt_dump]. *)
Definition no_dump (log : list dump_event) : Prop := ∀ c live, DFfrtDump c live ∉ log.

(** No [ffrt_dump] was given a null buffer. *)
Definition log_live (d : dumper) : Prop := ∀ c live, DFfrtDump c live ∈ dlog d → live = true.

(** A pending clear task is the one the handler knows, so that it can be
    cancelled; a running collection and a pending task have a buffer. *)
Definition task_known (d : dumper) : Prop :=
  pending d = [] ∨
  ∃ t m, t ≠ 0 ∧ pending d = [t] ∧ handler_ d = Some m ∧ m !! task_name = Some t.
Record dumper_wf (d : dumper) : Prop := {
  wf_task : task_known d;
  wf_buffer : collectEnable d = true ∨ pending d ≠ [] → is_Some (ffrtMetricBuffer d);
  wf_live : log_live d;
}.

Inductive dumper_step (d : dumper) : dumper → Prop :=
| dstep_command cmd result : dumper_step d (CollectFfrtStatistics cmd result d).2
| dstep_begin task : task ∈ pending d → dumper_step d (begin_task task d)
| dstep_run : (0 < begun d)%nat → dumper_step d (run_task d).2.

Lemma clear_locked_eq d :
  task_known d →
  ∃ log, ClearFfrtStatisticsBufferLocked d =
    (tt, mk_dumper (delete task_name <$> handler_ d) None (collectEnable d) [] (begun d) (dlog d ++ log)) ∧
    no_dump log.
Proof.
  unfold no_dump.
  destruct d as [h b c p n l]. unfold task_known, ClearFfrtStatisticsBufferLocked, RemoveTask.
  cbn [pending handler_]. intros Ht. unfold set_buffer. cbn. destruct h as [m|]; cbn.
  - destruct (m !! task_name) as [t|] eqn:Hm; cbn.
    + destruct (Z.eqb_spec t 0) as [->|Hne]; cbn.
      * exists []. rewrite app_nil_r. split; [|set_solver].
        destruct Ht as [->|(t' & m' & Ht' & -> & [= <-] & ?)]; [done|congruence].
      * exists [DCancel t]. split; [|set_solver].
        destruct Ht as [->|(t' & m' & Ht' & -> & [= <-] & ?)]; [done|].
        assert (t' = t) as -> by congruence.
        unfold remove_all. rewrite filter_cons_False by auto. done.
    + exists []. rewrite app_nil_r, delete_id by done. split; [|set_solver].
      destruct Ht as [->|(t' & m' & Ht' & -> & [= <-] & ?)]; [done|congruence].
  - exists []. rewrite app_nil_r. split; [|set_solver].
    by destruct Ht as [->|(t' & m' & Ht' & -> & ? & ?)].
Qed.

(** The collection as an automaton: [ok] is the runtime's answer to the
    [ffrt_dump] of the command. *)
Inductive phase := Off | Collecting | Collected.
Definition phase_of (d : dumper) : phase :=
  if collectEnable d then Collecting else match ffrtMetricBuffer d with Some _ => Collected | None => Off end.
Inductive collect_cmd := CStart | CStop | CGet | COther.
Definition cmd_of (cmd : Z) : collect_cmd :=
  if cmd =? FFRT_STAT_CMD_START then CStart else if cmd =? FFRT_STAT_CMD_STOP then CStop
  else if cmd =? FFRT_STAT_CMD_GET then CGet else COther.
Definition collect_auto (c : collect_cmd) (ok : bool) (p : phase) : bool * phase :=
  match c, p with
  | CStart, Collecting => (false, Collecting)
  | CStart, _ => if ok then (true, Collecting) else (false, Off)
  | CStop, Collecting => if ok then (true, Collected) else (false, Off)
  | CGet, Collected => (true, Off)
  | _, _ => (false, p)
  end.

(** What a command asks the runtime in a phase. *)
Definition asks (c : collect_cmd) (p : phase) : option ffrt_cmd :=
  match c, p with
  | CStart, Off | CStart, Collected => Some DUMP_START_STAT
  | CStop, Collecting => Some DUMP_STOP_STAT
  | _, _ => None
  end.

(** A command does what the automaton does with the answer of the runtime: the one
    [ffrt_dump] it makes is the one [asks] names, on a live buffer, and [ok] is
    whether the answer to it, at that point of the log, is 0; where nothing is
    asked, no [ffrt_dump] is made and the outcome does not depend on [ok]. *)
Definition moves_as_automaton (c : collect_cmd) (d : dumper) (r : (bool * string) * dumper) : Prop :=
  match asks c (phase_of d) with
  | Some k =>
      ∃ pre post, dlog r.2 = dlog d ++ pre ++ DFfrtDump k true :: post ∧ no_dump pre ∧ no_dump post ∧
        (r.1.1, phase_of r.2) =
          collect_auto c (dump_answer (dlog d ++ pre) (DFfrtDump k true) =? 0) (phase_of d)
  | None =>
      ∃ post, dlog r.2 = dlog d ++ post ∧ no_dump post ∧
        ∀ ok, (r.1.1, phase_of r.2) = collect_auto c ok (phase_of d)
  end.

(** The outcome of a command follows the automaton and keeps the invariant. *)
Definition follows (c : collect_cmd) (d : dumper) (r : (bool * string) * dumper) : Prop :=
  dumper_wf r.2 ∧ moves_as_automaton c d r.

Lemma no_dump_nil : no_dump [].
Proof. intros c live Hin. by apply elem_of_nil in Hin. Qed.

(** A command that asks nothing and does nothing. *)
Lemma moves_idle c d b s :
  (∀ ok, collect_auto c ok (phase_of d) = (b, phase_of d)) → asks c (phase_of d) = None →
  moves_as_automaton c d ((b, s), d).
Proof.
  intros Ha Hn. unfold moves_as_automaton. rewrite Hn. exists [].
  split; [by rewrite app_nil_r|]. split; [apply no_dump_nil|]. by intros ok.
Qed.

Lemma wf_cleared h n l :
  log_live (mk_dumper h None false [] n l) → dumper_wf (mk_dumper h None false [] n l).
Proof. intros Hl. split; [by left| |done]. by intros [|]. Qed.

Lemma live_app d l log :
  log_live d → no_dump log → l = dlog d ++ log → ∀ c live, DFfrtDump c live ∈ l → live = true.
Proof. intros Hd Hl -> c live [?|Hin]%elem_of_app; [eauto|]. by destruct (Hl c live). Qed.

Lemma post_task_eq d m :
  handler_ d = Some m → pending d = [] →
  ∃ log, no_dump log ∧
  ((PostTask task_name DELAY_TIME d).2 = set_dlog (dlog d ++ log) d ∨
   ∃ t, t ≠ 0 ∧ (PostTask task_name DELAY_TIME d).2 =
     mk_dumper (Some (<[task_name := t]> m)) (ffrtMetricBuffer d) (collectEnable d) [t] (begun d) (dlog d ++ log)).
Proof.
  destruct d as [h b c p n l]. cbn [handler_ pending]. intros -> ->.
  unfold PostTask, no_dump. change (UINT64_MAX / CONVERSION_FACTOR <? DELAY_TIME) with false.
  exists [DSubmit (wrapu64 (DELAY_TIME * CONVERSION_FACTOR))]. split; [set_solver|].
  cbn. destruct (Z.eqb_spec (dump_answer l (DSubmit (wrapu64 (DELAY_TIME * CONVERSION_FACTOR)))) 0) as [|Hne]; cbn.
  - by left.
  - right. by eexists.
Qed.

(** [ffrt_dump] on a live buffer. *)
Lemma ffrt_dump_eq c h b e p n l :
  ∃ b', ffrt_dump c (mk_dumper h (Some b) e p n l) =
    (dump_answer l (DFfrtDump c true), mk_dumper h (Some b') e p n (l ++ [DFfrtDump c true])).
Proof. by eexists. Qed.

(** A failed command leaves a cleared state. *)
Lemma failed_clear d (s : string) :
  log_live d → task_known d → collectEnable d = false →
  ∃ h post, (do! ClearFfrtStatisticsBufferLocked in ret (false, s)) d =
              ((false, s), mk_dumper h None false [] (begun d) (dlog d ++ post)) ∧
            no_dump post ∧ dumper_wf (mk_dumper h None false [] (begun d) (dlog d ++ post)).
Proof.
  intros Hl Ht Hc. destruct (clear_locked_eq d Ht) as (log & Heq & Hlog).
  rewrite bind_run, Heq, Hc. do 2 eexists. split; [done|]. split; [done|]. apply wf_cleared.
  exact (live_app d _ log Hl Hlog eq_refl).
Qed.

Lemma start_follows d result : dumper_wf d → follows CStart d (StartFfrtStatistics result d).
Proof.
  intros Hwf. unfold StartFfrtStatistics. rewrite bind_run. cbn [fst snd gets].
  destruct (collectEnable d) eqn:Hc.
  { split; [done|]. apply moves_idle; unfold phase_of; by rewrite Hc. }
  assert (asks CStart (phase_of d) = Some DUMP_START_STAT ∧
          ∀ ok, collect_auto CStart ok (phase_of d) = if ok then (true, Collecting) else (false, Off)) as [Hasks Hauto].
  { unfold phase_of. rewrite Hc. by destruct (ffrtMetricBuffer d). }
  destruct (clear_locked_eq d (wf_task _ Hwf)) as (log & Heq & Hlog).
  rewrite bind_run, Heq, !bind_run. cbn [fst snd modify]. unfold set_buffer.
  cbn [handler_ collectEnable pending begun dlog]. rewrite Hc.
  set (l := dlog d ++ log).
  pose proof (live_app d l log (wf_live _ Hwf) Hlog eq_refl) as Hl.
  destruct (ffrt_dump_eq DUMP_START_STAT (delete task_name <$> handler_ d) [] false [] (begun d) l) as [b' ->].
  cbn [fst snd]. set (dump := DFfrtDump DUMP_START_STAT true).
  assert (∀ log2, no_dump log2 → ∀ c live, DFfrtDump c live ∈ (l ++ [dump]) ++ log2 → live = true) as Hl2.
  { intros log2 Hn c live [[Hin|[= _ ->]%list_elem_of_singleton]%elem_of_app|Hin]%elem_of_app; [by eapply Hl|done|].
    by destruct (Hn c live). }
  assert (∀ ok s d', (dump_answer l dump =? 0) = ok → (∃ log2, no_dump log2 ∧ dlog d' = (l ++ [dump]) ++ log2) →
            (ok, phase_of d') = (if ok : bool then (true, Collecting) else (false, Off)) →
            moves_as_automaton CStart d ((ok, s), d')) as Hmoves.
  { intros ok s d' Hok (log2 & Hn & Hd') Hph. unfold moves_as_automaton. rewrite Hasks. exists log, log2. cbn [fst snd].
    split; [rewrite Hd'; unfold l; by rewrite <- !(assoc_L (++))|]. split; [done|]. split; [done|].
    fold l dump. by rewrite Hok, Hauto. }
  destruct (dump_answer l _ =? 0) eqn:Hok; cbn [negb].
  - set (d1 := mk_dumper _ _ _ _ _ _). rewrite !bind_run. cbn [fst snd modify].
    assert (∃ m, handler_ (match handler_ (set_collect true d1) with
        | Some _ => set_collect true d1 | None => set_handler (Some ∅) (set_collect true d1) end) = Some m) as [m Hm].
    { unfold d1, set_collect. cbn. destruct (handler_ d); cbn; by eexists. }
    set (d2 := match _ with Some _ => _ | None => _ end) in *.
    assert (d2 = mk_dumper (Some m) (Some b') true [] (begun d) (l ++ [dump])) as ->.
    { revert Hm. unfold d2, d1, set_collect. cbn. destruct (handler_ d); cbn; intros [= <-]; done. }
    destruct (post_task_eq (mk_dumper (Some m) (Some b') true [] (begun d) (l ++ [dump]))
                m eq_refl eq_refl) as (log2 & Hlog2 & [->|(t & Ht & ->)]); cbn [set_dlog dlog begun].
    + split; [|by apply (Hmoves true); [|exists log2|]].
      split; [by left|by intros _; eexists|exact (Hl2 _ Hlog2)].
    + split; [|by apply (Hmoves true); [|exists log2|]].
      split; [right; exists t, (<[task_name:=t]> m); by rewrite lookup_insert_eq|by intros _; eexists|exact (Hl2 _ Hlog2)].
  - destruct (failed_clear (mk_dumper (delete task_name <$> handler_ d) (Some b') false [] (begun d) (l ++ [dump]))
        (result +:+ "collect start failed" +:+ nl))
      as (h & post & -> & Hpost & Hwf'); [|by left|done|].
    { intros c live. rewrite <- (app_nil_r (l ++ _)). apply Hl2, no_dump_nil. }
    split; [exact Hwf'|]. by apply (Hmoves false); [|exists post|].
Qed.

(** Stopping leaves the buffer and the pending task. *)
Lemma stop_dump_wf h b b' e p n l c :
  dumper_wf (mk_dumper h (Some b) e p n l) →
  dumper_wf (mk_dumper h (Some b') false p n (l ++ [DFfrtDump c true])).
Proof.
  intros [Ht _ Hl]. split; [exact Ht|by intros _; eexists|].
  intros k live [Hin|[= _ ->]%list_elem_of_singleton]%elem_of_app; [by apply (Hl k)|done].
Qed.

Lemma stop_follows d result : dumper_wf d → follows CStop d (StopFfrtStatistics result d).
Proof.
  intros Hwf. unfold StopFfrtStatistics. rewrite bind_run. cbn [fst snd gets].
  destruct (collectEnable d) eqn:Hc; cbn [negb].
  2: { split; [done|]. apply moves_idle; unfold phase_of; rewrite Hc; by destruct (ffrtMetricBuffer d). }
  destruct (wf_buffer _ Hwf (or_introl Hc)) as [b Hb].
  destruct d as [h b0 e p n l]. cbn [ffrtMetricBuffer collectEnable] in Hb, Hc. subst b0 e.
  rewrite !bind_run. cbn [fst snd modify]. unfold set_collect. cbn [handler_ ffrtMetricBuffer pending begun dlog].
  destruct (ffrt_dump_eq DUMP_STOP_STAT h b false p n l) as [b' ->]. cbn [fst snd].
  pose proof (stop_dump_wf h b b' true p n l DUMP_STOP_STAT Hwf) as Hwf'. set (dump := DFfrtDump DUMP_STOP_STAT true) in *.
  unfold follows, moves_as_automaton. cbn [phase_of collectEnable asks dlog collect_auto].
  destruct (dump_answer l _ =? 0) eqn:Hok; cbn [negb].
  - split; [exact Hwf'|]. exists [], []. cbn. rewrite app_nil_r. fold dump. rewrite Hok. by split_and!; try apply no_dump_nil.
  - destruct (failed_clear _ (result +:+ "collect stop failed" +:+ nl) (wf_live _ Hwf') (wf_task _ Hwf') eq_refl)
      as (h' & post & -> & Hpost & Hwf2).
    split; [exact Hwf2|]. exists [], post. cbn. rewrite app_nil_r. fold dump. rewrite Hok, <- (assoc_L (++)).
    by split_and!; try apply no_dump_nil.
Qed.

Lemma get_follows d result : dumper_wf d → follows CGet d (GetFfrtStatistics result d).
Proof.
  intros Hwf. unfold GetFfrtStatistics. rewrite bind_run. cbn [fst snd gets].
  destruct (collectEnable d) eqn:Hc.
  { split; [done|]. apply moves_idle; unfold phase_of; by rewrite Hc. }
  rewrite bind_run. cbn [fst snd gets]. destruct (ffrtMetricBuffer d) as [b|] eqn:Hb.
  2: { split; [done|]. apply moves_idle; unfold phase_of; by rewrite Hc, Hb. }
  destruct (clear_locked_eq d (wf_task _ Hwf)) as (log & Heq & Hlog).
  rewrite !bind_run, Heq. cbn [fst snd modify]. unfold set_handler. cbn [ffrtMetricBuffer collectEnable pending begun dlog].
  rewrite Hc. split; [|unfold moves_as_automaton, phase_of; cbn; rewrite Hc, Hb; by exists log].
  apply wf_cleared. exact (live_app d _ log (wf_live _ Hwf) Hlog eq_refl).
Qed.

Lemma collect_follows cmd result d : dumper_wf d → follows (cmd_of cmd) d (CollectFfrtStatistics cmd result d).
Proof.
  intros Hwf. unfold CollectFfrtStatistics, cmd_of.
  destruct (_ =? _); [by apply start_follows|]. destruct (_ =? _); [by apply stop_follows|].
  destruct (_ =? _); [by apply get_follows|].
  split; [done|]. by apply moves_idle; destruct (phase_of d).
Qed.

(** The clear task ends the collection. *)
Lemma clear_wf d :
  dumper_wf d → dumper_wf (ClearFfrtStatistics d).2 ∧ phase_of (ClearFfrtStatistics d).2 = Off ∧
                pending (ClearFfrtStatistics d).2 = [] ∧
                ∃ post, no_dump post ∧ dlog (ClearFfrtStatistics d).2 =
                  dlog d ++ (if collectEnable d then [DFfrtDump DUMP_STOP_STAT true] else []) ++ post.
Proof.
  intros Hwf. unfold ClearFfrtStatistics. rewrite !bind_run. cbn [fst snd gets].
  assert (∃ d1, ((if collectEnable d then do! ffrt_dump DUMP_STOP_STAT in modify (set_collect false) else ret tt) d).2
                = d1 ∧ dumper_wf d1 ∧ collectEnable d1 = false ∧
                dlog d1 = dlog d ++ (if collectEnable d then [DFfrtDump DUMP_STOP_STAT true] else []))
    as (d1 & -> & Hwf1 & Hc1 & Hd1).
  { destruct (collectEnable d) eqn:Hc; [|exists d; by rewrite app_nil_r].
    destruct (wf_buffer _ Hwf (or_introl Hc)) as [b Hb].
    destruct d as [h b0 e p n l]. cbn [ffrtMetricBuffer collectEnable] in Hb, Hc. subst b0 e.
    rewrite bind_run. destruct (ffrt_dump_eq DUMP_STOP_STAT h b true p n l) as [b' ->].
    cbn [fst snd modify]. unfold set_collect. cbn [handler_ ffrtMetricBuffer pending begun dlog].
    eexists. split; [done|]. split; [|done]. by eapply stop_dump_wf. }
  destruct (clear_locked_eq d1 (wf_task _ Hwf1)) as (log & -> & Hlog). cbn [snd]. rewrite Hc1.
  split; [|split; [done|split; [done|exists log; cbn; by rewrite Hd1, <- (assoc_L (++))]]].
  apply wf_cleared. exact (live_app d1 _ log (wf_live _ Hwf1) Hlog eq_refl).
Qed.

Lemma dumper_step_wf d d' : dumper_step d d' → dumper_wf d → dumper_wf d'.
Proof.
  intros [cmd result|task Hin|Hb] Hwf.
  - exact (proj1 (collect_follows cmd result d Hwf)).
  - destruct Hwf as [[Ht|(t & m & Hne & Hp & Hh & Hm)] Hb Hl].
    + rewrite Ht in Hin. by apply elem_of_nil in Hin.
    + rewrite Hp in Hin. apply list_elem_of_singleton in Hin as ->. unfold begin_task, set_begun, set_pending.
      split; cbn; rewrite ?Hp; unfold remove_all; rewrite ?filter_cons_False by auto; [by left| |exact Hl].
      intros [Hc|Hn]; [by apply Hb; left|done].
  - unfold run_task. rewrite bind_run. cbn [snd modify]. apply clear_wf.
    destruct Hwf as [Ht Hbuf Hl]. by split.
Qed.
Lemma dumper_reachable_wf d : rtc dumper_step new_dumper d → dumper_wf d.
Proof.
  assert (dumper_wf new_dumper) as Hnew.
  { apply wf_cleared. intros c live Hin. by apply elem_of_nil in Hin. }
  intros Hr. revert Hnew. induction Hr; eauto using dumper_step_wf.
Qed.

(** C25: Whatever commands arrive and whenever the delayed clear task runs, every
    command answers and moves as a three-state collector does (off, collecting,
    collected), on the runtime's own answer: a start makes one [ffrt_dump] when
    nothing is being collected, a stop makes one while collecting, no other
    command makes any, and with [ok] that the answer to this very call is 0, a
    start succeeds and collects when [ok], a stop succeeds and has collected when
    [ok], either fails and leaves the collector off when not; a get succeeds only
    between a stop and the next start; anything else fails and changes nothing.
    The clear task stops a running collection with one [ffrt_dump], and always
    leaves the collector off, with no task pending. *)
Theorem collection_automaton d :
  rtc dumper_step new_dumper d →
  (∀ cmd result, moves_as_automaton (cmd_of cmd) d (CollectFfrtStatistics cmd result d)) ∧
  phase_of (ClearFfrtStatistics d).2 = Off ∧ pending (ClearFfrtStatistics d).2 = [] ∧
  ∃ post, no_dump post ∧ dlog (ClearFfrtStatistics d).2 =
    dlog d ++ (if collectEnable d then [DFfrtDump DUMP_STOP_STAT true] else []) ++ post.
Proof.
  intros Hr%dumper_reachable_wf. split; [|exact (proj2 (clear_wf d Hr))].
  intros cmd result. exact (proj2 (collect_follows cmd result d Hr)).
Qed.

(** In every history, the runtime is never given a null metric buffer: a
    buffer exists while something is collected and while a clear task is
    pending.  At most one clear task is pending and the handler knows it under
    its name, so the next start, or a failing command, cancels it. *)
Theorem collection_safe d :
  rtc dumper_step new_dumper d →
  (∀ c live, DFfrtDump c live ∈ dlog d → live = true) ∧
  (collectEnable d = true ∨ pending d ≠ [] → is_Some (ffrtMetricBuffer d)) ∧
  (pending d = [] ∨ ∃ t, t ≠ 0 ∧ pending d = [t] ∧ handler_ d ≫= lookup "ClearFfrtStatistics" = Some t) ∧
  pending (ClearFfrtStatisticsBufferLocked d).2 = [].
Proof.
  intros Hr%dumper_reachable_wf. destruct Hr as [Ht Hb Hl]. split_and!; [exact Hl|exact Hb| |].
  - destruct Ht as [->|(t & m & ? & ? & -> & ?)]; [by left|right; by exists t].
  - by destruct (clear_locked_eq d Ht) as (log & -> & _).
Qed.
End dumper.

(** ** A runtime that accepts everything *)
Module DemoDumper.
#[global] Instance demo_dumper_env : DumperEnv := {
  dump_answer log e := match e with DSubmit _ => Z.of_nat (length log) + 1 | DSave _ _ => 1 | _ => 0 end;
  dump_filled log := match log with [] => [] | _ => [mk_stat "ipc" 10 30; mk_stat "late" 9 8; mk_stat "gc" 40 45] end;
  ipc_statistics _ := mk_stats 0 0 [];
  ffrt_dump_symbol := Some "tasks";
  getpid := 100;
  IPC_STAT_CMD_START := 0; IPC_STAT_CMD_STOP := 1; IPC_STAT_CMD_GET := 2; IPC_STAT_CMD_MAX := 3;
  FFRT_STAT_CMD_START := 0; FFRT_STAT_CMD_STOP := 1; FFRT_STAT_CMD_GET := 2; FFRT_STAT_CMD_MAX := 3;
}.

Definition cmd (c : Z) (d : dumper) : dumper := (CollectFfrtStatistics c "" d).2.
Definition collecting : dumper := cmd 0 new_dumper.
End DemoDumper.
Import DemoDumper.

Lemma collecting_reachable : rtc dumper_step new_dumper collecting.
Proof. apply rtc_once, (dstep_command new_dumper 0 ""). Qed.

Lemma collection_automaton_witness :
  rtc dumper_step new_dumper collecting ∧
  moves_as_automaton (cmd_of 1) collecting (CollectFfrtStatistics 1 "" collecting) ∧
  asks (cmd_of 1) (phase_of collecting) = Some DUMP_STOP_STAT ∧
  phase_of (cmd 1 collecting) = Collected ∧ phase_of (ClearFfrtStatistics collecting).2 = Off.
Proof.
  split; [exact collecting_reachable|].
  pose proof (collection_automaton collecting collecting_reachable) as [H1 [H2 _]].
  split; [exact (H1 1 "")|]. split_and!; [vm_compute; reflexivity..|exact H2].
Defined.

Lemma collection_safe_witness :
  rtc dumper_step new_dumper collecting ∧ is_Some (ffrtMetricBuffer collecting) ∧
  pending (ClearFfrtStatisticsBufferLocked collecting).2 = [] ∧ length (pending collecting) = 1%nat.
Proof.
  split; [exact collecting_reachable|].
  pose proof (collection_safe collecting collecting_reachable) as (_ & H1 & _ & H2).
  split; [apply H1; left; vm_compute; reflexivity|]. split; [exact H2|vm_compute; reflexivity].
Defined.

Definition demo_buffer : list ffrt_stat :=
  [mk_stat "ipc" 10 30; mk_stat "late" 9 8; mk_stat "gc" 40 45; mk_stat "" 0 0; mk_stat "old" 0 99].
Lemma parser_exact_witness :
  durations demo_buffer = [20; 5] ∧ sumTime (parse_stats demo_buffer no_figures) = 25 ∧
  final_avg (parse_stats demo_buffer no_figures) = 12.
Proof.
  split; [vm_compute; reflexivity|].
  pose proof (parser_exact demo_buffer) as H. cbv zeta in H. destruct H as [H _].
  - repeat constructor; unfold UINT64_MAX; cbn; lia.
  - vm_compute. lia.
  - vm_compute. discriminate.
  - split; [rewrite H|]; vm_compute; reflexivity.
Defined.

(** A clear task that has begun when its collection is stopped and restarted
    ends the new collection: the lock orders the commands, not the tasks behind
    them. *)
Theorem clear_task_races :
  ∃ task d1 d2, task ∈ pending d1 ∧ d1 = collecting ∧
    d2 = cmd 0 (cmd 1 (begin_task task d1)) ∧ rtc dumper_step new_dumper d2 ∧
    phase_of d2 = Collecting ∧ length (pending d2) = 1%nat ∧ phase_of (run_task d2).2 = Off.
Proof.
  exists 2, collecting, (cmd 0 (cmd 1 (begin_task 2 collecting))).
  split_and!; [|done|done| |vm_compute; reflexivity..].
  - assert (pending collecting = [2]) as -> by (vm_compute; reflexivity). left.
  - eapply rtc_r; [eapply rtc_r; [eapply rtc_r; [exact collecting_reachable|]|]|].
    + apply dstep_begin. assert (pending collecting = [2]) as -> by (vm_compute; reflexivity). left.
    + apply (dstep_command _ 1 "").
    + apply (dstep_command _ 0 "").
Qed.
