(* ===== verification/Manager.v ===== *)
(** * Manager: the process behind the stub

    [LocalAbilityManager] implements the virtual functions of its stub: the
    requests on abilities are those of [Registry.v], the statistics those of
    [Dumper.v].  A process has both states and the descriptors it has closed;
    this file puts the parts together and follows a request to start an ability
    through them. *)

From S2P Require Import Prelude Interfaces Monad World SystemAbility Registry Dumper Stub.

Record process (J U : Type) := mk_process {
  abilities : world J U;
  statistics : dumper;
  closed_fds : list Z;
}.
Arguments mk_process {J U}.
Arguments abilities {J U} _.
Arguments statistics {J U} _.
Arguments closed_fds {J U} _.

(** The calling identity, the token kit's verdicts and the base class of the
    stub, which may be any program on the process. *)
Class KitEnv (J P U : Type) := {
  kit_caller : process J U → Z;
  kit_verify : process J U → Z → string → Z;
  kit_base : Z → P → P → sprog (process J U) (Z * P * P);
}.

(** The base class does not know its subclass: the members of
    [LocalAbilityManager] and the static members of the dumper are private, so it
    reaches neither.  It is free to close descriptors and to answer anything. *)
Class BaseClassLaws (J P U : Type) `{!KitEnv J P U} : Prop := {
  base_abilities code data reply p : abilities (kit_base code data reply p).2 = abilities p;
  base_statistics code data reply p : statistics (kit_base code data reply p).2 = statistics p;
}.

Section manager.
  Context {J P U : Type} `{!Json J} `{!MessageParcel P} `{!ParseUtil U} `{SU : !StringUtil} `{SD : !SamgrDefs}.
  Context `{!Env J P U} `{DE : !DumperEnv} `{!KitEnv J P U}.

  #[local] Abbreviation proc := (process J U).
  #[local] Abbreviation M := (sprog proc).

(** Programs over one part of the process. *)
Definition on_abilities {A} (m : sprog (world J U) A) : M A :=
  λ p, ((m (abilities p)).1, mk_process (m (abilities p)).2 (statistics p) (closed_fds p)).
Definition on_statistics {A} (m : sprog dumper A) : M A :=
  λ p, ((m (statistics p)).1, mk_process (abilities p) (m (statistics p)).2 (closed_fds p)).

#[export] Instance process_kit : StubEnv proc P := {
  GetCallingTokenID := gets kit_caller;
  VerifyAccessToken token permission := gets (λ p, kit_verify p token permission);
  close fd := modify (λ p, mk_process (abilities p) (statistics p) (closed_fds p ++ [fd]));
  IPCObjectStub_OnRemoteRequest := kit_base;
}.

(** The overrides of the stub's virtual functions. *)
(* [services/safwk/include/local_ability_manager.h:63-81] LocalAbilityManager *)
Definition LocalAbilityManager : ILocalAbilityManager proc J P := {|
  i_StartAbility id eventStr := on_abilities (LocalStartAbility id eventStr);
  i_StopAbility id eventStr := on_abilities (LocalStopAbility id eventStr);
  i_ActiveAbility id reason := on_abilities (ActiveAbility id reason);
  i_IdleAbility id reason delay := on_abilities (IdleAbility id reason delay);
  i_SendStrategyToSA type id level action := on_abilities (SendStrategyToSA type id level action);
  i_IpcStatCmdProc fd cmd := on_statistics (IpcStatCmdProc fd cmd);
  i_FfrtStatCmdProc fd cmd := on_statistics (FfrtStatCmdProc fd cmd);
  i_FfrtDumperProc info := on_statistics (FfrtDumperProc info);
  i_SystemAbilityExtProc extension id callback := on_abilities (SystemAbilityExtProc extension id callback);
  i_ServiceControlCmd fd id args := on_abilities (ServiceControlCmd fd id args);
|}.
#[export] Existing Instance LocalAbilityManager.

(** Of the framework's code, only the stub closes descriptors. *)
#[export] Instance process_closes : ClosesLaws (S := proc) (J := J) (P := P) closed_fds.
Proof. by split. Qed.

(** ** Lemmas *)

(** The codes whose handlers work on the statistics. *)
Definition is_stat (c : SafwkInterfaceCode) : bool :=
  match c with
  | IPC_STAT_CMD_TRANSACTION | FFRT_STAT_CMD_TRANSACTION | FFRT_DUMPER_TRANSACTION => true
  | _ => false
  end.

(** One step through a program whose operations respect a relation. *)
Ltac respects_step :=
  lazymatch goal with
  | |- respects ?R (bind _ _) => apply (respects_bind R); [|intros ?]
  | |- respects ?R (ret _) => exact (respects_ret R _)
  | |- respects _ (match ?x with _ => _ end) => destruct x
  end.

(** A relation that the operations on one part respect. *)
Record ability_ops (R : relation proc) : Prop := {
  op_start id e : respects R (on_abilities (LocalStartAbility id e));
  op_stop id e : respects R (on_abilities (LocalStopAbility id e));
  op_active id r : respects R (on_abilities (ActiveAbility id r));
  op_idle id r d : respects R (on_abilities (IdleAbility id r d));
  op_strategy t id v a : respects R (on_abilities (SendStrategyToSA t id v a));
  op_ext e id c : respects R (on_abilities (SystemAbilityExtProc e id c));
  op_svc fd id a : respects R (on_abilities (ServiceControlCmd fd id a));
}.
Record stat_ops (R : relation proc) : Prop := {
  op_ipc fd cmd : respects R (on_statistics (IpcStatCmdProc fd cmd));
  op_ffrt fd cmd : respects R (on_statistics (FfrtStatCmdProc fd cmd));
  op_dump info : respects R (on_statistics (FfrtDumperProc info));
}.
#[local] Hint Resolve op_start op_stop op_active op_idle op_strategy op_ext op_svc op_ipc op_ffrt op_dump : safwk.

(** What every operation a handler may call respects, the handler does. *)
Lemma handler_respects (R : relation proc) `{!PreOrder R} c data reply :
  (∀ fd, respects R (close (P := P) fd)) →
  (is_stat c = false → ability_ops R) → (is_stat c = true → stat_ops R) →
  respects R (handler_of (P := P) c data reply).
Proof.
  intros Hclose Hab Hst.
  destruct c; cbn [handler_of is_stat] in *;
    first [specialize (Hab eq_refl)|specialize (Hst eq_refl)];
    [unfold StartAbilityInner|unfold StopAbilityInner|unfold ActiveAbilityInner|unfold IdleAbilityInner
    |unfold SendStrategyToSAInner|unfold IpcStatCmdProcInner|unfold FfrtDumperProcInner
    |unfold SystemAbilityExtProcInner|unfold FfrtStatCmdProcInner|unfold ServiceControlCmdInner];
    repeat respects_step; cbn [LocalAbilityManager i_StartAbility i_StopAbility i_ActiveAbility i_IdleAbility
      i_SendStrategyToSA i_IpcStatCmdProc i_FfrtStatCmdProc i_FfrtDumperProc i_SystemAbilityExtProc
      i_ServiceControlCmd]; auto with safwk.
Qed.

(** The guard of a request, in one equation. *)
Definition passes (code : Z) (data : P) (p : proc) : bool :=
  bool_decide ((ReadInterfaceToken data).1 = LOCAL_ABILITY_MANAGER_INTERFACE_TOKEN) &&
  (kit_verify p (kit_caller p) (permission_of code) =? PERMISSION_GRANTED).
Lemma request_run code data reply p :
  OnRemoteRequest code data reply p =
  if passes code data p then
    match find_handler code memberFuncMap_ with
    | Some h => h (ReadInterfaceToken data).2 reply p
    | None => kit_base code (ReadInterfaceToken data).2 reply p
    end
  else ((ERR_PERMISSION_DENIED, (ReadInterfaceToken data).2, reply), p).
Proof.
  unfold OnRemoteRequest, passes, EnforceInterceToken, CheckPermission.
  destruct (ReadInterfaceToken data) as [token d]. cbn [fst snd]. case_bool_decide; [|done].
  cbn [negb andb]. rewrite !bind_run. cbn [fst snd GetCallingTokenID VerifyAccessToken process_kit gets ret].
  destruct (_ =? PERMISSION_GRANTED); cbn [negb]; [|done]. by destruct (find_handler _ _).
Qed.

(** The scheduler may pick the thread that was left last. *)
Lemma run_last_thread id ts (w : world J U) :
  threads w = ts ++ [StartOndemandTask id] →
  run_thread (length ts) w = StartOndemandSystemAbility id (set_threads ts w).
Proof.
  intros Ht. unfold run_thread. rewrite bind_run. cbn [fst snd gets].
  rewrite Ht, lookup_app_r, Nat.sub_diag by done. cbn [lookup list_lookup].
  rewrite bind_run. cbn [fst snd modify]. by rewrite Ht, delete_middle, app_nil_r.
Qed.

(** A start request is answered without error and leaves the reason under the id and
    one detached thread, and nothing else. *)
Lemma start_request_thread `{!SamgrDefsLaws, !ParcelLaws P} data reply id e p :
  passes (code_value START_ABILITY_TRANSACTION) data p = true →
  contents (ReadInterfaceToken data).2 = [PInt id; PStr e] →
  FIRST_SYS_ABILITY_ID ≤ id ≤ LAST_SYS_ABILITY_ID → e ≠ "" →
  ∃ data' w, OnRemoteRequest (code_value START_ABILITY_TRANSACTION) data reply p =
      ((ERR_NONE, data', reply), mk_process w (statistics p) (closed_fds p)) ∧
    w = set_threads (threads (abilities p) ++ [StartOndemandTask id])
          (set_saIdToStartReason_ (<[id := StringToJsonObj e]> (saIdToStartReason_ (abilities p))) (abilities p)) ∧
    run_thread (length (threads (abilities p))) w =
      StartOndemandSystemAbility id (set_threads (threads (abilities p)) w).
Proof.
  intros Hp Hc Hid He. rewrite request_run, Hp, find_handler_of. cbn [handler_of].
  set (d := (ReadInterfaceToken data).2) in *.
  destruct (ReadInt32_contents id [PStr e] d Hc) as [H1 H2].
  destruct (ReadInt32 d) as [r1 d1] eqn:Er. simpl in H1, H2. subst r1.
  destruct (ReadStringValue_contents e [] d1 H2) as [H3 H4].
  destruct (ReadStringValue d1) as [r2 d2] eqn:Es. simpl in H3, H4. subst r2.
  pose proof (valid_said_true id Hid) as Hv.
  unfold StartAbilityInner. rewrite Er, Hv. cbn [negb]. rewrite Es, bool_decide_eq_false_2 by done.
  rewrite bind_run. cbn [fst snd ret i_StartAbility LocalAbilityManager on_abilities].
  eexists d2, _. split; [done|]. split; [done|].
  apply (run_last_thread id (threads (abilities p)) (LocalStartAbility id e (abilities p)).2). reflexivity.
Qed.
(** An on-demand start of an ability that is registered, not loaded, and whose
    library is loaded already. *)
Lemma ondemand_starts id l j w :
  (∀ w : world J U, LoadSaLib id w = (true, w)) → localAbilityMap_ w !! id = Some (Some l) →
  saId_ (sa_at w l) = id → abilityState_ (sa_at w l) = NOT_LOADED → saIdToStartReason_ w !! id = Some j →
  ∃ indet r w1 w2, GetOnDemandReasonExtraData (JsonToOnDemandReason indet j) w1 = (r, w2) ∧ heap w2 = heap w ∧
    (StartOndemandSystemAbility id w).2 =
      (Start_finish l (OnStart l r (set_trace (trace w2 ++ [EvOnStart l r]) w2)).2).2.
Proof.
  intros Hlib Hl Hid Hst Hj. set (w1 := set_trace (trace w ++ [EvLoadSaLib id]) w).
  assert ((StartOndemandSystemAbility id w).2 = (Start l w1).2) as ->.
  { unfold StartOndemandSystemAbility, enter. rewrite !bind_run. cbn [call fst snd]. fold w1. rewrite Hlib.
    cbn [fst snd negb wait_for_ability RETRY_TIMES_FOR_ONDEMAND]. rewrite !bind_run. cbn [gets fst snd].
    change (localAbilityMap_ w1) with (localAbilityMap_ w). rewrite Hl. cbn [ret fst snd Nat.leb].
    unfold OnStartAbility, GetAbility. rewrite !bind_run. cbn [gets fst snd].
    change (localAbilityMap_ w1) with (localAbilityMap_ w). rewrite Hl. by rewrite bind_run. }
  assert (Start_reason l w1 = GetOnDemandReasonExtraData (JsonToOnDemandReason (indet_reason_id (trace w1)) j) w1) as Hr.
  { unfold Start_reason, json_reason. rewrite !bind_run. cbn [get_sa fst snd]. change (sa_at w1 l) with (sa_at w l).
    rewrite Hid. unfold GetStartReason. change (saIdToStartReason_ w1) with (saIdToStartReason_ w). by rewrite Hj. }
  rewrite Start_run by exact Hst. unfold Start_body, enter. rewrite !bind_run, Hr.
  pose proof (only_calls_heap _ (GetOnDemandReasonExtraData_calls (JsonToOnDemandReason (indet_reason_id (trace w1)) j)) w1) as Hh.
  exists (indet_reason_id (trace w1)).
  destruct (GetOnDemandReasonExtraData _ w1) as [r w2] eqn:Er. by exists r, w1, w2.
Qed.

(** C33: A start request reaches its ability and brings its reason: from a permitted
    sender, with a valid id and a non-empty reason, it is answered without error
    and leaves one detached thread; when the scheduler runs that thread, and the
    ability is registered and not loaded and its library is there, the ability's
    [OnStart] is entered with the reason that the sender's JSON describes, completed
    with its extra data, and then the ability runs. *)
Theorem start_request_delivered `{!SamgrDefsLaws, !ParcelLaws P} data reply id e l p :
  passes (code_value START_ABILITY_TRANSACTION) data p = true →
  contents (ReadInterfaceToken data).2 = [PInt id; PStr e] →
  FIRST_SYS_ABILITY_ID ≤ id ≤ LAST_SYS_ABILITY_ID → e ≠ "" →
  localAbilityMap_ (abilities p) !! id = Some (Some l) → saId_ (sa_at (abilities p) l) = id →
  abilityState_ (sa_at (abilities p) l) = NOT_LOADED → (∀ w : world J U, LoadSaLib id w = (true, w)) →
  ∃ data' w indet r w1 w2,
    OnRemoteRequest (code_value START_ABILITY_TRANSACTION) data reply p =
      ((ERR_NONE, data', reply), mk_process w (statistics p) (closed_fds p)) ∧
    threads w = threads (abilities p) ++ [StartOndemandTask id] ∧
    GetOnDemandReasonExtraData (JsonToOnDemandReason indet (StringToJsonObj e)) w1 = (r, w2) ∧
    heap w2 = heap (abilities p) ∧
    (run_thread (length (threads (abilities p))) w).2 =
      (Start_finish l (OnStart l r (set_trace (trace w2 ++ [EvOnStart l r]) w2)).2).2.
Proof.
  intros Hp Hc Hid He Hl Hsa Hst Hlib.
  destruct (start_request_thread data reply id e p Hp Hc Hid He) as (data' & w & Ho & Hw & Hrun).
  set (ws := set_threads (threads (abilities p)) w) in *.
  destruct (ondemand_starts id l (StringToJsonObj e) ws) as (indet & r & w1 & w2 & Hr & Hh & Hs);
    [done|by subst|by subst|by subst|subst; apply lookup_insert_eq|].
  exists data', w, indet, r, w1, w2. split_and!; [done|by subst|done|by rewrite Hh; subst|by rewrite Hrun].
Qed.
End manager.

(** ** A process whose callers hold every permission *)
Module DemoManager.
Import DemoDefs DemoJson DemoParcel DemoProfiles.
#[global] Instance demo_kit : KitEnv dj dp du := {
  kit_caller _ := 1;
  kit_verify _ _ _ := 0;
  kit_base _ d r := ret (1, d, r);
}.
#[global] Instance demo_base_class : BaseClassLaws dj dp du.
Proof. by split. Qed.
#[global] Instance demo_base_env : Env dj dp du := DemoEnv.base_env.
Definition fresh : process dj du := mk_process (DemoEnv.demo_world []) new_dumper [].
End DemoManager.
Import DemoDefs DemoParcel DemoDumper DemoStub DemoManager.

(** [fresh], with ability 401 registered and not loaded. *)
Definition idle_process : process DemoJson.dj DemoProfiles.du := mk_process registered new_dumper [].
Definition start_401 : dp := request [PInt 401; PStr "{}"] 7.

Lemma start_request_delivered_witness :
  ∃ data' w, OnRemoteRequest (code_value START_ABILITY_TRANSACTION) start_401 (empty_parcel 8) idle_process =
      ((ERR_NONE, data', empty_parcel 8), mk_process w new_dumper []) ∧
    isRunning_ (sa_at (run_thread 0 w).2 1%positive) = true.
Proof.
  destruct (start_request_delivered start_401 (empty_parcel 8) 401 "{}" 1%positive idle_process)
    as (data' & w & indet & r & w1 & w2 & Ho & _ & _ & _ & Hrun);
    [vm_compute; reflexivity|reflexivity|simpl; lia|discriminate|vm_compute; reflexivity..|done|].
  exists data', w. split; [exact Ho|].
  rewrite (Hrun : (run_thread 0 w).2 = _). unfold Start_finish. by rewrite sa_at_put, decide_True.
Defined.
