(* ===== verification/MainEntry.v ===== *)
(** * MainEntry: from the command line to the boot

    [services/safwk/src/main.cpp] and [services/safwk/src/system_ability_start.cpp].
    The argument strings live in one memory area, as the kernel lays them out,
    because [main] overwrites that area with the name of the process: [argv] is a
    list of offsets into it, and every read of an argument reads the area.

    [memset_s], [strcpy_s], [strcmp] and [atoi] are the C library's; the system
    parameters, and the value of [atoi] where C leaves it undefined, are the class
    [OsEnv]. *)

From S2P Require Import Prelude CString Interfaces OnDemandReason.
From S2P Require Export UnusedTimer.
From stdpp Require Import strings.
From Stdlib Require Import Ascii.

Open Scope Z_scope.

(** ** The C library *)

Definition is_space (c : ascii) : bool :=
  let n := N_of_ascii c in ((9 <=? n) && (n <=? 13) || (n =? 32))%N.
Definition digit_of (c : ascii) : option Z :=
  let n := Z.of_N (N_of_ascii c) in if (48 <=? n) && (n <=? 57) then Some (n - 48) else None.

Fixpoint atoi_digits (s : string) (n : Z) : Z :=
  match s with
  | String c s' => match digit_of c with Some d => atoi_digits s' (10 * n + d) | None => n end
  | "" => n
  end.
Fixpoint skip_spaces (s : string) : string :=
  match s with String c s' => if is_space c then skip_spaces s' else s | "" => "" end.
(** The number [atoi] reads, before it is known to fit. *)
Definition atoi_value (s : string) : Z :=
  match skip_spaces s with
  | String "-" s' => - atoi_digits s' 0
  | String "+" s' => atoi_digits s' 0
  | s' => atoi_digits s' 0
  end.

(** Write [bytes] at [off]. *)
Definition splice (off : nat) (bytes l : list ascii) : list ascii :=
  take off l ++ bytes ++ drop (off + length bytes) l.

(** ** The process *)

Inductive os_event := OsPrctlName (name : string) | OsRaise (signal : Z) | OsMallopt (key value : Z).

Class OsEnv := {
  GetParameter : string → option string;    (* the value, when the call returns a positive length *)
  atoi_undefined : string → Z;              (* what [atoi] does with a number that does not fit *)
  CONFIG_USE_JEMALLOC_DFX_INTF : bool;      (* the build flag *)
}.

Record machine (J U : Type) := mk_machine {
  lam : world J U;
  area : list ascii;
  argv : list nat;
  argv_null : bool;
  os_log : list os_event;
}.
Arguments mk_machine {J U}.
Arguments lam {J U} _.
Arguments area {J U} _.
Arguments argv {J U} _.
Arguments argv_null {J U} _.
Arguments os_log {J U} _.

Section main.
  Context {J P U : Type} `{!Json J} `{!MessageParcel P} `{!ParseUtil U} `{SU : !StringUtil}
    `{SD : !SamgrDefs} `{!Env J P U} `{OE : !OsEnv}.
  Variable fuel : nat.

  #[local] Abbreviation machine := (machine J U).
  #[local] Abbreviation M := (sprog machine).

Definition on_lam {A} (p : prog J U A) : M A :=
  λ m, ((p (lam m)).1, mk_machine (p (lam m)).2 (area m) (argv m) (argv_null m) (os_log m)).
Definition os (e : os_event) : M unit := modify (λ m, mk_machine (lam m) (area m) (argv m) (argv_null m) (os_log m ++ [e])).
Definition set_area (f : list ascii → list ascii) : M unit :=
  modify (λ m, mk_machine (lam m) (f (area m)) (argv m) (argv_null m) (os_log m)).

Definition argc_of (m : machine) : nat := length (argv m).
(** The string [argv[i]] points at. *)
Definition arg_at (i : nat) (m : machine) : string := cstr (drop (nth i (argv m) 0%nat) (area m)).

Definition atoi (s : string) : Z :=
  let v := atoi_value s in if (INT32_MIN <=? v) && (v <=? INT32_MAX) then v else atoi_undefined s.

(** ** The event argument *)

(* [services/safwk/src/main.cpp:54-54] DEFAULT_SAID *)
Definition DEFAULT_SAID : Z := -1.
(* [services/safwk/src/main.cpp:60-60] MAX_LENGTH *)
Definition MAX_LENGTH : nat := 2000.
(* [services/safwk/src/main.cpp:59-59] PARTEVENT_NUM *)
Definition PARTEVENT_NUM : nat := 5.

(** The loop over the '#' signs; the part behind the last one is dropped. *)
(* [services/safwk/src/main.cpp:116-123] ParseArgv *)
Fixpoint split_event (n : nat) (eventStr : string) : list string :=
  match n with
  | O => []
  | S n' =>
      match String.index 0 "#" eventStr with
      | None => []
      | Some pos =>
          String.substring 0 pos eventStr ::
          split_event n' (String.substring (pos + 1) (String.length eventStr - pos - 1) eventStr)
      end
  end.

(** The result is paired with the final value of [eventMap]. *)
(* [services/safwk/src/main.cpp:110-137] ParseArgv *)
Definition parse_event (eventMap : J) (eventStr : string) : Z * J :=
  if Nat.ltb MAX_LENGTH (String.length eventStr) then (DEFAULT_SAID, eventMap)
  else
    match split_event (String.length eventStr + 1) eventStr with
    | [said; id; name; value; extra] =>
        match StrToInt said with
        | None => (DEFAULT_SAID, eventMap)
        | Some saId =>
            (saId, jset EXTRA_DATA_ID (jof_int (atoi extra))
                     (jset VALUE (jof_string value)
                       (jset NAME (jof_string name)
                         (jset EVENT_ID (jof_int (atoi id)) eventMap))))
        end
    | _ => (DEFAULT_SAID, eventMap)
    end.
(* [services/safwk/src/main.cpp:108-138] ParseArgv *)
Definition ParseArgv (eventMap : J) (eventIndex : nat) : M (Z * J) :=
  let! eventStr := gets (arg_at eventIndex) in ret (parse_event eventMap eventStr).

(* [services/safwk/src/main.cpp:140-143] CheckSaId *)
Definition CheckSaId (saId : Z) : bool := (FIRST_SYS_ABILITY_ID <=? saId) && (saId <=? LAST_SYS_ABILITY_ID).

(** ** The name of the process *)

(* [services/safwk/src/main.cpp:47-47] MAX_LEN_PID_NAME *)
Definition MAX_LEN_PID_NAME : nat := 15.

(* [services/safwk/src/main.cpp:64-80] StartMemoryHook *)
Definition StartMemoryHook (processName : string) : M unit :=
  match GetParameter "libc.hook_mode" with
  | None => ret tt
  | Some paramValue =>
      if negb (String.prefix "startup:" paramValue) then ret tt
      else if String.prefix (String.substring 8 (String.length paramValue - 8) paramValue) processName
      then os (OsRaise 36) else ret tt
  end.

(** The lambda of [DoStartSAProcess]: [argv[0]] and the bytes up to the end of the
    last argument are cleared, then the name is copied there; [strcpy_s] refuses
    a name that does not fit and leaves an empty string. *)
(* [services/safwk/src/main.cpp:147-166] DoStartSAProcess *)
Definition setProcessName (name : string) : M unit :=
  let! argc := gets argc_of in
  let! offs := gets argv in
  let! last_arg := gets (arg_at (argc - 1)) in
  let start := nth 0 offs 0%nat in
  let argvSize := ((nth (argc - 1) offs 0 + String.length last_arg) - start)%nat in
  if Nat.eqb argvSize 0 then ret tt
  else
    do! set_area (splice start (replicate argvSize zero)) in
    if Nat.leb argvSize (String.length name) then set_area (splice start [zero])
    else set_area (splice start (String.list_ascii_of_string name ++ [zero])).

(* [services/safwk/src/main.cpp:82-105] SetProcName *)
Definition SetProcName (filePath : string) : M unit :=
  let strVector := SplitStr filePath "/" in
  match last strVector with
  | None => ret tt
  | Some fileName =>
      match String.index 0 "." fileName with
      | None => ret tt
      | Some dotPos =>
          do! setProcessName (String.substring 0 dotPos fileName) in
          do! StartMemoryHook (String.substring 0 dotPos fileName) in
          os (OsPrctlName (String.substring 0 (Nat.min dotPos MAX_LEN_PID_NAME) fileName))
      end
  end.

(* [services/safwk/src/main.cpp:44-44] DEFAULT_JSON *)
Definition DEFAULT_JSON : string := "/system/usr/default.json".

(** The profile argument: what the check on it lets through. *)
Definition bad_profile (filePath : string) : bool :=
  bool_decide (filePath = "") || bool_decide (String.index 0 ".json" filePath = None).

(* [services/safwk/src/main.cpp:145-181] DoStartSAProcess *)
Definition main_DoStartSAProcess (saId : Z) : M Z :=
  let! argc := gets argc_of in
  if Nat.ltb 1 argc then
    let! filePath := gets (arg_at 1) in
    if bad_profile filePath then ret 0
    else
      do! SetProcName filePath in
      do! on_lam (DoStartSAProcess fuel filePath saId) in ret 0
  else do! on_lam (DoStartSAProcess fuel DEFAULT_JSON saId) in ret 0.

(** The other entry leaves the name alone. *)
(* [services/safwk/src/system_ability_start.cpp:95-110] DoStartSAProcess *)
Definition start_DoStartSAProcess (saId : Z) : M Z :=
  let! argc := gets argc_of in
  if Nat.ltb 1 argc then
    let! filePath := gets (arg_at 1) in
    if bad_profile filePath then ret 0
    else do! on_lam (DoStartSAProcess fuel filePath saId) in ret 0
  else do! on_lam (DoStartSAProcess fuel DEFAULT_JSON saId) in ret 0.

(** ** The allocator's arguments *)

(* [services/safwk/src/main.cpp:61-61] MALLOPT_CONFIG_LEN *)
Definition MALLOPT_CONFIG_LEN : nat := 2.

(** The loop over the arguments but the last: the values behind the "-m"s. *)
(* [services/safwk/src/main.cpp:188-196] InitMallopt *)
Fixpoint scan_mallopt (i n : nat) : M (list string) :=
  match n with
  | O => ret []
  | S n' =>
      let! a := gets (arg_at i) in
      let! value := gets (arg_at (i + 1)) in
      let! rest := scan_mallopt (i + 1) n' in
      ret (if bool_decide ("-m"%string = a) then value :: rest else rest)
  end.

(* [services/safwk/src/main.cpp:198-212] InitMallopt *)
Definition apply_mallopt (malloptStr : string) : M unit :=
  match SplitStr malloptStr ":" with
  | [key; value] => os (OsMallopt (atoi key) (atoi value))
  | _ => ret tt
  end.

(** The results are the final values of the two references. *)
(* [services/safwk/src/main.cpp:183-214] InitMallopt *)
Definition InitMallopt (ondemandLoad eventIndex : nat) : M (nat * nat) :=
  let! argc := gets argc_of in
  let! malloptStrList := scan_mallopt 0 (argc - 1) in
  let n := (length malloptStrList * MALLOPT_CONFIG_LEN)%nat in
  do! (if CONFIG_USE_JEMALLOC_DFX_INTF then for_each apply_mallopt malloptStrList else ret tt) in
  ret (ondemandLoad + n, eventIndex + n)%nat.

(** ** The entries *)

(** Both entries, around what they do with the ability to start. *)
(* [services/safwk/src/main.cpp:216-251] main *)
Definition entry (start : Z → M Z) : M Z :=
  let! argc := gets argc_of in
  let! null := gets argv_null in
  if Nat.ltb argc 2 || Nat.ltb 64 argc then ret (-1)
  else if null : bool then ret (-1)
  else
    let! r := InitMallopt 2 2 in
    let '(ondemandLoad, eventIndex) := r in
    if Nat.ltb ondemandLoad argc then
      if Nat.leb argc eventIndex then
        do! on_lam (call (EvReportSaMainExit "sa services path config error")) in ret 0
      else
        let! r := ParseArgv jnull eventIndex in
        let '(saId, eventMap) := r in
        if negb (CheckSaId saId) then
          do! on_lam (call (EvReportSaMainExit "saId is invalid")) in ret 0
        else
          do! on_lam (SetStartReason saId eventMap) in
          do! start saId in ret 0
    else do! start DEFAULT_SAID in ret 0.

(* [services/safwk/src/main.cpp:216-251] main *)
Definition main : M Z := entry main_DoStartSAProcess.

(** *** The other file

    [system_ability_start.cpp] has its own copies of the static functions. *)

(* [services/safwk/src/system_ability_start.cpp:65-72] ParseArgv *)
Fixpoint start_split_event (n : nat) (eventStr : string) : list string :=
  match n with
  | O => []
  | S n' =>
      match String.index 0 "#" eventStr with
      | None => []
      | Some pos =>
          let eventPart := String.substring 0 pos eventStr in
          let eventStr := String.substring (pos + 1) (String.length eventStr - pos - 1) eventStr in
          eventPart :: start_split_event n' eventStr
      end
  end.
(* [services/safwk/src/system_ability_start.cpp:57-88] ParseArgv *)
Definition start_ParseArgv (eventMap : J) (eventIndex : nat) : M (Z * J) :=
  let! eventStr := gets (arg_at eventIndex) in
  if Nat.ltb MAX_LENGTH (String.length eventStr) then ret (DEFAULT_SAID, eventMap)
  else
    match start_split_event (String.length eventStr + 1) eventStr with
    | [said; id; name; value; extra] =>
        match StrToInt said with
        | None => ret (DEFAULT_SAID, eventMap)
        | Some saId =>
            let eventMap := jset EVENT_ID (jof_int (atoi id)) eventMap in
            let eventMap := jset NAME (jof_string name) eventMap in
            let eventMap := jset VALUE (jof_string value) eventMap in
            let extraDataId := atoi extra in
            ret (saId, jset EXTRA_DATA_ID (jof_int extraDataId) eventMap)
        end
    | _ => ret (DEFAULT_SAID, eventMap)
    end.

(* [services/safwk/src/system_ability_start.cpp:90-93] CheckSaId *)
Definition start_CheckSaId (saId : Z) : bool :=
  (FIRST_SYS_ABILITY_ID <=? saId) && (saId <=? LAST_SYS_ABILITY_ID).

(* [services/safwk/src/system_ability_start.cpp:117-125] InitMallopt *)
Fixpoint start_scan_mallopt (i n : nat) : M (list string) :=
  match n with
  | O => ret []
  | S n' =>
      let! a := gets (arg_at i) in
      let! value := gets (arg_at (i + 1)) in
      let! malloptStrList := start_scan_mallopt (i + 1) n' in
      ret (if bool_decide ("-m"%string = a) then value :: malloptStrList else malloptStrList)
  end.
(* [services/safwk/src/system_ability_start.cpp:127-141] InitMallopt *)
Definition start_apply_mallopt (malloptStr : string) : M unit :=
  match SplitStr malloptStr ":" with
  | [key; value] => os (OsMallopt (atoi key) (atoi value))
  | _ => ret tt
  end.
(* [services/safwk/src/system_ability_start.cpp:112-143] InitMallopt *)
Definition start_InitMallopt (ondemandLoad eventIndex : nat) : M (nat * nat) :=
  let! argc := gets argc_of in
  let! malloptStrList := start_scan_mallopt 0 (argc - 1) in
  do! (if CONFIG_USE_JEMALLOC_DFX_INTF then for_each start_apply_mallopt malloptStrList else ret tt) in
  ret (ondemandLoad + length malloptStrList * MALLOPT_CONFIG_LEN,
       eventIndex + length malloptStrList * MALLOPT_CONFIG_LEN)%nat.

(* [services/safwk/src/system_ability_start.cpp:145-180] StartSA *)
Definition StartSA : M Z :=
  let! argc := gets argc_of in
  let! null := gets argv_null in
  if Nat.ltb argc 2 || Nat.ltb 64 argc then ret (-1)
  else if null : bool then ret (-1)
  else
    let! r := start_InitMallopt 2 2 in
    let '(ondemandLoad, eventIndex) := r in
    if Nat.ltb ondemandLoad argc then
      if Nat.leb argc eventIndex then
        do! on_lam (call (EvReportSaMainExit "sa services path config error")) in ret 0
      else
        let! r := start_ParseArgv jnull eventIndex in
        let '(saId, eventMap) := r in
        if negb (start_CheckSaId saId) then
          do! on_lam (call (EvReportSaMainExit "saId is invalid")) in ret 0
        else
          do! on_lam (SetStartReason saId eventMap) in
          do! start_DoStartSAProcess saId in ret 0
    else do! start_DoStartSAProcess DEFAULT_SAID in ret 0.

(** The copies agree with the originals. *)
Lemma start_ParseArgv_same eventMap i m : start_ParseArgv eventMap i m = ParseArgv eventMap i m.
Proof.
  unfold start_ParseArgv, ParseArgv, parse_event, bind, gets.
  destruct (Nat.ltb _ _); [done|]. change start_split_event with split_event.
  destruct (split_event _ _) as [|a [|b [|c [|d [|e [|? ?]]]]]]; try done. by destruct (StrToInt a).
Qed.
Lemma start_InitMallopt_same a b m : start_InitMallopt a b m = InitMallopt a b m.
Proof. reflexivity. Qed.
Lemma StartSA_entry m : StartSA m = entry start_DoStartSAProcess m.
Proof.
  unfold StartSA, entry, bind, gets. destruct (_ || _); [done|]. destruct (argv_null m); [done|].
  rewrite start_InitMallopt_same. destruct (InitMallopt 2 2 m) as [[x y] m1].
  destruct (Nat.ltb _ _); [|done]. destruct (Nat.leb _ _); [done|].
  rewrite start_ParseArgv_same. by destruct (ParseArgv jnull y m1).
Qed.

(** ** The launch *)

(** The area as the kernel fills it, and the offsets it passes. *)
Definition layout (args : list string) : list ascii :=
  concat (map (λ s, String.list_ascii_of_string s ++ [zero]) args).
Fixpoint offsets (k : nat) (args : list string) : list nat :=
  match args with [] => [] | s :: args' => k :: offsets (k + String.length s + 1) args' end.
Definition launched (w : world J U) (args : list string) : machine :=
  mk_machine w (layout args) (offsets 0 args) false [].
(** A machine that still holds the arguments [args]. *)
Definition holds (args : list string) (m : machine) : Prop :=
  area m = layout args ∧ argv m = offsets 0 args.

Lemma layout_cons s args : layout (s :: args) = String.list_ascii_of_string s ++ zero :: layout args.
Proof. unfold layout. cbn. by rewrite <- app_assoc. Qed.
Lemma layout_cons_length s args : length (layout (s :: args)) = (String.length s + 1 + length (layout args))%nat.
Proof. rewrite layout_cons, length_app, ascii_length. cbn. lia. Qed.

Lemma offsets_length k args : length (offsets k args) = length args.
Proof. revert k. induction args as [|s args IH]; intros k; [done|]. cbn. by rewrite IH. Qed.
Lemma offsets_nth k args i :
  (i < length args)%nat → nth i (offsets k args) 0%nat = (k + length (layout (take i args)))%nat.
Proof.
  revert k i. induction args as [|s args IH]; intros k [|i] Hi; cbn [length] in Hi; [lia|lia|cbn; lia|].
  cbn [offsets nth take]. rewrite IH, layout_cons_length by lia. lia.
Qed.
Lemma drop_layout i args : drop (length (layout (take i args))) (layout args) = layout (drop i args).
Proof.
  revert i. induction args as [|s args IH]; intros [|i]; [done|done|done|].
  cbn [take drop]. rewrite layout_cons_length, layout_cons. rewrite <- (IH i).
  replace (String.length s + 1 + length (layout (take i args)))%nat
    with (length (String.list_ascii_of_string s) + S (length (layout (take i args))))%nat
    by (rewrite ascii_length; lia).
  by rewrite drop_app_add.
Qed.

Lemma arg_at_holds args m i s : Forall no_nul args → holds args m → args !! i = Some s → arg_at i m = s.
Proof.
  intros Hn [Ha Hv] Hi. unfold arg_at. rewrite Ha, Hv.
  pose proof (lookup_lt_Some _ _ _ Hi) as Hlt.
  rewrite offsets_nth by done. cbn [Nat.add]. rewrite drop_layout, (drop_S _ _ _ Hi), layout_cons.
  apply cstr_app. exact (Forall_lookup_1 _ _ _ _ Hn Hi).
Qed.
Lemma argc_holds args m : holds args m → argc_of m = length args.
Proof. intros [_ Hv]. unfold argc_of. by rewrite Hv, offsets_length. Qed.
Lemma launched_holds w args : holds args (launched w args).
Proof. done. Qed.

(** ** The event string *)

Definition no_hash (s : string) : Prop := "#"%char ∉ String.list_ascii_of_string s.

Lemma index_hash (a b : string) : no_hash a → String.index 0 "#" (a +:+ String "#" b) = Some (String.length a).
Proof.
  unfold no_hash. induction a as [|c a IH]; intros Ha.
  - cbn. by destruct b.
  - cbn in Ha. apply not_elem_of_cons in Ha as [Hc Ha].
    change (String c a +:+ String "#" b) with (String c (a +:+ String "#" b)). cbn [String.index String.prefix].
    destruct (ascii_dec "#" c) as [E|_]; [by destruct Hc|]. by rewrite (IH Ha).
Qed.
Lemma index_no_hash (b : string) : no_hash b → String.index 0 "#" b = None.
Proof.
  unfold no_hash. induction b as [|c b IH]; intros Hb; [done|].
  cbn in Hb. apply not_elem_of_cons in Hb as [Hc Hb]. cbn [String.index String.prefix].
  destruct (ascii_dec "#" c) as [E|_]; [by destruct Hc|]. by rewrite (IH Hb).
Qed.

(** The parts with a '#' behind each, and a tail. *)
Fixpoint join_event (parts : list string) (tail : string) : string :=
  match parts with [] => tail | a :: parts' => a +:+ String "#" (join_event parts' tail) end.

Lemma split_event_step n a b :
  no_hash a → split_event (S n) (a +:+ String "#" b) = a :: split_event n b.
Proof.
  intros Ha. cbn [split_event]. rewrite index_hash, substring_0_app by done. f_equal.
  rewrite string_app_length. cbn [String.length].
  change (String "#" b) with ("#" +:+ b). rewrite <- (string_app_assoc a "#" b).
  rewrite substring_skip_app by (rewrite string_app_length; done).
  replace (String.length a + S (String.length b) - String.length a - 1)%nat with (String.length b) by lia.
  by rewrite substring_all.
Qed.

Lemma split_join n parts tail :
  Forall no_hash parts → no_hash tail → (length parts < n)%nat → split_event n (join_event parts tail) = parts.
Proof.
  intros Hp Ht. revert n. induction Hp as [|a parts Ha _ IH]; intros [|n] Hn; cbn [length] in Hn; try lia.
  - cbn [split_event join_event]. by rewrite index_no_hash.
  - cbn [join_event]. rewrite split_event_step by done. f_equal. apply IH. lia.
Qed.
Lemma join_event_length parts tail : (length parts ≤ String.length (join_event parts tail))%nat.
Proof.
  induction parts as [|a parts IH]; [cbn; lia|]. cbn [join_event length].
  rewrite string_app_length. cbn [String.length]. lia.
Qed.

(** Every string is the join of what it splits into and a tail. *)
Lemma index_inv s :
  match String.index 0 "#" s with
  | Some _ => ∃ a b, s = a +:+ String "#" b ∧ no_hash a
  | None => no_hash s
  end.
Proof.
  unfold no_hash. induction s as [|c s IH]; [by apply not_elem_of_nil|].
  cbn [String.index String.prefix]. destruct (ascii_dec "#" c) as [<-|Hc].
  - destruct (String.prefix "" s) eqn:E; [|by destruct s].
    exists "", s. split; [done|apply not_elem_of_nil].
  - destruct (String.index 0 "#" s).
    + destruct IH as (a & b & -> & Ha). exists (String c a), b. split; [done|].
      by apply not_elem_of_cons.
    + by apply not_elem_of_cons.
Qed.
Lemma split_join_inv n s :
  (String.length s < n)%nat →
  ∃ tail, s = join_event (split_event n s) tail ∧ no_hash tail ∧ Forall no_hash (split_event n s).
Proof.
  revert s. induction n as [|n IH]; intros s Hn; [lia|].
  pose proof (index_inv s) as Hi. destruct (String.index 0 "#" s) eqn:E.
  - destruct Hi as (a & b & -> & Ha). rewrite split_event_step by done.
    rewrite string_app_length in Hn. cbn [String.length] in Hn.
    destruct (IH b ltac:(lia)) as (tail & Hb & Ht & Hf). exists tail. cbn [join_event].
    rewrite <- Hb. split_and!; [done|done|by constructor].
  - exists s. cbn [split_event]. rewrite E. by split_and!.
Qed.

Lemma event_map_reason `{!JsonLaws J} indet i e n v :
  int32 i → int32 e →
  JsonToOnDemandReason indet (jset EXTRA_DATA_ID (jof_int e) (jset VALUE (jof_string v)
    (jset NAME (jof_string n) (jset EVENT_ID (jof_int i) jnull)))) =
  SetExtraDataId e (SetValue v (SetName n (SetId i (default_reason indet)))).
Proof.
  intros Hi He. unfold JsonToOnDemandReason.
  assert (jobj (jset EVENT_ID (jof_int i) jnull)) as Hj1 by apply jobj_set, jobj_null.
  pose proof (jobj_set NAME (jof_string n) _ Hj1) as Hj2.
  pose proof (jobj_set VALUE (jof_string v) _ Hj2) as Hj3.
  rewrite !jcontains_set, !jat_set by first [apply jobj_null|done].
  unfold EVENT_ID, NAME, VALUE, EXTRA_DATA_ID.
  repeat first [rewrite decide_True by done|rewrite decide_False by done].
  rewrite !bool_decide_eq_true_2 by done. rewrite ?orb_true_r. cbn [orb andb].
  rewrite !jis_number_of_int, !jis_string_of_string, !jstring_of_string, jint32_of_int, jint64_of_int by done.
  reflexivity.
Qed.

(** C31: The event argument "said#id#name#value#extra#" carries a start reason
    exactly: whatever the five parts are, if they hold no '#', the string is not
    longer than 2000 and the first part is a number, the ability is that number
    and the reason the manager later builds from the map has the id and extra
    data id [atoi] reads, and the name and value, unchanged.  Conversely every
    other string is refused: what is accepted is five parts with a '#' behind
    each, then anything without one. *)
Theorem event_roundtrip `{!JsonLaws J} said id name value extra tail saId indet :
  Forall no_hash [said; id; name; value; extra; tail] →
  (String.length (join_event [said; id; name; value; extra] tail) ≤ MAX_LENGTH)%nat →
  StrToInt said = Some saId → int32 (atoi id) → int32 (atoi extra) →
  (let '(said', map) := parse_event jnull (join_event [said; id; name; value; extra] tail) in
   said' = saId ∧
   JsonToOnDemandReason indet map =
     SetExtraDataId (atoi extra) (SetValue value (SetName name (SetId (atoi id) (default_reason indet))))) ∧
  (∀ s, (parse_event jnull s).1 ≠ DEFAULT_SAID →
     ∃ parts tail', s = join_event parts tail' ∧ length parts = PARTEVENT_NUM ∧
       Forall no_hash parts ∧ no_hash tail' ∧ (String.length s ≤ MAX_LENGTH)%nat ∧
       Some (parse_event jnull s).1 = head parts ≫= StrToInt).
Proof.
  intros Hn Hl Hs Hid Hex. split.
  - unfold parse_event. rewrite (proj2 (Nat.ltb_ge _ _) Hl).
    rewrite split_join; [| | |pose proof (join_event_length [said; id; name; value; extra] tail); lia].
    + rewrite Hs. split; [done|]. by apply event_map_reason.
    + exact (Forall_take _ 5 _ Hn).
    + by apply (Forall_drop _ 5), Forall_cons in Hn as [? _].
  - intros s. unfold parse_event. destruct (Nat.ltb_spec MAX_LENGTH (String.length s)) as [|Hle]; [done|].
    destruct (split_join_inv (String.length s + 1) s ltac:(lia)) as (tail' & Hj & Ht & Hf).
    destruct (split_event _ s) as [|p1 [|p2 [|p3 [|p4 [|p5 [|]]]]]]; try done.
    destruct (StrToInt p1) as [z|] eqn:Hz; [|done]. intros _.
    exists [p1; p2; p3; p4; p5], tail'. by split_and!.
Qed.

(** ** The plan of a command line *)

(** The values behind the "-m"s, the last argument aside. *)
Fixpoint mallopt_args (l : list string) : list string :=
  match l with
  | a :: ((v :: _) as l') => if bool_decide ("-m"%string = a) then v :: mallopt_args l' else mallopt_args l'
  | _ => []
  end.
(** Where the event is looked for. *)
Definition event_at (args : list string) : nat := (2 + length (mallopt_args args) * MALLOPT_CONFIG_LEN)%nat.

Definition boot_plan (args : list string) (saId : Z) : prog J U Z :=
  let path := match args !! 1%nat with Some path => path | None => DEFAULT_JSON end in
  if bad_profile path then ret 0 else do! DoStartSAProcess fuel path saId in ret 0.

Definition launch_plan (args : list string) : prog J U Z :=
  if Nat.ltb (length args) 2 || Nat.ltb 64 (length args) then ret (-1)
  else
    match args !! event_at args with
    | None => boot_plan args DEFAULT_SAID
    | Some event =>
        if CheckSaId (parse_event jnull event).1 then
          do! SetStartReason (parse_event jnull event).1 (parse_event jnull event).2 in
          boot_plan args (parse_event jnull event).1
        else do! call (EvReportSaMainExit "saId is invalid") in ret 0
    end.

(** A program on the machine does to the manager what [p] does. *)
Definition implements {A} (p : prog J U A) (w : world J U) (r : A * machine) : Prop :=
  r.1 = (p w).1 ∧ lam r.2 = (p w).2.

(** A program that leaves the manager and the arguments alone. *)
Definition untouched {A} (p : M A) : Prop := ∀ m, lam (p m).2 = lam m ∧ area (p m).2 = area m ∧ argv (p m).2 = argv m.
Lemma untouched_bind {A B} (p : M A) (k : A → M B) : untouched p → (∀ a, untouched (k a)) → untouched (bind p k).
Proof.
  intros Hp Hk m. rewrite bind_run. destruct (Hp m) as (H1 & H2 & H3), (Hk (p m).1 (p m).2) as (K1 & K2 & K3).
  by rewrite K1, K2, K3.
Qed.
Lemma untouched_ret {A} (a : A) : untouched (ret a).
Proof. done. Qed.
Lemma untouched_gets {A} (f : machine → A) : untouched (gets f).
Proof. done. Qed.
Lemma untouched_mallopt s : untouched (apply_mallopt s).
Proof. unfold apply_mallopt. destruct (SplitStr s ":") as [|a [|b [|]]]; by intros m. Qed.
Lemma untouched_for_each {A} (f : A → M unit) l : (∀ a, untouched (f a)) → untouched (for_each f l).
Proof. intros Hf. induction l as [|a l IH]; [done|]. by apply untouched_bind. Qed.

Lemma scan_mallopt_run args m i n :
  Forall no_nul args → holds args m → (i + S n = length args)%nat →
  scan_mallopt i n m = (mallopt_args (drop i args), m).
Proof.
  intros Hn Hm. revert i. induction n as [|n IH]; intros i Hi.
  - destruct (lookup_lt_is_Some_2 args i) as [a Ha]; [lia|].
    rewrite (drop_S _ _ _ Ha), drop_ge by lia. done.
  - destruct (lookup_lt_is_Some_2 args i) as [a Ha]; [lia|].
    destruct (lookup_lt_is_Some_2 args (i + 1)) as [v Hv]; [lia|].
    cbn [scan_mallopt]. rewrite !bind_run. cbn [fst snd gets].
    rewrite (IH (i + 1)%nat) by lia. cbn [fst snd ret].
    rewrite (arg_at_holds args m i a), (arg_at_holds args m (i + 1) v) by done.
    rewrite (drop_S args a i Ha). replace (i + 1)%nat with (S i) in Hv |- * by lia.
    rewrite (drop_S args v (S i) Hv). cbn [mallopt_args ret]. by case_bool_decide.
Qed.

Lemma InitMallopt_run args m :
  Forall no_nul args → holds args m → args ≠ [] →
  (InitMallopt 2 2 m).1 = (event_at args, event_at args) ∧
  lam (InitMallopt 2 2 m).2 = lam m ∧ holds args (InitMallopt 2 2 m).2.
Proof.
  intros Hn Hm Hne. unfold InitMallopt. rewrite bind_run. cbn [fst snd gets].
  assert (length args ≠ 0)%nat by (by destruct args).
  rewrite bind_run, (argc_holds args), (scan_mallopt_run args) by (done || lia). cbn [fst snd].
  rewrite bind_run. cbn [fst snd ret]. split; [done|].
  assert (untouched (if CONFIG_USE_JEMALLOC_DFX_INTF then for_each apply_mallopt (mallopt_args (drop 0 args))
                 else ret tt)) as Hq.
  { destruct CONFIG_USE_JEMALLOC_DFX_INTF; [|done]. apply untouched_for_each, untouched_mallopt. }
  destruct (Hq m) as (H1 & H2 & H3). rewrite H1. split; [done|].
  destruct Hm as [Ha Hv]. split; congruence.
Qed.

(** The common part of the entries does what the plan says, when [start] does. *)
Lemma entry_implements args m (start : Z → M Z) :
  Forall no_nul args → holds args m → argv_null m = false →
  (∀ saId m', (2 ≤ length args)%nat → holds args m' →
     (start saId m').1 = (boot_plan args saId (lam m')).1 ∧ lam (start saId m').2 = (boot_plan args saId (lam m')).2) →
  (∀ s w, (boot_plan args s w).1 = 0) →
  implements (launch_plan args) (lam m) (entry start m).
Proof.
  intros Hn Hm Hnull Hstart H0. unfold entry, launch_plan, implements. rewrite !bind_run. cbn [fst snd gets].
  rewrite Hnull.
  rewrite (argc_holds args) by done.
  destruct (Nat.ltb_spec (length args) 2) as [|H2]; [done|]. cbn [orb].
  destruct (Nat.ltb_spec 64 (length args)) as [|H64]; [done|].
  destruct (InitMallopt_run args m) as (E1 & E2 & E3); [done|done|intros ->; cbn in H2; lia|].
  rewrite bind_run. destruct (InitMallopt 2 2 m) as [r m1]. cbn [fst snd] in *. subst r.
  destruct (Nat.ltb_spec (event_at args) (length args)) as [Hlt|Hge].
  - destruct (lookup_lt_is_Some_2 args (event_at args) Hlt) as [event He]. rewrite He.
    rewrite (proj2 (Nat.leb_gt _ _) Hlt). unfold ParseArgv. rewrite !bind_run. cbn [fst snd gets ret].
    rewrite (arg_at_holds args m1 _ event) by done.
    destruct (parse_event jnull event) as [saId map]. cbn [fst snd]. destruct (CheckSaId saId); cbn [negb].
    + rewrite !bind_run. cbn [fst snd on_lam]. rewrite E2.
      set (m2 := mk_machine _ _ _ _ _).
      destruct (Hstart saId m2 H2) as [S1 S2]; [exact E3|]. split; [|exact S2].
      symmetry. apply H0.
    + rewrite !bind_run. cbn [fst snd on_lam ret]. by rewrite E2.
  - rewrite lookup_ge_None_2 by done. rewrite bind_run. destruct (Hstart DEFAULT_SAID m1 H2 E3) as [S1 S2].
    cbn [fst snd ret]. rewrite <- E2. split; [symmetry; apply H0|exact S2].
Qed.

(** ** What [StartSA] does to the process *)

(** The arguments as they are in memory. *)
Definition args_view (m : machine) : list ascii * list nat := (area m, argv m).

(** The allocator's options that the values behind the "-m"s stand for. *)
Definition mallopt_calls (values : list string) : list os_event :=
  if CONFIG_USE_JEMALLOC_DFX_INTF then
    concat (map (λ s, match SplitStr s ":" with [k; v] => [OsMallopt (atoi k) (atoi v)] | _ => [] end) values)
  else [].

Lemma mallopts_log l m :
  os_log (for_each apply_mallopt l m).2 = os_log m ++
    concat (map (λ s, match SplitStr s ":" with [k; v] => [OsMallopt (atoi k) (atoi v)] | _ => [] end) l).
Proof.
  revert m. induction l as [|s l IH]; intros m; cbn [for_each map concat]; [by rewrite app_nil_r|].
  rewrite bind_run, IH, (assoc_L (++)). f_equal.
  unfold apply_mallopt. destruct (SplitStr s ":") as [|a [|b [|]]]; cbn; by rewrite ?app_nil_r.
Qed.

Lemma InitMallopt_log args m :
  Forall no_nul args → holds args m → args ≠ [] →
  os_log (InitMallopt 2 2 m).2 = os_log m ++ mallopt_calls (mallopt_args args).
Proof.
  intros Hn Hm Hne. unfold InitMallopt, mallopt_calls. rewrite bind_run. cbn [fst snd gets].
  assert (length args ≠ 0)%nat by (by destruct args).
  rewrite bind_run, (argc_holds args), (scan_mallopt_run args) by (done || lia). cbn [fst snd].
  rewrite bind_run. cbn [fst snd ret]. rewrite drop_0.
  destruct CONFIG_USE_JEMALLOC_DFX_INTF; [apply mallopts_log|by rewrite app_nil_r].
Qed.

Lemma keeps_on_lam {X A} (f : machine → X) (p : prog J U A) :
  (∀ m w, f (mk_machine w (area m) (argv m) (argv_null m) (os_log m)) = f m) → keeps f (on_lam p).
Proof. intros Hf m. apply Hf. Qed.

(** Programs put together from ones that keep a view keep it. *)
Ltac keep_view :=
  repeat first [solve [auto using keeps_gets, keeps_ret] | apply keeps_bind | intro | case_match].

(** The part behind the allocator's arguments. *)
Lemma start_keeps {X} (f : machine → X) saId :
  (∀ m w, f (mk_machine w (area m) (argv m) (argv_null m) (os_log m)) = f m) →
  keeps f (start_DoStartSAProcess saId).
Proof.
  intros Hf. pose proof (λ A, @keeps_on_lam X A f). unfold start_DoStartSAProcess.
  keep_view.
Qed.

Lemma InitMallopt_args : keeps args_view (InitMallopt 2 2).
Proof.
  unfold InitMallopt. apply keeps_bind; [apply keeps_gets|intros argc].
  assert (∀ n i, keeps args_view (scan_mallopt i n)) as Hs.
  { intros n. induction n as [|n IH]; intros i; cbn [scan_mallopt]; [apply keeps_ret|].
    keep_view. }
  apply keeps_bind; [apply Hs|intros l]. apply keeps_bind; [|intros; apply keeps_ret].
  destruct CONFIG_USE_JEMALLOC_DFX_INTF; [|apply keeps_ret]. apply keeps_for_each. intros s m.
  destruct (untouched_mallopt s m) as (_ & H1 & H2). unfold args_view. congruence.
Qed.

Lemma StartSA_args : keeps args_view StartSA.
Proof.
  intros m. rewrite StartSA_entry. revert m. change (keeps args_view (entry start_DoStartSAProcess)).
  pose proof InitMallopt_args. pose proof (λ s, start_keeps args_view s (λ _ _, eq_refl)).
  pose proof (λ A p, @keeps_on_lam _ A args_view p (λ _ _, eq_refl)). unfold entry, ParseArgv. keep_view.
Qed.

Lemma StartSA_log args w :
  Forall no_nul args →
  os_log (StartSA (launched w args)).2 =
    if Nat.ltb (length args) 2 || Nat.ltb 64 (length args) then [] else mallopt_calls (mallopt_args args).
Proof.
  intros Hn. rewrite StartSA_entry. unfold entry. rewrite !bind_run. cbn [fst snd gets].
  rewrite (argc_holds args) by done. change (argv_null (launched w args)) with false. cbn iota.
  destruct (_ || _) eqn:Hc; [done|]. assert (args ≠ []) as Hne by (by intros ->).
  rewrite bind_run. pose proof (InitMallopt_log args (launched w args) Hn (launched_holds w args) Hne) as Hl.
  destruct (InitMallopt 2 2 (launched w args)) as [[x y] m1]. cbn [fst snd] in *. cbn [launched os_log app] in Hl. rewrite <- Hl. clear Hl.
  pose proof (λ s, start_keeps os_log s (λ _ _, eq_refl)) as Hk.
  pose proof (λ A p, @keeps_on_lam _ A os_log p (λ _ _, eq_refl)).
  match goal with |- os_log (?p m1).2 = _ => enough (keeps os_log p) as Hp by exact (Hp m1) end.
  unfold ParseArgv. keep_view.
Qed.

Lemma boot_plan_code args s w : (boot_plan args s w).1 = 0.
Proof. unfold boot_plan. destruct (bad_profile _); [done|]. by rewrite bind_run. Qed.

Lemma SetProcName_lam path m : lam (SetProcName path m).2 = lam m.
Proof.
  unfold SetProcName. destruct (last _) as [f|]; [|done]. destruct (String.index 0 "." f) as [d|]; [|done].
  rewrite !bind_run. cbn [os modify snd lam].
  assert (∀ s m, lam (StartMemoryHook s m).2 = lam m) as ->.
  { intros s m'. unfold StartMemoryHook. destruct (GetParameter _); [|done].
    destruct (negb _); [done|]. by destruct (String.prefix _ _). }
  unfold setProcessName. rewrite !bind_run. cbn [fst snd gets].
  destruct (Nat.eqb _ 0); [done|]. rewrite bind_run. by destruct (Nat.leb _ _).
Qed.

(** C24: Both entry points refine one plan, read off the command line as the kernel
    passed it: -1 for a bad argument count; with an event behind the profile and
    the allocator's arguments, either the report that its ability id is invalid
    or the recorded start reason followed by the boot; without one, the boot of
    the whole profile.  With a null [argv] they return -1 and do nothing.  The branch
    that reports a configuration error is never taken, the exit code is 0 whenever the
    argument count is right, and although [main] overwrites the arguments with the name
    of the process it never reads them afterwards; [StartSA] leaves their bytes and
    [argv] as they were in every case, and all it asks of the operating system is the
    allocator's options behind the "-m"s, in order: it does not name the process. *)
Theorem entries_refine_plan args w :
  Forall no_nul args →
  implements (launch_plan args) w (main (launched w args)) ∧
  implements (launch_plan args) w (StartSA (launched w args)) ∧
  ((launch_plan args w).1 = if Nat.ltb (length args) 2 || Nat.ltb 64 (length args) then -1 else 0) ∧
  (∀ m, argv_null m = true → main m = (-1, m) ∧ StartSA m = (-1, m)) ∧
  (∀ m, area (StartSA m).2 = area m ∧ argv (StartSA m).2 = argv m) ∧
  os_log (StartSA (launched w args)).2 =
    (if Nat.ltb (length args) 2 || Nat.ltb 64 (length args) then [] else mallopt_calls (mallopt_args args)).
Proof.
  intros Hn. split_and!.
  - apply (entry_implements args (launched w args)); [done|by apply launched_holds|done| |apply boot_plan_code].
    intros saId m H2 Hm. destruct (lookup_lt_is_Some_2 args 1) as [path Hp]; [lia|].
    unfold main_DoStartSAProcess, boot_plan. rewrite bind_run. cbn [fst snd gets].
    rewrite (argc_holds args), Hp by done. destruct (Nat.ltb_spec 1 (length args)); [|lia].
    rewrite bind_run. cbn [fst snd gets]. rewrite (arg_at_holds args m 1 path) by done.
    destruct (bad_profile path); [done|]. rewrite !bind_run. cbn [fst snd on_lam ret lam].
    by rewrite SetProcName_lam.
  - rewrite StartSA_entry. apply (entry_implements args (launched w args)); [done|by apply launched_holds|done| |apply boot_plan_code].
    intros saId m H2 Hm. destruct (lookup_lt_is_Some_2 args 1) as [path Hp]; [lia|].
    unfold start_DoStartSAProcess, boot_plan. rewrite bind_run. cbn [fst snd gets].
    rewrite (argc_holds args), Hp by done. destruct (Nat.ltb_spec 1 (length args)); [|lia].
    rewrite bind_run. cbn [fst snd gets]. rewrite (arg_at_holds args m 1 path) by done.
    destruct (bad_profile path); [done|]. by rewrite !bind_run.
  - unfold launch_plan. destruct (_ || _); [done|]. destruct (args !! _); [|apply boot_plan_code].
    destruct (CheckSaId _); rewrite bind_run; [apply boot_plan_code|done].
  - intros m Hnull. rewrite StartSA_entry. unfold main, entry. rewrite !bind_run. cbn [fst snd gets]. rewrite Hnull.
    by destruct (_ || _).
  - intros m. pose proof (StartSA_args m) as H. unfold args_view in H. by simplify_eq.
  - by apply StartSA_log.
Qed.

Lemma mallopt_args_pairs cfgs rest :
  Forall (λ c, c ≠ "-m") cfgs → (length rest ≤ 1)%nat →
  mallopt_args (concat (map (λ c, ["-m"; c]) cfgs) ++ rest) = cfgs.
Proof.
  intros Hc Hr. induction Hc as [|c cfgs Hc _ IH].
  - cbn. destruct rest as [|a [|b rest]]; cbn in *; [done|done|lia].
  - cbn [map concat app]. cbn [mallopt_args]. rewrite bool_decide_eq_true_2 by done. f_equal.
    destruct (concat _ ++ rest) as [|b l] eqn:E; [by rewrite <- IH|].
    rewrite bool_decide_eq_false_2 by auto. exact IH.
Qed.

(** The event is found behind the allocator's arguments: on a command line
    "program profile (-m config)* [event]", in which neither the program, the
    profile nor a config is itself "-m", the configs are the values collected and
    the index is that of the event, or one past the end when there is none. *)
Theorem event_index_spec prog profile cfgs rest :
  prog ≠ "-m" → profile ≠ "-m" → Forall (λ c, c ≠ "-m") cfgs → (length rest ≤ 1)%nat →
  let args := prog :: profile :: concat (map (λ c, ["-m"; c]) cfgs) ++ rest in
  mallopt_args args = cfgs ∧ args !! event_at args = head rest ∧
  (length args = event_at args + length rest)%nat.
Proof.
  intros Hp Hpr Hc Hr. cbv zeta. set (tl := concat _ ++ rest).
  assert (mallopt_args (prog :: profile :: tl) = cfgs) as E.
  { cbn [mallopt_args]. rewrite bool_decide_eq_false_2 by auto.
    pose proof (mallopt_args_pairs cfgs rest Hc Hr) as Ht. fold tl in Ht.
    destruct tl as [|t tl]; [by rewrite <- Ht|]. by rewrite bool_decide_eq_false_2 by auto. }
  unfold event_at. rewrite E. unfold MALLOPT_CONFIG_LEN.
  assert (length (concat (map (λ c, ["-m"; c]) cfgs)) = length cfgs * 2)%nat as Hl.
  { clear. induction cfgs as [|c cfgs IH]; [done|]. cbn in *. lia. }
  split_and!; [done| |].
  - change (tl !! (length cfgs * 2)%nat = head rest). unfold tl. rewrite lookup_app_r by lia.
    rewrite Hl, Nat.sub_diag. by destruct rest.
  - cbn [length]. unfold tl. rewrite length_app, Hl. lia.
Qed.

(** ** The name of the process *)

Lemma splice_front bytes l : splice 0 bytes l = bytes ++ drop (length bytes) l.
Proof. done. Qed.

Lemma index_lt c s d : String.index 0 (String c "") s = Some d → (d < String.length s)%nat.
Proof.
  revert d. induction s as [|b s IH]; intros d; [done|]. cbn [String.index String.prefix String.length].
  destruct (ascii_dec c b) as [_|_].
  - destruct (String.prefix "" s) eqn:E; [intros [= <-]; lia|by destruct s].
  - destruct (String.index 0 (String c "") s) as [k|] eqn:E; [|done]. intros [= <-]. specialize (IH k eq_refl). lia.
Qed.
Lemma layout_last_length args s :
  last args = Some s → length (layout args) = (length (layout (take (length args - 1) args)) + String.length s + 1)%nat.
Proof.
  intros Hl. apply last_Some in Hl as [l' ->]. rewrite length_app. cbn [length].
  replace (length l' + 1 - 1)%nat with (length l') by lia. rewrite take_app_length.
  unfold layout. rewrite map_app, concat_app, length_app. cbn. rewrite app_nil_r, length_app, ascii_length. cbn. lia.
Qed.

Lemma layout_longer args path : args !! 1%nat = Some path → (String.length path + 1 < length (layout args))%nat.
Proof.
  destruct args as [|a [|b args]]; [done|done|]. intros [= ->]. rewrite !layout_cons_length. lia.
Qed.

(** The area ends with the NUL of the last argument. *)
Lemma layout_end args : args ≠ [] → drop (length (layout args) - 1) (layout args) = [zero].
Proof.
  intros Hne. destruct args as [|a args] using rev_ind; [done|]. unfold layout.
  rewrite map_app, concat_app. cbn. rewrite app_nil_r, app_assoc.
  rewrite length_app. cbn. rewrite Nat.add_sub. apply drop_app_length.
Qed.

Lemma setProcessName_run args m path name :
  Forall no_nul args → holds args m → args !! 1%nat = Some path ∧ (String.length name < String.length path)%nat →
  area (setProcessName name m).2 =
    String.list_ascii_of_string name ++ replicate (length (layout args) - String.length name) zero.
Proof.
  intros Hn Hm [Hp Hlt]. pose proof (layout_longer args path Hp) as Hlong.
  assert (args ≠ []) as Hne by (by destruct args).
  destruct (last args) as [s|] eqn:Hl; [|by apply last_None in Hl].
  pose proof (layout_last_length args s Hl) as Hlen.
  assert (args !! (length args - 1)%nat = Some s) as Hs by (rewrite <- Hl, last_lookup; f_equal; lia).
  unfold setProcessName. rewrite !bind_run. cbn [fst snd gets].
  rewrite (argc_holds args), (arg_at_holds args m _ s) by done.
  destruct Hm as [Ha Hv]. rewrite Hv, !offsets_nth by (pose proof (lookup_lt_Some _ _ _ Hs); lia).
  cbn [take layout length map concat Nat.add]. rewrite Nat.sub_0_r.
  replace (length (layout (take (length args - 1) args)) + String.length s)%nat with (length (layout args) - 1)%nat by lia.
  rewrite (proj2 (Nat.eqb_neq _ 0)) by lia. rewrite bind_run, (proj2 (Nat.leb_gt _ _)) by lia.
  cbn [set_area modify snd area]. rewrite Ha, !splice_front, length_replicate, layout_end by done.
  change (replicate (length (layout args) - 1) zero ++ [zero])
    with (replicate (length (layout args) - 1) zero ++ replicate 1 zero). rewrite <- replicate_add.
  rewrite drop_replicate, length_app, ascii_length, <- app_assoc. f_equal. cbn [length app].
  change (zero :: replicate ?k zero) with (replicate (S k) zero). f_equal. lia.
Qed.

(** C35: The name always fits: the name of the process is the profile's file name
    up to its first dot; it is copied whole over the command line, of which
    nothing else is left, the area keeps its size, and the name given to the
    kernel is the same one cut to 15 characters. *)
Theorem process_name_fits args m path fileName d :
  Forall no_nul args → holds args m → args !! 1%nat = Some path →
  last (SplitStr path "/") = Some fileName → (String.length fileName ≤ String.length path)%nat →
  String.index 0 "." fileName = Some d →
  let name := String.substring 0 d fileName in
  let m' := (SetProcName path m).2 in
  area m' = String.list_ascii_of_string name ++ replicate (length (layout args) - String.length name) zero ∧
  length (area m') = length (area m) ∧
  last (os_log m') = Some (OsPrctlName (String.substring 0 (Nat.min d 15) fileName)) ∧
  String.length (String.substring 0 (Nat.min d 15) fileName) = Nat.min (String.length name) 15.
Proof.
  intros Hn Hm Hp Hs Hle Hd name m'. subst m'.
  pose proof (index_lt _ _ _ Hd) as Hdl.
  assert (String.length name = d) as Hname by (apply substring_length; lia).
  unfold SetProcName. rewrite Hs, Hd. fold name. rewrite !bind_run. cbn [os modify snd area os_log].
  set (m1 := (setProcessName name m).2).
  assert (∀ s m, area (StartMemoryHook s m).2 = area m) as ->.
  { intros s m2. unfold StartMemoryHook. destruct (GetParameter _); [|done].
    destruct (negb _); [done|]. by destruct (String.prefix _ _). }
  assert (area m1 = String.list_ascii_of_string name ++ replicate (length (layout args) - String.length name) zero) as Ha.
  { apply (setProcessName_run args m path); [done|done|]. rewrite Hname. split; [done|lia]. }
  rewrite Ha. split_and!; [done| |by rewrite last_snoc|].
  - destruct Hm as [-> _]. rewrite length_app, length_replicate, ascii_length.
    pose proof (layout_longer args _ Hp). rewrite Hname. lia.
  - rewrite substring_length by lia. lia.
Qed.
End main.

(** ** Witnesses *)

Module DemoMain.
Import DemoDefs DemoJson DemoParcel DemoProfiles.
#[global] Instance demo_os_env : OsEnv := {
  GetParameter _ := Some "startup:cam";
  atoi_undefined _ := -1;
  CONFIG_USE_JEMALLOC_DFX_INTF := true;
}.
(** Numbers are read by [atoi], paths hold one file. *)
#[global] Instance main_string_util : StringUtil := {
  SplitStr s sep := ["profile"; "camera.json"];
  StrToInt s := Some (atoi s);
  Str16ToStr8 s := "proc";
  Str8ToStr16 s := [100];
}.
#[global] Instance main_env : Env dj dp du := DemoEnv.base_env.
Definition command_line : list string :=
  ["sa_main"; "profile/camera.json"; "-m"; "1:2"; "401#3#usb#on#7#"].
Lemma command_line_no_nul : Forall no_nul command_line.
Proof. repeat constructor; intros H; repeat (apply elem_of_cons in H as [H|H]; [discriminate|]); by apply elem_of_nil in H. Qed.
Definition demo_machine : machine dj du := launched (DemoEnv.demo_world []) command_line.
End DemoMain.
Import DemoDefs DemoJson DemoParcel DemoProfiles DemoMain.

Lemma event_roundtrip_witness :
  JsonToOnDemandReason 77 (parse_event (J := dj) jnull "401#3#usb#on#7#").2 =
    SetExtraDataId 7 (SetValue "on" (SetName "usb" (SetId 3 (default_reason 77)))).
Proof.
  destruct (event_roundtrip (J := dj) "401" "3" "usb" "on" "7" "" 401 77) as [H _].
  - repeat constructor; unfold no_hash; intros Hi;
      repeat (apply elem_of_cons in Hi as [Hi|Hi]; [discriminate|]); by apply elem_of_nil in Hi.
  - apply Nat.leb_le. vm_compute. reflexivity.
  - reflexivity.
  - unfold int32, INT32_MIN, INT32_MAX. vm_compute. split; discriminate.
  - unfold int32, INT32_MIN, INT32_MAX. vm_compute. split; discriminate.
  - exact (proj2 H).
Defined.

Lemma entries_refine_plan_witness :
  (main (P := dp) 10 demo_machine).1 = 0 ∧
  lam (main (P := dp) 10 demo_machine).2 = lam (StartSA (P := dp) 10 demo_machine).2 ∧
  area (StartSA (P := dp) 10 demo_machine).2 = layout command_line.
Proof.
  destruct (entries_refine_plan (P := dp) 10 command_line (DemoEnv.demo_world []) command_line_no_nul)
    as ([H1 H2] & [_ H3] & H4 & _ & H5 & _).
  split_and!; [rewrite H4 in H1; exact H1| |exact (proj1 (H5 demo_machine))].
  etransitivity; [exact H2|symmetry; exact H3].
Defined.

Lemma event_index_spec_witness :
  mallopt_args command_line = ["1:2"%string] ∧ command_line !! event_at command_line = Some "401#3#usb#on#7#"%string.
Proof.
  destruct (event_index_spec "sa_main" "profile/camera.json" ["1:2"%string] ["401#3#usb#on#7#"%string])
    as (H1 & H2 & _).
  - discriminate.
  - discriminate.
  - repeat constructor; discriminate.
  - cbn; lia.
  - split; [exact H1|exact H2].
Defined.

Lemma process_name_fits_witness :
  cstr (area (SetProcName "profile/camera.json" demo_machine).2) = "camera" ∧
  last (os_log (SetProcName "profile/camera.json" demo_machine).2) = Some (OsPrctlName "camera").
Proof.
  destruct (process_name_fits command_line demo_machine "profile/camera.json" "camera.json" 6) as (H1 & _ & H2 & _).
  - exact command_line_no_nul.
  - apply launched_holds.
  - reflexivity.
  - reflexivity.
  - cbn; lia.
  - reflexivity.
  - split; [rewrite H1; vm_compute; reflexivity|exact H2].
Defined.
