(* ===== verification/SvcControl.v ===== *)
(** * SvcControl: the [svc] command

    [svc/src/svc_control.cpp] and [svc/include/svc_control.h]: the command line
    tool that sends [ServiceControlCmd] to the process of an ability.  The tool's
    state is the list of what it has done; the answers of the system ability
    manager and of the remote process are the class [SvcEnv].  [argv] is a list
    of pointers, [None] for a null one. *)

From S2P Require Import Prelude Interfaces.
From S2P Require Export Monad.
From stdpp Require Import pretty.

Open Scope Z_scope.

(* [svc/include/svc_control.h:23-33] SvcCmd *)
Inductive SvcCmd :=
| ARGS_CNT_NOT_ENOUGH | ARGS_CNT_EXCEED | ARGS_INVALID
| HELP_CMD | WIFI_CMD | BLUETOOTH_CMD | NEARLINK_CMD.
#[export] Instance SvcCmd_eq_dec : EqDecision SvcCmd.
Proof. solve_decision. Defined.

(* [svc/include/svc_control.h:23-33] SvcCmd *)
Definition cmd_value (c : SvcCmd) : Z :=
  match c with
  | ARGS_CNT_NOT_ENOUGH => -4 | ARGS_CNT_EXCEED => -3 | ARGS_INVALID => -2
  | HELP_CMD => -1
  | WIFI_CMD => 1120 | BLUETOOTH_CMD => 1130 | NEARLINK_CMD => 1190
  end.

Inductive svc_event :=
| SvcPrint (fd : Z) (s : string)
| SvcGetManager
| SvcGetProxy (said : Z)
| SvcLoad (said timeout : Z)
| SvcServiceControl (fd said : Z) (args : list u16string).

(** A non-zero answer is a non-null pointer, or the code of the remote call. *)
Class SvcEnv := { svc_answer : list svc_event → svc_event → Z }.

Section svc.
  Context `{SU : !StringUtil} `{SE : !SvcEnv}.

  #[local] Abbreviation M := (sprog (list svc_event)).
  #[local] Abbreviation pargs := (list (option string)).

Definition scall (e : svc_event) : M Z := λ t, (svc_answer t e, t ++ [e]).
Definition dprintf (fd : Z) (s : string) : M unit := modify (λ t, t ++ [SvcPrint fd s]).
Definition newline : string := String "010"%char "".

(* [svc/include/svc_control.h:45-45] ARG_MAX_COUNT *)
Definition ARG_MAX_COUNT : nat := 64.
(* [svc/include/svc_control.h:46-46] ARG_MIN_COUNT *)
Definition ARG_MIN_COUNT : nat := 2.
(* [svc/include/svc_control.h:47-47] SINGLE_ARG_MAXLEN *)
Definition SINGLE_ARG_MAXLEN : nat := 256.
(* [svc/include/svc_control.h:48-48] TIME_OUT *)
Definition TIME_OUT : Z := 4.
Definition NO_ERROR : Z := 0.

(* [svc/src/svc_control.cpp:37-40] SvcControl::HelpInfo *)
Definition HelpInfo (fd : Z) : M unit :=
  dprintf fd ("svc wifi | bluetooth | nearlink enable | disable | help" +:+ newline).

(** [operator[]] of the map gives an empty string for a code without a text. *)
(* [svc/src/svc_control.cpp:42-53] SvcControl::CmdErrorToString *)
Definition CmdErrorToString (cmd : SvcCmd) : string :=
  if cmd_value cmd <? cmd_value ARGS_CNT_NOT_ENOUGH then "exception error code"
  else
    match cmd with
    | ARGS_INVALID => "argument invalid"
    | ARGS_CNT_EXCEED => "argument's cnt exceed"
    | ARGS_CNT_NOT_ENOUGH => "argument's cnt not enough"
    | _ => ""
    end.

(* [svc/src/svc_control.cpp:150-159] SvcControl::ParseCmd *)
Definition svc_options : list (string * SvcCmd * bool) := [
  ("wifi", WIFI_CMD, false);
  ("bluetooth", BLUETOOTH_CMD, false);
  ("nearlink", NEARLINK_CMD, false);
  ("help", HELP_CMD, true)].

(** The loop over the options; the result is paired with the final [isEnd]. *)
(* [svc/src/svc_control.cpp:160-168] SvcControl::ParseCmd *)
Fixpoint find_option (arg : string) (opts : list (string * SvcCmd * bool)) (isEnd : bool) : SvcCmd * bool :=
  match opts with
  | [] => (ARGS_INVALID, isEnd)
  | (op, cmd, e) :: opts' => if bool_decide (op = arg) then (cmd, e) else find_option arg opts' isEnd
  end.
(* [svc/src/svc_control.cpp:148-169] SvcControl::ParseCmd *)
Definition ParseCmd (argv : pargs) (cnt : nat) (isEnd : bool) : SvcCmd * bool :=
  find_option (default "" (default None (argv !! cnt))) svc_options isEnd.

(** The check of each argument. *)
(* [svc/src/svc_control.cpp:118-131] SvcControl::Parse *)
Fixpoint args_ok (argv : pargs) : bool :=
  match argv with
  | [] => true
  | None :: _ => false
  | Some s :: argv' =>
      if Nat.eqb (String.length s) 0 then false
      else if Nat.ltb SINGLE_ARG_MAXLEN (String.length s) then false
      else args_ok argv'
  end.

(* [svc/src/svc_control.cpp:107-146] SvcControl::Parse *)
Definition Parse (argv : pargs) : SvcCmd :=
  let argc := length argv in
  if Nat.ltb argc ARG_MIN_COUNT then ARGS_CNT_NOT_ENOUGH
  else if Nat.ltb ARG_MAX_COUNT argc then ARGS_CNT_EXCEED
  else if negb (args_ok argv) then ARGS_INVALID
  else
    let cnt := 1%nat in
    let '(cmd, isEnd) := ParseCmd argv cnt false in
    if decide (cmd = ARGS_INVALID) then cmd
    else if isEnd && Nat.ltb (cnt + 1) argc then ARGS_CNT_EXCEED
    else if negb isEnd && Nat.eqb argc (cnt + 1) then ARGS_CNT_NOT_ENOUGH
    else cmd.

(* [svc/src/svc_control.cpp:171-185] SvcControl::SetCmdArgs *)
Definition SetCmdArgs (argv : pargs) : list u16string :=
  map (λ a, Str8ToStr16 (default "" a)) (drop ARG_MIN_COUNT argv).

(** [argv] is [None] when the array itself is null. *)
(* [svc/src/svc_control.cpp:55-105] SvcControl::Main *)
Definition Main (argv : option pargs) (outFd : Z) : M Z :=
  match argv with
  | None =>
      do! dprintf outFd ("argument is null" +:+ newline) in
      do! HelpInfo outFd in ret (-1)
  | Some argv =>
      let cmd := Parse argv in
      if decide (cmd = HELP_CMD) then do! HelpInfo outFd in ret 0
      else if cmd_value cmd <=? cmd_value ARGS_INVALID then
        do! dprintf outFd ("parse failed, parse status: " +:+ (CmdErrorToString cmd +:+ newline)) in
        do! HelpInfo outFd in ret (-1)
      else
        let saId := cmd_value cmd in
        let! sysm := scall SvcGetManager in
        if sysm =? 0 then
          do! dprintf outFd ("get object of system ability manager failed" +:+ newline) in ret (-1)
        else
          let! localObj := scall (SvcGetProxy saId) in
          let! localObj := (if localObj =? 0 then
                              do! scall (SvcLoad saId TIME_OUT) in scall (SvcGetProxy saId)
                            else ret localObj) in
          if localObj =? 0 then
            do! dprintf outFd ("get object of local ability manager proxy failed" +:+ newline) in ret (-1)
          else
            let! r := scall (SvcServiceControl outFd saId (SetCmdArgs argv)) in
            if negb (r =? NO_ERROR) then
              do! dprintf outFd ("set service cmd failed, ret: " +:+ ((pretty r : string) +:+ newline)) in ret (-1)
            else
              do! dprintf outFd ("set service cmd success" +:+ newline) in ret r
  end.

Definition STDOUT_FILENO : Z := 1.
(* [svc/src/main.cpp:21-24] main *)
Definition main (argv : option pargs) : M Z := Main argv STDOUT_FILENO.

(** ** The grammar *)

Definition arg_ok (a : option string) : Prop := ∃ s, a = Some s ∧ (0 < String.length s ≤ SINGLE_ARG_MAXLEN)%nat.
(** The services and their names. *)
Definition service_name (c : SvcCmd) : option string :=
  match c with
  | WIFI_CMD => Some "wifi" | BLUETOOTH_CMD => Some "bluetooth" | NEARLINK_CMD => Some "nearlink" | _ => None
  end.

Lemma args_ok_spec argv : args_ok argv = true ↔ Forall arg_ok argv.
Proof.
  induction argv as [|[s|] argv IH]; cbn [args_ok].
  - split; [constructor|done].
  - rewrite Forall_cons. destruct (Nat.eqb_spec (String.length s) 0), (Nat.ltb_spec SINGLE_ARG_MAXLEN (String.length s));
      (split; [try done|intros [(s' & [= <-] & ?) ?]; try lia; by apply IH]).
    intros Hok. split; [exists s; split; [done|lia]|by apply IH].
  - rewrite Forall_cons. split; [done|by intros [(? & ? & _) _]].
Qed.

Lemma find_option_name s :
  (∃ c, service_name c = Some s ∧ find_option s svc_options false = (c, false)) ∨
  (s = "help" ∧ find_option s svc_options false = (HELP_CMD, true)) ∨
  ((∀ c, service_name c ≠ Some s) ∧ s ≠ "help" ∧ find_option s svc_options false = (ARGS_INVALID, false)).
Proof.
  unfold svc_options. cbn [find_option].
  case_bool_decide as H1; [left; exists WIFI_CMD; by subst|].
  case_bool_decide as H2; [left; exists BLUETOOTH_CMD; by subst|].
  case_bool_decide as H3; [left; exists NEARLINK_CMD; by subst|].
  case_bool_decide as H4; [right; left; by subst|].
  right; right. split_and!; [|by auto|done]. intros []; cbn; congruence.
Qed.

(** [Parse] past the checks of the number and the shape of the arguments. *)
Lemma Parse_checked argv :
  (2 ≤ length argv ≤ 64)%nat → Forall arg_ok argv →
  Parse argv =
    let '(cmd, isEnd) := find_option (default "" (default None (argv !! 1%nat))) svc_options false in
    if decide (cmd = ARGS_INVALID) then cmd
    else if isEnd && Nat.ltb 2 (length argv) then ARGS_CNT_EXCEED
    else if negb isEnd && Nat.eqb (length argv) 2 then ARGS_CNT_NOT_ENOUGH
    else cmd.
Proof.
  intros Hn Hf%args_ok_spec. unfold Parse, ARG_MIN_COUNT, ARG_MAX_COUNT, ParseCmd.
  by rewrite (proj2 (Nat.ltb_ge _ 2)), (proj2 (Nat.ltb_ge 64 _)), Hf by lia.
Qed.

(** The word of a service. *)
Lemma Parse_service argv s c :
  (2 ≤ length argv ≤ 64)%nat → Forall arg_ok argv → argv !! 1%nat = Some (Some s) → service_name c = Some s →
  Parse argv = if Nat.eqb (length argv) 2 then ARGS_CNT_NOT_ENOUGH else c.
Proof.
  intros Hn Hf Hw Hc. rewrite Parse_checked, Hw by done. cbn [from_option id].
  destruct (find_option_name s) as [(c' & Hc' & ->)|[[-> _]|[Hno _]]]; [|by destruct c|by apply Hno in Hc].
  assert (c' = c) as -> by (destruct c, c'; cbn in *; congruence).
  rewrite decide_False by (by destruct c). cbn [andb negb]. by destruct (Nat.eqb _ 2).
Qed.

(** The other outcomes. *)
Lemma Parse_few argv : (length argv < 2)%nat → Parse argv = ARGS_CNT_NOT_ENOUGH.
Proof. intros Hn. unfold Parse, ARG_MIN_COUNT. by rewrite (proj2 (Nat.ltb_lt _ _) Hn). Qed.
Lemma Parse_many argv : (64 < length argv)%nat → Parse argv = ARGS_CNT_EXCEED.
Proof.
  intros Hn. unfold Parse, ARG_MIN_COUNT, ARG_MAX_COUNT.
  by rewrite (proj2 (Nat.ltb_ge _ 2)), (proj2 (Nat.ltb_lt _ _) Hn) by lia.
Qed.
Lemma Parse_malformed argv : (2 ≤ length argv ≤ 64)%nat → ¬ Forall arg_ok argv → Parse argv = ARGS_INVALID.
Proof.
  intros Hn Hf. unfold Parse, ARG_MIN_COUNT, ARG_MAX_COUNT.
  rewrite (proj2 (Nat.ltb_ge _ 2)), (proj2 (Nat.ltb_ge 64 _)) by lia.
  destruct (args_ok argv) eqn:E; [by apply args_ok_spec in E|done].
Qed.
Lemma Parse_help argv :
  (2 ≤ length argv ≤ 64)%nat → Forall arg_ok argv → argv !! 1%nat = Some (Some "help"%string) →
  Parse argv = if Nat.eqb (length argv) 2 then HELP_CMD else ARGS_CNT_EXCEED.
Proof.
  intros Hn Hf Hw. rewrite Parse_checked, Hw by done. cbn [from_option id].
  change (find_option "help" svc_options false) with (HELP_CMD, true). cbv beta iota. rewrite decide_False by done.
  cbn [andb negb]. destruct (Nat.ltb_spec 2 (length argv)), (Nat.eqb_spec (length argv) 2); (done || lia).
Qed.
Lemma Parse_other argv s :
  (2 ≤ length argv ≤ 64)%nat → Forall arg_ok argv → argv !! 1%nat = Some (Some s) → s ≠ "help"%string →
  (∀ c, service_name c ≠ Some s) → Parse argv = ARGS_INVALID.
Proof.
  intros Hn Hf Hw Hh Hno. rewrite Parse_checked, Hw by done. cbn [from_option id].
  destruct (find_option_name s) as [(c' & Hc' & _)|[[-> _]|(_ & _ & ->)]]; [by apply Hno in Hc'|done|].
  by rewrite decide_True.
Qed.

(** C40: The grammar of the tool: with between 2 and 64 arguments, each non-null,
    non-empty and at most 256 characters long, the word after the program decides:
    a service with at least one argument behind it is that service, "help" alone
    is the help; a service alone has too few arguments, "help" with more has too
    many, and every other word is invalid.  Outside those bounds the status is
    too few, too many or invalid, in that order. *)
Theorem svc_grammar argv :
  let n := length argv in
  let ok := (2 ≤ n ≤ 64)%nat ∧ Forall arg_ok argv in
  let word s := argv !! 1%nat = Some (Some s) in
  ((n < 2)%nat → Parse argv = ARGS_CNT_NOT_ENOUGH) ∧
  ((64 < n)%nat → Parse argv = ARGS_CNT_EXCEED) ∧
  ((2 ≤ n ≤ 64)%nat → ¬ Forall arg_ok argv → Parse argv = ARGS_INVALID) ∧
  (ok → ∀ s c, word s → service_name c = Some s →
     Parse argv = if Nat.eqb n 2 then ARGS_CNT_NOT_ENOUGH else c) ∧
  (ok → word "help" → Parse argv = if Nat.eqb n 2 then HELP_CMD else ARGS_CNT_EXCEED) ∧
  (ok → ∀ s, word s → s ≠ "help" → (∀ c, service_name c ≠ Some s) → Parse argv = ARGS_INVALID).
Proof.
  cbv zeta. split_and!.
  - apply Parse_few.
  - apply Parse_many.
  - apply Parse_malformed.
  - intros [Hn Hf] s c Hw Hc. by apply (Parse_service argv s c).
  - intros [Hn Hf]. by apply Parse_help.
  - intros [Hn Hf] s. by apply Parse_other.
Qed.

Definition is_service (c : SvcCmd) : bool := match service_name c with Some _ => true | None => false end.
Lemma cmd_value_cases c :
  (is_service c = true ∧ (cmd_value c <=? cmd_value ARGS_INVALID) = false ∧ c ≠ HELP_CMD) ∨ c = HELP_CMD ∨
  (is_service c = false ∧ (cmd_value c <=? cmd_value ARGS_INVALID) = true ∧ c ≠ HELP_CMD).
Proof. destruct c; auto. Qed.

(** What a command line asks for, read off its words alone: a service and what to
    tell it, given between 3 and 64 arguments, each there, non-empty and at most
    256 characters long; or the help, asked for alone. *)
Definition well_formed (argv : pargs) : bool :=
  forallb (λ a, match a with Some s => Nat.leb 1 (String.length s) && Nat.leb (String.length s) 256 | None => false end) argv.
Definition requested (argv : pargs) : option (Z * list u16string) :=
  if negb (well_formed argv) || Nat.ltb 64 (length argv) then None
  else
    match argv with
    | _ :: Some service :: ((_ :: _) as words) =>
        let said := if bool_decide (service = "wifi") then Some 1120
                    else if bool_decide (service = "bluetooth") then Some 1130
                    else if bool_decide (service = "nearlink") then Some 1190 else None in
        (λ i, (i, map (λ w, Str8ToStr16 (default "" w)) words)) <$> said
    | _ => None
    end.
Definition asks_help (argv : pargs) : bool :=
  well_formed argv &&
  match argv with [_; Some word] => bool_decide (word = "help") | _ => false end.

(** The calls that look for the proxy of the service [said], after the calls [t],
    and whether it is found: it is loaded when it is not there, for up to 4 s. *)
Definition lookups (said : Z) (t : list svc_event) : list svc_event * bool :=
  if svc_answer t SvcGetManager =? 0 then ([SvcGetManager], false)
  else if negb (svc_answer (t ++ [SvcGetManager]) (SvcGetProxy said) =? 0)
  then ([SvcGetManager; SvcGetProxy said], true)
  else
    let before := [SvcGetManager; SvcGetProxy said; SvcLoad said 4] in
    (before ++ [SvcGetProxy said], negb (svc_answer (t ++ before) (SvcGetProxy said) =? 0)).

Lemma well_formed_ok argv : well_formed argv = true ↔ Forall arg_ok argv.
Proof.
  unfold well_formed. rewrite <- Is_true_true, forallb_True. apply Forall_iff. intros [s|].
  - rewrite Is_true_true, andb_true_iff, !Nat.leb_le. unfold arg_ok, SINGLE_ARG_MAXLEN.
    split; [intros ?; exists s; split; [done|lia]|intros (s' & [= <-] & ?); lia].
  - split; [done|by intros (? & ? & _)].
Qed.

Lemma requested_inv argv said words :
  requested argv = Some (said, words) →
  is_service (Parse argv) = true ∧ Parse argv ≠ HELP_CMD ∧ cmd_value (Parse argv) = said ∧ SetCmdArgs argv = words.
Proof.
  unfold requested. destruct (well_formed argv) eqn:Hw; [|done]. apply well_formed_ok in Hw.
  destruct (Nat.ltb_spec 64 (length argv)) as [|Hl]; [done|]. cbn [negb orb].
  destruct argv as [|p [|[s|] [|w l]]] eqn:Ea; try done. rewrite <- Ea in *. intros Hr.
  assert (∃ c, service_name c = Some s ∧ cmd_value c = said ∧ words = SetCmdArgs argv) as (c & Hc & Hv & ->).
  { rewrite Ea. case_bool_decide; [exists WIFI_CMD|case_bool_decide; [exists BLUETOOTH_CMD|
      case_bool_decide; [exists NEARLINK_CMD|done]]]; injection Hr as <- <-; subst; done. }
  rewrite (Parse_service argv s c) by (done || (by rewrite Ea) || (rewrite Ea in *; cbn in *; lia)).
  destruct (Nat.eqb_spec (length argv) 2) as [E|_]; [by rewrite Ea in E|].
  unfold is_service. rewrite Hc. split_and!; [done|by intros ->|done|done].
Qed.

Lemma unrequested_inv argv :
  requested argv = None →
  if asks_help argv then Parse argv = HELP_CMD else Parse argv ≠ HELP_CMD ∧ is_service (Parse argv) = false.
Proof.
  unfold requested, asks_help. pose proof (well_formed_ok argv) as Hwf.
  destruct (Nat.ltb_spec (length argv) 2) as [Hn|Hn].
  { intros _. rewrite Parse_few by done. destruct argv as [|? [|]]; cbn in Hn; try lia; by rewrite andb_false_r. }
  destruct (Nat.ltb_spec 64 (length argv)) as [Hl|Hl].
  { intros _. rewrite Parse_many by done. destruct argv as [|? [|[?|] [|]]]; cbn in Hl; try lia; by rewrite andb_false_r. }
  destruct (well_formed argv); cbn [andb orb negb].
  2: { intros _. rewrite Parse_malformed; [done..|lia|]. intros Hf. by apply Hwf in Hf. }
  assert (Forall arg_ok argv) as Hf by (by apply Hwf).
  destruct argv as [|q [|[s|] l]]; cbn in Hn; try lia.
  2: { apply Forall_cons in Hf as [_ Hf]. apply Forall_cons in Hf as [(? & ? & _) _]. done. }
  set (argv := q :: Some s :: l) in *. assert (2 ≤ length argv ≤ 64)%nat as Hb by (cbn in *; lia).
  destruct (find_option_name s) as [(c & Hc & _)|[[-> _]|(Hno & Hh & _)]].
  - rewrite (Parse_service argv s c) by done. destruct l; cbn [length Nat.eqb argv fmap option_fmap option_map].
    + intros _. rewrite bool_decide_eq_false_2 by (intros ->; by destruct c). done.
    + by destruct c; try done; injection Hc as <-.
  - intros _. rewrite (Parse_help argv) by done. by destruct l.
  - intros _. rewrite (Parse_other argv s) by done. by destruct l; rewrite ?bool_decide_eq_false_2.
Qed.

(** What follows once the service is known. *)
Lemma Main_requested argv outFd t :
  is_service (Parse argv) = true → Parse argv ≠ HELP_CMD →
  let said := cmd_value (Parse argv) in
  let e := SvcServiceControl outFd said (SetCmdArgs argv) in
  let '(before, found) := lookups said t in
  ∃ text, Main (Some argv) outFd t =
    if found then (if svc_answer (t ++ before) e =? 0 then 0 else -1, t ++ before ++ [e; SvcPrint outFd text])
    else (-1, t ++ before ++ [SvcPrint outFd text]).
Proof.
  intros Hs Hh. cbv zeta. unfold Main.
  destruct (cmd_value_cases (Parse argv)) as [(_ & Hv & _)|[?|(Hs' & _)]]; [|done|congruence].
  rewrite decide_False, Hv by done. set (said := cmd_value (Parse argv)). unfold lookups, TIME_OUT.
  rewrite bind_run. cbn [scall fst snd].
  destruct (svc_answer t SvcGetManager =? 0).
  { rewrite bind_run. cbn [dprintf modify fst snd ret]. rewrite <- app_assoc. by eexists. }
  assert (∀ before, ∃ text, ((let! r := scall (SvcServiceControl outFd said (SetCmdArgs argv)) in
      if negb (r =? NO_ERROR) then
        do! dprintf outFd ("set service cmd failed, ret: " +:+ ((pretty r : string) +:+ newline)) in ret (-1)
      else do! dprintf outFd ("set service cmd success" +:+ newline) in ret r) (t ++ before)) =
      (if svc_answer (t ++ before) (SvcServiceControl outFd said (SetCmdArgs argv)) =? 0 then 0 else -1,
       t ++ before ++ [SvcServiceControl outFd said (SetCmdArgs argv); SvcPrint outFd text])) as Hcall.
  { intros before. rewrite bind_run. cbn [scall fst snd]. unfold NO_ERROR.
    destruct (Z.eqb_spec (svc_answer (t ++ before) (SvcServiceControl outFd said (SetCmdArgs argv))) 0) as [E|E];
      cbn [negb]; rewrite bind_run; cbn [dprintf modify fst snd ret]; rewrite <- !app_assoc; rewrite ?E; by eexists. }
  rewrite bind_run. cbn [scall fst snd]. rewrite <- app_assoc. cbn [app].
  destruct (svc_answer _ (SvcGetProxy said) =? 0) eqn:Ep; cbn [negb].
  - rewrite !bind_run. cbn [scall fst snd]. rewrite <- !app_assoc. cbn [app].
    clear Ep. destruct (svc_answer _ (SvcGetProxy said) =? 0); cbn [negb];
      [|exact (Hcall [SvcGetManager; SvcGetProxy said; SvcLoad said 4; SvcGetProxy said])].
    rewrite bind_run. cbn [dprintf modify fst snd ret]. rewrite <- app_assoc. by eexists.
  - rewrite bind_run. cbn [ret fst snd]. rewrite Ep. exact (Hcall [SvcGetManager; SvcGetProxy said]).
Qed.

(** C32: What the tool does on every command line.  When the first word names a
    service (wifi is ability 1120, bluetooth 1130, nearlink 1190) and more words
    follow, all well formed, it looks for the service, loading it when it is not
    there; when it is found it makes one service-control call, to that service,
    with the descriptor it was given and the remaining words, converted and in
    order, as the arguments, and exits with 0 exactly when the answer is 0; when
    it is not found it makes no call and exits with -1.  Asked for help alone it
    prints it and exits with 0.  On any other command line it makes no call at
    all, says why, prints the help and exits with -1.  Nothing but these calls is
    made, and every run ends by printing. *)
Theorem svc_main_spec argv outFd t :
  let help := SvcPrint outFd ("svc wifi | bluetooth | nearlink enable | disable | help" +:+ newline) in
  match argv with
  | Some argv =>
      match requested argv with
      | Some (said, words) =>
          let e := SvcServiceControl outFd said words in
          let '(before, found) := lookups said t in
          ∃ text, Main (Some argv) outFd t =
            if found then (if svc_answer (t ++ before) e =? 0 then 0 else -1, t ++ before ++ [e; SvcPrint outFd text])
            else (-1, t ++ before ++ [SvcPrint outFd text])
      | None =>
          if asks_help argv then Main (Some argv) outFd t = (0, t ++ [help])
          else ∃ text, Main (Some argv) outFd t = (-1, t ++ [SvcPrint outFd text; help])
      end
  | None => ∃ text, Main None outFd t = (-1, t ++ [SvcPrint outFd text; help])
  end.
Proof.
  cbv zeta. destruct argv as [argv|]; [|unfold Main, HelpInfo; rewrite !bind_run; cbn; rewrite <- app_assoc; by eexists].
  destruct (requested argv) as [[said words]|] eqn:Hr.
  - destruct (requested_inv argv said words Hr) as (Hs & Hh & <- & <-). by apply Main_requested.
  - pose proof (unrequested_inv argv Hr) as Hp. unfold Main, HelpInfo. destruct (asks_help argv).
    { rewrite decide_True by done. by rewrite bind_run. }
    destruct Hp as [Hh Hs]. destruct (cmd_value_cases (Parse argv)) as [(? & _)|[?|(_ & Hv & _)]]; [congruence|done|].
    rewrite decide_False, Hv, !bind_run by done. cbn. rewrite <- app_assoc. by eexists.
Qed.
End svc.

(** ** Witnesses *)

Module DemoSvc.
Import DemoDefs DemoProfiles.
#[global] Instance demo_svc_env : SvcEnv := { svc_answer _ e := match e with SvcServiceControl _ _ _ => 0 | _ => 1 end }.
Definition wifi_line : list (option string) := [Some "svc"%string; Some "wifi"%string; Some "enable"%string].
End DemoSvc.
Import DemoProfiles DemoSvc.

Lemma svc_grammar_witness : Parse wifi_line = WIFI_CMD.
Proof.
  destruct (svc_grammar wifi_line) as (_ & _ & _ & H & _).
  apply (H ltac:(split; [cbn; lia|repeat constructor; (eexists; split; [reflexivity|unfold SINGLE_ARG_MAXLEN; cbn; lia])])
    "wifi"%string WIFI_CMD); reflexivity.
Defined.
