(* ===== verification/SvcPath.v ===== *)
(** * SvcPath: a command from the [svc] tool to the ability

    The tool of [SvcControl.v] talks to the process of [Manager.v] through the proxy
    of the system ability manager and the IPC driver, which are not part of the
    repository: [SvcProxy] is what they are relied on for, namely that the parcel
    of a call carries the token, the id, the descriptor and the arguments, and
    that the tool gets the error code the process answers. *)

From S2P Require Import Prelude Interfaces Monad World SystemAbility Registry Overrides Dumper Stub Manager SvcControl.

(** The parcel of a call, and the number the driver gives the descriptor in the
    receiving process. *)
Class SvcProxy (P : Type) := {
  call_parcel : Z → Z → list u16string → P;
  received_fd : Z → Z;
}.

Class SvcProxyLaws (P : Type) `{MessageParcel P, SamgrDefs, SvcProxy P} : Prop := {
  received_fd_valid fd : 0 ≤ received_fd fd;
  call_parcel_reads fd said args : ∃ d1 d2 d3 d4,
    ReadInterfaceToken (call_parcel fd said args) = (LOCAL_ABILITY_MANAGER_INTERFACE_TOKEN, d1) ∧
    ReadInt32 d1 = (Some said, d2) ∧ ReadFileDescriptor d2 = (received_fd fd, d3) ∧
    ReadString16Vector d3 = (Some args, d4);
}.

Section svc_path.
  Context {J P U : Type} `{!Json J} `{!MessageParcel P} `{PU : !ParseUtil U} `{SU : !StringUtil} `{SD : !SamgrDefs}.
  Context `{EN : !Env J P U} `{DE : !DumperEnv} `{KE : !KitEnv J P U} `{SE : !SvcEnv} `{SP : !SvcProxy P}.

  #[local] Abbreviation proc := (process J U).

(** The manager and a process for every service are there, and the tool gets the
    answer of the process [p] to its call. *)
Class Connected (p : proc) : Prop := {
  manager_there t : svc_answer t SvcGetManager ≠ 0;
  proxy_there t said : svc_answer t (SvcGetProxy said) ≠ 0;
  call_answered t fd said args : ∃ reply,
    svc_answer t (SvcServiceControl fd said args) =
      (OnRemoteRequest (code_value SERVICE_CONTROL_CMD_TRANSACTION) (call_parcel fd said args) reply p).1.1.1;
}.

(** A call of a permitted sender runs the override and closes the descriptor. *)
Lemma svc_request_run `{!SamgrDefsLaws, !SvcProxyLaws P} fd said args reply l p :
  kit_verify p (kit_caller p) PERMISSION_SVC = PERMISSION_GRANTED → valid_said said = true →
  localAbilityMap_ (abilities p) !! said = Some (Some l) →
  let '(r, w) := OnSvcCmd l (received_fd fd) args (entered (EvOnSvcCmd l (received_fd fd) args) (abilities p)) in
  ∃ data, OnRemoteRequest (code_value SERVICE_CONTROL_CMD_TRANSACTION) (call_parcel fd said args) reply p =
    ((r, data, reply), mk_process w (statistics p) (closed_fds p ++ [received_fd fd])).
Proof.
  intros Hk Hv Hm. destruct (call_parcel_reads fd said args) as (d1 & d2 & d3 & d4 & Ht & Hi & Hf & Ha).
  rewrite request_run. unfold passes. rewrite Ht. cbn [fst snd]. rewrite bool_decide_eq_true_2 by done.
  assert (permission_of (code_value SERVICE_CONTROL_CMD_TRANSACTION) = PERMISSION_SVC) as ->.
  { unfold permission_of. rewrite Z.eqb_refl. destruct (Z.eqb_spec (code_value SERVICE_CONTROL_CMD_TRANSACTION)
      (code_value SYSTEM_ABILITY_EXT_TRANSACTION)) as [E|]; [by apply code_value_inj in E|done]. }
  rewrite Hk, Z.eqb_refl. cbn [andb]. rewrite find_handler_of. cbn [handler_of].
  unfold ServiceControlCmdInner. rewrite Hi, Hv. cbn [negb]. rewrite Hf.
  pose proof (received_fd_valid fd). destruct (Z.ltb_spec (received_fd fd) 0); [lia|]. rewrite Ha.
  unfold bind at 1. cbn [i_ServiceControlCmd LocalAbilityManager on_abilities].
  unfold ServiceControlCmd, GetAbility. rewrite !bind_run. cbn [gets fst snd]. rewrite Hm.
  unfold enter. rewrite bind_run. cbn [call fst snd]. change (set_trace (trace (abilities p) ++ [?e]) (abilities p))
    with (entered e (abilities p)).
  destruct (OnSvcCmd _ _ _ _) as [r w]. by exists d4.
Qed.

(** The exit code of a run that gets through. *)
Lemma Main_service argv outFd t p `{!Connected p} :
  is_service (Parse argv) = true →
  ∃ t', (Main (Some argv) outFd t).1 =
    if svc_answer t' (SvcServiceControl outFd (cmd_value (Parse argv)) (SetCmdArgs argv)) =? NO_ERROR then 0 else -1.
Proof.
  intros Hs. destruct (cmd_value_cases (Parse argv)) as [(_ & Hv & Hh)|[Hh|(Hs' & _)]];
    [|by rewrite Hh in Hs|congruence].
  unfold Main. rewrite decide_False, Hv by done. rewrite bind_run. cbn [scall fst snd].
  rewrite (proj2 (Z.eqb_neq _ _) (manager_there t)). rewrite bind_run. cbn [scall fst snd].
  set (t1 := _ ++ [SvcGetProxy _]). rewrite (proj2 (Z.eqb_neq _ _) (proxy_there _ _)).
  rewrite bind_run. cbn [ret fst snd]. rewrite (proj2 (Z.eqb_neq _ _) (proxy_there _ _)).
  rewrite bind_run. cbn [scall fst snd]. exists t1.
  destruct (Z.eqb_spec (svc_answer t1 (SvcServiceControl outFd (cmd_value (Parse argv)) (SetCmdArgs argv))) NO_ERROR) as [E|E];
    cbn [negb]; rewrite bind_run; cbn [dprintf modify fst snd ret]; [by rewrite E|done].
Qed.

(** C19: A command line reaches the ability it names: if its second word is a service
    and more words follow, the caller has the service-control permission, and the
    ability of the service is registered in the process at the other end, then
    that ability's [OnSvcCmd] gets the descriptor, as received, and the remaining
    words, converted and in order; nothing else of the process changes but what
    [OnSvcCmd] does; the received descriptor is closed; and the tool exits with 0
    if [OnSvcCmd] returned 0 and with -1 otherwise. *)
Theorem svc_reaches_ability `{!SamgrDefsLaws, !SvcProxyLaws P} argv outFd t reply s c l p `{!Connected p} :
  (3 ≤ length argv ≤ 64)%nat → Forall arg_ok argv → argv !! 1%nat = Some (Some s) → service_name c = Some s →
  kit_verify p (kit_caller p) PERMISSION_SVC = PERMISSION_GRANTED → valid_said (cmd_value c) = true →
  localAbilityMap_ (abilities p) !! cmd_value c = Some (Some l) →
  let fd := received_fd outFd in
  let words := (λ a, Str8ToStr16 (default "" a)) <$> drop 2 argv in
  let '(r, w) := OnSvcCmd l fd words (entered (EvOnSvcCmd l fd words) (abilities p)) in
  (Main (Some argv) outFd t).1 = (if r =? 0 then 0 else -1) ∧
  (OnRemoteRequest (code_value SERVICE_CONTROL_CMD_TRANSACTION) (call_parcel outFd (cmd_value c) words) reply p).2 =
    mk_process w (statistics p) (closed_fds p ++ [fd]).
Proof.
  intros Hn Hok Hw Hc Hk Hv Hm fd words.
  assert (Parse argv = c) as Hp.
  { rewrite (Parse_service argv s c) by (done || lia).
    by destruct (Nat.eqb_spec (length argv) 2); [lia|]. }
  assert (is_service (Parse argv) = true) as Hs by (unfold is_service; by rewrite Hp, Hc).
  destruct (Main_service argv outFd t p Hs) as [t' ->]. rewrite Hp.
  change (SetCmdArgs argv) with words.
  destruct (call_answered (p := p) t' outFd (cmd_value c) words) as [reply' ->].
  pose proof (svc_request_run outFd (cmd_value c) words reply' l p Hk Hv Hm) as H1.
  pose proof (svc_request_run outFd (cmd_value c) words reply l p Hk Hv Hm) as H2.
  fold fd in H1, H2. destruct (OnSvcCmd l fd words _) as [r w]. destruct H1 as [d1 ->], H2 as [d2 ->]. done.
Qed.
End svc_path.

(** ** Witness *)

Module DemoPath.
Import DemoDefs DemoJson DemoParcel DemoProfiles DemoDumper DemoManager DemoSvc.
(** Parcels that carry the descriptor and the arguments next to a plain one. *)
Definition path_parcel : Type := DemoParcel.dp * list u16string.
Definition left_part {A} (r : A * dp) (a : list u16string) : A * path_parcel := (r.1, (r.2, a)).
#[global] Instance path_parcel_ops : MessageParcel path_parcel := {
  ReadInt32 p := left_part (ReadInt32 p.1) p.2;
  ReadString p := left_part (ReadString p.1) p.2;
  ReadStringValue p := left_part (ReadStringValue p.1) p.2;
  ReadString16Vector p := (Some p.2, p);
  ReadFileDescriptor p := left_part (ReadFileDescriptor p.1) p.2;
  ReadInterfaceToken p := left_part (ReadInterfaceToken p.1) p.2;
  ReadParcelable A f p := f p;
  WriteInt32 z p := left_part (WriteInt32 z p.1) p.2;
  WriteBool b p := left_part (WriteBool b p.1) p.2;
  WriteString s p := left_part (WriteString s p.1) p.2;
  WriteParcelable f p := f p;
  WriteBuffer l p := left_part (WriteBuffer l p.1) p.2;
  Interfaces.GetData p := Interfaces.GetData p.1;
  GetOffsetsSize p := GetOffsetsSize p.1;
  GetMaxCapacity p := GetMaxCapacity p.1;
  SetMaxCapacity n p := (SetMaxCapacity n p.1, p.2);
}.
#[global] Instance path_proxy : SvcProxy path_parcel := {
  call_parcel fd said args := (mk_dp [PInt said] 8 (Z.abs fd) LOCAL_ABILITY_MANAGER_INTERFACE_TOKEN [] 0, args);
  received_fd fd := Z.abs fd;
}.
#[global] Instance path_proxy_laws : SvcProxyLaws path_parcel.
Proof. split; [intros fd; cbn; lia|]. intros fd said args. repeat eexists. Qed.

(** The wifi ability counts the arguments; two of them are an error. *)
Definition wifi_class : overrides (J := dj) (P := path_parcel) (U := du) :=
  mk_overrides None None None None None None None None None
    (Some (λ _ fd args, ret (Z.of_nat (length args) - 1))) None None.
Definition path_base_env : Env dj path_parcel du := {|
  respond := DemoEnv.demo_respond;
  extra_data_parcel _ := (empty_parcel 8, []);
  indet_reason_id _ := 77;
  OnStart _ _ := ret tt; OnStop _ _ := ret tt; OnActive _ _ := ret tt; OnIdle _ _ := ret 0;
  OnAddSystemAbility _ _ _ := ret tt; OnRemoveSystemAbility _ _ _ := ret tt;
  OnDeviceLevelChanged _ _ _ a := ret a; OnExtension _ _ d r := ret (0, d, r);
  OnSvcCmd _ _ _ := ret (-1); LoadSaLib _ := ret true; OpenSo _ := ret tt;
  realpath p := Some p; elapse _ := ret tt;
|}.
#[global] Instance path_env : Env dj path_parcel du := class_env path_base_env (λ _, wifi_class).
#[global] Instance path_kit : KitEnv dj path_parcel du := {
  kit_caller _ := 1; kit_verify _ _ _ := 0; kit_base _ d r := ret (1, d, r);
}.
Definition wifi_process : process dj du :=
  mk_process (set_localAbilityMap_ {[1120 := Some 1%positive]}
    (set_heap {[1%positive := new_SystemAbility 1120 true]}
      (new_LocalAbilityManager (mk_du [100] [] None)))) new_dumper [].
(** The tool gets the process's answers. *)
Definition path_answer (e : svc_event) : Z :=
  match e with
  | SvcServiceControl fd said args =>
      (OnRemoteRequest (code_value SERVICE_CONTROL_CMD_TRANSACTION) (call_parcel fd said args) (empty_parcel 8, []) wifi_process).1.1.1
  | _ => 1
  end.
#[global] Instance path_svc_env : SvcEnv := { svc_answer _ e := path_answer e }.
End DemoPath.
Import DemoDefs DemoJson DemoParcel DemoProfiles DemoDumper DemoManager DemoSvc DemoPath.

#[export] Instance wifi_connected : Connected wifi_process.
Proof. split; [done|done|]. intros t fd said args. by exists (empty_parcel 8, []). Qed.

(** One argument is what the wifi ability wants. *)
Lemma svc_reaches_ability_witness :
  (Main (Some wifi_line) 1 []).1 = 0 ∧
  closed_fds (OnRemoteRequest (code_value SERVICE_CONTROL_CMD_TRANSACTION)
    (call_parcel 1 1120 [[100]]) (empty_parcel 8, []) wifi_process).2 = [1].
Proof.
  pose proof (svc_reaches_ability (P := path_parcel) wifi_line 1 [] (empty_parcel 8, []) "wifi" WIFI_CMD 1%positive wifi_process)
    as H.
  specialize (H ltac:(cbn; lia)
    ltac:(repeat constructor; (eexists; split; [reflexivity|unfold SINGLE_ARG_MAXLEN; cbn; lia]))
    eq_refl eq_refl eq_refl eq_refl ltac:(vm_compute; reflexivity)).
  destruct H as [H1 H2]. split; [exact H1|]. exact (f_equal closed_fds H2).
Defined.
