(* ===== verification/RustWrapper.v ===== *)
(** * RustWrapper: reasons across the language boundary

    [interfaces/innerkits/safwk/rust/src/cxx/system_ability_wrapper.cpp]: the
    conversions between the reasons of the framework and the structures the Rust
    side shares.  A [std::map] becomes a vector in which keys and values
    alternate.

    The cxx runtime is the class [Cxx]: constructing a [rust::string] throws when
    the bytes are not UTF-8, and [rust::string::data()] points at the bytes of the
    string, behind which the memory holds whatever it holds: no theorem assumes that
    it is a NUL. *)

From S2P Require Import Prelude CString Interfaces OnDemandReason.
From Stdlib Require Import Ascii.

Class Cxx := {
  rust_string : string → option string;    (* [None] when the constructor throws *)
  beyond : nat → string → list ascii;      (* the memory behind the bytes of the i-th [rust::string] of a vector *)
}.

(** Accepted bytes are kept. *)
Class CxxLaws `{Cxx} := { rust_string_id s r : rust_string s = Some r → r = s }.

(** The structures of the bridge. *)
Record RustExtraData := mk_rust_extra { rdata : string; rcode : Z; rwant : list string }.
Record RustReason := mk_rust_reason {
  rname : string; rvalue : string; reason_id : Z; extra_data : RustExtraData; extra_data_id : Z }.

Section wrapper.
  Context {J P : Type} `{!Json J} `{!MessageParcel P} `{CX : !Cxx}.

(** [rust::string(s.data())]: a [std::string] ends with a NUL. *)
Definition of_data (s : string) : option string :=
  rust_string (cstr (String.list_ascii_of_string s ++ [zero])).
(** [std::string(r.data())] for the [i]-th [rust::string] of a vector. *)
Definition to_data (i : nat) (r : string) : string := cstr (String.list_ascii_of_string r ++ beyond i r).

(** The loop over the map, in key order. *)
(* [interfaces/innerkits/safwk/rust/src/cxx/system_ability_wrapper.cpp:165-171] BuildReasonWrapper *)
Fixpoint want_vec (l : list (string * string)) : option (list string) :=
  match l with
  | [] => Some []
  | (k, v) :: l' =>
      match of_data k, of_data v, want_vec l' with
      | Some k', Some v', Some w => Some (k' :: v' :: w)
      | _, _, _ => None
      end
  end.

(* [interfaces/innerkits/safwk/rust/src/cxx/system_ability_wrapper.cpp:163-182] BuildReasonWrapper *)
Definition BuildReasonWrapper (reason : SystemAbilityOnDemandReason) : option RustReason :=
  match want_vec (map_iter string_le (GetWant (GetExtraData reason))), of_data (GetName reason),
        of_data (GetValue reason), of_data (GetData (GetExtraData reason)) with
  | Some want, Some name, Some value, Some data =>
      Some (mk_rust_reason name value (GetId reason)
              (mk_rust_extra data (GetCode (GetExtraData reason)) want) (GetExtraDataId reason))
  | _, _, _, _ => None
  end.

(** [insert] keeps the value a key already has; a last element without a partner
    is dropped. *)
(* [interfaces/innerkits/safwk/rust/src/cxx/system_ability_wrapper.cpp:150-158] SerializeOnDemandReasonExtraData *)
Fixpoint want_map (i : nat) (want : list string) (m : gmap string string) : gmap string string :=
  match want with
  | k :: v :: want' => want_map (i + 2) want' (std_insert (to_data i k) (to_data (i + 1) v) m)
  | _ => m
  end.

(* [interfaces/innerkits/safwk/rust/src/cxx/system_ability_wrapper.cpp:148-161] SerializeOnDemandReasonExtraData *)
Definition SerializeOnDemandReasonExtraData (x : RustExtraData) (parcel : P) : option bool * P :=
  WriteParcelable (Marshalling (J := J) (mk_extra (rcode x) (rdata x) (want_map 0 (rwant x) ∅))) parcel.

(** [None] when a constructor throws. *)
(* [interfaces/innerkits/safwk/rust/src/cxx/system_ability_wrapper.cpp:125-146] DeserializeOnDemandReasonExtraData *)
Definition DeserializeOnDemandReasonExtraData (parcel : P) : option RustExtraData * P :=
  let '(reason, parcel) := ReadParcelable (Unmarshalling (J := J)) parcel in
  match reason with
  | None => (Some (mk_rust_extra "" 0 []), parcel)
  | Some reason =>
      (match want_vec (map_iter string_le (GetWant reason)), rust_string (GetData reason) with
       | Some want, Some data => Some (mk_rust_extra data (GetCode reason) want)
       | _, _ => None
       end, parcel)
  end.

(** ** Lemmas *)

(** A vector as the pairs it alternates. *)
Definition flatten (l : list (string * string)) : list string := l ≫= λ '(k, v), [k; v].
(** The pairs that a vector stands for in C++: the strings of the positions [i], [i+1],
    ..., each with what lies behind its bytes up to a NUL; the last without a partner
    is dropped. *)
Fixpoint read_pairs (i : nat) (w : list string) : list (string * string) :=
  match w with
  | k :: v :: w' => (cstr (String.list_ascii_of_string k ++ beyond i k),
                     cstr (String.list_ascii_of_string v ++ beyond (i + 1) v)) :: read_pairs (i + 2) w'
  | _ => []
  end.

Lemma cstr_no_nul l : no_nul (cstr l).
Proof.
  unfold no_nul. induction l as [|c l IH]; [apply not_elem_of_nil|]. cbn [cstr].
  case_bool_decide as Hc; [apply not_elem_of_nil|]. apply not_elem_of_cons. auto.
Qed.

(** The map that is made of a vector: the first pair with a key counts. *)
Lemma want_map_pairs i w m : want_map i w m = m ∪ list_to_map (read_pairs i w).
Proof.
  revert i m. induction w as [w IH] using (induction_ltof1 _ length). intros i m.
  destruct w as [|k [|v w]]; [by cbn; rewrite (right_id_L ∅ _)..|]. cbn [want_map read_pairs].
  rewrite IH by (unfold ltof; cbn; lia). rewrite list_to_map_cons. unfold std_insert, to_data.
  set (k' := cstr _). destruct (m !! k') as [u|] eqn:E.
  - apply map_eq. intros j. rewrite !lookup_union. destruct (decide (j = k')) as [->|].
    + rewrite E, lookup_insert_eq. by destruct (list_to_map _ !! k').
    + by rewrite lookup_insert_ne.
  - rewrite <- insert_union_l. by apply insert_union_r.
Qed.

(** Every string of a map made from a vector is free of NULs. *)
Lemma read_pairs_no_nul i w : Forall (λ kv, no_nul kv.1 ∧ no_nul kv.2) (read_pairs i w).
Proof.
  revert i. induction w as [w IH] using (induction_ltof1 _ length). intros i.
  destruct w as [|k [|v w]]; [constructor..|]. cbn [read_pairs].
  constructor; [split; apply cstr_no_nul|]. apply IH. unfold ltof. cbn. lia.
Qed.
Lemma read_map_no_nul i w k v :
  list_to_map (M := gmap string string) (read_pairs i w) !! k = Some v → no_nul k ∧ no_nul v.
Proof.
  intros Hin%elem_of_list_to_map_2. pose proof (read_pairs_no_nul i w) as H. rewrite Forall_forall in H.
  exact (H _ Hin).
Qed.

Lemma list_to_map_iter (m : gmap string string) : list_to_map (map_iter string_le m) = m.
Proof.
  transitivity (list_to_map (M := gmap string string) (map_to_list m)).
  - apply list_to_map_proper; [apply NoDup_map_iter_fst|apply map_iter_perm].
  - apply list_to_map_to_list.
Qed.

(** What the extra data is in a parcel: the object that [Marshalling] writes. *)
Definition extra_item (x : RustExtraData) (s : string) : pitem := PObj [PInt (rcode x); PStr (rdata x); PStr s].

Lemma written_extra `{!ParcelLaws P, !ParcelableLaws P} x (p p' : P) :
  SerializeOnDemandReasonExtraData x p = (Some true, p') →
  ∃ s, jdump (payload_of (J := J) (want_map 0 (rwant x) ∅)) = Some s ∧ contents p' = contents p ++ [extra_item x s].
Proof.
  unfold SerializeOnDemandReasonExtraData. set (fx := mk_extra _ _ _). intros Hs.
  destruct (jdump (payload_of (J := J) (want_ fx))) as [s|] eqn:Ed.
  - exists s. split; [done|]. eapply WriteParcelable_contents; [|exact Hs].
    intros q q' (s' & Es & Hq)%marshalled_contents. by replace s with s' by congruence.
  - assert (∀ l, contents p' = contents p ++ [PObj l]) as Hl.
    { intros l. eapply WriteParcelable_contents; [|exact Hs].
      intros q q' (s' & Es & Hq)%marshalled_contents. congruence. }
    pose proof (eq_trans (eq_sym (Hl [])) (Hl [PInt 0])) as [=]%app_inv_head.
Qed.

(** The conversion of one string, and of the map. *)
Definition is_utf8 (s : string) : bool := match rust_string s with Some _ => true | None => false end.
Lemma of_data_spec `{!CxxLaws} s : no_nul s → of_data s = if is_utf8 s then Some s else None.
Proof.
  intros Hs. unfold of_data, is_utf8. rewrite cstr_app by done.
  by destruct (rust_string s) as [t|] eqn:E; [apply rust_string_id in E as ->|].
Qed.
Lemma want_vec_spec `{!CxxLaws} l :
  Forall (λ kv, no_nul kv.1 ∧ no_nul kv.2) l →
  want_vec l = if forallb is_utf8 (flatten l) then Some (flatten l) else None.
Proof.
  induction 1 as [|[k v] l [Hk Hv] _ IH]; [done|].
  change (flatten ((k, v) :: l)) with (k :: v :: flatten l). cbn [want_vec fst snd forallb] in *.
  rewrite !of_data_spec, IH by done.
  by destruct (is_utf8 k), (is_utf8 v), (forallb is_utf8 (flatten l)).
Qed.

(** The extra data that a Rust reader gets: the entries of the map that was sent, keys in
    order, each once. *)
Definition sent_want (x : RustExtraData) : list string :=
  flatten (map_iter string_le (list_to_map (M := gmap string string) (read_pairs 0 (rwant x)))).

Lemma read_extra `{!CxxLaws, !JsonLaws J, !ParcelLaws P, !ParcelableLaws P} x s r (p : P) :
  is_utf8 (rdata x) = true → jdump (payload_of (J := J) (want_map 0 (rwant x) ∅)) = Some s →
  contents p = extra_item x s :: r →
  (DeserializeOnDemandReasonExtraData p).1 =
    (if forallb is_utf8 (sent_want x) then Some (mk_rust_extra (rdata x) (rcode x) (sent_want x)) else None) ∧
  contents (DeserializeOnDemandReasonExtraData p).2 = r.
Proof.
  intros Hd Hj Hp.
  set (fx := mk_extra (rcode x) (rdata x) (want_map 0 (rwant x) ∅)).
  destruct (ReadParcelable_contents _ (Unmarshalling (J := J)) _ fx r p
    (λ q r, unmarshalled_contents fx s r q Hj) Hp) as [Hu Hr].
  unfold DeserializeOnDemandReasonExtraData. destruct (ReadParcelable _ p) as [o p2]. cbn [fst snd] in Hu, Hr. subst o.
  cbn [fx GetWant GetData GetCode want_ data_ code_ fst snd]. split; [|exact Hr].
  rewrite want_map_pairs, (left_id_L ∅ _), want_vec_spec.
  - fold (sent_want x). unfold is_utf8 in Hd. destruct (rust_string (rdata x)) as [d|] eqn:E; [|done].
    apply rust_string_id in E as ->. by destruct (forallb is_utf8 (sent_want x)).
  - apply Forall_forall. intros [k v] Hin. apply (elem_of_map_iter string_le) in Hin. by eapply read_map_no_nul.
Qed.

(** A reason handed to a Rust ability is the reason of the framework: name,
    value, id, extra data id and the extra data's code and data are the same,
    and the vector lists the map's keys in increasing order, each followed by its
    value; the conversion throws exactly when some string is not UTF-8. *)
Theorem build_reason_spec `{!CxxLaws} r :
  no_nul (reasonName_ r) → no_nul (reasonValue_ r) → no_nul (data_ (extraData_ r)) →
  (∀ k v, want_ (extraData_ r) !! k = Some v → no_nul k ∧ no_nul v) →
  let vec := flatten (map_iter string_le (want_ (extraData_ r))) in
  BuildReasonWrapper r =
    if forallb is_utf8 ([reasonName_ r; reasonValue_ r; data_ (extraData_ r)] ++ vec) then
      Some (mk_rust_reason (reasonName_ r) (reasonValue_ r) (reasonId_ r)
        (mk_rust_extra (data_ (extraData_ r)) (code_ (extraData_ r)) vec) (extraDataId_ r))
    else None.
Proof.
  intros Hn Hv Hd Hw. cbv zeta. unfold BuildReasonWrapper, GetWant, GetName, GetValue, GetData, GetCode, GetId, GetExtraData, GetExtraDataId.
  rewrite want_vec_spec, !of_data_spec by first
    [done | apply Forall_forall; intros [k v] Hin; apply (elem_of_map_iter string_le) in Hin; by apply Hw].
  rewrite forallb_app. cbn [forallb].
  by destruct (forallb is_utf8 (flatten _)), (is_utf8 (reasonName_ r)), (is_utf8 (reasonValue_ r)),
    (is_utf8 (data_ (extraData_ r))).
Qed.

(** When the byte behind a [rust::string] is not a NUL, the key that goes into the
    map is not the one in the vector: it runs on into the memory behind it. *)
Theorem want_reads_beyond k v c l :
  no_nul k → beyond 0 k = c :: l → c ≠ zero → want_map 0 [k; v] ∅ !! k = None.
Proof.
  intros Hk Hb Hc. cbn [want_map]. rewrite std_insert_fresh by done. rewrite lookup_insert_ne; [done|].
  unfold to_data. rewrite Hb. by apply cstr_runs_on.
Qed.
End wrapper.

(** ** Witnesses *)

Module DemoCxx.
Import DemoJson DemoParcel.
(** Every string is accepted, and the heap behind it is zeroed. *)
#[global] Instance demo_cxx : Cxx := { rust_string s := Some s; beyond _ _ := [zero] }.
#[global] Instance demo_cxx_laws : CxxLaws.
Proof. split. by intros s r [= ->]. Qed.
Definition rust_extra : RustExtraData := mk_rust_extra "data" 7 ["uid"; "1000"; "action"; "power"; "uid"; "0"; "odd"].
End DemoCxx.
Import DemoJson DemoParcel DemoCxx.

Lemma build_reason_spec_witness :
  BuildReasonWrapper (mk_reason 4 "usual.event" "on" 3 (mk_extra 7 "data" {["uid" := "1000"%string]})) =
    Some (mk_rust_reason "usual.event" "on" 4 (mk_rust_extra "data" 7 ["uid"; "1000"]) 3).
Proof.
  rewrite (build_reason_spec (mk_reason 4 "usual.event" "on" 3 (mk_extra 7 "data" {["uid" := "1000"%string]}))).
  - vm_compute. reflexivity.
  - apply (bool_decide_unpack _). vm_compute. exact I.
  - apply (bool_decide_unpack _). vm_compute. exact I.
  - apply (bool_decide_unpack _). vm_compute. exact I.
  - cbn. intros k v [<- <-]%lookup_singleton_Some. split; apply (bool_decide_unpack _); vm_compute; exact I.
Defined.
