(* ===== verification/RustReason.v ===== *)
(** * RustReason: reasons on the Rust side of the bindings

    [interfaces/innerkits/safwk/rust/src/wrapper.rs]: the serialization of a reason
    in a [MsgParcel], and the map that an ability makes of the vector in the extra
    data.  The extra data itself is written and read by the C++ side
    ([RustWrapper.v]).

    [MsgParcel] is a parcel whose methods for the basic types come from the [ipc]
    crate (the class [MsgParcel]).  An exception of the C++ side ends the process:
    [Terminate]. *)

From S2P Require Import Prelude CString Interfaces Monad OnDemandReason.
From S2P Require Export RustWrapper.

Class MsgParcel (P : Type) := {
  write_string : string → P → bool * P;
  write_i32 : Z → P → bool * P;
  write_i64 : Z → P → bool * P;
  read_string : P → option string * P;
  read_i32 : P → option Z * P;
  read_i64 : P → option Z * P;
}.

(** What is written is an item, and an item is read back. *)
Class MsgParcelLaws (P : Type) `{ParcelLaws P, !MsgParcel P} := {
  write_string_contents s p p' : write_string s p = (true, p') → contents p' = contents p ++ [PText s];
  write_i32_contents z p p' : write_i32 z p = (true, p') → contents p' = contents p ++ [PInt z];
  write_i64_contents z p p' : write_i64 z p = (true, p') → contents p' = contents p ++ [PLong z];
  read_string_contents s r p : contents p = PText s :: r →
    (read_string p).1 = Some s ∧ contents (read_string p).2 = r;
  read_i32_contents z r p : contents p = PInt z :: r → (read_i32 p).1 = Some z ∧ contents (read_i32 p).2 = r;
  read_i64_contents z r p : contents p = PLong z :: r → (read_i64 p).1 = Some z ∧ contents (read_i64 p).2 = r;
}.

(** [IpcResult], or the end of the process. *)
Inductive ipc_result (A : Type) := Ok (a : A) | Err | Terminate.
Arguments Ok {A} a.
Arguments Err {A}.
Arguments Terminate {A}.

Section reason.
  Context {J P : Type} `{!Json J} `{!MessageParcel P} `{CX : !Cxx} `{MP : !MsgParcel P}.

  #[local] Abbreviation M A := (sprog P (ipc_result A)).

Definition of_bool (m : P → bool * P) : M unit :=
  λ p, let '(ok, p') := m p in (if ok then Ok tt else Err, p').
Definition of_option {A} (m : P → option A * P) : M A :=
  λ p, let '(o, p') := m p in (match o with Some a => Ok a | None => Err end, p').
(** The operator [?]. *)
Definition try {A B} (m : M A) (k : A → M B) : M B :=
  λ p, let '(r, p') := m p in match r with Ok a => k a p' | Err => (Err, p') | Terminate => (Terminate, p') end.

(** [repr] is the value of the enumeration, which the C++ side may have set. *)
(* [interfaces/innerkits/safwk/rust/src/wrapper.rs:131-135] OnDemandReasonId::serialize *)
Definition serialize_id (repr : Z) : M unit := of_bool (write_i32 repr).

(* [interfaces/innerkits/safwk/rust/src/wrapper.rs:137-150] OnDemandReasonId::deserialize *)
Definition deserialize_id : M Z :=
  try (of_option read_i32) (λ res, ret (
    if res =? 0 then Ok (OnDemandReasonId_value INTERFACE_CALL)
    else if res =? 1 then Ok (OnDemandReasonId_value DEVICE_ONLINE)
    else if res =? 2 then Ok (OnDemandReasonId_value SETTING_SWITCH)
    else if res =? 3 then Ok (OnDemandReasonId_value PARAM)
    else if res =? 4 then Ok (OnDemandReasonId_value COMMON_EVENT)
    else if res =? 5 then Ok (OnDemandReasonId_value TIMED_EVENT)
    else Err)).

(* [interfaces/innerkits/safwk/rust/src/wrapper.rs:152-160] OnDemandReasonExtraData::serialize *)
Definition serialize_extra (x : RustExtraData) : M unit :=
  λ p, let '(r, p') := SerializeOnDemandReasonExtraData (J := J) x p in
       (match r with Some true => Ok tt | Some false => Err | None => Terminate end, p').

(* [interfaces/innerkits/safwk/rust/src/wrapper.rs:162-168] OnDemandReasonExtraData::deserialize *)
Definition deserialize_extra : M RustExtraData :=
  λ p, let '(o, p') := DeserializeOnDemandReasonExtraData (J := J) p in
       (match o with Some x => Ok x | None => Terminate end, p').

(* [interfaces/innerkits/safwk/rust/src/wrapper.rs:170-178] SystemAbilityOnDemandReason::serialize *)
Definition serialize_reason (r : RustReason) : M unit :=
  try (of_bool (write_string (rname r))) (λ _,
  try (of_bool (write_string (rvalue r))) (λ _,
  try (serialize_id (reason_id r)) (λ _,
  try (serialize_extra (extra_data r)) (λ _,
  of_bool (write_i64 (extra_data_id r)))))).

(* [interfaces/innerkits/safwk/rust/src/wrapper.rs:180-195] SystemAbilityOnDemandReason::deserialize *)
Definition deserialize_reason : M RustReason :=
  try (of_option read_string) (λ name,
  try (of_option read_string) (λ value,
  try deserialize_id (λ reason_id,
  try deserialize_extra (λ extra_data,
  try (of_option read_i64) (λ extra_data_id,
  ret (Ok (mk_rust_reason name value reason_id extra_data extra_data_id))))))).

(** [HashMap::insert] replaces; a last key without a value is dropped. *)
(* [interfaces/innerkits/safwk/rust/src/wrapper.rs:197-208] OnDemandReasonExtraData::want *)
Fixpoint want_pairs (want : list string) (res : gmap string string) : gmap string string :=
  match want with
  | k :: v :: want' => want_pairs want' (<[k := v]> res)
  | _ => res
  end.
Definition want (x : RustExtraData) : gmap string string := want_pairs (rwant x) ∅.

(** ** Lemmas *)

Lemma try_ok {A B} (m : M A) (k : A → M B) b p p' :
  try m k p = (Ok b, p') → ∃ a p1, m p = (Ok a, p1) ∧ k a p1 = (Ok b, p').
Proof. unfold try. destruct (m p) as [[a| |] p1]; [by eexists _, _|done|done]. Qed.
Lemma try_run {A B} (m : M A) (k : A → M B) a p p1 : m p = (Ok a, p1) → try m k p = k a p1.
Proof. unfold try. by intros ->. Qed.

Lemma of_bool_ok m p p' : of_bool m p = (Ok tt, p') → m p = (true, p').
Proof. unfold of_bool. by destruct (m p) as [[] ?]; intros [= ->]. Qed.
Lemma of_option_run {A} (m : P → option A * P) a p : (m p).1 = Some a → of_option m p = (Ok a, (m p).2).
Proof. unfold of_option. destruct (m p) as [o p']. cbn. by intros ->. Qed.

Section laws.
  Context `{CL : !CxxLaws} `{JL : !JsonLaws J} `{PL : !ParcelLaws P} `{PbL : !ParcelableLaws P} `{ML : !MsgParcelLaws P}.

(** What a reason is in a parcel. *)
Definition reason_items (r : RustReason) (s : string) : list pitem :=
  [PText (rname r); PText (rvalue r); PInt (reason_id r); extra_item (extra_data r) s; PLong (extra_data_id r)].

Lemma serialized_contents r p p' :
  serialize_reason r p = (Ok tt, p') →
  ∃ s, jdump (payload_of (J := J) (want_map 0 (rwant (extra_data r)) ∅)) = Some s ∧
       contents p' = contents p ++ reason_items r s.
Proof.
  unfold serialize_reason, serialize_id.
  intros ([] & p1 & H1%of_bool_ok%write_string_contents & H)%try_ok.
  apply try_ok in H as ([] & p2 & H2%of_bool_ok%write_string_contents & H).
  apply try_ok in H as ([] & p3 & H3%of_bool_ok%write_i32_contents & H).
  apply try_ok in H as ([] & p4 & H4 & H%of_bool_ok%write_i64_contents).
  unfold serialize_extra in H4. destruct (SerializeOnDemandReasonExtraData _ p3) as [[[]|] q] eqn:E; try done.
  injection H4 as ->. apply written_extra in E as (s & Hj & H4). exists s. split; [done|].
  by rewrite H, H4, H3, H2, H1, <- !app_assoc.
Qed.

Definition known_id (id : Z) : bool := (0 <=? id) && (id <=? OnDemandReasonId_value TIMED_EVENT).

Lemma read_id id r (p : P) :
  contents p = PInt id :: r →
  (deserialize_id p).1 = (if known_id id then Ok id else Err) ∧ contents (deserialize_id p).2 = r.
Proof.
  intros Hp. destruct (read_i32_contents id r p Hp) as [Ho Hr].
  unfold deserialize_id. rewrite (try_run _ _ id p (read_i32 p).2) by (by rewrite (of_option_run _ id)).
  split; [|done]. cbn [ret fst OnDemandReasonId_value]. destruct (known_id id) eqn:Hk; unfold known_id in Hk; cbn in Hk.
  - assert (id = 0 ∨ id = 1 ∨ id = 2 ∨ id = 3 ∨ id = 4 ∨ id = 5) as Hid by lia. by destruct_or! Hid; subst.
  - by rewrite !(proj2 (Z.eqb_neq id _)) by lia.
Qed.

(** ** Properties *)

(** C36: What arrives of a reason that goes through a parcel on the Rust side, whatever
    the memory holds: when [serialize] has written it into an empty parcel,
    [deserialize] reads the same name, value, id, extra data id, code and data; the
    vector of the map is read as the entries of the map that the C++ side made of it,
    in the order of the keys: of two pairs with one key the first counts, a last string
    without a partner is dropped, and every string runs on into what lies behind its
    bytes up to a NUL.  Reading ends the process when an entry is not UTF-8 any more,
    and fails when the id is none of the first six, which is written but not read back.
    A reason without a map comes back as it was. *)
Theorem rust_reason_roundtrip r (p p' : P) :
  contents p = [] → is_utf8 (rdata (extra_data r)) = true → serialize_reason r p = (Ok tt, p') →
  let x := extra_data r in
  let pairs := read_pairs 0 (rwant x) in
  let entries := map_iter string_le (list_to_map (M := gmap string string) pairs) in
  let vector := concat (map (λ e, [e.1; e.2]) entries) in
  (deserialize_reason p').1 =
    (if negb ((0 <=? reason_id r) && (reason_id r <=? 5)) then Err
     else if forallb is_utf8 vector then
       Ok (mk_rust_reason (rname r) (rvalue r) (reason_id r) (mk_rust_extra (rdata x) (rcode x) vector) (extra_data_id r))
     else Terminate) ∧
  (rwant x = [] → 0 ≤ reason_id r ≤ 5 → (deserialize_reason p').1 = Ok r).
Proof.
  intros Hp Hx (s & Hj & Hc)%serialized_contents. cbv zeta. rewrite Hp in Hc. cbn [app] in Hc. unfold reason_items in Hc.
  assert ((deserialize_reason p').1 = if known_id (reason_id r) then
      if forallb is_utf8 (sent_want (extra_data r)) then
        Ok (mk_rust_reason (rname r) (rvalue r) (reason_id r)
              (mk_rust_extra (rdata (extra_data r)) (rcode (extra_data r)) (sent_want (extra_data r))) (extra_data_id r))
      else Terminate else Err) as Hout.
  { unfold deserialize_reason.
    destruct (read_string_contents _ _ _ Hc) as [H1 C1]. rewrite (try_run _ _ _ _ _ (of_option_run _ _ _ H1)).
    destruct (read_string_contents _ _ _ C1) as [H2 C2]. rewrite (try_run _ _ _ _ _ (of_option_run _ _ _ H2)).
    destruct (read_id _ _ _ C2) as [H3 C3]. destruct (deserialize_id _) as [o3 p3] eqn:E3. cbn [fst snd] in H3, C3. subst o3.
    destruct (known_id (reason_id r)); [|unfold try; by rewrite E3]. rewrite (try_run _ _ _ _ _ E3).
    destruct (read_extra (extra_data r) s _ p3 Hx Hj C3) as (H4 & C4).
    destruct (DeserializeOnDemandReasonExtraData p3) as [o4 p4] eqn:E4. cbn [fst snd] in H4, C4. subst o4.
    destruct (forallb is_utf8 (sent_want (extra_data r))); [|unfold try at 1, deserialize_extra; by rewrite E4].
    rewrite (try_run _ _ _ p3 p4) by (unfold deserialize_extra; by rewrite E4).
    destruct (read_i64_contents _ _ _ C4) as [H5 _]. by rewrite (try_run _ _ _ _ _ (of_option_run _ _ _ H5)). }
  assert (∀ l : list (string * string), concat (map (λ e, [e.1; e.2]) l) = flatten l) as Hflat.
  { induction l as [|[k v] l IH]; [done|]. cbn. by rewrite IH. }
  rewrite Hflat. fold (sent_want (extra_data r)). change (known_id (reason_id r)) with ((0 <=? reason_id r) && (reason_id r <=? 5)) in Hout.
  split; [rewrite Hout; by destruct (_ && _)|]. intros Hw Hid. rewrite Hout.
  assert (sent_want (extra_data r) = []) as -> by (unfold sent_want; by rewrite Hw).
  rewrite (proj2 (Z.leb_le 0 _)), (proj2 (Z.leb_le _ 5)) by lia. cbn [andb forallb].
  rewrite <- Hw. by destruct r as [? ? ? [] ?].
Qed.
End laws.

(** ** The map *)


End reason.

(** ** Witnesses *)

Module DemoMsgParcel.
Import DemoParcel.
#[global] Instance demo_msg_parcel : MsgParcel dp := {
  write_string s := push (PText s);
  write_i32 z := push (PInt z);
  write_i64 z := push (PLong z);
  read_string p := match pop p with (Some (PText s), p') => (Some s, p') | (_, p') => (None, p') end;
  read_i32 := pop_int;
  read_i64 p := match pop p with (Some (PLong z), p') => (Some z, p') | (_, p') => (None, p') end;
}.
#[global] Instance demo_msg_parcel_laws : MsgParcelLaws dp.
Proof.
  split; cbn; unfold push, pop_int, pop; intros; repeat case_match; simplify_eq/=; done.
Qed.
End DemoMsgParcel.
Import DemoJson DemoParcel DemoCxx DemoMsgParcel.

Definition event_reason (id : Z) : RustReason := mk_rust_reason "usual.event" "on" id rust_extra 12.
Definition sent (r : RustReason) : dp := (serialize_reason (J := dj) r (empty_parcel 8)).2.

(** A common event arrives, with the map that its vector stands for; an event that is
    not known is refused. *)
Lemma rust_reason_roundtrip_witness :
  (deserialize_reason (J := dj) (sent (event_reason 4))).1 =
     Ok (mk_rust_reason "usual.event" "on" 4 (mk_rust_extra "data" 7 ["action"; "power"; "uid"; "1000"]) 12) ∧
  (deserialize_reason (J := dj) (sent (event_reason 6))).1 = Err.
Proof.
  split.
  - destruct (rust_reason_roundtrip (J := dj) (event_reason 4) (empty_parcel 8) (sent (event_reason 4)))
      as [H _]; [reflexivity|reflexivity|vm_compute; reflexivity|]. rewrite H. vm_compute. reflexivity.
  - destruct (rust_reason_roundtrip (J := dj) (event_reason 6) (empty_parcel 8) (sent (event_reason 6)))
      as [H _]; [reflexivity|reflexivity|vm_compute; reflexivity|]. rewrite H. vm_compute. reflexivity.
Defined.


