(* ===== verification/RustAbility.v ===== *)
(** * RustAbility: abilities written in Rust

    [SystemAbilityWrapper] is a subclass of [SystemAbility] whose overrides call a
    Rust object through the bridge
    ([interfaces/innerkits/safwk/rust/src/cxx/system_ability_wrapper.cpp],
    [rust/src/wrapper.rs], [rust/src/ability.rs], [rust/src/exts.rs]).  This
    file gives the class of such an object (for [Overrides.class_env]): the trait
    [Ability] with its default methods, the forwarding of [AbilityWrapper], and
    the C++ overrides around it.

    Who owns the objects on the two sides of the bridge is in [RustMemory.v].

    A [rust::string] throws when the bytes are not UTF-8.  What becomes of a
    process after an exception leaves an override is not followed: [throw] stands
    for it, and the theorems that run an override assume the conversion succeeds. *)

From S2P Require Import Prelude CString Interfaces Monad World SystemAbility Registry Overrides Listeners RustWrapper.

(** [rust::String(const char16_t* )]: [None] when the units are not UTF-16. *)
Class Cxx16 := { rust_string16 : u16string → option string }.

(** [arg.data()] as a C string: up to the first zero. *)
Fixpoint cstr16 (s : u16string) : u16string :=
  match s with [] => [] | c :: s' => if c =? 0 then [] else c :: cstr16 s' end.

Section ability.
  Context {J P U : Type} `{!Json J} `{!MessageParcel P} `{PU : !ParseUtil U} `{SD : !SamgrDefs}
    `{EN : !Env J P U} `{CX : !Cxx} `{CX16 : !Cxx16}.
  Variable throw : ∀ A, A → prog J U A.

  #[local] Abbreviation M := (prog J U).
  #[local] Abbreviation reason := SystemAbilityOnDemandReason.

(** Use the converted value, or throw (a program needs a result: [a], which
    nothing should use). *)
Definition converted {X A} (a : A) (o : option X) (k : X → M A) : M A :=
  match o with Some x => k x | None => throw A a end.

(** ** The trait [Ability] *)

(* [interfaces/innerkits/safwk/rust/src/ability.rs:130-132] Handler *)
Record Handler := mk_handler { inner : loc }.

(** [None]: the default method. *)
(* [interfaces/innerkits/safwk/rust/src/ability.rs:29-91] Ability *)
Record Ability := mk_ability {
  a_on_start : option (Handler → M unit);
  a_on_stop : option (M unit);
  a_on_dump : option (M unit);
  a_on_idle : option (RustReason → M Z);
  a_on_active : option (RustReason → M unit);
  a_on_start_with_reason : option (RustReason → Handler → M unit);
  a_on_stop_with_reason : option (RustReason → M unit);
  a_on_system_ability_load_event : option (Z → string → M unit);
  a_on_system_ability_remove_event : option (Z → string → M unit);
  a_on_device_level_changed : option (Z → Z → string → M unit);
  a_on_extension : option (string → P → P → M (Z * P * P));
}.

(* [interfaces/innerkits/safwk/rust/src/ability.rs:38-38] Ability::on_start *)
Definition on_start (a : Ability) (handler : Handler) : M unit := default (λ _, ret tt) (a_on_start a) handler.
(* [interfaces/innerkits/safwk/rust/src/ability.rs:41-41] Ability::on_stop *)
Definition on_stop (a : Ability) : M unit := default (ret tt) (a_on_stop a).
(* [interfaces/innerkits/safwk/rust/src/ability.rs:44-44] Ability::on_dump *)
Definition on_dump (a : Ability) : M unit := default (ret tt) (a_on_dump a).
(* [interfaces/innerkits/safwk/rust/src/ability.rs:51-53] Ability::on_idle *)
Definition on_idle (a : Ability) (r : RustReason) : M Z := default (λ _, ret 0) (a_on_idle a) r.
(* [interfaces/innerkits/safwk/rust/src/ability.rs:56-56] Ability::on_active *)
Definition on_active (a : Ability) (r : RustReason) : M unit := default (λ _, ret tt) (a_on_active a) r.
(* [interfaces/innerkits/safwk/rust/src/ability.rs:59-61] Ability::on_start_with_reason *)
Definition on_start_with_reason (a : Ability) (r : RustReason) (handler : Handler) : M unit :=
  default (λ _ h, on_start a h) (a_on_start_with_reason a) r handler.
(* [interfaces/innerkits/safwk/rust/src/ability.rs:64-66] Ability::on_stop_with_reason *)
Definition on_stop_with_reason (a : Ability) (r : RustReason) : M unit :=
  default (λ _, on_stop a) (a_on_stop_with_reason a) r.

(** ** [AbilityWrapper] *)

(* [interfaces/innerkits/safwk/rust/src/wrapper.rs:36-41] AbilityWrapper::OnStart *)
Definition AbilityWrapper_OnStart (a : Ability) (system_ability : loc) : M unit :=
  on_start a (mk_handler system_ability).
(* [interfaces/innerkits/safwk/rust/src/wrapper.rs:43-52] AbilityWrapper::OnStartWithReason *)
Definition AbilityWrapper_OnStartWithReason (a : Ability) (r : RustReason) (system_ability : loc) : M unit :=
  on_start_with_reason a r (mk_handler system_ability).
(* [interfaces/innerkits/safwk/rust/src/wrapper.rs:70-72] AbilityWrapper::OnAddSystemAbility *)
Definition AbilityWrapper_OnAddSystemAbility (a : Ability) (said : Z) (device_id : string) : M unit :=
  default (λ _ _, ret tt) (a_on_system_ability_load_event a) said device_id.
(* [interfaces/innerkits/safwk/rust/src/wrapper.rs:74-76] AbilityWrapper::OnRemoveSystemAbility *)
Definition AbilityWrapper_OnRemoveSystemAbility (a : Ability) (said : Z) (device_id : string) : M unit :=
  default (λ _ _, ret tt) (a_on_system_ability_remove_event a) said device_id.
(** [action] is passed by value. *)
(* [interfaces/innerkits/safwk/rust/src/wrapper.rs:78-81] AbilityWrapper::OnDeviceLevelChanged *)
Definition AbilityWrapper_OnDeviceLevelChanged (a : Ability) (change_type level : Z) (action : string) : M unit :=
  default (λ _ _ _, ret tt) (a_on_device_level_changed a) change_type level action.
(* [interfaces/innerkits/safwk/rust/src/wrapper.rs:83-94] AbilityWrapper::OnExtension *)
Definition AbilityWrapper_OnExtension (a : Ability) (extension : string) (data reply : P) : M (Z * P * P) :=
  default (λ _ d r, ret (0, d, r)) (a_on_extension a) extension data reply.

(** ** The overrides of [SystemAbilityWrapper] *)

(* [interfaces/innerkits/safwk/rust/src/cxx/system_ability_wrapper.cpp:64-67] SystemAbilityWrapper::OnDump *)
Definition w_OnDump (a : Ability) (this : loc) : M unit := on_dump a.
(* [interfaces/innerkits/safwk/rust/src/cxx/system_ability_wrapper.cpp:69-72] SystemAbilityWrapper::OnStart *)
Definition w_OnStart (a : Ability) (this : loc) : M unit := AbilityWrapper_OnStart a this.
(* [interfaces/innerkits/safwk/rust/src/cxx/system_ability_wrapper.cpp:74-77] SystemAbilityWrapper::OnStart *)
Definition w_OnStartReason (a : Ability) (this : loc) (startReason : reason) : M unit :=
  converted tt (BuildReasonWrapper startReason) (λ r, AbilityWrapper_OnStartWithReason a r this).
(* [interfaces/innerkits/safwk/rust/src/cxx/system_ability_wrapper.cpp:79-82] SystemAbilityWrapper::OnIdle *)
Definition w_OnIdle (a : Ability) (this : loc) (idleReason : reason) : M Z :=
  converted 0 (BuildReasonWrapper idleReason) (on_idle a).
(* [interfaces/innerkits/safwk/rust/src/cxx/system_ability_wrapper.cpp:84-87] SystemAbilityWrapper::OnActive *)
Definition w_OnActive (a : Ability) (this : loc) (activeReason : reason) : M unit :=
  converted tt (BuildReasonWrapper activeReason) (on_active a).
(* [interfaces/innerkits/safwk/rust/src/cxx/system_ability_wrapper.cpp:89-92] SystemAbilityWrapper::OnStop *)
Definition w_OnStop (a : Ability) (this : loc) : M unit := on_stop a.
(* [interfaces/innerkits/safwk/rust/src/cxx/system_ability_wrapper.cpp:94-97] SystemAbilityWrapper::OnStop *)
Definition w_OnStopReason (a : Ability) (this : loc) (stopReason : reason) : M unit :=
  converted tt (BuildReasonWrapper stopReason) (on_stop_with_reason a).
(* [interfaces/innerkits/safwk/rust/src/cxx/system_ability_wrapper.cpp:99-102] SystemAbilityWrapper::OnAddSystemAbility *)
Definition w_OnAddSystemAbility (a : Ability) (this : loc) (systemAbilityId : Z) (deviceId : string) : M unit :=
  converted tt (rust_string deviceId) (AbilityWrapper_OnAddSystemAbility a systemAbilityId).
(* [interfaces/innerkits/safwk/rust/src/cxx/system_ability_wrapper.cpp:104-107] SystemAbilityWrapper::OnRemoveSystemAbility *)
Definition w_OnRemoveSystemAbility (a : Ability) (this : loc) (systemAbilityId : Z) (deviceId : string) : M unit :=
  converted tt (rust_string deviceId) (AbilityWrapper_OnRemoveSystemAbility a systemAbilityId).
(** The reference [action] keeps its value. *)
(* [interfaces/innerkits/safwk/rust/src/cxx/system_ability_wrapper.cpp:109-112] SystemAbilityWrapper::OnDeviceLevelChanged *)
Definition w_OnDeviceLevelChanged (a : Ability) (this : loc) (type level : Z) (action : string) : M string :=
  converted action (rust_string action) (λ s, do! AbilityWrapper_OnDeviceLevelChanged a type level s in ret action).
(* [interfaces/innerkits/safwk/rust/src/cxx/system_ability_wrapper.cpp:114-118] SystemAbilityWrapper::OnExtension *)
Definition w_OnExtension (a : Ability) (this : loc) (extension : string) (data reply : P) : M (Z * P * P) :=
  converted (0, data, reply) (rust_string extension) (λ s, AbilityWrapper_OnExtension a s data reply).

(** The class: everything but [OnSvcCmd]. *)
(* [interfaces/innerkits/safwk/rust/include/system_ability_wrapper.h:35-70] SystemAbilityWrapper *)
Definition SystemAbilityWrapper (a : Ability) : overrides (J := J) (P := P) (U := U) := {|
  o_OnDump := Some (w_OnDump a);
  o_OnStart := Some (w_OnStart a);
  o_OnStartReason := Some (w_OnStartReason a);
  o_OnIdle := Some (w_OnIdle a);
  o_OnActive := Some (w_OnActive a);
  o_OnStop := Some (w_OnStop a);
  o_OnStopReason := Some (w_OnStopReason a);
  o_OnAddSystemAbility := Some (w_OnAddSystemAbility a);
  o_OnRemoveSystemAbility := Some (w_OnRemoveSystemAbility a);
  o_OnSvcCmd := None;
  o_OnDeviceLevelChanged := Some (w_OnDeviceLevelChanged a);
  o_OnExtension := Some (w_OnExtension a);
|}.

(** ** What the Rust code can ask of the framework *)

(* [interfaces/innerkits/safwk/rust/src/cxx/system_ability_wrapper.cpp:40-43] SystemAbilityWrapper::StopAbilityWrapper *)
Definition StopAbilityWrapper (systemAbilityId : Z) : M unit := StopAbility systemAbilityId.
(* [interfaces/innerkits/safwk/rust/src/cxx/system_ability_wrapper.cpp:45-48] SystemAbilityWrapper::CancelIdleWrapper *)
Definition CancelIdleWrapper (this : loc) : M bool := CancelIdle this.
(* [interfaces/innerkits/safwk/rust/src/ability.rs:143-146] Handler::cancel_idle *)
Definition cancel_idle (h : Handler) : M bool := CancelIdleWrapper (inner h).
(* [interfaces/innerkits/safwk/rust/src/ability.rs:149-152] Handler::add_system_ability_listen *)
Definition add_system_ability_listen (h : Handler) (system_ability_id : Z) : M bool :=
  SA_AddSystemAbilityListener (inner h) system_ability_id.
(* [interfaces/innerkits/safwk/rust/src/ability.rs:155-158] Handler::remove_system_ability_listen *)
Definition remove_system_ability_listen (h : Handler) (system_ability_id : Z) : M bool :=
  SA_RemoveSystemAbilityListener (inner h) system_ability_id.

(** ** The stub a Rust ability publishes *)

(** The object behind the box: [RemoteStub] of the ipc crate. *)
(* [interfaces/innerkits/safwk/rust/src/wrapper.rs:97-125] AbilityStub *)
Record AbilityStub := mk_stub {
  on_remote_request : Z → P → P → M (Z * P * P);
  dump : Z → list string → M Z;
}.

(* [interfaces/innerkits/safwk/rust/src/cxx/system_ability_wrapper.cpp:200-204] RemoteServiceStub::OnRemoteRequest *)
Definition stub_OnRemoteRequest (inner : AbilityStub) (code : Z) (data reply : P) : M (Z * P * P) :=
  on_remote_request inner code data reply.

(* [interfaces/innerkits/safwk/rust/src/cxx/system_ability_wrapper.cpp:208-211] RemoteServiceStub::Dump *)
Fixpoint dump_args (args : list u16string) : option (list string) :=
  match args with
  | [] => Some []
  | arg :: args' =>
      match rust_string16 (cstr16 arg), dump_args args' with
      | Some s, Some v => Some (s :: v)
      | _, _ => None
      end
  end.
(* [interfaces/innerkits/safwk/rust/src/cxx/system_ability_wrapper.cpp:206-213] RemoteServiceStub::Dump *)
Definition stub_Dump (inner : AbilityStub) (fd : Z) (args : list u16string) : M Z :=
  converted 0 (dump_args args) (dump inner fd).

(** ** What a Rust ability sees *)

(** A value converted. *)
Lemma converted_Some {X A} (a : A) (x : X) (k : X → M A) : converted a (Some x) k = k x.
Proof. done. Qed.

(** C27: A Rust ability takes part in the lifecycle through the trait: a start calls
    [on_start_with_reason] with the converted start reason and a handler of this
    very object (and, where the trait's default is left, [on_start] with the
    handler), a stop [on_stop_with_reason], an idle request takes its delay from
    [on_idle], an activation calls [on_active]; all as the framework would for a
    C++ ability, provided the strings of the reason are UTF-8. *)
Theorem rust_lifecycle EN0 class_of this a r0 w :
  class_of this = SystemAbilityWrapper a →
  let E := class_env EN0 class_of in
  (abilityState_ (sa_at w this) = NOT_LOADED →
     let '(r, w0) := Start_reason (Env0 := E) this w in ∀ x, BuildReasonWrapper r = Some x →
     Start (Env0 := E) this w =
       Start_finish this (on_start_with_reason a x (mk_handler this) (entered (EvOnStart this r) w0)).2) ∧
  (abilityState_ (sa_at w this) ≠ NOT_LOADED →
     let '(r, w0) := Stop_reason (Env0 := E) this w in ∀ x, BuildReasonWrapper r = Some x →
     Stop (Env0 := E) this w =
       Stop_finish (Env0 := E) this (on_stop_with_reason a x (entered (EvOnStop this r) w0)).2) ∧
  (abilityState_ (sa_at w this) = ACTIVE →
     let '(r, w0) := GetOnDemandReasonExtraData (Env0 := E) r0 w in ∀ x, BuildReasonWrapper r = Some x →
     let '(d, w2) := on_idle a x (entered (EvOnIdle this r) w0) in
     Idle (Env0 := E) this r0 w = (d, (Idle_finish this d w2).2)) ∧
  (abilityState_ (sa_at w this) = IDLE →
     let '(r, w0) := GetOnDemandReasonExtraData (Env0 := E) r0 w in ∀ x, BuildReasonWrapper r = Some x →
     Active (Env0 := E) this r0 w =
       Active_finish this (on_active a x (entered (EvOnActive this r) w0)).2).
Proof.
  intros Hc. cbv zeta. destruct (calls_override EN0 class_of this r0 w) as (H1 & H2 & H3 & H4).
  cbv zeta in *. rewrite Hc in *. split_and!; intros Hs.
  - specialize (H1 Hs). destruct (Start_reason this w) as [r w0]. intros x Hx. rewrite H1.
    cbn [starter SystemAbilityWrapper o_OnStartReason]. unfold w_OnStartReason. by rewrite Hx.
  - specialize (H2 Hs). destruct (Stop_reason this w) as [r w0]. intros x Hx. rewrite H2.
    cbn [stopper SystemAbilityWrapper o_OnStopReason]. unfold w_OnStopReason. by rewrite Hx.
  - specialize (H3 Hs). destruct (GetOnDemandReasonExtraData r0 w) as [r w0]. intros x Hx.
    cbn [SystemAbilityWrapper o_OnIdle] in H3. unfold w_OnIdle in H3. by rewrite Hx in H3.
  - specialize (H4 Hs). destruct (GetOnDemandReasonExtraData r0 w) as [r w0]. intros x Hx. rewrite H4.
    cbn [SystemAbilityWrapper o_OnActive]. unfold w_OnActive. by rewrite Hx.
Qed.

(** Two things a C++ ability can do and a Rust ability cannot: it has no override
    of [OnSvcCmd], so every service-control command to it fails, without reaching
    it; and its [on_device_level_changed] gets a copy of the action, so the
    caller always gets back the action it sent. *)
Theorem rust_gaps EN0 class_of said l a w :
  localAbilityMap_ w !! said = Some (Some l) → class_of l = SystemAbilityWrapper a →
  let E := class_env EN0 class_of in
  (∀ fd args, ServiceControlCmd (Env0 := E) fd said args w = (-1, entered (EvOnSvcCmd l fd args) w)) ∧
  (∀ type level action, is_Some (rust_string action) →
     (SendStrategyToSA (Env0 := E) type said level action w).1 = (true, action)).
Proof.
  intros Hm Hc. cbv zeta. split.
  - intros fd args. unfold ServiceControlCmd, GetAbility. rewrite bind_run. cbn [gets fst snd]. rewrite Hm.
    unfold enter. cbn [bind call OnSvcCmd class_env]. by rewrite Hc.
  - intros type level action [s Hs]. unfold SendStrategyToSA, GetAbility. rewrite bind_run. cbn [gets fst snd].
    rewrite Hm. unfold enter. rewrite !bind_run. cbn [call fst snd ret OnDeviceLevelChanged class_env]. rewrite Hc.
    unfold v_OnDeviceLevelChanged. cbn [SystemAbilityWrapper o_OnDeviceLevelChanged default from_option id].
    unfold w_OnDeviceLevelChanged. rewrite Hs. cbn [converted]. by rewrite bind_run.
Qed.

(** The Rust code keeps the lifecycle fields, but for publishing in [on_start]:
    then so does the class, and the theorems on the lifecycle apply. *)
Record ability_behaves (a : Ability) (this : loc) : Prop := {
  ab_start h : may_publish this (on_start a h);
  ab_start_reason r h : may_publish this (on_start_with_reason a r h);
  ab_idle r : keeps_lc this (on_idle a r);
  ab_active r : keeps_lc this (on_active a r);
  ab_stop : keeps_lc this (on_stop a);
  ab_stop_reason r : keeps_lc this (on_stop_with_reason a r);
  ab_throw A x : keeps_lc this (throw A x);
}.
Lemma rust_class_behaves a this : ability_behaves a this → well_behaved (SystemAbilityWrapper a) this.
Proof.
  intros Ha.
  assert (∀ X B b (o : option X) (k : X → M B), (∀ x, keeps_lc this (k x)) → keeps_lc this (converted b o k)) as Hk.
  { intros X B b [x|] k Hkk; [apply Hkk|apply (ab_throw _ _ Ha)]. }
  split; intros f; cbn [SystemAbilityWrapper o_OnStart o_OnStartReason o_OnIdle o_OnActive o_OnStop o_OnStopReason].
  - intros [= <-]. apply (ab_start _ _ Ha).
  - intros r [= <-]. unfold w_OnStartReason. destruct (BuildReasonWrapper r) as [x|]; cbn [converted].
    + apply (ab_start_reason _ _ Ha).
    + intros w. left. apply (ab_throw _ _ Ha).
  - intros r [= <-]. apply Hk, (ab_idle _ _ Ha).
  - intros r [= <-]. apply Hk, (ab_active _ _ Ha).
  - intros [= <-]. apply (ab_stop _ _ Ha).
  - intros r [= <-]. apply Hk, (ab_stop_reason _ _ Ha).
Qed.
End ability.

(** ** Witnesses *)

Module DemoRustAbility.
Import DemoJson DemoParcel DemoProfiles DemoCxx.
(** An ability that implements [on_start] alone, and publishes there. *)
Definition rust_publisher : Ability (J := dj) (P := dp) (U := du) :=
  mk_ability (Some (λ h, do! Publish (Env0 := DemoEnv.base_env) (inner h) 5 in ret tt))
    None None None None None None None None None None.
Definition rust_class : overrides := SystemAbilityWrapper (λ A a, ret a) rust_publisher.
Definition rust_env := class_env DemoEnv.base_env (λ _, rust_class).
End DemoRustAbility.
Import DemoDefs DemoJson DemoParcel DemoProfiles DemoCxx DemoRustAbility.

Lemma rust_lifecycle_witness :
  lc_of (Start (Env0 := rust_env) 1%positive (DemoEnv.demo_world [])).2 1%positive = (ACTIVE, true) ∧
  let '(r, w0) := Start_reason (Env0 := rust_env) 1%positive (DemoEnv.demo_world []) in
  ∃ x, BuildReasonWrapper r = Some x ∧
    Start (Env0 := rust_env) 1%positive (DemoEnv.demo_world []) =
      Start_finish 1%positive (on_start_with_reason rust_publisher x (mk_handler 1%positive)
        (entered (EvOnStart 1%positive r) w0)).2.
Proof.
  split; [vm_compute; reflexivity|].
  pose proof (rust_lifecycle (λ A a, ret a) DemoEnv.base_env (λ _, rust_class) 1%positive rust_publisher
    (default_reason 0) (DemoEnv.demo_world []) eq_refl) as [H _].
  specialize (H ltac:(vm_compute; reflexivity)). fold rust_env in H.
  destruct (Start_reason (Env0 := rust_env) 1%positive (DemoEnv.demo_world [])) as [r w0] eqn:E.
  assert (∃ x, BuildReasonWrapper r = Some x) as [x Hx].
  { vm_compute in E. injection E as <- _. eexists. vm_compute. reflexivity. }
  exists x. split; [exact Hx|exact (H x Hx)].
Defined.

Lemma rust_gaps_witness :
  (ServiceControlCmd (Env0 := rust_env) 7 401 [[101]] registered).1 = -1 ∧
  (SendStrategyToSA (Env0 := rust_env) 1 401 2 "heat" registered).1 = (true, "heat"%string).
Proof.
  destruct (rust_gaps (λ A a, ret a) DemoEnv.base_env (λ _, rust_class) 401 1%positive rust_publisher registered)
    as [H1 H2]; [vm_compute; reflexivity|reflexivity|].
  split; [exact (f_equal fst (H1 7 [[101]]))|apply H2; by eexists].
Defined.
