(* ===== verification/RustMemory.v ===== *)
(** * RustMemory: who owns what across the language boundary

    A [Box] of the Rust side crosses the bridge as a raw pointer: the constructors
    of [SystemAbilityWrapper] and [RemoteServiceStub] take it apart with
    [into_raw], their destructors put it together again with [from_raw] and so
    free it
    ([interfaces/innerkits/safwk/rust/src/cxx/system_ability_wrapper.cpp]).  The
    C++ object belongs to a [UniquePtr] until [register] turns it into a plain
    pointer ([rust/src/exts.rs]); from then on the registry of the framework may
    refer to it.

    [rust_process] is the process with the boxes that are allocated and the
    pointers the C++ objects hold.  A step is one operation of either side; its
    result is [None] when it reads a freed box, frees one twice or uses an object
    that is gone. *)

From S2P Require Import Prelude Interfaces Monad World SystemAbility Registry Overrides.

Section rust_memory.
  Context {J P U : Type} `{!Json J} `{!MessageParcel P} `{PU : !ParseUtil U} `{SD : !SamgrDefs} `{EN : !Env J P U}.

  #[local] Abbreviation world := (world J U).

(** [handlers] are the objects whose address the Rust code was given. *)
(* [interfaces/innerkits/safwk/rust/include/system_ability_wrapper.h:68-95] SystemAbilityWrapper, RemoteServiceStub *)
Record rust_process := mk_rust {
  rworld : world;
  ability_ : gmap loc positive;
  inner_ : gmap Z positive;
  live : gset positive;
  owned : gset loc;
  handlers : gset loc;
}.

Definition with_world (w : world) (s : rust_process) : rust_process :=
  mk_rust w (ability_ s) (inner_ s) (live s) (owned s) (handlers s).

(** [Box::new] and [Box::from_raw] (which is then dropped). *)
Definition Box_new (s : rust_process) : positive * rust_process :=
  let b := fresh (live s) in
  (b, mk_rust (rworld s) (ability_ s) (inner_ s) ({[b]} ∪ live s) (owned s) (handlers s)).
Definition Box_from_raw (b : positive) (s : rust_process) : option rust_process :=
  if decide (b ∈ live s)
  then Some (mk_rust (rworld s) (ability_ s) (inner_ s) (live s ∖ {[b]}) (owned s) (handlers s))
  else None.

(* [interfaces/innerkits/safwk/rust/src/cxx/system_ability_wrapper.cpp:28-33] SystemAbilityWrapper::SystemAbilityWrapper *)
Definition new_SystemAbilityWrapper (b : positive) (systemAbilityId : Z) (runOnCreate : bool) (s : rust_process)
    : loc * rust_process :=
  let '(l, w) := new_ability systemAbilityId runOnCreate (rworld s) in
  (l, mk_rust w (<[l := b]> (ability_ s)) (inner_ s) (live s) (owned s) (handlers s)).

(* [interfaces/innerkits/safwk/rust/src/cxx/system_ability_wrapper.cpp:184-188] BuildSystemAbility *)
Definition BuildSystemAbility (b : positive) (systemAbilityId : Z) (runOnCreate : bool) (s : rust_process)
    : rust_process :=
  let '(l, s) := new_SystemAbilityWrapper b systemAbilityId runOnCreate s in
  mk_rust (rworld s) (ability_ s) (inner_ s) (live s) ({[l]} ∪ owned s) (handlers s).

(** The destructor; the memory of the object goes with it. *)
(* [interfaces/innerkits/safwk/rust/src/cxx/system_ability_wrapper.cpp:35-38] SystemAbilityWrapper::~SystemAbilityWrapper *)
Definition delete_SystemAbilityWrapper (l : loc) (s : rust_process) : option rust_process :=
  match ability_ s !! l with
  | None => None
  | Some b =>
      match Box_from_raw b s with
      | None => None
      | Some s =>
          Some (mk_rust (set_heap (delete l (heap (rworld s))) (rworld s)) (delete l (ability_ s)) (inner_ s)
                  (live s) (owned s ∖ {[l]}) (handlers s))
      end
  end.

(* [interfaces/innerkits/safwk/rust/src/cxx/system_ability_wrapper.cpp:120-123] RegisterAbility *)
Definition RegisterAbility (system_ability : loc) (s : rust_process) : bool * rust_process :=
  let '(ok, w) := MakeAndRegisterAbility (Some system_ability) (rworld s) in (ok, with_world w s).

(** The pointer leaves the [UniquePtr]; the result is dropped. *)
(* [interfaces/innerkits/safwk/rust/src/exts.rs:47-52] SystemAbility::register *)
Definition register (l : loc) (s : rust_process) : rust_process :=
  (RegisterAbility l
     (mk_rust (rworld s) (ability_ s) (inner_ s) (live s) (owned s ∖ {[l]}) (handlers s))).2.

(* [interfaces/innerkits/safwk/rust/src/ability.rs:111-125] Ability::build_system_ability *)
Definition build_system_ability (said : Z) (run_on_create : bool) (s : rust_process) : rust_process :=
  let '(b, s) := Box_new s in BuildSystemAbility b said run_on_create s.

(** A call of the framework on an object: a wrapper reads its box.  [OnStart] hands
    the address of the wrapper to the Rust code. *)
Definition call_override (l : loc) (s : rust_process) : option rust_process :=
  match heap (rworld s) !! l, ability_ s !! l with
  | None, _ => None
  | Some _, None => Some s
  | Some _, Some b =>
      if decide (b ∈ live s)
      then Some (mk_rust (rworld s) (ability_ s) (inner_ s) (live s) (owned s) ({[l]} ∪ handlers s))
      else None
  end.

(** [stub] is the handle of the new object, 0 when there is none; then nobody has
    the box any more. *)
(* [interfaces/innerkits/safwk/rust/src/cxx/system_ability_wrapper.cpp:50-57] SystemAbilityWrapper::PublishWrapper *)
Definition PublishWrapper (this : loc) (ability : positive) (stub : Z) (s : rust_process) : bool * rust_process :=
  if stub =? 0 then (false, s)
  else
    let '(ok, w) := Publish this stub (rworld s) in
    (ok, mk_rust w (ability_ s) (<[stub := ability]> (inner_ s)) (live s) (owned s) (handlers s)).

(* [interfaces/innerkits/safwk/rust/src/ability.rs:136-140] Handler::publish *)
Definition publish (this : loc) (stub : Z) (s : rust_process) : option rust_process :=
  let '(b, s) := Box_new s in
  match heap (rworld s) !! this with
  | None => None
  | Some _ => Some (PublishWrapper this b stub s).2
  end.

(** A request to a stub ([OnRemoteRequest] or [Dump], see [RustAbility.v]) reads
    the box. *)
Definition stub_request (stub : Z) (s : rust_process) : option rust_process :=
  match inner_ s !! stub with
  | None => None
  | Some b => if decide (b ∈ live s) then Some s else None
  end.

(* [interfaces/innerkits/safwk/rust/src/cxx/system_ability_wrapper.cpp:195-198] RemoteServiceStub::~RemoteServiceStub *)
Definition delete_RemoteServiceStub (stub : Z) (s : rust_process) : option rust_process :=
  match inner_ s !! stub with
  | None => None
  | Some b =>
      match Box_from_raw b s with
      | None => None
      | Some s => Some (mk_rust (rworld s) (ability_ s) (delete stub (inner_ s)) (live s) (owned s) (handlers s))
      end
  end.

(** ** Histories *)

(** [RRun]: the framework runs without creating, registering or publishing. *)
Inductive rust_event :=
| RBuild (said : Z) (run_on_create : bool)
| RDrop (l : loc)
| RRegister (l : loc)
| RCall (said : Z)
| RPublish (l : loc) (stub : Z)
| RRequest (stub : Z)
| RReleaseStub (stub : Z)
| RRemove (said : Z)
| RRun (w : world).

(** No object of the framework holds a reference to the stub. *)
Definition unreferenced (stub : Z) (w : world) : Prop := ∀ l x, heap w !! l = Some x → publishObj_ x ≠ stub.
Definition same_objects (w w' : world) : Prop :=
  localAbilityMap_ w' = localAbilityMap_ w ∧
  ∀ l, publishObj_ <$> heap w' !! l = publishObj_ <$> heap w !! l.

(** What the type system of Rust, the reference counts and the allocator allow: only
    the owner drops or registers, only who was given a handler publishes, a
    stub goes away with its last reference, a new stub has a new handle. *)
Definition possible (e : rust_event) (s : rust_process) : Prop :=
  match e with
  | RDrop l | RRegister l => l ∈ owned s
  | RPublish l stub => l ∈ handlers s ∧ (stub = 0 ∨ inner_ s !! stub = None ∧ unreferenced stub (rworld s))
  | RRequest stub => is_Some (inner_ s !! stub)
  | RReleaseStub stub => is_Some (inner_ s !! stub) ∧ unreferenced stub (rworld s)
  | RRun w => same_objects (rworld s) w
  | RBuild _ _ | RCall _ | RRemove _ => True
  end.

Definition rust_step (e : rust_event) (s : rust_process) : option rust_process :=
  match e with
  | RBuild said roc => Some (build_system_ability said roc s)
  | RDrop l => delete_SystemAbilityWrapper l s
  | RRegister l => Some (register l s)
  | RCall said => match (GetAbility said (rworld s)).1 with Some l => call_override l s | None => Some s end
  | RPublish l stub => publish l stub s
  | RRequest stub => stub_request stub s
  | RReleaseStub stub => delete_RemoteServiceStub stub s
  | RRemove said => Some (with_world (RemoveAbility said (rworld s)).2 s)
  | RRun w => Some (with_world w s)
  end.

Definition rust_next (s s' : rust_process) : Prop := ∃ e, possible e s ∧ rust_step e s = Some s'.

(** A process before the first Rust ability: the registry refers to objects. *)
Definition rust_initial (w : world) : rust_process := mk_rust w ∅ ∅ ∅ ∅ ∅.
Definition registry_alive (w : world) : Prop :=
  ∀ id l, localAbilityMap_ w !! id = Some (Some l) → is_Some (heap w !! l).

(** ** The invariant *)

(** Every pointer is to a live box of its own, whoever holds it; every wrapper is an
    object; what a [UniquePtr] owns is neither registered nor known to the Rust
    code through a handler. *)
Record rust_inv (s : rust_process) : Prop := {
  inv_ability l b : ability_ s !! l = Some b → b ∈ live s ∧ is_Some (heap (rworld s) !! l);
  inv_inner h b : inner_ s !! h = Some b → b ∈ live s;
  inv_ability_inj l l' b : ability_ s !! l = Some b → ability_ s !! l' = Some b → l = l';
  inv_inner_inj h h' b : inner_ s !! h = Some b → inner_ s !! h' = Some b → h = h';
  inv_apart l h b : ability_ s !! l = Some b → inner_ s !! h = Some b → False;
  inv_owned l : l ∈ owned s → is_Some (ability_ s !! l) ∧ l ∉ handlers s;
  inv_handlers l : l ∈ handlers s → is_Some (ability_ s !! l);
  inv_registry id l : localAbilityMap_ (rworld s) !! id = Some (Some l) →
    is_Some (heap (rworld s) !! l) ∧ l ∉ owned s;
}.

(** A step that leaves the boxes and their owners alone. *)
Lemma inv_world w s :
  rust_inv s → (∀ l, is_Some (heap (rworld s) !! l) → is_Some (heap w !! l)) →
  (∀ id l, localAbilityMap_ w !! id = Some (Some l) → is_Some (heap w !! l) ∧ l ∉ owned s) →
  rust_inv (with_world w s).
Proof.
  intros [H1 H2 H3 H4 H5 H6 H7 H8] Hh Hm.
  split; cbn [with_world ability_ inner_ live owned handlers rworld]; try done.
  intros l b Hl. destruct (H1 l b Hl). split; [done|by apply Hh].
Qed.

Lemma inv_same_objects w s : rust_inv s → same_objects (rworld s) w → rust_inv (with_world w s).
Proof.
  intros Hs [Hm Hh].
  assert (∀ l, is_Some (heap (rworld s) !! l) → is_Some (heap w !! l)) as Hd.
  { intros l Hl. specialize (Hh l). by destruct (heap w !! l), (heap (rworld s) !! l). }
  apply inv_world; [done|done|]. intros id l. rewrite Hm. intros Hl.
  destruct (inv_registry s Hs id l Hl). split; [by apply Hd|done].
Qed.

(** A new box is nobody's. *)
Lemma Box_new_inv s :
  rust_inv s →
  let '(b, s') := Box_new s in
  rust_inv s' ∧ b ∈ live s' ∧ (∀ l, ability_ s' !! l ≠ Some b) ∧ (∀ h, inner_ s' !! h ≠ Some b) ∧
  rworld s' = rworld s ∧ ability_ s' = ability_ s ∧ inner_ s' = inner_ s ∧ owned s' = owned s ∧ handlers s' = handlers s.
Proof.
  intros [H1 H2 H3 H4 H5 H6 H7 H8]. unfold Box_new. set (b := fresh (live s)).
  assert (b ∉ live s) as Hb by apply is_fresh.
  split_and!; cbn [rworld ability_ inner_ live owned handlers]; try done.
  - split; cbn [rworld ability_ inner_ live owned handlers]; try done.
    + intros l c Hl. destruct (H1 l c Hl). split; [set_solver|done].
    + intros h c Hc. specialize (H2 h c Hc). set_solver.
  - set_solver.
  - intros l Hl. by destruct (H1 l b Hl).
  - intros h Hh. by specialize (H2 h b Hh).
Qed.

Lemma build_inv said roc s : rust_inv s → rust_inv (build_system_ability said roc s).
Proof.
  intros Hs. unfold build_system_ability. pose proof (Box_new_inv s Hs) as Hb.
  destruct (Box_new s) as [b s1]. destruct Hb as ([H1 H2 H3 H4 H5 H6 H7 H8] & Hb & Hfa & Hfi & _).
  unfold BuildSystemAbility, new_SystemAbilityWrapper.
  destruct (new_ability said roc (rworld s1)) as [l w] eqn:E. unfold new_ability in E.
  set (l0 := fresh (dom (heap (rworld s1)))) in E.
  assert (heap (rworld s1) !! l0 = None) as Hl0 by (apply not_elem_of_dom, is_fresh).
  injection E as <- <-.
  assert (ability_ s1 !! l0 = None) as Ha.
  { destruct (ability_ s1 !! l0) as [c|] eqn:Ec; [|done]. destruct (H1 l0 c Ec) as [_ [x Hx]]. congruence. }
  split; cbn [rworld ability_ inner_ live owned handlers set_heap heap localAbilityMap_].
  - intros l c [[<- <-]|[Hl Hc]]%lookup_insert_Some.
    + split; [done|]. by rewrite lookup_insert_eq.
    + rewrite lookup_insert_ne by done. by apply H1.
  - done.
  - intros l l' c. rewrite !lookup_insert_Some.
    intros [[<- <-]|[Hl Hc]] [[<- Hc']|[Hl' Hc']]; try done; [by destruct (Hfa l')|subst c; by destruct (Hfa l)|by eapply H3].
  - done.
  - intros l h c [[<- <-]|[Hl Hc]]%lookup_insert_Some Hh; [by destruct (Hfi h)|by eapply H5].
  - intros l [->%elem_of_singleton|Ho]%elem_of_union.
    + rewrite lookup_insert_eq. split; [done|]. intros [c Hc]%H7. congruence.
    + destruct (H6 l Ho) as [[c Hc] Hn]. split; [|done]. rewrite lookup_insert_ne by congruence. by exists c.
  - intros l Hl. destruct (H7 l Hl) as [c Hc]. rewrite lookup_insert_ne by congruence. by exists c.
  - intros id l Hm. destruct (H8 id l Hm) as [[x Hx] Ho].
    assert (l0 ≠ l) by congruence. rewrite lookup_insert_ne by done. split; [by exists x|]. set_solver.
Qed.

(** Dropping what a [UniquePtr] owns: its box is live, and nobody is left with a
    pointer to either. *)
Lemma drop_inv l s :
  rust_inv s → l ∈ owned s → ∃ s', delete_SystemAbilityWrapper l s = Some s' ∧ rust_inv s'.
Proof.
  intros [H1 H2 H3 H4 H5 H6 H7 H8] Hl. destruct (H6 l Hl) as [[b Hb] Hn].
  unfold delete_SystemAbilityWrapper, Box_from_raw. rewrite Hb, decide_True by by apply (H1 l b).
  eexists; split; [done|]. split; cbn [rworld ability_ inner_ live owned handlers set_heap heap localAbilityMap_].
  - intros l' c [Hne Hc]%lookup_delete_Some. destruct (H1 l' c Hc). split; [|by rewrite lookup_delete_ne].
    apply elem_of_difference. split; [done|]. intros ->%elem_of_singleton. by apply Hne, (H3 l l' b).
  - intros h c Hc. apply elem_of_difference. split; [by apply (H2 h)|]. intros ->%elem_of_singleton. by apply (H5 l h b).
  - intros l1 l2 c [_ Hc1]%lookup_delete_Some [_ Hc2]%lookup_delete_Some. by eapply H3.
  - done.
  - intros l' h c [_ Hc]%lookup_delete_Some Hh. by eapply H5.
  - intros l' [Ho Hne]%elem_of_difference. rewrite lookup_delete_ne by set_solver. by apply H6.
  - intros l' Hh. rewrite lookup_delete_ne by congruence. by apply H7.
  - intros id l' Hm. destruct (H8 id l' Hm) as [Hx Ho]. assert (l ≠ l') by congruence.
    rewrite lookup_delete_ne by done. split; [done|]. set_solver.
Qed.

Lemma disown_inv l s :
  rust_inv s → rust_inv (mk_rust (rworld s) (ability_ s) (inner_ s) (live s) (owned s ∖ {[l]}) (handlers s)).
Proof.
  intros [H1 H2 H3 H4 H5 H6 H7 H8]. split; cbn [rworld ability_ inner_ live owned handlers]; try done.
  - intros l' [Ho _]%elem_of_difference. by apply H6.
  - intros id l' Hm. destruct (H8 id l' Hm). split; [done|]. set_solver.
Qed.

Lemma register_inv l s : rust_inv s → l ∈ owned s → rust_inv (register l s).
Proof.
  intros Hs Hl. unfold register, RegisterAbility, MakeAndRegisterAbility.
  pose proof (disown_inv l s Hs) as Hd. set (s1 := mk_rust _ _ _ _ _ _) in *.
  destruct (inv_owned s Hs l Hl) as [[b Hb] _]. destruct (inv_ability s Hs l b Hb) as [_ Hx].
  cbn [rworld s1]. rewrite AddAbility_run.
  assert (rust_inv (with_world (rworld s) s1)) as Hsame by done.
  destruct (GetProfile _ _) as [pr|]; [|exact Hsame].
  destruct (localAbilityMap_ (rworld s) !! _) as [q|] eqn:Em; [exact Hsame|]. cbn [snd].
  apply inv_world; [done| |]; cbn [heap set_localAbilityMap_ set_heap localAbilityMap_ rworld owned s1].
  - intros l' Hl'. destruct (decide (l = l')) as [->|]; [by rewrite lookup_insert_eq|by rewrite lookup_insert_ne].
  - intros id l' [[<- [= <-]]|[_ Hm]]%lookup_insert_Some.
    + rewrite lookup_insert_eq. split; [done|set_solver].
    + destruct (inv_registry s Hs id l' Hm) as [Hx' Ho]. split; [|set_solver].
      destruct (decide (l = l')) as [->|]; [by rewrite lookup_insert_eq|by rewrite lookup_insert_ne].
Qed.

(** A registered object can be called. *)
Lemma call_inv id l s :
  rust_inv s → localAbilityMap_ (rworld s) !! id = Some (Some l) →
  ∃ s', call_override l s = Some s' ∧ rust_inv s'.
Proof.
  intros Hs Hm. destruct (inv_registry s Hs id l Hm) as [[x Hx] Ho].
  unfold call_override. rewrite Hx. destruct (ability_ s !! l) as [b|] eqn:Hb; [|by exists s].
  rewrite decide_True by by apply (inv_ability s Hs l b). eexists; split; [done|].
  destruct Hs as [H1 H2 H3 H4 H5 H6 H7 H8]. split; cbn [rworld ability_ inner_ live owned handlers]; try done.
  - intros l' Hl'. destruct (H6 l' Hl'). split; [done|]. set_solver.
  - intros l' [->%elem_of_singleton|Hl']%elem_of_union; [by exists b|by apply H7].
Qed.

Lemma Publish_objects this stub (w : world) :
  let w' := (Publish this stub w).2 in
  localAbilityMap_ w' = localAbilityMap_ w ∧ ∀ l, is_Some (heap w !! l) → is_Some (heap w' !! l).
Proof.
  assert (∀ f (w : world), localAbilityMap_ (put_sa f this w).2 = localAbilityMap_ w ∧
    ∀ l, is_Some (heap w !! l) → is_Some (heap (put_sa f this w).2 !! l)) as Hput.
  { intros f w0. split; [done|]. intros l Hl. cbn [put_sa modify snd heap set_heap].
    destruct (decide (this = l)) as [->|]; [by rewrite lookup_insert_eq|by rewrite lookup_insert_ne]. }
  cbv zeta. unfold Publish, GetSystemAbilityManager. destruct (stub =? 0); [done|].
  rewrite bind_run. pose proof (Hput (set_publishObj_ stub) w) as [Hm Hh].
  set (w1 := (put_sa _ _ w).2) in *. rewrite !bind_run. cbn [call fst snd ret].
  destruct (negb (negb _)); [done|]. rewrite !bind_run. cbn [get_sa call fst snd].
  destruct (_ =? ERR_OK); [|done]. rewrite bind_run. cbn [ret snd].
  match goal with |- context [put_sa ?f this ?w2] => destruct (Hput f w2) as [Hm2 Hh2] end.
  rewrite Hm2. split; [exact Hm|]. intros l Hl. by apply Hh2, Hh.
Qed.

Lemma publish_inv l stub s :
  rust_inv s → possible (RPublish l stub) s → ∃ s', publish l stub s = Some s' ∧ rust_inv s'.
Proof.
  intros Hs [Hl Hst]. unfold publish. pose proof (Box_new_inv s Hs) as Hb.
  destruct (Box_new s) as [b s1]. destruct Hb as (Hs1 & Hb & Hfa & Hfi & Hw & Ha & Hi & Ho & Hh).
  destruct (inv_handlers s Hs l Hl) as [c Hc]. destruct (inv_ability s Hs l c Hc) as [_ [x Hx]].
  rewrite Hw, Hx. eexists; split; [done|]. unfold PublishWrapper. destruct (Z.eqb_spec stub 0) as [|Hne]; [done|].
  destruct Hst as [|[Hst _]]; [done|]. rewrite <- Hi in Hst.
  pose proof (Publish_objects l stub (rworld s1)) as [Hm Hd]. destruct (Publish l stub (rworld s1)) as [ok w].
  cbn [snd] in *. destruct (inv_world w s1 Hs1 Hd) as [H1 H2 H3 H4 H5 H6 H7 H8].
  { intros id l'. rewrite Hm. intros Hr. destruct (inv_registry s1 Hs1 id l' Hr). split; [by apply Hd|done]. }
  cbn [with_world ability_ inner_ live owned handlers rworld] in *.
  split; cbn [rworld ability_ inner_ live owned handlers]; try done.
  - intros h c' [[<- <-]|[_ Hc']]%lookup_insert_Some; [done|by eapply H2].
  - intros h h' c'. rewrite !lookup_insert_Some.
    intros [[<- <-]|[Hn1 Hc1]] [[<- Hc2]|[Hn2 Hc2]]; try done; [by destruct (Hfi h')|subst c'; by destruct (Hfi h)|by eapply H4].
  - intros l' h c' Hc' [[<- <-]|[_ Hh']]%lookup_insert_Some; [by destruct (Hfa l')|by eapply H5].
Qed.

Lemma release_inv stub s :
  rust_inv s → is_Some (inner_ s !! stub) → ∃ s', delete_RemoteServiceStub stub s = Some s' ∧ rust_inv s'.
Proof.
  intros [H1 H2 H3 H4 H5 H6 H7 H8] [b Hb]. unfold delete_RemoteServiceStub, Box_from_raw.
  rewrite Hb, decide_True by by eapply H2. eexists; split; [done|].
  split; cbn [rworld ability_ inner_ live owned handlers]; try done.
  - intros l c Hc. destruct (H1 l c Hc). split; [|done]. apply elem_of_difference. split; [done|].
    intros ->%elem_of_singleton. by apply (H5 l stub b).
  - intros h c [Hne Hc]%lookup_delete_Some. apply elem_of_difference. split; [by apply (H2 h)|].
    intros ->%elem_of_singleton. by apply Hne, (H4 stub h b).
  - intros h h' c [_ Hc1]%lookup_delete_Some [_ Hc2]%lookup_delete_Some. by eapply H4.
  - intros l h c Hl [_ Hc]%lookup_delete_Some. by eapply H5.
Qed.

(** No possible step is undefined, and each keeps the invariant. *)
Lemma rust_step_inv e s : rust_inv s → possible e s → ∃ s', rust_step e s = Some s' ∧ rust_inv s'.
Proof.
  intros Hs Hp. destruct e as [said roc|l|l|said|l stub|stub|stub|said|w]; cbn [rust_step possible] in *.
  - eexists; split; [done|]. by apply build_inv.
  - by apply drop_inv.
  - eexists; split; [done|]. by apply register_inv.
  - unfold GetAbility. cbn [gets fst]. destruct (localAbilityMap_ (rworld s) !! said) as [[l|]|] eqn:E;
      [by eapply call_inv|by exists s..].
  - by apply publish_inv.
  - destruct Hp as [b Hb]. unfold stub_request. rewrite Hb, decide_True by by apply (inv_inner s Hs stub).
    by exists s.
  - apply release_inv; [done|apply Hp].
  - eexists; split; [done|]. apply inv_world; [done| |]; unfold RemoveAbility; destruct (said <=? 0); cbn.
    + done.
    + done.
    + intros id l Hm. by apply (inv_registry s Hs id).
    + intros id l [_ Hm]%lookup_delete_Some. by apply (inv_registry s Hs id).
  - eexists; split; [done|]. by apply inv_same_objects.
Qed.

Lemma rust_reachable_inv w s : registry_alive w → rtc rust_next (rust_initial w) s → rust_inv s.
Proof.
  intros Hw. apply (rtc_ind_r rust_inv).
  - split; cbn; try done; set_solver.
  - intros s1 s2 _ [e [Hp Hs]] Hi. destruct (rust_step_inv e s1 Hi Hp) as (s' & Hs' & Hi').
    rewrite Hs in Hs'. by injection Hs' as ->.
Qed.

(** ** Properties *)

(** C13: The bindings are memory safe: in every history of abilities built, dropped,
    registered, called, publishing, serving requests and being removed from the
    registry, no step uses an object that is gone, reads a freed box or frees one
    twice; the objects in the registry exist and are not owned by Rust, and no
    two objects ever hold the same box. *)
Theorem rust_memory_safe w s e :
  registry_alive w → rtc rust_next (rust_initial w) s → possible e s →
  is_Some (rust_step e s) ∧
  (∀ id l, localAbilityMap_ (rworld s) !! id = Some (Some l) → is_Some (heap (rworld s) !! l) ∧ l ∉ owned s) ∧
  (∀ l b, ability_ s !! l = Some b → b ∈ live s) ∧ (∀ h b, inner_ s !! h = Some b → b ∈ live s) ∧
  (∀ l l' b, ability_ s !! l = Some b → ability_ s !! l' = Some b → l = l') ∧
  (∀ l h b, ability_ s !! l = Some b → inner_ s !! h ≠ Some b).
Proof.
  intros Hw Hr Hp. pose proof (rust_reachable_inv w s Hw Hr) as Hs.
  destruct (rust_step_inv e s Hs Hp) as (s' & Hs' & _).
  destruct Hs as [H1 H2 H3 H4 H5 H6 H7 H8]. split_and!; [by exists s'|exact H8| |exact H2|exact H3|].
  - intros l b Hb. by destruct (H1 l b Hb).
  - intros l h b Hb Hh. by eapply H5.
Qed.

(** An object nobody can reach: not owned, not registered, not known to Rust. *)
Definition unreachable (l : loc) (b : positive) (s : rust_process) : Prop :=
  ability_ s !! l = Some b ∧ ¬ (l ∈ owned s) ∧ ¬ (l ∈ handlers s) ∧
  ∀ id, localAbilityMap_ (rworld s) !! id ≠ Some (Some l).

Lemma unreachable_step l b e s s' :
  rust_inv s → possible e s → rust_step e s = Some s' → unreachable l b s → unreachable l b s'.
Proof.
  intros Hs Hp Hstep (Hb & Ho & Hh & Hm). destruct (inv_ability s Hs l b Hb) as [_ [x Hx]]. unfold unreachable.
  destruct e as [said roc|l'|l'|said|l' stub|stub|stub|said|w]; cbn [rust_step possible] in *.
  - injection Hstep as <-. unfold build_system_ability, Box_new, BuildSystemAbility, new_SystemAbilityWrapper, new_ability.
    cbn. assert (fresh (dom (heap (rworld s))) ≠ l) as Hne.
    { intros E. assert (l ∉ dom (heap (rworld s))) as Hn by (rewrite <- E; apply is_fresh).
      apply Hn, elem_of_dom. by exists x. }
    split_and!; [by rewrite lookup_insert_ne|set_solver|done|done].
  - assert (l' ≠ l) by congruence. unfold delete_SystemAbilityWrapper, Box_from_raw in Hstep.
    destruct (ability_ s !! l') as [c|]; [|done]. destruct (decide _); [|done]. injection Hstep as <-. cbn.
    split_and!; [by rewrite lookup_delete_ne|set_solver|done|done].
  - injection Hstep as <-. unfold register, RegisterAbility, MakeAndRegisterAbility. cbn [rworld]. rewrite AddAbility_run.
    destruct (GetProfile _ _); [|cbn; split_and!; [done|set_solver|done|done]].
    destruct (localAbilityMap_ (rworld s) !! _); cbn; (split_and!; [done|set_solver|done|]); [done|].
    intros id [[_ ?]|[_ Hi]]%lookup_insert_Some; [congruence|by eapply Hm].
  - unfold GetAbility in Hstep. cbn [gets fst] in Hstep.
    destruct (localAbilityMap_ (rworld s) !! said) as [[l'|]|] eqn:E; [|injection Hstep as <-; by split_and!..].
    assert (l' ≠ l) by (intros ->; by eapply Hm). unfold call_override in Hstep.
    destruct (heap _ !! l'); [|done]. destruct (ability_ s !! l'); [|injection Hstep as <-; by split_and!].
    destruct (decide _); [|done]. injection Hstep as <-. cbn. split_and!; [done|done|set_solver|done].
  - unfold publish, Box_new in Hstep. cbn [rworld] in Hstep. destruct (heap _ !! l'); [|done]. injection Hstep as <-.
    unfold PublishWrapper. destruct (stub =? 0); [by split_and!|]. cbn [rworld].
    pose proof (Publish_objects l' stub (rworld s)) as [Hpm _]. destruct (Publish l' stub (rworld s)) as [ok w].
    cbn in *. rewrite Hpm. by split_and!.
  - unfold stub_request in Hstep. destruct (inner_ s !! stub); [|done]. destruct (decide _); [|done].
    injection Hstep as <-. by split_and!.
  - unfold delete_RemoteServiceStub, Box_from_raw in Hstep. destruct (inner_ s !! stub); [|done].
    destruct (decide _); [|done]. injection Hstep as <-. by split_and!.
  - injection Hstep as <-. unfold RemoveAbility. destruct (said <=? 0); cbn; split_and!; try done.
    intros id [_ Hi]%lookup_delete_Some. by eapply Hm.
  - injection Hstep as <-. destruct Hp as [Hp _]. cbn. rewrite Hp. by split_and!.
Qed.

(** [register] drops the answer of the manager: when it refuses the object (no
    profile, or the id taken) the object and its box stay allocated for ever, and
    nobody can reach them. *)
Theorem refused_registration_leaks w s l b s' :
  registry_alive w → rtc rust_next (rust_initial w) s → l ∈ owned s → ability_ s !! l = Some b →
  (RegisterAbility l s).1 = false → rtc rust_next (register l s) s' →
  b ∈ live s' ∧ unreachable l b s'.
Proof.
  intros Hw Hr Hl Hb Hf Hr'. pose proof (rust_reachable_inv w s Hw Hr) as Hs.
  assert (unreachable l b (register l s)) as Hu.
  { unfold unreachable. destruct (inv_owned s Hs l Hl) as [_ Hh].
    assert (∀ id, localAbilityMap_ (rworld s) !! id ≠ Some (Some l)) as Hm.
    { intros id Hid. by destruct (inv_registry s Hs id l Hid). }
    unfold register, RegisterAbility, MakeAndRegisterAbility in *. cbn [rworld]. rewrite AddAbility_run in *.
    destruct (GetProfile _ _); [destruct (localAbilityMap_ _ !! _) eqn:E; [|done]|];
      cbn; (split_and!; [done|set_solver|done|done]). }
  assert (rust_inv s' ∧ unreachable l b s') as [Hs' Hu'].
  { revert s' Hr'. apply (rtc_ind_r (λ s, rust_inv s ∧ unreachable l b s)).
    - split; [by apply register_inv|done].
    - intros s1 s2 _ [e [Hp He]] [Hi1 Hu1]. split; [|by eapply unreachable_step].
      destruct (rust_step_inv e s1 Hi1 Hp) as (s3 & Hs3 & Hi3). rewrite He in Hs3. by injection Hs3 as ->. }
  split; [|done]. destruct Hu' as (Ha & _). by apply (inv_ability s' Hs' l b).
Qed.
End rust_memory.

(** ** Witnesses *)

Module DemoRust.
Import DemoJson DemoParcel DemoProfiles.
Abbreviation state := (rust_process (J := dj) (U := du)).
Abbreviation step := (rust_step (EN := DemoEnv.base_env)).
(** The profile of the process knows ability 402. *)
Definition fresh_process : state := rust_initial (DemoEnv.demo_world [demo_profile 402 true 1 [] (-1)]).
(** Ability 402 is built and registered, started, and publishes stub 9. *)
Definition built : state := build_system_ability 402 true fresh_process.
Definition registered : state := register 2%positive built.
Definition called : state := default registered (step (RCall 402) registered).
Definition published : state := default called (step (RPublish 2%positive 9) called).
(** A second object with the same id. *)
Definition again : state := build_system_ability 402 true published.
End DemoRust.
Import DemoJson DemoParcel DemoProfiles DemoRust.

Lemma demo_alive : registry_alive (DemoEnv.demo_world [demo_profile 402 true 1 [] (-1)]).
Proof. intros id l Hl. by vm_compute in Hl. Qed.
Lemma reach_published : rtc (rust_next (EN := DemoEnv.base_env)) fresh_process published.
Proof.
  apply rtc_l with built; [by exists (RBuild 402 true)|].
  apply rtc_l with registered.
  { exists (RRegister 2%positive). split; [|reflexivity]. cbn. apply (bool_decide_unpack _). vm_compute. exact I. }
  apply rtc_l with called; [exists (RCall 402); split; [exact I|vm_compute; reflexivity]|].
  apply rtc_once. exists (RPublish 2%positive 9). split; [|vm_compute; reflexivity].
  split; [apply (bool_decide_unpack _); vm_compute; exact I|right]. split; [vm_compute; reflexivity|].
  intros l x Hx. assert (Hm : map_Forall (λ _ x, publishObj_ x ≠ 9) (heap (rworld called))).
  { apply (bool_decide_unpack _). vm_compute. exact I. }
  by apply (Hm l).
Qed.

Lemma rust_memory_safe_witness :
  inner_ published !! 9 = Some 2%positive ∧ is_Some (step (RRequest 9) published).
Proof.
  split; [vm_compute; reflexivity|].
  apply (rust_memory_safe (EN := DemoEnv.base_env) (DemoEnv.demo_world [demo_profile 402 true 1 [] (-1)]) published (RRequest 9)).
  - apply demo_alive.
  - apply reach_published.
  - exists 2%positive. vm_compute. reflexivity.
Defined.

Lemma refused_registration_leaks_witness :
  3%positive ∈ live (register 3%positive again).
Proof.
  refine (proj1 (refused_registration_leaks (EN := DemoEnv.base_env)
    (DemoEnv.demo_world [demo_profile 402 true 1 [] (-1)]) again 3%positive 3%positive (register 3%positive again) _ _ _ _ _ _)).
  - apply demo_alive.
  - transitivity published; [apply reach_published|]. apply rtc_once. by exists (RBuild 402 true).
  - apply (bool_decide_unpack _). vm_compute. exact I.
  - vm_compute. reflexivity.
  - vm_compute. reflexivity.
  - apply rtc_refl.
Defined.
