(* ===== verification/Sound.v ===== *)
(** * Sound: the invariant of a process

    What holds of the abilities of a process at every moment, and that every
    operation of the framework keeps it.  [T] says of which ids an ability may be in
    the process: with all ids it is the well-typedness of [Process.v]; with the ids
    of a trust configuration it is what [TrustedBoot.v] shows of a boot.

    The code of the abilities and of their libraries is not part of the framework;
    what it does to the members of the manager and of the abilities is assumed to be a
    sequence of [lib_step]s: it creates objects, registers them, removes entries, and
    changes whatever else it has access to. *)

From S2P Require Import Prelude Interfaces Monad World SystemAbility Registry Listeners UnusedTimer.

Create HintDb sound.

Section sound.
  Context {J P U : Type} `{!Json J} `{!MessageParcel P} `{!ParseUtil U} `{SU : !StringUtil} `{SD : !SamgrDefs}.
  Context `{EN : !Env J P U}.

  #[local] Abbreviation world := (world J U).
  #[local] Abbreviation M := (prog J U).

(** ** What libraries do *)

(** The members of an object that are its own business and the framework's. *)
Definition core (s : system_ability) : Z * Z * SystemAbilityState * bool :=
  (saId_ s, dependTimeout_ s, abilityState_ s, isRunning_ s).
(** The private members of the manager that the invariant is about. *)
Definition manager_view (w : world) :=
  (localAbilityMap_ w, profileParser_ w, abilityPhaseMap_ w, initPool_ w).

(** One call or change of library code; [this] is the ability whose override it is
    in, if any.  To a derived class [system_ability.h] offers the constructors,
    [MakeAndRegisterAbility], [Publish], the listeners and calls to the manager of
    the system; the lifecycle operations and the setters are private. *)
Inductive lib_step (this : option loc) (w : world) : world → Prop :=
| lib_new l id runOnCreate :
    heap w !! l = None → lib_step this w (set_heap (<[l := new_SystemAbility id runOnCreate]> (heap w)) w)
| lib_register p : lib_step this w (MakeAndRegisterAbility p w).2
| lib_remove id : lib_step this w (RemoveAbility id w).2
| lib_publish l obj : this = Some l → lib_step this w (Publish l obj w).2
| lib_other w' :
    (∀ l, core <$> heap w' !! l = core <$> heap w !! l) → manager_view w' = manager_view w →
    lib_step this w w'.

(** What other threads do while this one sleeps. *)
Inductive other_step (w : world) : world → Prop :=
| other_lib w' : lib_step None w w' → other_step w w'
| other_start id : other_step w (OnStartAbility id w).2
| other_stop id : other_step w (OnStopAbility id w).2
| other_active id r : other_step w (ActiveAbility id r w).2
| other_idle id r d : other_step w (IdleAbility id r d w).2.

Class LibraryCalls : Prop := {
  OnStart_calls l r : respects (rtc (lib_step (Some l))) (OnStart l r);
  OnStop_calls l r : respects (rtc (lib_step (Some l))) (OnStop l r);
  OnActive_calls l r : respects (rtc (lib_step (Some l))) (OnActive l r);
  OnIdle_calls l r : respects (rtc (lib_step (Some l))) (OnIdle l r);
  OnAdd_calls l id d : respects (rtc (lib_step (Some l))) (OnAddSystemAbility l id d);
  OnRemove_calls l id d : respects (rtc (lib_step (Some l))) (OnRemoveSystemAbility l id d);
  OnLevel_calls l t v a : respects (rtc (lib_step (Some l))) (OnDeviceLevelChanged l t v a);
  OnExtension_calls l e d r : respects (rtc (lib_step (Some l))) (OnExtension l e d r);
  OnSvcCmd_calls l fd a : respects (rtc (lib_step (Some l))) (OnSvcCmd l fd a);
  LoadSaLib_calls id : respects (rtc (lib_step None)) (LoadSaLib id);
  OpenSo_calls p : respects (rtc (lib_step None)) (OpenSo p);
  elapse_calls us : respects (rtc other_step) (elapse us);
}.

(** ** The invariant *)

  Variable T : Z → Prop.

(** An ability that may be in the process. *)
Definition good (w : world) (l : loc) : Prop := ∃ s, heap w !! l = Some s ∧ T (saId_ s).

Record sound (w : world) : Prop := {
  sound_timeout l s : heap w !! l = Some s → timeout_ok s;
  sound_unloaded l s :
    heap w !! l = Some s → ¬ T (saId_ s) → abilityState_ s = NOT_LOADED ∧ isRunning_ s = false;
  sound_registry id p :
    localAbilityMap_ w !! id = Some p → ∃ l s, p = Some l ∧ heap w !! l = Some s ∧ saId_ s = id ∧ T id;
  sound_profiles id pr : GetProfile id (profileParser_ w) = Some pr → T id;
  sound_phases ph q l : abilityPhaseMap_ w !! ph = Some q → Some l ∈ q → good w l;
  sound_pool l : l ∈ initPool_ w → good w l;
}.

(** No object goes away, and none changes its id. *)
Definition same_ids (w w' : world) : Prop :=
  ∀ l s, heap w !! l = Some s → ∃ s', heap w' !! l = Some s' ∧ saId_ s' = saId_ s.

(** What a program keeps, about the ability [o] if it is given. *)
Definition sound_step (o : option loc) (w w' : world) : Prop :=
  sound w → (∀ l, o = Some l → good w l) → sound w' ∧ same_ids w w'.

(** A manager that has nothing registered, queued or loaded. *)
Definition unpopulated (w : world) : Prop :=
  (∀ l s, heap w !! l = Some s → timeout_ok s ∧ abilityState_ s = NOT_LOADED ∧ isRunning_ s = false) ∧
  localAbilityMap_ w = ∅ ∧ abilityPhaseMap_ w = ∅ ∧ initPool_ w = [].

(** ** Lemmas *)

Lemma unpopulated_sound w :
  unpopulated w → (∀ id pr, GetProfile id (profileParser_ w) = Some pr → T id) → sound w.
Proof.
  intros (Hh & Hm & Hp & Hq) Ht. split; [by intros l s [? _]%Hh|by intros l s [_ ?]%Hh| |done| |].
  - intros id p. by rewrite Hm.
  - intros ph q l. by rewrite Hp.
  - intros l. rewrite Hq. by intros ?%elem_of_nil.
Qed.

#[export] Instance same_ids_preorder : PreOrder same_ids.
Proof.
  split; [by intros w l s; exists s|]. intros w1 w2 w3 H1 H2 l s Hl.
  destruct (H1 l s Hl) as (s2 & Hl2 & E2). destruct (H2 l s2 Hl2) as (s3 & Hl3 & E3).
  exists s3. split; [done|congruence].
Qed.
Lemma good_same w w' l : same_ids w w' → good w l → good w' l.
Proof. intros Hi (s & Hl & Ht). destruct (Hi l s Hl) as (s' & Hl' & E). exists s'. by rewrite E. Qed.

#[export] Instance sound_step_preorder o : PreOrder (sound_step o).
Proof.
  split; [by intros w|]. intros w1 w2 w3 H1 H2 Hs Ho. destruct (H1 Hs Ho) as [Hs2 Hi].
  destruct (H2 Hs2) as [Hs3 Hi3]; [intros l E; apply (good_same w1); auto|]. split; [done|by etrans].
Qed.
Lemma sound_step_weaken o w w' : sound_step None w w' → sound_step o w w'.
Proof. intros H Hs _. by apply H. Qed.
Lemma respects_weaken o {A} (m : M A) : respects (sound_step None) m → respects (sound_step o) m.
Proof. intros H w. apply sound_step_weaken, H. Qed.
Lemma sound_step_rtc (R : relation world) o w w' :
  (∀ w w', R w w' → sound_step o w w') → rtc R w w' → sound_step o w w'.
Proof. intros H. induction 1 as [|w w1 w2 Hw _ IH]; [reflexivity|]. etrans; [by apply H|exact IH]. Qed.

(** Objects that change neither id, nor what the invariant says of them. *)
Lemma core_sound o w w' :
  (∀ l, core <$> heap w' !! l = core <$> heap w !! l) → manager_view w' = manager_view w → sound_step o w w'.
Proof.
  intros Hc [= Hm Hp Hph Hq] [S1 S2 S3 S4 S5 S6] _.
  assert (∀ l s', heap w' !! l = Some s' → ∃ s, heap w !! l = Some s ∧ core s' = core s) as Hback.
  { intros l s' Hl. specialize (Hc l). rewrite Hl in Hc. destruct (heap w !! l) as [s|]; [|done].
    injection Hc as ????. exists s. split; [done|]. unfold core. congruence. }
  assert (same_ids w w') as Hi.
  { intros l s Hl. specialize (Hc l). rewrite Hl in Hc. destruct (heap w' !! l) as [s'|]; [|done].
    injection Hc as ????. by exists s'. }
  split; [|done]. split; rewrite ?Hm, ?Hp, ?Hph, ?Hq; try done.
  - intros l s' Hl. destruct (Hback l s' Hl) as (s & Hs & [= _ E _ _]). unfold timeout_ok. rewrite E. by apply (S1 l).
  - intros l s' Hl. destruct (Hback l s' Hl) as (s & Hs & [= -> _ -> ->]). by apply (S2 l).
  - intros id p Hid. destruct (S3 id p Hid) as (l & s & -> & Hl & E & Ht). destruct (Hi l s Hl) as (s' & Hl' & E').
    exists l, s'. split_and!; [done|done|congruence|done].
  - intros ph q l Hph' Hl. apply (good_same w); [done|]. by apply (S5 ph q).
  - intros l Hl. apply (good_same w); [done|]. by apply S6.
Qed.
Lemma private_sound o {A} (m : M A) : keeps heap m → keeps manager_view m → respects (sound_step o) m.
Proof. intros Hh Hm w. apply core_sound; [|apply Hm]. intros l. by rewrite (Hh w). Qed.

(** An object is changed: its lifecycle only if it may be in the process. *)
Lemma put_sound o f l :
  (∀ s, saId_ (f s) = saId_ s ∧ (timeout_ok s → timeout_ok (f s)) ∧
        (o = Some l ∨ abilityState_ (f s) = abilityState_ s ∧ isRunning_ (f s) = isRunning_ s)) →
  respects (sound_step o) (put_sa f l).
Proof.
  intros Hf w [S1 S2 S3 S4 S5 S6] Ho. unfold put_sa. cbn [modify snd].
  set (s0 := sa_at w l). destruct (Hf s0) as (F1 & F2 & F3).
  assert (heap w !! l = Some s0 ∨ heap w !! l = None ∧ s0 = new_SystemAbility 0 false) as H0.
  { unfold s0, sa_at. destruct (heap w !! l); [by left|by right]. }
  assert (same_ids w (set_heap (<[l := f s0]> (heap w)) w)) as Hi.
  { intros l' s Hl'. cbn [heap set_heap]. destruct (decide (l = l')) as [<-|Hne].
    - rewrite lookup_insert_eq. exists (f s0). split; [done|]. destruct H0 as [H0|[H0 _]]; congruence.
    - rewrite lookup_insert_ne by done. by exists s. }
  split; [|done]. split; cbn [heap set_heap localAbilityMap_ profileParser_ abilityPhaseMap_ initPool_]; try done.
  - intros l' s. rewrite lookup_insert_Some. intros [[<- <-]|[_ Hl']]; [|by apply (S1 l')]. apply F2.
    destruct H0 as [H0|[_ ->]]; [by apply (S1 l)|]. unfold timeout_ok, MIN_DEPENDENCY_TIMEOUT, MAX_DEPENDENCY_TIMEOUT.
    simpl. unfold DEFAULT_DEPENDENCY_TIMEOUT. lia.
  - intros l' s. rewrite lookup_insert_Some. intros [[<- <-]|[_ Hl']]; [|by apply (S2 l')]. rewrite F1. intros Hn.
    destruct F3 as [F3|[-> ->]].
    + destruct (Ho l F3) as (s & Hl & Ht). destruct H0 as [H0|[H0 _]]; congruence.
    + destruct H0 as [H0|[_ ->]]; [by apply (S2 l)|done].
  - intros id p Hid. destruct (S3 id p Hid) as (l' & s & -> & Hl' & E & Ht). destruct (Hi l' s Hl') as (s' & Hs' & E').
    exists l', s'. split_and!; [done|done|congruence|done].
  - intros ph q l' Hph Hl'. apply (good_same w); [done|]. by apply (S5 ph q).
  - intros l' Hl'. apply (good_same w); [done|]. by apply S6.
Qed.

Lemma set_profile_attrs_core pr s :
  abilityState_ (set_profile_attrs pr s) = abilityState_ s ∧ isRunning_ (set_profile_attrs pr s) = isRunning_ s.
Proof. unfold set_profile_attrs, SetDependTimeout. simpl. by case_match. Qed.

Lemma AddAbility_sound o p : respects (sound_step o) (AddAbility p).
Proof.
  intros w. destruct p as [l|]; [|by intros Hs]. rewrite AddAbility_run. set (id := saId_ (sa_at w l)).
  destruct (GetProfile id (profileParser_ w)) as [pr|] eqn:Hpr; [|by intros Hs].
  destruct (localAbilityMap_ w !! id) eqn:Hid; [by intros Hs|].
  assert (respects (sound_step o) (put_sa (set_profile_attrs pr) l)) as Hput.
  { apply put_sound. intros s. split_and!; [apply set_profile_attrs_id|apply set_profile_attrs_timeout|].
    right. apply set_profile_attrs_core. }
  intros Hs Ho. pose proof (sound_profiles w Hs id pr Hpr) as Ht. destruct (Hput w Hs Ho) as [[S1 S2 S3 S4 S5 S6] Hi].
  cbn [put_sa modify snd heap set_heap localAbilityMap_ profileParser_ abilityPhaseMap_ initPool_] in *.
  split; [|exact Hi]. split; cbn [snd heap set_heap localAbilityMap_ set_localAbilityMap_ profileParser_ abilityPhaseMap_ initPool_]; try done.
  intros id' p'. rewrite lookup_insert_Some. intros [[<- <-]|[_ Hid']]; [|by apply S3].
  exists l, (set_profile_attrs pr (sa_at w l)). rewrite lookup_insert_eq, set_profile_attrs_id. done.
Qed.

Lemma RemoveAbility_sound o id : respects (sound_step o) (RemoveAbility id).
Proof.
  intros w Hs _. unfold RemoveAbility. destruct (id <=? 0); [done|]. split; [|by intros l s Hl; exists s].
  destruct Hs as [S1 S2 S3 S4 S5 S6]. split; simpl; try done.
  intros id' p [_ Hid]%lookup_delete_Some. by apply S3.
Qed.

(** A lookup gives an ability that may be in the process. *)
Lemma get_ability_sound o id {A} (k : ptr → M A) :
  (∀ l, respects (sound_step (Some l)) (k (Some l))) → respects (sound_step o) (k None) →
  respects (sound_step o) (bind (GetAbility id) k).
Proof.
  intros Hk Hn w Hs Ho. rewrite bind_run. cbn [GetAbility gets fst snd].
  destruct (localAbilityMap_ w !! id) as [[l|]|] eqn:E; [|by apply Hn..].
  apply Hk; [done|]. intros l' [= <-]. destruct (sound_registry w Hs id _ E) as (l0 & s & [= <-] & Hl & <- & Ht).
  by exists s.
Qed.
End sound.

(** One step through a program; what is left are the overrides and the operations
    that have lemmas. *)
Ltac sound_tac :=
  lazymatch goal with
  | |- respects _ (bind (GetAbility _) _) => apply get_ability_sound; [intros ?|]
  | |- respects ?R (bind _ _) => apply (respects_bind R); [|intros ?]
  | |- respects ?R (ret _) => exact (respects_ret R _)
  | |- respects ?R (gets _) => exact (respects_gets R _)
  | |- respects _ (get_sa _ _) => by apply private_sound
  | |- respects _ (call _) => by apply private_sound
  | |- respects _ (modify _) => by apply private_sound
  | |- respects _ (put_sa _ _) => apply put_sound; intros []; split_and!; [done|done|by (left + right)]
  | |- respects ?R (for_each _ _) => apply (respects_for_each R); intros ?
  | |- respects _ (match ?x with _ => _ end) => destruct x
  | |- respects _ (enter _ _) => unfold enter
  | _ => solve [auto with sound]
  end.
Ltac sound := repeat sound_tac.

Section operations.
  Context {J P U : Type} `{!Json J} `{!MessageParcel P} `{!ParseUtil U} `{SU : !StringUtil} `{SD : !SamgrDefs}.
  Context `{EN : !Env J P U}.
  Variable T : Z → Prop.

  #[local] Abbreviation M := (prog J U).

Lemma GetSamgr_sound o : respects (sound_step T o) GetSystemAbilityManager.
Proof. unfold GetSystemAbilityManager. sound. Qed.
#[local] Hint Resolve GetSamgr_sound : sound.
Lemma Publish_sound l obj : respects (sound_step T (Some l)) (Publish l obj).
Proof. unfold Publish. sound. Qed.

Lemma lib_step_sound o w w' : lib_step o w w' → sound_step T o w w'.
Proof.
  intros [l id roc Hl|p|id|l obj ->|w'' Hc Hm].
  - intros Hs _. destruct Hs as [S1 S2 S3 S4 S5 S6].
    assert (same_ids w (set_heap (<[l := new_SystemAbility id roc]> (heap w)) w)) as Hi.
    { intros l' s Hl'. exists s. cbn. rewrite lookup_insert_ne; [done|congruence]. }
    split; [|done]. split; cbn [heap set_heap localAbilityMap_ profileParser_ abilityPhaseMap_ initPool_]; try done.
    + intros l' s. rewrite lookup_insert_Some. intros [[<- <-]|[_ Hl']]; [|by apply (S1 l')].
      unfold timeout_ok, MIN_DEPENDENCY_TIMEOUT, MAX_DEPENDENCY_TIMEOUT. simpl. unfold DEFAULT_DEPENDENCY_TIMEOUT. lia.
    + intros l' s. rewrite lookup_insert_Some. intros [[<- <-]|[_ Hl']]; [done|by apply (S2 l')].
    + intros id' p Hid. destruct (S3 id' p Hid) as (l' & s & -> & Hl' & E & Ht). destruct (Hi l' s Hl') as (s' & Hs' & E').
      exists l', s'. split_and!; [done|done|congruence|done].
    + intros ph q l' Hph Hl'. apply (good_same T w); [done|]. by apply (S5 ph q).
    + intros l' Hl'. apply (good_same T w); [done|]. by apply S6.
  - apply AddAbility_sound.
  - apply RemoveAbility_sound.
  - apply Publish_sound.
  - by apply core_sound.
Qed.
Lemma libs_sound o {A} (m : M A) : respects (rtc (lib_step o)) m → respects (sound_step T o) m.
Proof. intros Hm w. apply (sound_step_rtc T (lib_step o)); [apply lib_step_sound|apply Hm]. Qed.

Context `{LC : !LibraryCalls}.
(** The calls into libraries. *)
#[local] Hint Extern 1 (respects _ _) => apply libs_sound; first [apply OnStart_calls|apply OnStop_calls
  |apply OnActive_calls|apply OnIdle_calls|apply OnAdd_calls|apply OnRemove_calls|apply OnLevel_calls
  |apply OnExtension_calls|apply OnSvcCmd_calls] : sound.
Lemma LoadSaLib_sound o id : respects (sound_step T o) (LoadSaLib id).
Proof. apply respects_weaken, libs_sound, LoadSaLib_calls. Qed.
Lemma OpenSo_sound o p : respects (sound_step T o) (OpenSo p).
Proof. apply respects_weaken, libs_sound, OpenSo_calls. Qed.
#[local] Hint Resolve LoadSaLib_sound OpenSo_sound : sound.

(** ** The operations of an ability *)

Lemma GetExtra_sound o r : respects (sound_step T o) (GetOnDemandReasonExtraData r).
Proof. unfold GetOnDemandReasonExtraData. sound. Qed.
Lemma GetStartReason_sound o id : respects (sound_step T o) (GetStartReason id).
Proof. apply private_sound; intros w; unfold GetStartReason; by case_match. Qed.
Lemma GetStopReason_sound o id : respects (sound_step T o) (GetStopReason id).
Proof. apply private_sound; intros w; unfold GetStopReason; by case_match. Qed.
#[local] Hint Resolve GetExtra_sound GetStartReason_sound GetStopReason_sound : sound.

Lemma Start_sound l : respects (sound_step T (Some l)) (Start l).
Proof. unfold Start, Start_check, Start_body, Start_reason, json_reason, Start_finish. sound. Qed.
Lemma Idle_sound l r : respects (sound_step T (Some l)) (Idle l r).
Proof. unfold Idle, Idle_check, Idle_body, Idle_finish. sound. Qed.
Lemma Active_sound l r : respects (sound_step T (Some l)) (Active l r).
Proof. unfold Active, Active_check, Active_body, Active_finish. sound. Qed.
Lemma Stop_sound l : respects (sound_step T (Some l)) (Stop l).
Proof. unfold Stop, Stop_check, Stop_body, Stop_reason, json_reason, Stop_finish. sound. Qed.
#[local] Hint Resolve Start_sound Idle_sound Active_sound Stop_sound : sound.

(** ** The operations of the registry, the listeners and the timer *)

Lemma OnStartAbility_sound o id : respects (sound_step T o) (OnStartAbility id).
Proof. unfold OnStartAbility. sound. Qed.
Lemma OnStopAbility_sound o id : respects (sound_step T o) (OnStopAbility id).
Proof. unfold OnStopAbility. sound. Qed.
Lemma ActiveAbility_sound o id r : respects (sound_step T o) (ActiveAbility id r).
Proof. unfold ActiveAbility, json_reason. sound. Qed.
Lemma IdleAbility_sound o id r d : respects (sound_step T o) (IdleAbility id r d).
Proof. unfold IdleAbility, json_reason. sound. Qed.
#[local] Hint Resolve OnStartAbility_sound OnStopAbility_sound ActiveAbility_sound IdleAbility_sound : sound.

Lemma other_step_sound o w w' : other_step w w' → sound_step T o w w'.
Proof.
  intros [w2 Hw|id|id|id r|id r d]; [by apply sound_step_weaken, lib_step_sound|..];
    [apply OnStartAbility_sound|apply OnStopAbility_sound|apply ActiveAbility_sound|apply IdleAbility_sound].
Qed.
Lemma elapse_sound o us : respects (sound_step T o) (elapse us).
Proof. intros w. apply (sound_step_rtc T other_step); [apply other_step_sound|apply elapse_calls]. Qed.
#[local] Hint Resolve elapse_sound : sound.

Lemma wait_sound o id n : respects (sound_step T o) (wait_for_ability id n).
Proof. induction n as [|n IH]; cbn [wait_for_ability]; unfold usleep; sound. Qed.
#[local] Hint Resolve wait_sound : sound.
Lemma run_thread_sound i : respects (sound_step T None) (run_thread i).
Proof. unfold run_thread, StartOndemandSystemAbility, StopOndemandSystemAbility. sound. Qed.
Lemma Notify_sound id l d c : respects (sound_step T None) (NotifyAbilityListener id l d c).
Proof. unfold NotifyAbilityListener. sound. Qed.
#[local] Hint Resolve Notify_sound : sound.
Lemma FindAndNotify_sound id d c : respects (sound_step T None) (FindAndNotifyAbilityListeners id d c).
Proof. unfold FindAndNotifyAbilityListeners, find_listeners_locked, put_listeners. sound. Qed.
Lemma Timer_sound : respects (sound_step T None) IdentifyUnusedOndemand.
Proof. unfold IdentifyUnusedOndemand, check_unused, GetSaLastRequestTime. sound. Qed.

Lemma LocalStartAbility_sound id e : respects (sound_step T None) (LocalStartAbility id e).
Proof. unfold LocalStartAbility, SetStartReason. sound. Qed.
Lemma LocalStopAbility_sound id e : respects (sound_step T None) (LocalStopAbility id e).
Proof. unfold LocalStopAbility, SetStopReason. sound. Qed.
Lemma SendStrategyToSA_sound t id v a : respects (sound_step T None) (SendStrategyToSA t id v a).
Proof. unfold SendStrategyToSA. sound. Qed.
Lemma SystemAbilityExtProc_sound e id c : respects (sound_step T None) (SystemAbilityExtProc e id c).
Proof. unfold SystemAbilityExtProc. sound. Qed.
Lemma ServiceControlCmd_sound fd id a : respects (sound_step T None) (ServiceControlCmd fd id a).
Proof. unfold ServiceControlCmd. sound. Qed.
End operations.

#[export] Hint Extern 1 (respects (sound_step _ _) _) => first [apply GetSamgr_sound|apply LoadSaLib_sound
  |apply OpenSo_sound|apply elapse_sound|apply Start_sound] : sound.

(** ** Libraries for the witnesses

    Loading the library of an ability creates the ability and registers it, and does
    the same with the ids [extra]; in a phase the libraries of its run-on-create
    profiles are loaded; an ability publishes itself when it is started.  The manager
    has every ability it is asked for. *)

Module DemoLibrary.
Import DemoDefs DemoJson DemoParcel DemoProfiles.
Abbreviation dprog := (prog dj du).

Definition bring (id : Z) : dprog unit := λ w,
  let l := fresh (dom (heap w)) in
  (tt, (MakeAndRegisterAbility (Some l) (set_heap (<[l := new_SystemAbility id true]> (heap w)) w)).2).
Definition load (extra : list Z) (id : Z) : dprog bool :=
  do! bring id in do! for_each bring extra in ret true.
Definition load_phase (extra : list Z) (phase : Z) : dprog unit :=
  let! l := gets (λ w, filter (λ pr, runOnCreate pr = true ∧ bootPhase pr = phase) (profiles (profileParser_ w))) in
  for_each (λ pr, do! load extra (saId pr) in ret tt) l.
Definition publish (l : loc) : dprog unit := do! Publish (Env0 := DemoEnv.base_env) l 5 in ret tt.

Definition library_env (extra : list Z) : Env dj dp du := {|
  respond h e := match e with EvCheckSystemAbility _ => 1 | _ => DemoEnv.demo_respond h e end;
  extra_data_parcel _ := DemoParcel.empty_parcel 8;
  indet_reason_id _ := 77;
  OnStart l _ := publish l;
  OnStop _ _ := ret tt;
  OnActive _ _ := ret tt;
  OnIdle _ _ := ret 0;
  OnAddSystemAbility _ _ _ := ret tt;
  OnRemoveSystemAbility _ _ _ := ret tt;
  OnDeviceLevelChanged _ _ _ a := ret a;
  OnExtension _ _ d r := ret (0, d, r);
  OnSvcCmd _ _ _ := ret (-1);
  LoadSaLib := load extra;
  OpenSo := load_phase extra;
  realpath p := Some p;
  elapse _ := ret tt;
|}.

Section calls.
  Variable extra : list Z.
#[local] Instance the_env : Env dj dp du := library_env extra.

Lemma bring_calls o id : respects (rtc (lib_step o)) (bring id).
Proof.
  intros w. unfold bring. eapply rtc_l; [|apply rtc_once, lib_register].
  apply lib_new, not_elem_of_dom, is_fresh.
Qed.
Lemma load_calls o id : respects (rtc (lib_step o)) (load extra id).
Proof.
  apply respects_bind; [apply _|apply bring_calls|intros ?].
  apply respects_bind; [apply _| |intros ?; exact (respects_ret (rtc _) true)].
  apply respects_for_each; [apply _|]. intros x. apply bring_calls.
Qed.

#[export] Instance library_calls : LibraryCalls (EN := library_env extra).
Proof.
  split; intros; try exact (respects_ret (rtc _) _).
  - intros w. cbn [OnStart library_env]. unfold publish. rewrite bind_run. cbn [ret snd].
    apply rtc_once. exact (lib_publish (Some l) w l 5 eq_refl).
  - apply load_calls.
  - cbn [OpenSo library_env]. unfold load_phase. apply respects_bind; [apply _|exact (respects_gets (rtc _) _)|].
    intros ps. apply respects_for_each; [apply _|]. intros pr.
    apply respects_bind; [apply _|apply load_calls|]. intros ?. exact (respects_ret (rtc _) tt).
Qed.
End calls.

(** A process that has read profiles of 401, in phase 1, and 402, in phase 2; only
    ability 401 is trusted. *)
Definition two_profiles : list SaProfile := [demo_profile 401 true 1 [] (-1); demo_profile 402 true 2 [] (-1)].
Definition reading (l : list SaProfile) : DemoEnv.dworld :=
  new_LocalAbilityManager (mk_du [100] l (Some {[[100] := {[401]}]})).
Lemma reading_unpopulated l : unpopulated (reading l).
Proof. by split. Qed.
End DemoLibrary.
