(* ===== verification/Process.v ===== *)
(** * Process: the components of a process together

    The events a process of the framework lives on - requests of other processes,
    the detached threads, the notifications of the system ability manager, the
    timed query and the delayed clear task - as the steps of one state machine,
    and what holds of the whole process in every history of them. *)

From S2P Require Import Prelude Interfaces Monad World SystemAbility Registry Listeners UnusedTimer.
From S2P Require Import Dumper Stub Manager Sound.

Section process.
  Context {J P U : Type} `{!Json J} `{!MessageParcel P} `{!ParseUtil U} `{SU : !StringUtil} `{SD : !SamgrDefs}.
  Context `{EN : !Env J P U} `{DE : !DumperEnv} `{!KitEnv J P U}.

  #[local] Abbreviation proc := (process J U).
  #[local] Abbreviation world := (world J U).
  #[local] Abbreviation M := (prog J U).

Inductive process_step (p : proc) : proc → Prop :=
| step_request code data reply : process_step p (OnRemoteRequest (P := P) code data reply p).2
| step_thread i : process_step p (on_abilities (run_thread i) p).2
| step_add id device : process_step p (on_abilities (Listener_OnAddSystemAbility id device) p).2
| step_remove id device : process_step p (on_abilities (Listener_OnRemoveSystemAbility id device) p).2
| step_timer : process_step p (on_abilities IdentifyUnusedOndemand p).2
| step_clear_begin task :
    task ∈ pending (statistics p) →
    process_step p (mk_process (abilities p) (begin_task task (statistics p)) (closed_fds p))
| step_clear_run : (0 < begun (statistics p))%nat → process_step p (on_statistics run_task p).2.

(** ** What every event keeps *)

Section typed.
  Context `{LC : !LibraryCalls} `{BC : !BaseClassLaws J P U}.
  Variable T : Z → Prop.

(** The abilities are sound, and the statistics well formed. *)
Definition process_typed (p : proc) : Prop := sound T (abilities p) ∧ dumper_wf (statistics p).
Definition typed_process (p q : proc) : Prop :=
  process_typed p → process_typed q ∧ same_ids (abilities p) (abilities q).
#[local] Instance typed_process_preorder : PreOrder typed_process.
Proof.
  split; [by intros w|]. intros w1 w2 w3 R1 R2 Hw. destruct (R1 Hw) as [H2 I2]. destruct (R2 H2) as [H3 I3].
  split; [done|by etrans].
Qed.

Lemma on_abilities_typed {A} (m : M A) : respects (sound_step T None) m → respects typed_process (on_abilities m).
Proof. intros Hm p [Ha Hs]. destruct (Hm (abilities p) Ha) as [Ha' Hi]; [done|]. by split. Qed.
Lemma on_statistics_typed {A} (m : sprog dumper A) :
  (∀ d, dumper_wf d → dumper_wf (m d).2) → respects typed_process (on_statistics m).
Proof. intros Hm p [Ha Hs]. split; [|by intros l s Hl; exists s]. split; [exact Ha|by apply Hm]. Qed.

Lemma ability_ops_typed : ability_ops typed_process.
Proof.
  split; intros; apply on_abilities_typed.
  - apply LocalStartAbility_sound.
  - apply LocalStopAbility_sound.
  - by apply ActiveAbility_sound.
  - by apply IdleAbility_sound.
  - by apply SendStrategyToSA_sound.
  - by apply SystemAbilityExtProc_sound.
  - by apply ServiceControlCmd_sound.
Qed.

(** Calls other than [ffrt_dump] keep the statistics well formed. *)
Lemma dcall_wf e d :
  (∀ c live, e ≠ DFfrtDump c live) → dumper_wf d → dumper_wf (dcall e d).2.
Proof.
  intros He [Ht Hb Hl]. split; [exact Ht|exact Hb|].
  intros c live [Hin|Hin]%elem_of_app; [by apply (Hl c)|].
  apply list_elem_of_singleton in Hin. by destruct (He c live).
Qed.
Lemma save_wf fd s d : dumper_wf d → dumper_wf (SaveStringToFd fd s d).2.
Proof. intros Hd. unfold SaveStringToFd. rewrite bind_run. by apply dcall_wf. Qed.
Lemma stat_ops_typed : stat_ops typed_process.
Proof.
  split; intros; apply on_statistics_typed; intros d Hd.
  - unfold IpcStatCmdProc. destruct (_ || _); [done|].
    assert (∀ (m : sprog dumper (bool * string)), (∀ d, dumper_wf d → dumper_wf (m d).2) →
      dumper_wf ((let! r := m in let '(ok, result) := r in
                  let! saved := SaveStringToFd fd result in ret (if saved : bool then ok else false)) d).2) as Hf.
    { intros m Hm. rewrite bind_run. specialize (Hm d Hd). destruct (m d) as [[ok result] d1].
      cbn [fst snd] in *. rewrite bind_run. by apply save_wf. }
    destruct (_ =? _); [|destruct (_ =? _); [|destruct (_ =? _); [|done]]]; apply Hf; intros d' Hd';
      unfold StartIpcStatistics, StopIpcStatistics, GetIpcStatistics; rewrite bind_run; [by apply dcall_wf..|done].
  - unfold FfrtStatCmdProc. destruct (_ || _); [done|]. rewrite bind_run.
    pose proof (proj1 (collect_follows cmd "" d Hd)) as Hc.
    destruct (CollectFfrtStatistics cmd "" d) as [[ok result] d1]. cbn [fst snd] in *.
    rewrite bind_run. by apply save_wf.
  - unfold FfrtDumperProc. destruct ffrt_dump_symbol; [|done]. by destruct (Nat.eqb _ _).
Qed.

Lemma found_handler code h : find_handler code (memberFuncMap_ (S := proc) (P := P)) = Some h → ∃ c, h = handler_of c.
Proof.
  unfold memberFuncMap_. cbn [find_handler].
  destruct (_ =? code); [intros [= <-]; by exists START_ABILITY_TRANSACTION|].
  destruct (_ =? code); [intros [= <-]; by exists STOP_ABILITY_TRANSACTION|].
  destruct (_ =? code); [intros [= <-]; by exists ACTIVE_ABILITY_TRANSACTION|].
  destruct (_ =? code); [intros [= <-]; by exists IDLE_ABILITY_TRANSACTION|].
  destruct (_ =? code); [intros [= <-]; by exists SEND_STRATEGY_TO_SA_TRANSACTION|].
  destruct (_ =? code); [intros [= <-]; by exists IPC_STAT_CMD_TRANSACTION|].
  destruct (_ =? code); [intros [= <-]; by exists FFRT_DUMPER_TRANSACTION|].
  destruct (_ =? code); [intros [= <-]; by exists SYSTEM_ABILITY_EXT_TRANSACTION|].
  destruct (_ =? code); [intros [= <-]; by exists FFRT_STAT_CMD_TRANSACTION|].
  destruct (_ =? code); [intros [= <-]; by exists SERVICE_CONTROL_CMD_TRANSACTION|].
  done.
Qed.
Lemma request_typed code data reply : respects typed_process (OnRemoteRequest (P := P) code data reply).
Proof.
  intros p. rewrite request_run. destruct (passes code data p); [|reflexivity].
  destruct (find_handler code memberFuncMap_) as [h|] eqn:E.
  2: { unfold typed_process, process_typed. rewrite base_abilities, base_statistics. by intros Hp. }
  destruct (found_handler code h E) as [c ->].
  apply (handler_respects typed_process); [|intros _; exact ability_ops_typed|intros _; exact stat_ops_typed].
  intros fd q [Ha Hs]. split; [by split|by intros l s Hl; exists s].
Qed.

Lemma process_step_typed p q : process_step p q → typed_process p q.
Proof.
  intros [code data reply|i|id dev|id dev| |task Ht|Hb].
  - apply request_typed.
  - by apply on_abilities_typed, run_thread_sound.
  - apply on_abilities_typed. unfold Listener_OnAddSystemAbility.
    destruct (negb _); [apply respects_ret, _|by apply FindAndNotify_sound].
  - apply on_abilities_typed. unfold Listener_OnRemoveSystemAbility.
    destruct (negb _); [apply respects_ret, _|by apply FindAndNotify_sound].
  - by apply on_abilities_typed, Timer_sound.
  - intros [Ha Hs]. split; [|by intros l s Hl; exists s]. split; [exact Ha|].
    exact (dumper_step_wf _ _ (dstep_begin _ _ Ht) Hs).
  - intros [Ha Hs]. split; [|by intros l s Hl; exists s]. split; [exact Ha|].
    exact (dumper_step_wf _ _ (dstep_run _ Hb) Hs).
Qed.

Lemma process_steps_typed p q : rtc process_step p q → typed_process p q.
Proof. induction 1 as [|p q r Hp _ IH]; [reflexivity|]. etrans; [by apply process_step_typed|exact IH]. Qed.
End typed.

(** C5: Every process stays well typed: in any history of requests (whoever sends
    them, whatever their parcels hold), detached threads, notifications, timed
    queries and clear tasks, in which libraries create and register abilities and the
    base class of the stub keeps out of the members of its subclass, every
    key of the registry maps to an existing object with that very id, no object goes
    away or changes its id, every dependency timeout stays between 200 and 60000
    milliseconds, the runtime is never handed a null metric buffer, and a pending
    clear task is one the handler can cancel. *)
Theorem process_well_typed `{LC : !LibraryCalls} `{BC : !BaseClassLaws J P U} p q :
  sound (λ _, True) (abilities p) → statistics p = new_dumper → rtc process_step p q →
  (∀ id a, localAbilityMap_ (abilities q) !! id = Some a →
     ∃ l s, a = Some l ∧ heap (abilities q) !! l = Some s ∧ saId_ s = id) ∧
  (∀ l s, heap (abilities p) !! l = Some s → ∃ s', heap (abilities q) !! l = Some s' ∧ saId_ s' = saId_ s) ∧
  (∀ l s, heap (abilities q) !! l = Some s → MIN_DEPENDENCY_TIMEOUT ≤ dependTimeout_ s ≤ MAX_DEPENDENCY_TIMEOUT) ∧
  (∀ c live, DFfrtDump c live ∈ dlog (statistics q) → live = true) ∧ task_known (statistics q).
Proof.
  intros Ha Hs Hr. assert (process_typed (λ _, True) p) as Hp.
  { split; [done|]. rewrite Hs. by apply dumper_reachable_wf. }
  destruct (process_steps_typed _ p q Hr Hp) as [[Ha' [Ht _ Hl]] Hi].
  split_and!; [|exact Hi|apply (sound_timeout _ _ Ha')|exact Hl|exact Ht].
  intros id a Hid. destruct (sound_registry _ _ Ha' id a Hid) as (l & s & -> & ? & ? & _). by exists l, s.
Qed.
End process.

(** ** Witness *)

Import DemoDefs DemoJson DemoParcel DemoProfiles DemoDumper DemoStub DemoManager DemoLibrary.
#[local] Instance libraries : Env dj dp du := library_env [402].

(** A process without abilities is asked to start ability 401 and to collect
    statistics; the thread of the first request then loads the library. *)
Definition demo_process : process dj du := mk_process (reading two_profiles) new_dumper [].
Definition asked : process dj du :=
  (OnRemoteRequest (code_value FFRT_STAT_CMD_TRANSACTION) (request [PInt 0] 7) (empty_parcel 8)
    (OnRemoteRequest (code_value START_ABILITY_TRANSACTION) (request [PInt 401; PStr "{}"] 7) (empty_parcel 8)
       demo_process).2).2.
Definition served : process dj du := (on_abilities (run_thread 0) asked).2.

Lemma process_well_typed_witness :
  rtc (process_step (P := dp)) demo_process served ∧
  ∃ l s, localAbilityMap_ (abilities served) !! 401 = Some (Some l) ∧ heap (abilities served) !! l = Some s ∧
    saId_ s = 401 ∧ abilityState_ s = ACTIVE.
Proof.
  assert (rtc (process_step (P := dp)) demo_process served) as Hr.
  { eapply rtc_l; [apply step_request|]. eapply rtc_l; [apply step_request|]. apply rtc_once, step_thread. }
  split; [exact Hr|].
  destruct (process_well_typed (P := dp) demo_process served) as [H _];
    [by apply unpopulated_sound|reflexivity|exact Hr|].
  assert (localAbilityMap_ (abilities served) !! 401 = Some (Some 1%positive)) as Hm by (vm_compute; reflexivity).
  destruct (H 401 (Some 1%positive) Hm) as (l & s & [= <-] & Hl & Hs). exists 1%positive, s.
  split_and!; [exact Hm|exact Hl|exact Hs|].
  assert (abilityState_ <$> heap (abilities served) !! 1%positive = Some ACTIVE) as Ha by (vm_compute; reflexivity).
  rewrite Hl in Ha. by injection Ha.
Defined.
