(* ===== verification/TrustedBoot.v ===== *)
(** * TrustedBoot: only trusted abilities live in a process

    A process may have a trust configuration, which names the abilities that are
    allowed in it; [CheckTrustSa] drops the profiles of all others
    ([services/safwk/src/local_ability_manager.cpp]).  Here the consequences are
    followed through the whole process: the registration that needs a profile, the
    phases of the boot on their threads ([StartPhase.v]), and the requests, on-demand
    starts, notifications and timers that come at the same time ([Process.v]). *)

From S2P Require Import Prelude Interfaces Monad World SystemAbility Registry Listeners UnusedTimer.
From S2P Require Import Boot StartPhase Dumper Stub Manager Sound Process.

(** The parser finds a profile by its id in the list it gives out. *)
Class ProfileLookup (U : Type) `{ParseUtil U} : Prop := {
  GetProfile_listed id u pr : GetProfile id u = Some pr → pr ∈ GetAllSaProfiles u ∧ saId pr = id;
}.

Section trusted.
  Context {J P U : Type} `{!Json J} `{!MessageParcel P} `{!ParseUtil U} `{SU : !StringUtil} `{SD : !SamgrDefs}.
  Context `{EN : !Env J P U} `{DE : !DumperEnv} `{!KitEnv J P U} `{TP : !ThreadPool}.
  Variable fuel : nat.
  Variable said : Z.

  #[local] Abbreviation world := (world J U).
  #[local] Abbreviation boot_sys := (boot_sys (J := J) (U := U)).
  #[local] Abbreviation boot_step := (boot_step fuel said).

(** ** A process that boots and serves *)

(** The boot with its threads, the statistics, and the descriptors closed. *)
Abbreviation whole := (boot_sys * dumper * list Z)%type.

(** The boot thread or a task of its pool moves; an event arrives; or another thread
    does something. *)
Inductive whole_step : whole → whole → Prop :=
| whole_boot a s s' d c : boot_step a s = Some s' → whole_step (s, d, c) (s', d, c)
| whole_event s d c p :
    process_step (P := P) (mk_process (bworld s) d c) p →
    whole_step (s, d, c) (in_world (abilities p) s, statistics p, closed_fds p)
| whole_other s d c w : other_step (bworld s) w → whole_step (s, d, c) (in_world w s, d, c).

(** ** What the boot keeps *)

Section keeps.
  Context `{LC : !LibraryCalls}.
  Variable T : Z → Prop.

(** A profile queues what is registered under its id. *)
Lemma load_one_sound o pr : respects (sound_step T o) (InitializeSaProfilesInnerLocked pr : prog J U bool).
Proof.
  intros w Hs Ho. unfold InitializeSaProfilesInnerLocked. rewrite bind_run. cbn [gets fst snd].
  assert (same_ids w w) as Hi by reflexivity.
  destruct (localAbilityMap_ w !! saId pr) as [[l|]|] eqn:E; [|done..]. destruct (_ <? _); [done|].
  destruct (sound_registry _ w Hs _ _ E) as (l0 & s & [= <-] & Hl & Hid & Ht).
  split; [|done]. destruct Hs as [S1 S2 S3 S4 S5 S6]. split; cbn; try done.
  intros ph q l'. rewrite lookup_insert_Some. intros [[<- <-]|[_ Hq]]; [|by apply (S5 ph q)].
  rewrite elem_of_app, list_elem_of_singleton. intros [Hin|[= ->]]; [|by exists s; rewrite Hid].
  destruct (abilityPhaseMap_ w !! bootPhase pr) as [q|] eqn:Eq; [by apply (S5 _ q l' Eq)|by apply elem_of_nil in Hin].
Qed.
#[local] Hint Resolve load_one_sound : sound.

Lemma load_phase_sound o p : respects (sound_step T o) (InitializeRunOnCreateSaProfiles p).
Proof. unfold InitializeRunOnCreateSaProfiles, load_profile. sound. Qed.
Lemma load_on_demand_sound o id : respects (sound_step T o) (InitializeOnDemandSaProfile id).
Proof. unfold InitializeOnDemandSaProfile, if_qos, SetThreadPrio. sound. Qed.
#[local] Hint Resolve load_phase_sound load_on_demand_sound : sound.
Lemma load_sound o id : respects (sound_step T o) (InitializeSaProfiles id).
Proof. unfold InitializeSaProfiles. sound. Qed.

Lemma check_sound o deps : respects (sound_step T o) (CheckDependencyStatus deps).
Proof.
  unfold CheckDependencyStatus. sound. induction deps as [|d deps IH]; cbn [check_dependencies]; sound.
Qed.
#[local] Hint Resolve check_sound : sound.
Lemma depend_sound o n l start timeout size : respects (sound_step T o) (depend_loop n l start timeout size).
Proof. revert size. induction n as [|n IH]; intros size; cbn [depend_loop]; unfold usleep; sound. Qed.
#[local] Hint Resolve depend_sound : sound.
Lemma task_body_sound l : respects (sound_step T (Some l)) (start_task_body fuel (Some l)).
Proof. unfold start_task_body, StartDependSaTask. sound. Qed.

Lemma queue_task_sound l : respects (sound_step T (Some l)) (queue_task l : prog J U unit).
Proof.
  intros w [S1 S2 S3 S4 S5 S6] Ho. split; [|by intros l' s Hl; exists s]. split; cbn; try done.
  intros l' [Hl|Hl]%elem_of_app; [by apply S6|]. apply list_elem_of_singleton in Hl as ->. by apply Ho.
Qed.

(** ** The threads of the boot *)

(** The abilities the threads have in hand or have queued. *)
Definition pc_locs (pc : boot_pc) : list loc :=
  match pc with BAdd _ l => omap id l | BPush _ x l => x :: omap id l | _ => [] end.
Definition boot_locs (s : boot_sys) : list loc := pc_locs (main_pc s) ++ (task_loc <$> running s) ++ added s.
Definition boot_sound (s : boot_sys) : Prop := sound T (bworld s) ∧ Forall (good T (bworld s)) (boot_locs s).
Definition boot_kept (s s' : boot_sys) : Prop := boot_sound s' ∧ same_ids (bworld s) (bworld s').

Lemma Forall_good (w w' : world) ls : same_ids w w' → Forall (good T w) ls → Forall (good T w') ls.
Proof. intros Hi Hl. apply (Forall_impl _ _ _ Hl). intros l. by apply good_same. Qed.

(** A section of a thread: a program about an ability it has in hand, if any. *)
Lemma section_sound o {A} (m : prog J U A) (s s' : boot_sys) :
  respects (sound_step T o) m → boot_sound s → bworld s' = (m (bworld s)).2 →
  (∀ l, o = Some l → l ∈ boot_locs s) → (∀ l, l ∈ boot_locs s' → l ∈ boot_locs s) → boot_kept s s'.
Proof.
  intros Hm [Hs Hl] Hw Ho Hsub. rewrite Forall_forall in Hl. destruct (Hm (bworld s) Hs) as [Hs' Hi].
  { intros l E. by apply Hl, Ho. }
  rewrite <- Hw in Hs', Hi. split; [|done]. split; [done|]. apply (Forall_good (bworld s)); [done|]. apply Forall_forall. auto.
Qed.
Lemma no_section (s s' : boot_sys) :
  boot_sound s → bworld s' = bworld s → (∀ l, l ∈ boot_locs s' → l ∈ boot_locs s) → boot_kept s s'.
Proof.
  intros Hs Hw. apply (section_sound None (ret tt) s); [exact (respects_ret _ tt)|done|done|done].
Qed.

(** What is in a list of the phases, or in the pool, a thread may take in hand. *)
Lemma take_phase p l s :
  boot_sound s → abilityPhaseMap_ (bworld s) !! p = Some l → boot_kept s (at_pc (BAdd p l) s).
Proof.
  intros [Hs Hl] Hp. split; [|by cbn]. split; [done|]. unfold boot_locs in *. cbn [at_pc main_pc running bworld added pc_locs].
  apply Forall_app in Hl as [_ Hl]. apply Forall_app. split; [|exact Hl]. apply Forall_forall.
  intros x (y & Hy & E)%list_elem_of_omap. apply (sound_phases T _ Hs p l x Hp). simpl in E. by subst y.
Qed.
Lemma take_pool i s s' : boot_sound s → take_step i s = Some s' → boot_kept s s'.
Proof.
  intros [Hs Hl] Ht. unfold take_step in Ht. destruct (initPool_ (bworld s) !! i) as [x|] eqn:Ex; [|done].
  destruct (pool_takes _); [|done]. injection Ht as <-.
  pose proof (sound_pool T _ Hs x ltac:(by eapply list_elem_of_lookup_2)) as Hx.
  split; [|by intros y Hy; exists Hy]. split.
  - cbn [bworld]. destruct Hs as [S1 S2 S3 S4 S5 S6]. split; cbn; try done.
    intros l Hin. apply S6. apply delete_Permutation in Ex. rewrite Ex. by right.
  - unfold boot_locs in *. cbn [main_pc running bworld added].
    rewrite fmap_app, !Forall_app in *. destruct Hl as (? & ? & ?). split_and!; try done. by constructor.
Qed.

Lemma main_step_sound s s' : boot_sound s → main_step said s = Some s' → boot_kept s s'.
Proof.
  intros Hs Hm. unfold main_step in Hm.
  assert (∀ pc, (∀ l, l ∈ pc_locs pc → l ∈ pc_locs (main_pc s)) → boot_kept s (at_pc pc s)) as Hpc.
  { intros pc Hsub. apply (no_section s); [done|done|]. unfold boot_locs. cbn [at_pc main_pc running added]. set_solver. }
  assert (∀ p ok, boot_kept s (leave_wait p ok s)) as Hleave.
  { intros p ok. apply (section_sound None (modify (set_startTaskNum_ 0)) s); [by apply private_sound|done..|].
    unfold boot_locs. cbn [leave_wait main_pc running added pc_locs]. set_solver. }
  destruct (main_pc s) as [p|p [|[x|] l]|p x l|p wait|p|p [|]|] eqn:Epc; try done.
  - destruct (OTHER_START <? p); [injection Hm as <-; apply Hpc; set_solver|].
    destruct (abilityPhaseMap_ (bworld s) !! p) as [l|] eqn:Ep; injection Hm as <-; [by apply take_phase|].
    apply Hpc. destruct (said =? DEFAULT_SAID); set_solver.
  - injection Hm as <-. apply Hpc. destruct (said =? DEFAULT_SAID); set_solver.
  - injection Hm as <-. apply (section_sound None count_task s); [by apply private_sound|done..|].
    unfold boot_locs. rewrite Epc. cbn [main_pc running added pc_locs]. set_solver.
  - injection Hm as <-. apply Hpc. set_solver.
  - destruct (pool_accepts _); [|done]. injection Hm as <-.
    apply (section_sound (Some x) (queue_task x) s); [apply queue_task_sound|done|done| |];
      unfold boot_locs; rewrite Epc; cbn [at_pc in_world main_pc running added pc_locs]; set_solver.
  - injection Hm as <-. apply (section_sound None (InitializeRunOnCreateSaProfiles (p + 1)) s);
      [apply load_phase_sound|done|done|done|].
    unfold boot_locs. cbn [at_pc in_world main_pc running added]. destruct wait; set_solver.
  - injection Hm as <-. destruct (no_tasks s); [apply Hleave|]. apply Hpc. set_solver.
  - injection Hm as <-. destruct (no_tasks s); [apply Hleave|]. apply Hpc. set_solver.
Qed.

Lemma task_step_sound i s s' : boot_sound s → task_step fuel i s = Some s' → boot_kept s s'.
Proof.
  intros Hs Ht. unfold task_step in Ht. destruct (running s !! i) as [t|] eqn:Er; [|done].
  assert (task_loc t ∈ task_loc <$> running s) as Hin.
  { apply list_elem_of_fmap. exists t. split; [done|by eapply list_elem_of_lookup_2]. }
  destruct t as [l|l]; [|destruct (holds_lock (main_pc s)); [done|]]; injection Ht as <-.
  - apply (section_sound (Some l) (start_task_body fuel (Some l)) s); [apply task_body_sound|done|done| |].
    + intros l' [= <-]. unfold boot_locs. set_solver.
    + unfold boot_locs. cbn [main_pc running added]. rewrite list_fmap_insert, list_insert_id; [done|].
      by rewrite list_lookup_fmap, Er.
  - apply (section_sound None start_task_done s); [|done|done|done|].
    + apply private_sound; intros w; unfold start_task_done, modify; simpl; by case_match.
    + unfold boot_locs. cbn [main_pc running added]. apply delete_Permutation in Er.
      intros l'. rewrite Er at 2. destruct (main_pc s); cbn [notify pc_locs]; set_solver.
Qed.

Lemma boot_step_kept a s s' : boot_step a s = Some s' → boot_sound s → boot_kept s s'.
Proof.
  intros Ha Hs. destruct a as [| | |i|i]; cbn [StartPhase.boot_step] in Ha.
  - by apply (main_step_sound s).
  - destruct (main_pc s); try done. injection Ha as <-.
    apply (section_sound None (modify (set_startTaskNum_ 0)) s); [by apply private_sound|done..|].
    unfold boot_locs. cbn [leave_wait main_pc running added pc_locs]. set_solver.
  - destruct (main_pc s) as [| | | | |p []|] eqn:Epc; try done. injection Ha as <-.
    apply (no_section s); [done|done|]. unfold boot_locs. cbn [at_pc main_pc running added pc_locs]. set_solver.
  - by apply (take_pool i s).
  - by apply (task_step_sound i s).
Qed.
Lemma boot_step_sound a s s' : boot_step a s = Some s' → boot_sound s → boot_sound s'.
Proof. intros Ha Hs. by apply (boot_step_kept a s). Qed.

(** ** The whole process *)

Context `{BC : !BaseClassLaws J P U}.

Definition whole_sound (x : whole) : Prop := boot_sound x.1.1 ∧ dumper_wf x.1.2.

(** A change of the world by somebody else. *)
Lemma others_sound (s : boot_sys) w : sound_step T None (bworld s) w → boot_sound s → boot_sound (in_world w s).
Proof.
  intros Hw [Hs Hl]. destruct (Hw Hs) as [Hs' Hi]; [done|]. split; [done|]. by apply (Forall_good (bworld s)).
Qed.

Lemma whole_step_sound x y : whole_step x y → whole_sound x → whole_sound y.
Proof.
  intros [a s s' d c Ha|s d c p Hp|s d c w Hw] [Hb Hd].
  - split; [by apply (boot_step_sound a s)|exact Hd].
  - destruct (process_step_typed T _ _ Hp) as [[_ Hd'] _]; [split; [apply Hb|exact Hd]|].
    split; [|exact Hd']. apply others_sound; [|exact Hb]. intros Hs _.
    destruct (process_step_typed T _ _ Hp) as [[Hs' _] Hi]; [by split|]. by split.
  - split; [|exact Hd]. apply others_sound; [|exact Hb]. by apply other_step_sound.
Qed.
Lemma whole_event_at s p q :
  bworld s = abilities p → process_step (P := P) p q →
  whole_step (s, statistics p, closed_fds p) (in_world (abilities q) s, statistics q, closed_fds q).
Proof. destruct p as [w d c]. cbn. intros <-. apply whole_event. Qed.
Lemma whole_boots acts s s' d c : boot_run fuel said acts s = Some s' → rtc whole_step (s, d, c) (s', d, c).
Proof.
  revert s. induction acts as [|a acts IH]; intros s; cbn [boot_run]; [by intros [= ->]|].
  destruct (StartPhase.boot_step fuel said a s) as [s1|] eqn:E; [|done]. intros Hr%IH.
  eapply rtc_l; [by eapply whole_boot|exact Hr].
Qed.
Lemma whole_steps_sound x y : rtc whole_step x y → whole_sound x → whole_sound y.
Proof. induction 1; eauto using whole_step_sound. Qed.
End keeps.

(** Dropping profiles changes nothing else. *)
Lemma CheckTrustSa_keeps path process saInfos :
  keeps (λ w : world, (heap w, localAbilityMap_ w, abilityPhaseMap_ w, initPool_ w)) (CheckTrustSa path process saInfos).
Proof.
  apply keeps_bind; [by apply keeps_gets|]. intros u. destruct (ParseTrustConfig path u) as [m|]; [|by apply keeps_ret].
  destruct (decide (m = ∅)); [by apply keeps_ret|]. apply keeps_for_each. intros pr.
  destruct (decide _); [by apply keeps_ret|by apply keeps_modify].
Qed.

(** ** Properties *)

(** C7: Only trusted abilities live in a process: when the profiles of a process that
    is empty so far have been read and its trust configuration exists, parses and is
    not empty, then at every moment after that - while the boot thread and the tasks
    of its pool work through the phases, requests, detached threads, notifications and
    timers are served, and libraries create and register whatever abilities they like
    - every registered ability and every ability the boot has queued is trusted in this
    process, and an ability that is not trusted is never loaded and never runs. *)
Theorem untrusted_never_loaded `{LC : !LibraryCalls, BC : !BaseClassLaws J P U, !ParseUtilLaws U, !ProfileLookup U} profilePath w m s d c :
  let u := (ParseSaProfiles profilePath (profileParser_ w)).2 in
  let process := Str16ToStr8 (GetProcessName u) in
  let path := (PREFIX +:+ process +:+ SUFFIX)%string in
  unpopulated w → (ParseSaProfiles profilePath (profileParser_ w)).1 = true →
  CheckPathExist path u = true → ParseTrustConfig path u = Some m → m ≠ ∅ →
  rtc whole_step (boot_initial (InitSystemAbilityProfiles profilePath said w).2, new_dumper, []) (s, d, c) →
  let trusted id := id ∈ default ∅ (m !! Str8ToStr16 process) in
  (∀ id p, localAbilityMap_ (bworld s) !! id = Some p → trusted id) ∧
  (∀ l, l ∈ added s → ∃ x, heap (bworld s) !! l = Some x ∧ trusted (saId_ x)) ∧
  (∀ l x, heap (bworld s) !! l = Some x → ¬ trusted (saId_ x) → abilityState_ x = NOT_LOADED ∧ isRunning_ x = false).
Proof.
  intros u process path Hw Hok Hpath Hm Hne Hr trusted.
  assert (ParseSaProfiles profilePath (profileParser_ w) = (true, u)) as Eu
    by (rewrite <- Hok; apply surjective_pairing).
  clearbody u.
  set (w1 := set_procName_ (GetProcessName u) (set_profileParser_ u w)).
  assert (∃ w2, unpopulated w2 ∧ (∀ id pr, GetProfile id (profileParser_ w2) = Some pr → trusted id) ∧
    (InitSystemAbilityProfiles profilePath said w).2 = (InitializeSaProfiles said w2).2) as (w2 & Hw2 & Ht & E).
  { exists (CheckTrustSa path process (GetAllSaProfiles (profileParser_ w1)) w1).2. split_and!.
    - pose proof (CheckTrustSa_keeps path process (GetAllSaProfiles (profileParser_ w1)) w1) as Hk.
      revert Hk. generalize (CheckTrustSa path process (GetAllSaProfiles (profileParser_ w1)) w1).2.
      unfold unpopulated in *. intros w2 [= -> -> -> ->]. exact Hw.
    - intros id pr [Hin <-]%GetProfile_listed. pose proof (trust_filter path process w1) as Hf. cbv zeta in Hf.
      rewrite Hf in Hin. cbn [w1 profileParser_ set_procName_ set_profileParser_] in Hin. rewrite Hm in Hin.
      rewrite decide_False in Hin by done. by apply list_elem_of_filter in Hin as [? _].
    - unfold InitSystemAbilityProfiles. rewrite bind_run, Eu. cbn [fst snd negb]. rewrite !bind_run.
      cbn [gets modify fst snd]. fold w1. unfold w1 at 1. cbn. fold process path. by rewrite Hpath. }
  destruct (whole_steps_sound trusted _ _ Hr) as [[Hs Hl] _].
  { split; [|by apply dumper_reachable_wf]. split; [|by constructor]. cbn. rewrite E.
    by apply (load_sound trusted None said w2); [apply unpopulated_sound|]. }
  split_and!.
  - intros id p Hid. by destruct (sound_registry _ _ Hs id p Hid) as (? & ? & _ & _ & _ & ?).
  - intros l Hin. rewrite Forall_forall in Hl. apply (Hl l). unfold boot_locs. set_solver.
  - apply (sound_unloaded _ _ Hs).
Qed.
End trusted.

(** ** Witness *)

Import DemoDefs DemoJson DemoParcel DemoProfiles DemoDumper DemoStub DemoManager DemoPool DemoLibrary.
#[local] Instance libraries : Env dj dp du := library_env [402].

#[export] Instance demo_lookup : ProfileLookup du.
Proof.
  split. intros id u pr. unfold GetProfile. simpl. destruct (list_find _ _) as [[i pr']|] eqn:E; [|done].
  intros [= ->]. apply list_find_Some in E as (Hi & Hid & _). split; [by eapply list_elem_of_lookup_2|done].
Qed.

(** Ability 401 is trusted and 402 is not.  While the task of 401 is in the pool, a
    request to start 402 arrives, and its thread loads the library. *)
Definition read : DemoEnv.dworld := (InitSystemAbilityProfiles "cfg" DEFAULT_SAID (reading two_profiles)).2.
Definition queued : boot_sys (J := dj) (U := du) := default (boot_initial read) (boot_run 10 DEFAULT_SAID (replicate 5 AMain) (boot_initial read)).
Definition asking : process dj du := mk_process (bworld queued) new_dumper [].
Definition intruder : process dj du :=
  (OnRemoteRequest (code_value START_ABILITY_TRANSACTION) (request [PInt 402; PStr "{}"] 7) (empty_parcel 8) asking).2.
Definition refused : process dj du := (on_abilities (run_thread 0) intruder).2.
Definition waiting : boot_sys (J := dj) (U := du) := in_world (abilities refused) (in_world (abilities intruder) queued).
Definition settled : boot_sys (J := dj) (U := du) :=
  default queued (boot_run 10 DEFAULT_SAID [ATake 0; ATask 0; ATask 0]%nat waiting).

Lemma untrusted_never_loaded_witness :
  localAbilityMap_ (bworld settled) !! 402 = None ∧
  (∀ l x, heap (bworld settled) !! l = Some x → saId_ x = 402 → isRunning_ x = false) ∧
  (∃ l x, heap (bworld settled) !! l = Some x ∧ saId_ x = 402) ∧
  isRunning_ <$> heap (bworld settled) !! 1%positive = Some true.
Proof.
  assert (rtc (whole_step (P := dp) 10 DEFAULT_SAID) (boot_initial read, new_dumper, [])
    (settled, statistics refused, closed_fds refused)) as Hr.
  { transitivity (queued, new_dumper, @nil Z);
      [apply (whole_boots 10 DEFAULT_SAID (replicate 5 AMain)); vm_compute; reflexivity|].
    transitivity (waiting, statistics refused, closed_fds refused);
      [|apply (whole_boots 10 DEFAULT_SAID [ATake 0; ATask 0; ATask 0]%nat); vm_compute; reflexivity].
    eapply rtc_l; [exact (whole_event_at 10 DEFAULT_SAID queued asking intruder eq_refl (step_request _ _ _ _))|].
    apply rtc_once. exact (whole_event_at 10 DEFAULT_SAID (in_world (abilities intruder) queued) intruder refused
      eq_refl (step_thread intruder 0)). }
  assert ((ParseSaProfiles "cfg" (profileParser_ (reading two_profiles))).1 = true) as Hok by (vm_compute; reflexivity).
  assert (∀ path, CheckPathExist path (ParseSaProfiles "cfg" (profileParser_ (reading two_profiles))).2 = true)
    as Hpath by (intros path; vm_compute; reflexivity).
  pose proof (untrusted_never_loaded (P := dp) 10 DEFAULT_SAID "cfg" (reading two_profiles) {[[100] := {[401]}]}
    settled (statistics refused) (closed_fds refused) (reading_unpopulated _) Hok (Hpath _) eq_refl ltac:(done) Hr) as H.
  cbv zeta in H. destruct H as (Hm & _ & Hl).
  assert (402 ∉ default ∅ (({[[100] := {[401]}]} : gmap u16string (gset Z)) !! [100])) as Hn
    by (apply (bool_decide_unpack _); vm_compute; exact I).
  split_and!.
  - destruct (localAbilityMap_ (bworld settled) !! 402) as [p|] eqn:E; [|done]. by destruct Hn; apply (Hm 402 p).
  - intros l x Hx Hid. apply (Hl l x Hx). by rewrite Hid.
  - exists 2%positive. eexists. split; vm_compute; reflexivity.
  - vm_compute. reflexivity.
Defined.
