(* ===== verification/BootProfiles.v ===== *)
(** * BootProfiles: from profiles to running abilities

    The boot as a whole, under every interleaving: the profiles, the libraries that
    register abilities while they are opened, the lists of the phases, the tasks of the
    pool and the calls of [OnStart].  The parts are those of [Boot.v] (loading),
    [StartPhase.v] (threads), [BootStarts.v] (effects of the tasks) and [Sound.v] (what
    libraries can do, and the objects behind the registry). *)

From S2P Require Import Prelude Interfaces Sound TrustedBoot.
From S2P Require Export BootStarts.

Section profiles.
  Context {J P U : Type} `{!Json J} `{!MessageParcel P} `{PU : !ParseUtil U} `{SU : !StringUtil}
    `{SD : !SamgrDefs} `{EN : !Env J P U} `{TP : !ThreadPool}.
  Variable fuel : nat.

  #[local] Abbreviation M := (prog J U).
  #[local] Abbreviation world := (world J U).
  #[local] Abbreviation boot_sys := (boot_sys (J := J) (U := U)).
  #[local] Abbreviation boot_reachable := (boot_reachable fuel DEFAULT_SAID).
  #[local] Abbreviation boot_next := (boot_next fuel DEFAULT_SAID).
  #[local] Abbreviation boot_step := (boot_step fuel DEFAULT_SAID).

Definition profiles_of (w : world) : list SaProfile := GetAllSaProfiles (profileParser_ w).

(** ** The profiles stay *)

Ltac keep_profiles :=
  repeat match goal with
  | |- keeps _ (bind _ _) => apply keeps_bind; [|intros ?]
  | |- keeps _ (match ?b with _ => _ end) => destruct b
  | |- keeps _ (ret _) => apply keeps_ret
  | |- keeps _ _ => first [assumption | solve [auto] | by intros ?]
  end.

Section task.
  Context `{LC : !LibraryCalls}.

Lemma Publish_profiles l obj : keeps profiles_of (Publish l obj).
Proof. unfold Publish, GetSystemAbilityManager. keep_profiles. Qed.
Lemma lib_step_profiles o w w' : lib_step o w w' → profiles_of w' = profiles_of w.
Proof.
  intros [l id roc Hl|[l|]|id|l obj _|w'' _ Hm]; [done| |done| | |].
  - unfold MakeAndRegisterAbility. rewrite AddAbility_run. by repeat case_match.
  - unfold RemoveAbility. by destruct (_ <=? _).
  - apply Publish_profiles.
  - injection Hm as _ Hp _ _. unfold profiles_of. by rewrite Hp.
Qed.
Lemma libs_profiles o {A} (m : M A) : respects (rtc (lib_step o)) m → keeps profiles_of m.
Proof. intros Hm w. specialize (Hm w). induction Hm as [|w1 w2 w3 H _ IH]; [done|]. rewrite IH. by eapply lib_step_profiles. Qed.

Lemma GetExtra_profiles r : keeps profiles_of (GetOnDemandReasonExtraData r).
Proof. unfold GetOnDemandReasonExtraData, GetSystemAbilityManager. keep_profiles. Qed.
#[local] Hint Resolve GetExtra_profiles : core.
Lemma Start_profiles l : keeps profiles_of (Start l).
Proof.
  pose proof (λ r, libs_profiles _ _ (OnStart_calls l r)).
  unfold Start, Start_check, Start_body, Start_reason, Start_finish, enter, json_reason. keep_profiles.
  intros w. unfold GetStartReason. by case_match.
Qed.
Lemma Stop_profiles l : keeps profiles_of (Stop l).
Proof.
  pose proof (λ r, libs_profiles _ _ (OnStop_calls l r)).
  unfold Stop, Stop_check, Stop_body, Stop_reason, Stop_finish, enter, json_reason, GetSystemAbilityManager. keep_profiles.
  intros w. unfold GetStopReason. by case_match.
Qed.
Lemma Idle_profiles l r : keeps profiles_of (Idle l r).
Proof.
  pose proof (λ r, libs_profiles _ _ (OnIdle_calls l r)).
  unfold Idle, Idle_check, Idle_body, Idle_finish, enter. keep_profiles.
Qed.
Lemma Active_profiles l r : keeps profiles_of (Active l r).
Proof.
  pose proof (λ r, libs_profiles _ _ (OnActive_calls l r)).
  unfold Active, Active_check, Active_body, Active_finish, enter. keep_profiles.
Qed.
#[local] Hint Resolve Start_profiles Stop_profiles Idle_profiles Active_profiles : core.

Lemma other_step_profiles w w' : other_step w w' → profiles_of w' = profiles_of w.
Proof.
  intros [w2 Hw|id|id|id r|id r d]; [by eapply lib_step_profiles|..]; revert w;
    [change (keeps profiles_of (OnStartAbility id))|change (keeps profiles_of (OnStopAbility id))
    |change (keeps profiles_of (ActiveAbility id r))|change (keeps profiles_of (IdleAbility id r d))];
    unfold OnStartAbility, OnStopAbility, ActiveAbility, IdleAbility, GetAbility, json_reason; keep_profiles.
Qed.
Lemma elapse_profiles us : keeps profiles_of (elapse us).
Proof.
  intros w. pose proof (elapse_calls us w) as H. induction H as [|w1 w2 w3 H _ IH]; [done|]. rewrite IH.
  by apply other_step_profiles.
Qed.

Lemma check_profiles deps : keeps profiles_of (CheckDependencyStatus deps).
Proof.
  unfold CheckDependencyStatus, GetSystemAbilityManager. keep_profiles.
  induction deps as [|d deps IH]; cbn [check_dependencies]; keep_profiles.
Qed.
#[local] Hint Resolve elapse_profiles check_profiles : core.
Lemma depend_profiles n l start timeout size : keeps profiles_of (depend_loop n l start timeout size).
Proof. revert size. induction n as [|n IH]; intros size; cbn [depend_loop]; unfold usleep, enter; keep_profiles. Qed.
#[local] Hint Resolve depend_profiles : core.

End task.

(** ** What the boot has loaded *)

Section loading.
  Context `{BF : !BootFrame, LC : !LibraryCalls}.
  Variable prs : list SaProfile.

(** The world in which the libraries of each phase had just been opened. *)
  #[local] Abbreviation history := (Z → world).






(** ** The boot thread *)














(** ** The abilities that are queued *)



Hypothesis distinct : NoDup (saId <$> prs).






End loading.

(** ** Properties *)

End profiles.

(** ** Witness *)

Import DemoDefs DemoJson DemoParcel DemoProfiles DemoPool DemoLibrary.
#[local] Instance libraries : Env dj dp du := library_env [402].
#[local] Abbreviation dworld := DemoEnv.dworld.

(** What one library does. *)
Lemma bring_run id (w : dworld) :
  ∃ l s, heap w !! l = None ∧
    (bring id w).2 = match GetProfile id (profileParser_ w), localAbilityMap_ w !! id with
      | Some pr, None =>
          set_localAbilityMap_ (<[id := Some l]> (localAbilityMap_ w)) (set_heap (<[l := s]> (<[l := new_SystemAbility id true]> (heap w))) w)
      | _, _ => set_heap (<[l := new_SystemAbility id true]> (heap w)) w
      end ∧ abilityState_ s = NOT_LOADED ∧ isRunning_ s = false.
Proof.
  unfold bring. set (l := fresh (dom (heap w))). set (w1 := set_heap _ w).
  assert (sa_at w1 l = new_SystemAbility id true) as Hl by (unfold sa_at, w1; cbn; by rewrite lookup_insert_eq).
  assert (heap w !! l = None) as Hf by (apply not_elem_of_dom, is_fresh).
  unfold MakeAndRegisterAbility. rewrite AddAbility_run, Hl. cbn [saId_ new_SystemAbility snd].
  change (profileParser_ w1) with (profileParser_ w). change (localAbilityMap_ w1) with (localAbilityMap_ w).
  destruct (GetProfile id (profileParser_ w)) as [pr|].
  - exists l, (set_profile_attrs pr (new_SystemAbility id true)). split; [done|].
    split; [by destruct (localAbilityMap_ w !! id)|]. apply set_profile_attrs_core.
  - by exists l, (new_SystemAbility id true).
Qed.

Lemma bring_keeps id : keeps boot_view (bring id) ∧ keeps profiles_of (bring id) ∧ ∀ l, keeps (start_view l) (bring id).
Proof.
  split_and!; [intros w..|intros l' w]; destruct (bring_run id w) as (l & s & Hl & -> & Hs & Hr);
    [by repeat case_match..|]. unfold start_view, onstarts, lc_of, sa_at.
  assert (∀ x, abilityState_ x = NOT_LOADED → isRunning_ x = false →
    (abilityState_ (default (new_SystemAbility 0 false) (<[l := x]> (heap w) !! l')), isRunning_ (default (new_SystemAbility 0 false) (<[l := x]> (heap w) !! l'))) =
    (abilityState_ (default (new_SystemAbility 0 false) (heap w !! l')), isRunning_ (default (new_SystemAbility 0 false) (heap w !! l')))) as H.
  { intros x Hx Hxr. destruct (decide (l = l')) as [<-|]; [|by rewrite lookup_insert_ne].
    rewrite lookup_insert_eq, Hl. cbn. by rewrite Hx, Hxr. }
  repeat case_match; cbn [heap set_heap set_localAbilityMap_ trace]; rewrite ?insert_insert_eq; f_equal; by apply H.
Qed.

Lemma load_phase_keeps {X} (f : dworld → X) p : (∀ id, keeps f (bring id)) → keeps f (load_phase [402] p).
Proof.
  intros Hb. apply keeps_bind; [by apply keeps_gets|]. intros l. apply keeps_for_each. intros pr.
  apply keeps_bind; [|by intros; apply keeps_ret]. apply keeps_bind; [apply Hb|]. intros ?.
  apply keeps_bind; [|by intros; apply keeps_ret]. apply keeps_for_each, Hb.
Qed.

Lemma publish_run l (w : dworld) :
  ∃ e m, (publish l w).2 = set_heap m (set_trace (trace w ++ [EvGetSystemAbilityManager; e]) w) ∧
    (∀ l', l ≠ l' → m !! l' = heap w !! l') ∧ match e with EvAddSystemAbility _ _ _ _ _ _ => True | _ => False end.
Proof.
  unfold publish. rewrite bind_run. cbn [ret snd].
  assert (∀ x, (Publish (Env0 := DemoEnv.base_env) l 5 w).2 = x → ∃ e m,
    x = set_heap m (set_trace (trace w ++ [EvGetSystemAbilityManager; e]) w) ∧
    (∀ l', l ≠ l' → m !! l' = heap w !! l') ∧ match e with EvAddSystemAbility _ _ _ _ _ _ => True | _ => False end) as H;
    [|by apply H].
  intros x <-. unfold Publish. cbn. eexists (EvAddSystemAbility _ _ _ _ _ _), _. split_and!; [by rewrite <- (assoc_L (++))| |done].
  intros l' Hne. by rewrite !lookup_insert_ne.
Qed.

#[export] Instance libraries_frame : BootFrame (Env0 := library_env [402]).
Proof.
  split; [intros l r w|intros p|by intros us w].
  - destruct (publish_run l w) as (e & m & E & _ & He). change (OnStart l r w) with (publish l w). rewrite E.
    unfold boot_view. cbn. rewrite runs_app. destruct e; try done. by rewrite app_nil_r.
  - apply load_phase_keeps. intros id. apply bring_keeps.
Qed.
#[export] Instance libraries_starts : StartFrame (EN := library_env [402]).
Proof.
  split; [intros l l' r Hne w|intros l r w|intros p l].
  - destruct (publish_run l w) as (e & m & E & Hm & He). change (OnStart l r w) with (publish l w). rewrite E.
    unfold start_view, onstarts, lc_of, sa_at. cbn. rewrite filter_app, Hm by done. destruct e; try done. by rewrite app_nil_r.
  - destruct (publish_run l w) as (e & m & E & Hm & He). change (OnStart l r w) with (publish l w). rewrite E.
    unfold onstarts. cbn. rewrite filter_app. destruct e; try done. by rewrite app_nil_r.
  - apply load_phase_keeps. intros id. apply bring_keeps.
Qed.
#[export] Instance libraries_dependencies : DependenciesUp (EN := library_env [402]).
Proof. by split. Qed.


